(* ===== verification/_CoqProject ===== *)
-Q . S2P
Prelude.v
Rv64Pkg.v
Alu.v
Decoder.v
RegFile.v
HazardUnit.v
PipeRegs.v
MemStage.v
WbStage.v
TrapCtrl.v
CsrUnit.v
Core.v
Bus.v
SeqMachine.v
Pipeline.v
Encode.v
ByteBus.v
Memory.v
Isa.v
IsaDecode.v
IsaCorrect.v
CoreIsa.v
Tlb.v
CoreSim.v
CoreTests.v
TlbBench.v
UnitBench.v
DatapathBench.v
ControlBench.v
CsrBench.v
CoreInv.v
CoreTraps.v
TrapPrecision.v
Elf.v
Compliance.v
