(* ===== verification/Prelude.v ===== *)
(** * Richard CPU: a verified model of the core, its TLB and its test harnesses

    Richard CPU is an RV64 core in SystemVerilog ([src/rtl/core/]), a five-stage pipeline with
    machine and supervisor mode and a TLB, together with the C++ programs that simulate it through
    Verilator ([src/tb/]): the integration bench [tb/core/tb_core.cc], the compliance runner
    [tb/compliance/compliance_runner.cc] that loads ELF files, and the unit benches [tb/unit/].
    This development models all of them as functions that evaluate, and proves what makes them
    correct.  The root file holds this text and what every file shares: bit vectors, record update,
    the tactics and hint databases.

    ** Conventions

    A [w]-bit vector or unsigned integer is a [Z] in [[0, 2^w)] ([is_bv]); assignments that
    truncate write [wrap w]; slices, concatenations and replications are [x@[hi:lo]], [cat] and
    [repb].  One-bit signals are [bool].  Values are two-state, as in the Verilated model.  A module
    is a function from its inputs to its outputs; a clocked module has a [*_next] function from its
    inputs and registers before the edge to its registers after it, reset included.  C++ code with
    undefined behaviour is [None].  A state the hardware or Verilator chooses at power-on is a
    variable of the theorem.

    ** Files

    - The RTL.  [Rv64Pkg] (enumerations, CSR addresses, causes: [include/*.sv]); [Alu] ([alu.sv],
      [branch_unit.sv], [ex_stage.sv]); [Decoder] ([decoder.sv]); [RegFile] ([regfile.sv]);
      [HazardUnit] ([hazard_unit.sv]); [PipeRegs] ([if_stage.sv] and the four pipeline registers);
      [MemStage] ([mem_stage.sv]); [WbStage] ([wb_stage.sv]); [TrapCtrl] ([trap_ctrl.sv]);
      [CsrUnit] ([csr_unit.sv]); [Core] ([id_stage.sv], [richard_core.sv]); [Tlb] ([mmu/tlb.sv]).
      [Core.core] is the record of all registers of the core, [core_outputs] its pins and
      [core_next] one clock edge; the TLB is not instantiated by the core, in the source as here.
    - The memories.  [Bus]: what the core asks of a memory (class [Bus]), and a system cycle
      [sys_tick]; [ByteBus]: the laws of a byte-addressed memory behind the 64-bit port (class
      [ByteBus]); [Memory]: [MemoryModel] of the integration bench, and [ByteMemory] of the
      compliance runner, which satisfies those laws.
    - The specification.  [Isa]: the RV64I instruction set, independent of the hardware, on bytes
      and registers; [SeqMachine]: the core without its pipeline, one instruction per step.
    - The refinement.  [Pipeline]: the pipelined core refines [SeqMachine]; [Encode] and
      [IsaDecode]: the instruction formats of [tb_core.cc] and the decoder's control word for each;
      [IsaCorrect]: [SeqMachine] executes [Isa]; [CoreIsa]: the two composed.
    - Traps and types.  [CoreInv]: the type invariant of the core; [CoreTraps]: exceptions,
      interrupts, trap returns, privilege; [TrapPrecision]: programs whose traps are imprecise.
    - The programs under [tb/].  [CoreSim] and [CoreTests] ([tb_core.cc]); [Elf] and [Compliance]
      ([compliance_runner.cc]); [TlbBench] ([tb_tlb.cc]); [UnitBench], [DatapathBench],
      [ControlBench] and [CsrBench] (the other unit benches).

    ** What the theorems show

    - Execution.  [CoreIsa.core_executes_rv64i]: at every clock cycle, on any memory that satisfies
      [ByteBus], the core's registers are those of a run of the instruction set and its memory that
      of the same run at most two instructions further on, at a rate of at least one instruction in
      three cycles; [core_finishes_rv64i]: a program that reaches a self-loop leaves its results in
      the core.  The hypotheses are that the program does not trap, uses no CSR and does not
      overwrite the code it runs.  [Pipeline.core_refines_seq] (by a simulation: the relation
      [pipe_inv] maps each pipeline slot to a step of the sequential run, bubbles to nothing),
      [IsaCorrect.seq_step_exec] and [IsaDecode.decoder_encode] are the layers below, and
      [execute_units_correct], [load_align_correct], [store_align_correct] the arithmetic ones.
    - Privileged architecture.  [core_takes_exception], [core_mret_returns], [core_sret_returns],
      [core_interrupt_commits], [core_flush_spares_ex] and [decoder_privilege] say what an edge of
      the whole core does on a trap or a return; [trap_ctrl_entry] and [trap_ctrl_priority] specify
      the trap controller, [csr_trap_mret_roundtrip], [csr_trap_sret_roundtrip], [csr_write_read],
      [csr_write_frame] and [csr_counters_run] the CSR unit; [CoreInv.core_next_ok] is the
      invariant they rest on.
    - TLB.  [tlb_hit_translates] and [tlb_hit_protected]: the first entry that covers a request
      decides it, and how; [tlb_refill_then_hit], [tlb_flush_vpn_misses], [tlb_flush_precise] and
      [tlb_round_robin]: refill, flushes and replacement; [tlb_reachable_ok]: the invariant the
      lookup theorems assume holds in every reachable state.
    - Harnesses.  [run_elf_pass_isa]: a verdict of the compliance runner is the verdict of a store
      the program performs on the instruction set; [run_elf_status] and [run_elf_signature_isa]:
      the exit status, and the signature of a program without a [tohost] symbol;
      [dump_signature_roundtrip] and [parse_args_roundtrip]; [write_store_bytes]: its memory;
      [load_elf64_image], [load_elf64_safe] and [load_elf64_unchecked]: what the loader writes,
      when it stays inside the file, and that it does not check so.  [sim_refines_seq]: the
      simulator of the integration bench runs every program as the sequential machine does.
    - Validation.  The integration bench and every unit bench also evaluate on the model and pass
      ([core_bench_passes], [tlb_bench_passes], [csr_bench_passes], [datapath_benches_pass],
      [control_benches_pass]): the model agrees with the expectations the authors wrote down.
    - [traps_imprecise] and [core_flush_spares_ex] record where the pipeline is not precise.

    ** Bounds

    Loops of the source that run over a width, a table or a cycle budget are recursions on that
    number, so no theorem depends on fuel: the ELF loader's loops run [e_phnum], [e_shnum],
    [p_filesz] and [sh_size / sh_entsize] times, the cycle loop [max_cycles] times.  The rate in
    the execution theorems, one instruction per three cycles after eight, covers a load-use stall
    or a taken branch at each instruction.

    ** Not modelled

    Waveform dumps, messages, the file system (the file reader is a parameter of [Compliance]; the
    lines of the signature file are the result), the build files and the Python driver under
    [scripts/].  The page-fault inputs of the trap controller are tied low in [richard_core] and the
    handshake pins of the memory stage high, as in the source. *)

From stdpp Require Export base list numbers.
From Stdlib Require Export ZArith Lia Bool.

#[global] Open Scope Z_scope.

(** ** Bit vectors

    A [w]-bit SystemVerilog vector (or C++ unsigned integer) is a [Z] in
    [[0, 2^w)]; a one-bit control signal is a [bool]. *)

Declare Scope bv_scope.
Delimit Scope bv_scope with bv.

(** Truncation to [w] bits: what an assignment to a [w]-bit variable does. *)
Definition wrap (w x : Z) : Z := x mod 2 ^ w.

(** [x[hi:lo]] *)
Definition slice (hi lo x : Z) : Z := Z.land (Z.shiftr x lo) (Z.ones (hi - lo + 1)).

(** [{a, b}] where [b] is [w] bits wide. *)
Definition cat (w a b : Z) : Z := Z.lor (Z.shiftl a w) b.

(** [{n{b}}] *)
Definition repb (n : Z) (b : bool) : Z := if b then Z.ones n else 0.

(** [$signed(x)] of a [w]-bit vector. *)
Definition signed (w x : Z) : Z := if Z.testbit x (w - 1) then x - 2 ^ w else x.

(** [~x] on [w] bits. *)
Definition bnot (w x : Z) : Z := Z.lxor x (Z.ones w).

(** [x[i] = b] on a local copy. *)
Definition set_bit (x i : Z) (b : bool) : Z := if b then Z.setbit x i else Z.clearbit x i.

(** [x[hi:lo] = v] on a local copy, [v] being [hi-lo+1] bits wide. *)
Definition set_slice (x hi lo v : Z) : Z :=
  Z.lor (Z.land x (Z.lnot (Z.shiftl (Z.ones (hi - lo + 1)) lo))) (Z.shiftl v lo).

(** The two-state value range of a [w]-bit vector. *)
Definition is_bv (w x : Z) : Prop := 0 <= x < 2 ^ w.

Notation "x @[ hi : lo ]" := (slice hi lo x)
  (at level 1, hi at level 60, lo at level 60, format "x @[ hi : lo ]") : bv_scope.
Notation "x @[ i ]" := (Z.testbit x i) (at level 1, i at level 60, format "x @[ i ]") : bv_scope.

#[global] Open Scope bv_scope.

(** Ordinary 64-bit arithmetic. *)
Definition add64 (a b : Z) : Z := wrap 64 (a + b).
Definition sub64 (a b : Z) : Z := wrap 64 (a - b).

#[global] Instance is_bv_dec w x : Decision (is_bv w x).
Proof. unfold is_bv; apply _. Defined.

(** ** Record update

    [r <| f := v |>] is [r] with its field [f] assigned, as in the [always_comb] blocks that
    first assign every output a default and then override some.  A record type opts in by an
    instance of [Settable] (its eta-expansion); the setter is computed from it. *)

Class Settable (R : Type) := eta_expand : R -> R.
Class Setter {R E : Type} (getter : R -> E) := set_field : (E -> E) -> R -> R.
Arguments set_field {R E} getter {_} _ _ /.

Ltac solve_setter :=
  match goal with
  | |- @Setter ?R _ ?getter =>
      let eta := eval hnf in (_ : Settable R) in
      lazymatch eval pattern getter in eta with
      | ?abs _ =>
          let t := constr:(fun f : _ -> _ => abs (fun r => f (getter r))) in
          let t := eval cbv beta in t in
          exact t
      end
  end.

#[export] Hint Extern 1 (Setter _) => solve_setter : typeclass_instances.

#[warnings="-postfix-notation-not-level-1"]
Notation "r <| f := v |>" := (set_field f (fun _ => v) r)
  (at level 12, left associativity, f constr at next level, v at level 99,
   format "r  <| f  :=  v |>") : bv_scope.

(** ** Tactics *)

(** Split a conjunction of goals without touching anything else. *)
Ltac split_all := repeat match goal with |- _ /\ _ => split end.

(** Case analysis on every boolean condition of the goal. *)
Ltac case_bools :=
  repeat match goal with
         | |- context [if ?b then _ else _] =>
             lazymatch type of b with bool => destruct b eqn:? end
         end.

(** Turn boolean comparisons of the context into arithmetic. *)
Ltac reflect_bools :=
  repeat match goal with
         | H : (_ && _) = true |- _ => apply andb_true_iff in H; destruct H
         | H : (_ || _) = false |- _ => apply orb_false_iff in H; destruct H
         | H : (_ =? _) = true |- _ => apply Z.eqb_eq in H
         | H : (_ =? _) = false |- _ => apply Z.eqb_neq in H
         | H : (_ <? _) = true |- _ => apply Z.ltb_lt in H
         | H : (_ <? _) = false |- _ => apply Z.ltb_ge in H
         | H : (_ <=? _) = true |- _ => apply Z.leb_le in H
         | H : (_ <=? _) = false |- _ => apply Z.leb_gt in H
         | H : negb _ = true |- _ => apply negb_true_iff in H
         | H : negb _ = false |- _ => apply negb_false_iff in H
         end.

(** Compute the closed powers of two that bit-vector ranges mention. *)
Ltac pow2_consts :=
  repeat match goal with
         | H : context [2 ^ Zpos ?p] |- _ =>
             let v := eval vm_compute in (2 ^ Zpos p) in change (2 ^ Zpos p) with v in H
         | |- context [2 ^ Zpos ?p] =>
             let v := eval vm_compute in (2 ^ Zpos p) in change (2 ^ Zpos p) with v
         end.

Ltac bv_lia := unfold is_bv in *; pow2_consts; lia.

(** ** Bits of the vector operations *)

Lemma wrap_bv w x : 0 <= w -> is_bv w (wrap w x).
Proof. intros; unfold is_bv, wrap; apply Z.mod_pos_bound; lia. Qed.

Lemma wrap_small w x : is_bv w x -> wrap w x = x.
Proof. intros; unfold wrap; apply Z.mod_small; done. Qed.

Lemma wrap_wrap w x : wrap w (wrap w x) = wrap w x.
Proof. unfold wrap; destruct (Z.eq_dec (2 ^ w) 0) as [->|]; [by rewrite !Z.mod_0_r|]; by apply Zmod_mod. Qed.

Lemma wrap_testbit w x i : 0 <= w -> Z.testbit (wrap w x) i = (i <? w) && Z.testbit x i.
Proof.
  intros; unfold wrap. destruct (i <? w) eqn:E; reflect_bools.
  - destruct (Z.neg_nonneg_cases i).
    + by rewrite !Z.testbit_neg_r.
    + rewrite Z.mod_pow2_bits_low by lia; done.
  - rewrite Z.mod_pow2_bits_high by lia; done.
Qed.

Lemma wrap_wrap_le v w x : 0 <= w <= v -> wrap w (wrap v x) = wrap w x.
Proof.
  intros. apply Z.bits_inj'; intros i Hi. rewrite !wrap_testbit by lia.
  destruct (i <? w) eqn:E; [|done]. reflect_bools. by rewrite (proj2 (Z.ltb_lt i v)) by lia.
Qed.

Lemma bv_testbit_high w x i : is_bv w x -> w <= i -> Z.testbit x i = false.
Proof.
  intros Hx Hi. destruct (Z.neg_nonneg_cases w) as [Hw|Hw].
  - rewrite <- (wrap_small w x) by done. unfold is_bv in Hx. rewrite Z.pow_neg_r in Hx by lia. lia.
  - rewrite <- (wrap_small w x) by done. rewrite wrap_testbit by lia.
    destruct (i <? w) eqn:E; [reflect_bools; lia | done].
Qed.

(** A nonnegative number whose bits from [w] on are clear is [w] bits wide. *)
Lemma bv_of_bits w x :
  0 <= w -> (forall i, w <= i -> Z.testbit x i = false) -> is_bv w x.
Proof.
  intros Hw Hbits. assert (x = wrap w x) as ->.
  - apply Z.bits_inj'; intros i Hi. rewrite wrap_testbit by lia.
    destruct (i <? w) eqn:E; [done|]. reflect_bools. by rewrite Hbits.
  - by apply wrap_bv.
Qed.

Lemma slice_testbit hi lo x i :
  0 <= lo -> lo <= hi + 1 -> 0 <= i ->
  Z.testbit (slice hi lo x) i = (i <=? hi - lo) && Z.testbit x (lo + i).
Proof.
  intros; unfold slice. rewrite Z.land_spec, Z.shiftr_spec by lia.
  rewrite Z.testbit_ones by lia. rewrite (Z.add_comm i lo).
  destruct (0 <=? i) eqn:E1; [|reflect_bools; lia].
  destruct (i <=? hi - lo) eqn:E2, (i <? hi - lo + 1) eqn:E3; reflect_bools; try lia;
    by destruct (Z.testbit x (lo + i)).
Qed.

(** The arithmetic reading of a slice. *)
Lemma slice_div_mod hi lo x :
  0 <= lo -> lo <= hi + 1 -> slice hi lo x = (x / 2 ^ lo) mod 2 ^ (hi - lo + 1).
Proof.
  intros; unfold slice. rewrite Z.land_ones, Z.shiftr_div_pow2 by lia. done.
Qed.

Lemma slice_bv hi lo x w :
  0 <= lo -> lo <= hi + 1 -> hi - lo + 1 <= w -> is_bv w (slice hi lo x).
Proof.
  intros; rewrite slice_div_mod by lia. unfold is_bv.
  pose proof (Z.mod_pos_bound (x / 2 ^ lo) (2 ^ (hi - lo + 1)) ltac:(lia)).
  pose proof (Z.pow_le_mono_r 2 (hi - lo + 1) w). lia.
Qed.

(** Concatenation is addition when the low part fits. *)
Lemma cat_add w a b : 0 <= w -> is_bv w b -> cat w a b = a * 2 ^ w + b.
Proof.
  intros Hw Hb; unfold cat.
  rewrite <- Z.shiftl_mul_pow2 by lia. symmetry.
  rewrite <- Z.lxor_lor; [apply Z.add_nocarry_lxor|];
    apply Z.bits_inj'; intros i Hi; rewrite Z.land_spec, Z.bits_0, Z.shiftl_spec by lia;
    (destruct (Z.lt_ge_cases i w);
     [rewrite Z.testbit_neg_r by lia; done
     | rewrite (bv_testbit_high w b) by (done || lia); apply andb_false_r]).
Qed.

Lemma cat_bv w v a b : 0 <= w -> 0 <= v -> is_bv v a -> is_bv w b -> is_bv (v + w) (cat w a b).
Proof.
  intros Hw Hv Ha Hb. rewrite cat_add by done. unfold is_bv in *.
  rewrite Z.pow_add_r by lia. nia.
Qed.

Lemma cat_testbit w a b i :
  0 <= w -> is_bv w b -> 0 <= i ->
  Z.testbit (cat w a b) i = if i <? w then Z.testbit b i else Z.testbit a (i - w).
Proof.
  intros Hw Hb Hi; unfold cat. rewrite Z.lor_spec, Z.shiftl_spec by lia.
  destruct (i <? w) eqn:E; reflect_bools.
  - by rewrite Z.testbit_neg_r by lia.
  - rewrite (bv_testbit_high w b) by (done || lia). apply orb_false_r.
Qed.

Lemma repb_bv n b : 0 <= n -> is_bv n (repb n b).
Proof.
  intros; unfold is_bv, repb. pose proof (Z.pow_pos_nonneg 2 n).
  destruct b; [rewrite Z.ones_equiv|]; lia.
Qed.

(** ** Signed readings *)

Lemma bv_testbit_msb w x :
  0 < w -> is_bv w x -> Z.testbit x (w - 1) = (2 ^ (w - 1) <=? x).
Proof.
  intros Hw [Hx1 Hx2]. rewrite Z.testbit_eqb by lia.
  replace w with (w - 1 + 1) in Hx2 at 1 by lia. rewrite Z.pow_add_r in Hx2 by lia.
  pose proof (Z.pow_pos_nonneg 2 (w - 1)).
  destruct (2 ^ (w - 1) <=? x) eqn:E; reflect_bools.
  - assert (x / 2 ^ (w - 1) = 1) as ->; [|done].
    symmetry; apply (Z.div_unique_pos x (2 ^ (w - 1)) 1 (x - 2 ^ (w - 1))); lia.
  - rewrite Z.div_small by lia. done.
Qed.

Lemma signed_alt w x :
  0 < w -> is_bv w x -> signed w x = if x <? 2 ^ (w - 1) then x else x - 2 ^ w.
Proof.
  intros Hw Hx; unfold signed. rewrite bv_testbit_msb by done.
  destruct (2 ^ (w - 1) <=? x) eqn:E, (x <? 2 ^ (w - 1)) eqn:E'; reflect_bools; lia.
Qed.

Lemma pow2_half w : 0 < w -> 2 ^ w = 2 * 2 ^ (w - 1).
Proof. intros. rewrite <- Z.pow_succ_r by lia. f_equal; lia. Qed.

Lemma signed_range w x : 0 < w -> is_bv w x -> - 2 ^ (w - 1) <= signed w x < 2 ^ (w - 1).
Proof.
  intros Hw Hx. rewrite signed_alt by done. pose proof (pow2_half w Hw). unfold is_bv in Hx.
  destruct (x <? _) eqn:E; reflect_bools; lia.
Qed.

Lemma wrap_signed w x : 0 < w -> is_bv w x -> wrap w (signed w x) = x.
Proof.
  intros Hw Hx; unfold signed, wrap. pose proof (Z.pow_pos_nonneg 2 w).
  destruct (Z.testbit _ _); [|by apply Z.mod_small].
  symmetry. apply (Z.mod_unique_pos _ _ (-1)); [done|lia].
Qed.

(** A signed number in range is recovered from its truncation. *)
Lemma signed_wrap w x : 0 < w -> - 2 ^ (w - 1) <= x < 2 ^ (w - 1) -> signed w (wrap w x) = x.
Proof.
  intros Hw Hx. pose proof (pow2_half w Hw).
  rewrite signed_alt by (try apply wrap_bv; lia). unfold wrap.
  destruct (Z.lt_ge_cases x 0).
  - rewrite <- (Z.mod_unique_pos x (2 ^ w) (-1) (x + 2 ^ w)) by lia.
    destruct (_ <? _) eqn:E; reflect_bools; lia.
  - rewrite Z.mod_small by lia. destruct (_ <? _) eqn:E; reflect_bools; lia.
Qed.

(** [{{m{b[n-1]}}, b}] is sign extension from [n] to [n+m] bits. *)
Lemma cat_sext n m b :
  0 < n -> 0 <= m -> is_bv n b ->
  cat n (repb m (Z.testbit b (n - 1))) b = wrap (n + m) (signed n b).
Proof.
  intros Hn Hm Hb. rewrite cat_add by (done || lia). unfold signed, repb, wrap.
  unfold is_bv in Hb. pose proof (Z.pow_pos_nonneg 2 m). pose proof (Z.pow_pos_nonneg 2 n).
  rewrite Z.pow_add_r by lia.
  destruct (Z.testbit _ _).
  - rewrite Z.ones_equiv. apply (Z.mod_unique_pos _ _ (-1)); nia.
  - rewrite Z.mod_small; nia.
Qed.

(** ** 64-bit closure *)

Lemma add64_bv a b : is_bv 64 (add64 a b).
Proof. apply wrap_bv; lia. Qed.
Lemma sub64_bv a b : is_bv 64 (sub64 a b).
Proof. apply wrap_bv; lia. Qed.

Lemma lxor_bv w a b : 0 <= w -> is_bv w a -> is_bv w b -> is_bv w (Z.lxor a b).
Proof.
  intros Hw Ha Hb; apply bv_of_bits; [done|]; intros i Hi.
  by rewrite Z.lxor_spec, (bv_testbit_high w a), (bv_testbit_high w b).
Qed.
Lemma lor_bv w a b : 0 <= w -> is_bv w a -> is_bv w b -> is_bv w (Z.lor a b).
Proof.
  intros Hw Ha Hb; apply bv_of_bits; [done|]; intros i Hi.
  by rewrite Z.lor_spec, (bv_testbit_high w a), (bv_testbit_high w b).
Qed.
Lemma land_bv w a b : 0 <= w -> is_bv w a -> is_bv w (Z.land a b).
Proof.
  intros Hw Ha; apply bv_of_bits; [done|]; intros i Hi.
  by rewrite Z.land_spec, (bv_testbit_high w a).
Qed.
Lemma land_bv_r w a b : 0 <= w -> is_bv w b -> is_bv w (Z.land a b).
Proof. intros; rewrite Z.land_comm; by apply land_bv. Qed.
Lemma bnot_bv w a : 0 <= w -> is_bv w a -> is_bv w (bnot w a).
Proof. intros; apply lxor_bv; [done..|]. by apply (repb_bv w true). Qed.
Lemma shiftr_bv w a n : 0 <= w -> 0 <= n -> is_bv w a -> is_bv w (Z.shiftr a n).
Proof.
  intros Hw Hn Ha; apply bv_of_bits; [done|]; intros i Hi.
  rewrite Z.shiftr_spec, (bv_testbit_high w a) by (done || lia). done.
Qed.
Lemma zero_bv w : 0 <= w -> is_bv w 0.
Proof. intros; unfold is_bv; pose proof (Z.pow_pos_nonneg 2 w); lia. Qed.
Lemma b2z_bv w b : 0 < w -> is_bv w (Z.b2z b).
Proof.
  intros; unfold is_bv. pose proof (Z.pow_gt_1 2 w). destruct b; simpl; lia.
Qed.
Lemma bv_weaken v w x : v <= w -> is_bv v x -> is_bv w x.
Proof. intros ? [??]; split; [done|]. pose proof (Z.pow_le_mono_r 2 v w). lia. Qed.

Lemma set_bit_testbit x i b j :
  0 <= i -> 0 <= j -> Z.testbit (set_bit x i b) j = if j =? i then b else Z.testbit x j.
Proof.
  intros; unfold set_bit. destruct (j =? i) eqn:E; reflect_bools; subst.
  - destruct b; [by rewrite Z.setbit_eq | by rewrite Z.clearbit_eq].
  - destruct b; [rewrite Z.setbit_neq by lia | rewrite Z.clearbit_neq by lia]; done.
Qed.

Lemma set_bit_bv w x i b : 0 <= i < w -> is_bv w x -> is_bv w (set_bit x i b).
Proof.
  intros Hi Hx; apply bv_of_bits; [lia|]; intros j Hj.
  rewrite set_bit_testbit by lia. destruct (j =? i) eqn:E; reflect_bools; [lia|].
  by apply (bv_testbit_high w).
Qed.

Lemma set_slice_testbit x hi lo v j :
  0 <= lo -> lo <= hi + 1 -> 0 <= j -> is_bv (hi - lo + 1) v ->
  Z.testbit (set_slice x hi lo v) j =
  if (lo <=? j) && (j <=? hi) then Z.testbit v (j - lo) else Z.testbit x j.
Proof.
  intros Hlo Hhi Hj Hv; unfold set_slice.
  rewrite Z.lor_spec, Z.land_spec, Z.lnot_spec, !Z.shiftl_spec by lia.
  rewrite Z.testbit_ones by lia.
  destruct (lo <=? j) eqn:E1, (j <=? hi) eqn:E2, (0 <=? j - lo) eqn:E3,
    (j - lo <? hi - lo + 1) eqn:E4; reflect_bools; try lia; simpl;
    rewrite ?andb_true_r, ?andb_false_r, ?orb_false_l; try done;
    first [rewrite (bv_testbit_high (hi - lo + 1) v) by (done || lia)
          | rewrite (Z.testbit_neg_r v) by lia]; apply orb_false_r.
Qed.

Lemma set_slice_bv w x hi lo v :
  0 <= lo -> lo <= hi + 1 -> hi < w -> is_bv w x -> is_bv (hi - lo + 1) v ->
  is_bv w (set_slice x hi lo v).
Proof.
  intros Hlo Hhi Hw Hx Hv; apply bv_of_bits; [lia|]; intros j Hj.
  rewrite set_slice_testbit by (done || lia).
  destruct (lo <=? j) eqn:E1, (j <=? hi) eqn:E2; reflect_bools; try lia; simpl;
    by apply (bv_testbit_high w).
Qed.

(** The word [signed] gives is determined by the truncation. *)
Lemma slice_low w x : 0 < w -> slice (w - 1) 0 x = wrap w x.
Proof.
  intros; rewrite slice_div_mod by lia. rewrite Z.pow_0_r, Z.div_1_r. unfold wrap; do 2 f_equal; lia.
Qed.

(** ** Slices of concatenations *)

Lemma slice_all w x : 0 < w -> is_bv w x -> slice (w - 1) 0 x = x.
Proof. intros; rewrite slice_low by lia. by apply wrap_small. Qed.

Lemma slice_cat_low w a b hi lo :
  0 <= lo -> lo <= hi + 1 -> hi < w -> is_bv w b -> slice hi lo (cat w a b) = slice hi lo b.
Proof.
  intros. apply Z.bits_inj'; intros i Hi. rewrite !slice_testbit by lia.
  destruct (i <=? hi - lo) eqn:E; [|done]. reflect_bools. rewrite cat_testbit by (done || lia).
  by rewrite (proj2 (Z.ltb_lt (lo + i) w)) by lia.
Qed.

Lemma slice_cat_high w a b hi lo :
  0 <= w <= lo -> lo <= hi + 1 -> is_bv w b ->
  slice hi lo (cat w a b) = slice (hi - w) (lo - w) a.
Proof.
  intros. apply Z.bits_inj'; intros i Hi. rewrite !slice_testbit by lia.
  rewrite cat_testbit by (done || lia). rewrite (proj2 (Z.ltb_ge (lo + i) w)) by lia.
  f_equal; [f_equal; lia | f_equal; lia].
Qed.

(** Adjacent slices join. *)
Lemma slice_join hi m lo x :
  0 <= lo -> lo <= m -> m <= hi + 1 ->
  cat (m - lo) (slice hi m x) (slice (m - 1) lo x) = slice hi lo x.
Proof.
  intros. apply Z.bits_inj'; intros i Hi.
  assert (is_bv (m - lo) (slice (m - 1) lo x)) by (apply slice_bv; lia).
  rewrite cat_testbit, (slice_testbit hi lo) by (done || lia).
  destruct (i <? m - lo) eqn:E; reflect_bools.
  - by rewrite slice_testbit, (proj2 (Z.leb_le i (m - 1 - lo))), (proj2 (Z.leb_le i (hi - lo)))
      by lia.
  - rewrite slice_testbit by lia. f_equal; [apply eq_true_iff_eq; rewrite !Z.leb_le; lia | f_equal; lia].
Qed.

(** A one-bit slice is the bit. *)
Lemma slice_bit i x : 0 <= i -> slice i i x = Z.b2z (Z.testbit x i).
Proof.
  intros. apply Z.bits_inj'; intros j Hj. rewrite slice_testbit by lia.
  destruct (j <=? i - i) eqn:E; reflect_bools.
  - replace j with 0 by lia. rewrite Z.add_0_r, Z.b2z_bit0. done.
  - symmetry. apply (bv_testbit_high 1); [apply b2z_bv|]; lia.
Qed.

(** A slice of a slice. *)
Lemma slice_slice hi lo h l x :
  0 <= lo -> lo <= hi + 1 -> 0 <= l -> l <= h + 1 -> h <= hi - lo ->
  slice h l (slice hi lo x) = slice (lo + h) (lo + l) x.
Proof.
  intros. apply Z.bits_inj'; intros i Hi. rewrite !slice_testbit by lia.
  replace (lo + h - (lo + l)) with (h - l) by lia. rewrite Z.add_assoc.
  destruct (i <=? h - l) eqn:E; [|done]. reflect_bools.
  by rewrite (proj2 (Z.leb_le (l + i) (hi - lo))) by lia.
Qed.

Lemma slice_wrap hi lo w x :
  0 <= lo -> lo <= hi + 1 -> hi < w -> slice hi lo (wrap w x) = slice hi lo x.
Proof.
  intros. apply Z.bits_inj'; intros i Hi. rewrite !slice_testbit, wrap_testbit by lia.
  destruct (i <=? hi - lo) eqn:E; [|done]. reflect_bools.
  by rewrite (proj2 (Z.ltb_lt (lo + i) w)) by lia.
Qed.

Create HintDb bv.
#[export] Hint Resolve wrap_bv add64_bv sub64_bv lxor_bv lor_bv land_bv bnot_bv shiftr_bv
  zero_bv b2z_bv repb_bv cat_bv slice_bv set_bit_bv set_slice_bv : bv.
#[export] Hint Extern 1 (_ <= _) => lia : bv.
#[export] Hint Extern 1 (_ < _) => lia : bv.
#[export] Hint Extern 1 (_ <= _ < _) => lia : bv.
