(* ===== verification/Rv64Pkg.v ===== *)
(** * Global packages: [rtl/core/include/rv64_pkg.sv] and [csr_pkg.sv]

    Binary literals of the source are written in hexadecimal.  The SystemVerilog enumerations are inductive types with their encodings; [*_dec] reads
    a bit pattern back and is [None] exactly on the patterns the enumeration does not name
    (the [default] arm of a [case]).  Parameters are constants. *)

From S2P Require Import Prelude.

Definition XLEN : Z := 64.
Definition INST_WIDTH : Z := 32.

(** ** Major opcodes, [instr[6:0]] *)
Inductive opcode_t :=
  | OPCODE_LOAD | OPCODE_LOAD_FP | OPCODE_MISC_MEM | OPCODE_OP_IMM | OPCODE_OP_IMM_32
  | OPCODE_AUIPC | OPCODE_LUI | OPCODE_STORE | OPCODE_STORE_FP | OPCODE_AMO
  | OPCODE_OP | OPCODE_OP_32 | OPCODE_MADD | OPCODE_MSUB | OPCODE_NMSUB | OPCODE_NMADD
  | OPCODE_OP_FP | OPCODE_BRANCH | OPCODE_JALR | OPCODE_JAL | OPCODE_SYSTEM
  | OPCODE_CUSTOM_0 | OPCODE_CUSTOM_1 | OPCODE_CUSTOM_2 | OPCODE_CUSTOM_3.

#[global] Instance opcode_eq_dec : EqDecision opcode_t.
Proof. solve_decision. Defined.

Definition opcode_enc (o : opcode_t) : Z :=
  match o with
  | OPCODE_LOAD => 0x03
  | OPCODE_LOAD_FP => 0x07
  | OPCODE_MISC_MEM => 0x0f
  | OPCODE_OP_IMM => 0x13
  | OPCODE_OP_IMM_32 => 0x1b
  | OPCODE_AUIPC => 0x17
  | OPCODE_LUI => 0x37
  | OPCODE_STORE => 0x23
  | OPCODE_STORE_FP => 0x27
  | OPCODE_AMO => 0x2f
  | OPCODE_OP => 0x33
  | OPCODE_OP_32 => 0x3b
  | OPCODE_MADD => 0x43
  | OPCODE_MSUB => 0x47
  | OPCODE_NMSUB => 0x4b
  | OPCODE_NMADD => 0x4f
  | OPCODE_OP_FP => 0x53
  | OPCODE_BRANCH => 0x63
  | OPCODE_JALR => 0x67
  | OPCODE_JAL => 0x6f
  | OPCODE_SYSTEM => 0x73
  | OPCODE_CUSTOM_0 => 0x0b
  | OPCODE_CUSTOM_1 => 0x2b
  | OPCODE_CUSTOM_2 => 0x5b
  | OPCODE_CUSTOM_3 => 0x7b
  end.

Definition opcodes : list opcode_t :=
  [OPCODE_LOAD; OPCODE_LOAD_FP; OPCODE_MISC_MEM; OPCODE_OP_IMM; OPCODE_OP_IMM_32;
   OPCODE_AUIPC; OPCODE_LUI; OPCODE_STORE; OPCODE_STORE_FP; OPCODE_AMO; OPCODE_OP;
   OPCODE_OP_32; OPCODE_MADD; OPCODE_MSUB; OPCODE_NMSUB; OPCODE_NMADD; OPCODE_OP_FP;
   OPCODE_BRANCH; OPCODE_JALR; OPCODE_JAL; OPCODE_SYSTEM; OPCODE_CUSTOM_0;
   OPCODE_CUSTOM_1; OPCODE_CUSTOM_2; OPCODE_CUSTOM_3].

(** The enumeration member a [case (x)] selects, if any. *)
Definition enum_dec {A} (enc : A -> Z) (l : list A) (x : Z) : option A :=
  List.find (fun a => enc a =? x) l.

Definition opcode_dec : Z -> option opcode_t := enum_dec opcode_enc opcodes.

(** ** ALU operations *)
Inductive alu_op_t :=
  | ALU_ADD | ALU_SUB | ALU_SLL | ALU_SLT | ALU_SLTU | ALU_XOR | ALU_SRL | ALU_SRA
  | ALU_OR | ALU_AND.

#[global] Instance alu_op_eq_dec : EqDecision alu_op_t.
Proof. solve_decision. Defined.

Definition alu_op_enc (o : alu_op_t) : Z :=
  match o with
  | ALU_ADD => 0x0
  | ALU_SUB => 0x8
  | ALU_SLL => 0x1
  | ALU_SLT => 0x2
  | ALU_SLTU => 0x3
  | ALU_XOR => 0x4
  | ALU_SRL => 0x5
  | ALU_SRA => 0xd
  | ALU_OR => 0x6
  | ALU_AND => 0x7
  end.

Definition alu_ops : list alu_op_t :=
  [ALU_ADD; ALU_SUB; ALU_SLL; ALU_SLT; ALU_SLTU; ALU_XOR; ALU_SRL; ALU_SRA; ALU_OR; ALU_AND].

Definition alu_op_dec : Z -> option alu_op_t := enum_dec alu_op_enc alu_ops.

(** ** Branch conditions *)
Inductive branch_op_t :=
  | BRANCH_EQ | BRANCH_NE | BRANCH_LT | BRANCH_GE | BRANCH_LTU | BRANCH_GEU.

#[global] Instance branch_op_eq_dec : EqDecision branch_op_t.
Proof. solve_decision. Defined.

Definition branch_op_enc (o : branch_op_t) : Z :=
  match o with
  | BRANCH_EQ => 0x0
  | BRANCH_NE => 0x1
  | BRANCH_LT => 0x4
  | BRANCH_GE => 0x5
  | BRANCH_LTU => 0x6
  | BRANCH_GEU => 0x7
  end.

Definition branch_ops : list branch_op_t :=
  [BRANCH_EQ; BRANCH_NE; BRANCH_LT; BRANCH_GE; BRANCH_LTU; BRANCH_GEU].

Definition branch_op_dec : Z -> option branch_op_t := enum_dec branch_op_enc branch_ops.

(** ** Privilege modes (declared in [decoder.sv], [csr_unit.sv] and [trap_ctrl.sv]) *)
Definition PRIV_MODE_U : Z := 0x0.
Definition PRIV_MODE_S : Z := 0x1.
Definition PRIV_MODE_M : Z := 0x3.

(** ** CSR addresses ([csr_pkg.sv]) *)
Definition CSR_FFLAGS : Z := 0x001.
Definition CSR_FRM : Z := 0x002.
Definition CSR_FCSR : Z := 0x003.
Definition CSR_MVENDORID : Z := 0xF11.
Definition CSR_MARCHID : Z := 0xF12.
Definition CSR_MIMPID : Z := 0xF13.
Definition CSR_MHARTID : Z := 0xF14.
Definition CSR_MSTATUS : Z := 0x300.
Definition CSR_MISA : Z := 0x301.
Definition CSR_MEDELEG : Z := 0x302.
Definition CSR_MIDELEG : Z := 0x303.
Definition CSR_MIE : Z := 0x304.
Definition CSR_MTVEC : Z := 0x305.
Definition CSR_MCOUNTEREN : Z := 0x306.
Definition CSR_MSCRATCH : Z := 0x340.
Definition CSR_MEPC : Z := 0x341.
Definition CSR_MCAUSE : Z := 0x342.
Definition CSR_MTVAL : Z := 0x343.
Definition CSR_MIP : Z := 0x344.
Definition CSR_MCYCLE : Z := 0xB00.
Definition CSR_MINSTRET : Z := 0xB02.
Definition CSR_SSTATUS : Z := 0x100.
Definition CSR_SIE : Z := 0x104.
Definition CSR_STVEC : Z := 0x105.
Definition CSR_SCOUNTEREN : Z := 0x106.
Definition CSR_SSCRATCH : Z := 0x140.
Definition CSR_SEPC : Z := 0x141.
Definition CSR_SCAUSE : Z := 0x142.
Definition CSR_STVAL : Z := 0x143.
Definition CSR_SIP : Z := 0x144.
Definition CSR_SATP : Z := 0x180.
Definition CSR_CYCLE : Z := 0xC00.
Definition CSR_TIME : Z := 0xC01.
Definition CSR_INSTRET : Z := 0xC02.

(** ** Cause codes ([csr_pkg.sv]) *)
Definition EXC_INST_ILLEGAL : Z := 2.
Definition EXC_BREAKPOINT : Z := 3.
Definition EXC_LOAD_ADDR_MISALIGNED : Z := 4.
Definition EXC_LOAD_FAULT : Z := 5.
Definition EXC_STORE_ADDR_MISALIGNED : Z := 6.
Definition EXC_STORE_FAULT : Z := 7.
Definition EXC_ECALL_FROM_U : Z := 8.
Definition EXC_ECALL_FROM_S : Z := 9.
Definition EXC_ECALL_FROM_M : Z := 11.
Definition EXC_INSTR_PAGE_FAULT : Z := 12.
Definition EXC_LOAD_PAGE_FAULT : Z := 13.
Definition EXC_STORE_PAGE_FAULT : Z := 15.
Definition INTERRUPT_M_SOFTWARE : Z := 3.
Definition INTERRUPT_M_TIMER : Z := 7.
Definition INTERRUPT_M_EXTERNAL : Z := 11.

(** ** Lemmas *)

Lemma enum_dec_sound {A} (enc : A -> Z) l x a : enum_dec enc l x = Some a -> enc a = x.
Proof. unfold enum_dec; intros H. apply List.find_some in H as [_ H]. by apply Z.eqb_eq. Qed.

Lemma opcode_dec_enc o : opcode_dec (opcode_enc o) = Some o.
Proof. by destruct o. Qed.
Lemma alu_op_dec_enc o : alu_op_dec (alu_op_enc o) = Some o.
Proof. by destruct o. Qed.
Lemma branch_op_dec_enc o : branch_op_dec (branch_op_enc o) = Some o.
Proof. by destruct o. Qed.
Lemma opcode_enc_bv o : is_bv 7 (opcode_enc o).
Proof. destruct o; split; vm_compute; congruence. Qed.
Lemma branch_op_enc_bv o : is_bv 3 (branch_op_enc o).
Proof. destruct o; split; vm_compute; congruence. Qed.
