(* ===== verification/Alu.v ===== *)
(** * Execute-stage arithmetic: [rtl/core/alu.sv], [branch_unit.sv], [ex_stage.sv] *)

From S2P Require Import Prelude Rv64Pkg.

(** [module alu].  The [default] arm of its [case] is in [alu_port], which takes the raw
    4-bit operation code. *)
Definition alu (alu_op : alu_op_t) (operand_a operand_b : Z) : Z :=
  let shamt := operand_b@[5:0] in
  match alu_op with
  | ALU_ADD => add64 operand_a operand_b
  | ALU_SUB => sub64 operand_a operand_b
  | ALU_SLL => wrap 64 (Z.shiftl operand_a shamt)
  | ALU_SLT => cat 1 0 (Z.b2z (signed 64 operand_a <? signed 64 operand_b))
  | ALU_SLTU => cat 1 0 (Z.b2z (operand_a <? operand_b))
  | ALU_XOR => Z.lxor operand_a operand_b
  | ALU_SRL => Z.shiftr operand_a shamt
  | ALU_SRA => wrap 64 (Z.shiftr (signed 64 operand_a) shamt)
  | ALU_OR => Z.lor operand_a operand_b
  | ALU_AND => Z.land operand_a operand_b
  end.

Definition alu_port (alu_op operand_a operand_b : Z) : Z :=
  match alu_op_dec alu_op with
  | Some op => alu op operand_a operand_b
  | None => 0
  end.

(** [module branch_unit] *)
Definition branch_unit (is_branch : bool) (branch_op operand_a operand_b : Z) : bool :=
  if is_branch then
    match branch_op_dec branch_op with
    | Some BRANCH_EQ => operand_a =? operand_b
    | Some BRANCH_NE => negb (operand_a =? operand_b)
    | Some BRANCH_LT => signed 64 operand_a <? signed 64 operand_b
    | Some BRANCH_GE => signed 64 operand_b <=? signed 64 operand_a
    | Some BRANCH_LTU => operand_a <? operand_b
    | Some BRANCH_GEU => operand_b <=? operand_a
    | None => false
    end
  else false.

(** Inputs of [module ex_stage], after the forwarding multiplexers. *)
Record ex_in := mk_ex_in {
  xi_pc : Z;
  xi_rs1_rdata : Z;
  xi_rs2_rdata : Z;
  xi_imm : Z;
  xi_alu_op : alu_op_t;
  xi_alu_src1_sel : bool;
  xi_alu_src2_sel : bool;
  xi_is_branch : bool;
  xi_branch_op : Z;
  xi_is_jump : bool;
  xi_is_word_op : bool
}.

Record ex_out := mk_ex_out {
  xo_alu_result : Z;
  xo_branch_taken : bool;
  xo_branch_target : Z
}.

(** The word-operation pre-conditioning of operand A. *)
Definition ex_operand_a (is_word_op : bool) (op : alu_op_t) (a : Z) : Z :=
  if is_word_op then
    match op with
    | ALU_SRA => cat 32 (repb 32 (a@[31])) (a@[31:0])
    | ALU_SRL => cat 32 0 (a@[31:0])
    | _ => a
    end
  else a.

(** The word-operation pre-conditioning of operand B. *)
Definition ex_operand_b (is_word_op : bool) (op : alu_op_t) (b : Z) : Z :=
  if is_word_op then
    match op with
    | ALU_SLL | ALU_SRL | ALU_SRA => cat 5 0 (b@[4:0])
    | _ => b
    end
  else b.

(** [module ex_stage] *)
Definition ex_stage (i : ex_in) : ex_out :=
  let alu_mux_a := if xi_alu_src1_sel i then xi_pc i else xi_rs1_rdata i in
  let alu_mux_b := if xi_alu_src2_sel i then xi_imm i else xi_rs2_rdata i in
  let alu_operand_a := ex_operand_a (xi_is_word_op i) (xi_alu_op i) alu_mux_a in
  let alu_operand_b := ex_operand_b (xi_is_word_op i) (xi_alu_op i) alu_mux_b in
  let alu_raw_result := alu (xi_alu_op i) alu_operand_a alu_operand_b in
  let branch_unit_taken :=
    branch_unit (xi_is_branch i) (xi_branch_op i) (xi_rs1_rdata i) (xi_rs2_rdata i) in
  {| xo_alu_result :=
       if xi_is_word_op i
       then cat 32 (repb 32 (alu_raw_result@[31])) (alu_raw_result@[31:0])
       else alu_raw_result;
     xo_branch_target := Z.land alu_raw_result (bnot 64 1);
     xo_branch_taken := xi_is_jump i || (xi_is_branch i && branch_unit_taken) |}.

(** ** Range of the results *)

Lemma cat1_b2z b : cat 1 0 (Z.b2z b) = Z.b2z b.
Proof. by destruct b. Qed.

Lemma alu_bv op a b : is_bv 64 a -> is_bv 64 b -> is_bv 64 (alu op a b).
Proof.
  intros Ha Hb. destruct op; simpl; rewrite ?cat1_b2z; auto with bv.
  apply shiftr_bv; [lia| |done]. pose proof (slice_bv 5 0 b 6). bv_lia.
Qed.

Lemma sext32_bv x : is_bv 64 (cat 32 (repb 32 (x@[31])) (x@[31:0])).
Proof. apply (cat_bv 32 32); auto with bv. Qed.

Lemma ex_operand_a_bv w op a : is_bv 64 a -> is_bv 64 (ex_operand_a w op a).
Proof.
  intros Ha; unfold ex_operand_a; destruct w, op; auto using sext32_bv.
  apply (cat_bv 32 32); auto with bv.
Qed.

Lemma ex_operand_b_bv w op a : is_bv 64 a -> is_bv 64 (ex_operand_b w op a).
Proof.
  intros Ha; unfold ex_operand_b; destruct w, op; auto;
    apply (bv_weaken (0 + 5)); try lia; apply (cat_bv 5 0); auto with bv; done.
Qed.
