(* ===== verification/Decoder.v ===== *)
(** * Instruction decoder: [rtl/core/decoder.sv]

    The decoder's outputs are grouped into the control bundles of
    [docs/pipeline_diagram.md]; the pipeline registers carry the same bundles, so that the
    value a reset or a flush gives a bundle ([*_nop]) is written once. *)

From S2P Require Import Prelude Rv64Pkg.

(** ** Control bundles *)

Record ex_ctl := mk_ex_ctl {
  alu_op : alu_op_t;
  alu_src1_sel : bool;
  alu_src2_sel : bool;
  is_word_op : bool;
  is_branch : bool;
  branch_op : Z;
  is_jump : bool
}.

Record mem_ctl := mk_mem_ctl { is_load : bool; is_store : bool; mem_size : Z }.

Record wb_ctl := mk_wb_ctl { reg_write_en : bool; rd_addr : Z; wb_sel : Z }.

Record sys_ctl := mk_sys_ctl {
  is_csr : bool;
  csr_op : Z;
  illegal_instr : bool;
  is_ecall : bool;
  is_ebreak : bool;
  is_mret : bool;
  is_sret : bool
}.

Record fence_ctl := mk_fence_ctl {
  is_wfi : bool;
  is_sfence_vma : bool;
  is_fence : bool;
  is_fence_i : bool
}.

(** All the outputs of the decoder. *)
Record dec_out := mk_dec_out {
  rs1_addr : Z;
  rs2_addr : Z;
  imm : Z;
  ex_c : ex_ctl;
  mem_c : mem_ctl;
  wb_c : wb_ctl;
  sys_c : sys_ctl;
  fence_c : fence_ctl
}.

#[global] Instance settable_ex_ctl : Settable ex_ctl :=
  fun r => mk_ex_ctl (alu_op r) (alu_src1_sel r) (alu_src2_sel r) (is_word_op r) (is_branch r)
             (branch_op r) (is_jump r).
#[global] Instance settable_mem_ctl : Settable mem_ctl :=
  fun r => mk_mem_ctl (is_load r) (is_store r) (mem_size r).
#[global] Instance settable_wb_ctl : Settable wb_ctl :=
  fun r => mk_wb_ctl (reg_write_en r) (rd_addr r) (wb_sel r).
#[global] Instance settable_sys_ctl : Settable sys_ctl :=
  fun r => mk_sys_ctl (is_csr r) (csr_op r) (illegal_instr r) (is_ecall r) (is_ebreak r)
             (is_mret r) (is_sret r).
#[global] Instance settable_fence_ctl : Settable fence_ctl :=
  fun r => mk_fence_ctl (is_wfi r) (is_sfence_vma r) (is_fence r) (is_fence_i r).
#[global] Instance settable_dec_out : Settable dec_out :=
  fun r => mk_dec_out (rs1_addr r) (rs2_addr r) (imm r) (ex_c r) (mem_c r) (wb_c r) (sys_c r)
             (fence_c r).

(** Inactive bundles: the values of a reset or a flush, and the decoder's defaults. *)
Definition ex_ctl_nop : ex_ctl :=
  {| alu_op := ALU_ADD; alu_src1_sel := false; alu_src2_sel := false; is_word_op := false;
     is_branch := false; branch_op := 0; is_jump := false |}.
Definition mem_ctl_nop : mem_ctl := {| is_load := false; is_store := false; mem_size := 0 |}.
Definition wb_ctl_nop : wb_ctl := {| reg_write_en := false; rd_addr := 0; wb_sel := 0 |}.
Definition sys_ctl_nop : sys_ctl :=
  {| is_csr := false; csr_op := 0; illegal_instr := false; is_ecall := false;
     is_ebreak := false; is_mret := false; is_sret := false |}.
Definition fence_ctl_nop : fence_ctl :=
  {| is_wfi := false; is_sfence_vma := false; is_fence := false; is_fence_i := false |}.

(** ** Privilege checks *)

Definition priv_rank (mode : Z) : Z :=
  if mode =? PRIV_MODE_U then 0
  else if mode =? PRIV_MODE_S then 1
  else if mode =? 2 then 2
  else 3.

Definition priv_ge (cur req : Z) : bool := priv_rank req <=? priv_rank cur.

Definition csr_access_allowed (cur addr : Z) : bool := priv_ge cur (addr@[9:8]).

(** ** Immediates *)

Definition imm_i (instr : Z) : Z := cat 12 (repb 52 (instr@[31])) (instr@[31:20]).
Definition imm_s (instr : Z) : Z :=
  cat 12 (repb 52 (instr@[31])) (cat 5 (instr@[31:25]) (instr@[11:7])).
Definition imm_b (instr : Z) : Z :=
  cat 13 (repb 51 (instr@[31]))
    (cat 12 (Z.b2z (instr@[31]))
       (cat 11 (Z.b2z (instr@[7]))
          (cat 5 (instr@[30:25]) (cat 1 (instr@[11:8]) 0)))).
Definition imm_u (instr : Z) : Z := cat 32 (repb 32 (instr@[31])) (cat 12 (instr@[31:12]) 0).
Definition imm_j (instr : Z) : Z :=
  cat 21 (repb 43 (instr@[31]))
    (cat 20 (Z.b2z (instr@[31]))
       (cat 12 (instr@[19:12])
          (cat 11 (Z.b2z (instr@[20])) (cat 1 (instr@[30:21]) 0)))).

(** ** Main decode *)

(** Register fields and the default value of every control signal. *)
Definition dec_default (instr : Z) : dec_out :=
  {| rs1_addr := if instr@[6:0] =? opcode_enc OPCODE_LUI then 0 else instr@[19:15];
     rs2_addr := instr@[24:20];
     imm := 0;
     ex_c := ex_ctl_nop;
     mem_c := mem_ctl_nop;
     wb_c := wb_ctl_nop <| rd_addr := instr@[11:7] |>;
     sys_c := sys_ctl_nop;
     fence_c := fence_ctl_nop |}.

Definition set_ex (f : ex_ctl -> ex_ctl) (d : dec_out) : dec_out := d <| ex_c := f (ex_c d) |>.
Definition set_mem (f : mem_ctl -> mem_ctl) (d : dec_out) : dec_out := d <| mem_c := f (mem_c d) |>.
Definition set_wb (f : wb_ctl -> wb_ctl) (d : dec_out) : dec_out := d <| wb_c := f (wb_c d) |>.
Definition set_sys (f : sys_ctl -> sys_ctl) (d : dec_out) : dec_out := d <| sys_c := f (sys_c d) |>.
Definition set_fence (f : fence_ctl -> fence_ctl) (d : dec_out) : dec_out :=
  d <| fence_c := f (fence_c d) |>.

Definition write_reg : dec_out -> dec_out := set_wb (fun w => w <| reg_write_en := true |>).
Definition writeback (sel : Z) : dec_out -> dec_out := set_wb (fun w => w <| wb_sel := sel |>).
Definition illegal : dec_out -> dec_out := set_sys (fun s => s <| illegal_instr := true |>).
(** Operand selection and ALU operation. *)
Definition operands (src1 src2 : bool) (op : alu_op_t) : dec_out -> dec_out :=
  set_ex (fun e => e <| alu_src1_sel := src1 |> <| alu_src2_sel := src2 |> <| alu_op := op |>).
Definition word_op : dec_out -> dec_out := set_ex (fun e => e <| is_word_op := true |>).
Definition immediate (v : Z) (d : dec_out) : dec_out := d <| imm := v |>.

(** [OPCODE_OP_IMM]: every [funct3] selects an operation. *)
Definition decode_op_imm (funct3 funct7 : Z) : alu_op_t :=
  match funct3 with
  | 0 => ALU_ADD
  | 2 => ALU_SLT
  | 3 => ALU_SLTU
  | 4 => ALU_XOR
  | 6 => ALU_OR
  | 7 => ALU_AND
  | 1 => ALU_SLL
  | 5 => if funct7@[5] then ALU_SRA else ALU_SRL
  | _ => ALU_ADD
  end.

(** [OPCODE_OP] outside the M extension. *)
Definition decode_op (funct3 funct7 : Z) : alu_op_t :=
  match funct3 with
  | 0 => if funct7@[5] then ALU_SUB else ALU_ADD
  | 1 => ALU_SLL
  | 2 => ALU_SLT
  | 3 => ALU_SLTU
  | 4 => ALU_XOR
  | 5 => if funct7@[5] then ALU_SRA else ALU_SRL
  | 6 => ALU_OR
  | 7 => ALU_AND
  | _ => ALU_ADD
  end.

(** [OPCODE_OP_IMM_32]; [None] is its illegal default. *)
Definition decode_op_imm_32 (funct3 funct7 : Z) : option alu_op_t :=
  match funct3 with
  | 0 => Some ALU_ADD
  | 1 => Some ALU_SLL
  | 5 => Some (if funct7@[5] then ALU_SRA else ALU_SRL)
  | _ => None
  end.

(** [OPCODE_OP_32] outside the M extension; [None] is its illegal default. *)
Definition decode_op_32 (funct3 funct7 : Z) : option alu_op_t :=
  match funct3 with
  | 0 => Some (if funct7@[5] then ALU_SUB else ALU_ADD)
  | 1 => Some ALU_SLL
  | 5 => Some (if funct7@[5] then ALU_SRA else ALU_SRL)
  | _ => None
  end.

(** A word operation, or the illegal default of its [case]. *)
Definition word_alu (src2 : bool) (op : option alu_op_t) (d : dec_out) : dec_out :=
  match op with
  | Some o => operands false src2 o d
  | None => illegal (operands false src2 ALU_ADD d)
  end.

(** [OPCODE_SYSTEM] with [funct3 = 000]: the privileged instructions. *)
Definition decode_priv (instr priv_mode : Z) (d : dec_out) : dec_out :=
  let funct7 := instr@[31:25] in
  let funct12 := cat 5 funct7 (instr@[24:20]) in
  if funct12 =? 0x000 then set_sys (fun s => s <| is_ecall := true |>) d
  else if funct12 =? 0x001 then set_sys (fun s => s <| is_ebreak := true |>) d
  else if funct12 =? 0x302 then
    (if priv_mode =? PRIV_MODE_M then set_sys (fun s => s <| is_mret := true |>) d else illegal d)
  else if funct12 =? 0x102 then
    (if priv_ge priv_mode PRIV_MODE_S then set_sys (fun s => s <| is_sret := true |>) d
     else illegal d)
  else if funct12 =? 0x105 then set_fence (fun f => f <| is_wfi := true |>) d
  else if funct7 =? 0x09 then
    (if priv_ge priv_mode PRIV_MODE_S then set_fence (fun f => f <| is_sfence_vma := true |>) d
     else illegal d)
  else illegal d.

(** [OPCODE_SYSTEM] with [funct3 <> 000]: the CSR instructions. *)
Definition decode_csr (instr priv_mode : Z) (d : dec_out) : dec_out :=
  let d := immediate (imm_i instr)
             (set_sys (fun s => s <| is_csr := true |> <| csr_op := instr@[14:12] |>)
                (write_reg d)) in
  if csr_access_allowed priv_mode (instr@[31:20]) then d
  else illegal (set_sys (fun s => s <| is_csr := false |>)
                  (set_wb (fun w => w <| reg_write_en := false |>) d)).

(** [module decoder] *)
Definition decoder (instr priv_mode : Z) : dec_out :=
  let funct3 := instr@[14:12] in
  let funct7 := instr@[31:25] in
  let d := dec_default instr in
  match opcode_dec (instr@[6:0]) with
  | Some OPCODE_LUI =>
      immediate (imm_u instr) (operands false true ALU_ADD (write_reg d))
  | Some OPCODE_AUIPC =>
      immediate (imm_u instr) (operands true true ALU_ADD (write_reg d))
  | Some OPCODE_JAL =>
      writeback 2 (immediate (imm_j instr) (operands true true ALU_ADD
        (set_ex (fun e => e <| is_jump := true |>) (write_reg d))))
  | Some OPCODE_JALR =>
      writeback 2 (immediate (imm_i instr) (operands false true ALU_ADD
        (set_ex (fun e => e <| is_jump := true |>) (write_reg d))))
  | Some OPCODE_BRANCH =>
      immediate (imm_b instr) (operands true true ALU_ADD
        (set_ex (fun e => e <| is_branch := true |> <| branch_op := funct3 |>) d))
  | Some OPCODE_LOAD =>
      writeback 1 (immediate (imm_i instr) (operands false true ALU_ADD
        (set_mem (fun m => m <| is_load := true |> <| mem_size := funct3 |>) (write_reg d))))
  | Some OPCODE_STORE =>
      immediate (imm_s instr) (operands false true ALU_ADD
        (set_mem (fun m => m <| is_store := true |> <| mem_size := funct3 |>) d))
  | Some OPCODE_OP_IMM =>
      immediate (imm_i instr) (operands false true (decode_op_imm funct3 funct7) (write_reg d))
  | Some OPCODE_OP_IMM_32 =>
      immediate (imm_i instr)
        (word_alu true (decode_op_imm_32 funct3 funct7) (word_op (write_reg d)))
  | Some OPCODE_OP =>
      if funct7 =? 0x01 then illegal (write_reg d)
      else operands false false (decode_op funct3 funct7) (write_reg d)
  | Some OPCODE_OP_32 =>
      if funct7 =? 0x01 then illegal (word_op (write_reg d))
      else word_alu false (decode_op_32 funct3 funct7) (word_op (write_reg d))
  | Some OPCODE_MISC_MEM =>
      match funct3 with
      | 0 => set_fence (fun f => f <| is_fence := true |>) d
      | 1 => set_fence (fun f => f <| is_fence_i := true |>) d
      | _ => illegal d
      end
  | Some OPCODE_SYSTEM =>
      if funct3 =? 0 then decode_priv instr priv_mode d else decode_csr instr priv_mode d
  | Some OPCODE_AMO => illegal d
  | Some (OPCODE_LOAD_FP | OPCODE_STORE_FP | OPCODE_MADD | OPCODE_MSUB | OPCODE_NMSUB
         | OPCODE_NMADD | OPCODE_OP_FP) => illegal d
  | Some (OPCODE_CUSTOM_0 | OPCODE_CUSTOM_1 | OPCODE_CUSTOM_2 | OPCODE_CUSTOM_3) | None =>
      illegal d
  end.
