(* ===== verification/RegFile.v ===== *)
(** * Register file: [rtl/core/regfile.sv] *)

From S2P Require Import Prelude.

(** [logic [XLEN-1:0] regs [0:31]] *)
Abbreviation regs_t := (list Z).

Definition regs_reset : regs_t := replicate 32 0.

(** The array read [regs[a]]; an address is five bits wide, so it is always in range. *)
Definition reg_get (regs : regs_t) (a : Z) : Z := default 0 (regs !! Z.to_nat a).

(** The asynchronous read port, with the internal bypass of the port being written. *)
Definition reg_read (regs : regs_t) (rs_addr : Z) (reg_write_en : bool) (rd_addr rd_wdata : Z) : Z :=
  if rs_addr =? 0 then 0
  else if (rs_addr =? rd_addr) && reg_write_en then rd_wdata
  else reg_get regs rs_addr.

(** The write port at a clock edge with [rst] low. *)
Definition reg_write (regs : regs_t) (reg_write_en : bool) (rd_addr rd_wdata : Z) : regs_t :=
  if reg_write_en && negb (rd_addr =? 0) then <[Z.to_nat rd_addr := rd_wdata]> regs else regs.

(** [always_ff @(posedge clk)] *)
Definition regfile_next (rst : bool) (regs : regs_t) (reg_write_en : bool) (rd_addr rd_wdata : Z)
  : regs_t :=
  if rst then regs_reset else reg_write regs reg_write_en rd_addr rd_wdata.

(** Shape of the array: 32 registers, [x0] never written. *)
Record regs_ok (regs : regs_t) : Prop := {
  regs_length : length regs = 32%nat;
  regs_x0 : reg_get regs 0 = 0
}.

(** Every register holds a 64-bit value. *)
Definition regs_range (regs : regs_t) : Prop := Forall (is_bv 64) regs.

(** ** Lemmas *)

Lemma reg_get_replicate n a : reg_get (replicate n 0) a = 0.
Proof.
  unfold reg_get. destruct (replicate n 0 !! Z.to_nat a) eqn:E; [|done].
  by apply lookup_replicate_1 in E as [-> _].
Qed.

Lemma regs_reset_ok : regs_ok regs_reset.
Proof. done. Qed.

Lemma regs_reset_range : regs_range regs_reset.
Proof. apply Forall_replicate, zero_bv; lia. Qed.

Lemma reg_get_bv regs a : regs_range regs -> is_bv 64 (reg_get regs a).
Proof.
  intros Hr. unfold reg_get. destruct (regs !! Z.to_nat a) eqn:E; [|apply zero_bv; lia].
  by apply (Forall_lookup_1 _ _ _ _ Hr E).
Qed.

(** A write port is harmless when it is disabled or points at [x0]. *)
Lemma reg_write_quiet regs we rd w : we = false \/ rd = 0 -> reg_write regs we rd w = regs.
Proof. intros [->| ->]; unfold reg_write; [done|]. by rewrite andb_false_r. Qed.

Lemma reg_get_write regs we rd w a :
  regs_ok regs -> is_bv 5 rd -> is_bv 5 a ->
  reg_get (reg_write regs we rd w) a =
  if we && negb (rd =? 0) && (rd =? a) then w else reg_get regs a.
Proof.
  intros Hok Hrd Ha. unfold reg_write.
  destruct (we && negb (rd =? 0)) eqn:E; [|done]. cbn [andb]. unfold reg_get.
  destruct (rd =? a) eqn:E2; reflect_bools; subst.
  - rewrite list_lookup_insert_eq; [done|]. rewrite regs_length by done. bv_lia.
  - rewrite list_lookup_insert_ne by bv_lia. done.
Qed.

(** The combinational read already sees the value the edge will store. *)
Lemma reg_read_bypass regs rs we rd w :
  regs_ok regs -> is_bv 5 rs -> we = false \/ is_bv 5 rd ->
  reg_read regs rs we rd w = reg_get (reg_write regs we rd w) rs.
Proof.
  intros Hok Hrs Hrd. unfold reg_read. destruct Hrd as [->|Hrd].
  - rewrite reg_write_quiet by auto. rewrite andb_false_r.
    destruct (rs =? 0) eqn:E; [|done]. reflect_bools; subst. by rewrite regs_x0.
  - rewrite reg_get_write, (Z.eqb_sym rd rs) by done.
    destruct (rs =? 0) eqn:E0; reflect_bools; subst.
    + rewrite regs_x0 by done.
      destruct (0 =? rd) eqn:E1; reflect_bools; subst; rewrite ?andb_false_r; done.
    + destruct (rs =? rd) eqn:E1; reflect_bools; subst; rewrite ?andb_false_r; [|done].
      rewrite (proj2 (Z.eqb_neq rd 0)) by done. by destruct we.
Qed.

Lemma reg_write_ok regs we rd w : regs_ok regs -> is_bv 5 rd -> regs_ok (reg_write regs we rd w).
Proof.
  intros Hok Hrd. split.
  - unfold reg_write. case_bools; [rewrite length_insert|]; by apply regs_length.
  - rewrite reg_get_write by (done || bv_lia).
    destruct (_ && (rd =? 0)) eqn:E; [|by apply regs_x0].
    reflect_bools; subst; done.
Qed.

Lemma reg_write_range regs we rd w :
  regs_range regs -> is_bv 64 w -> regs_range (reg_write regs we rd w).
Proof.
  intros Hr Hw. unfold reg_write. case_bools; [|done]. by apply Forall_insert.
Qed.

Lemma reg_read_bv regs rs we rd w :
  regs_range regs -> is_bv 64 w -> is_bv 64 (reg_read regs rs we rd w).
Proof.
  intros. unfold reg_read. case_bools; [apply zero_bv; lia|done|by apply reg_get_bv].
Qed.
