(* ===== verification/HazardUnit.v ===== *)
(** * Hazard unit: [rtl/core/hazard_unit.sv] *)

From S2P Require Import Prelude.

Record hu_in := mk_hu_in {
  hi_id_rs1_addr : Z;
  hi_id_rs2_addr : Z;
  hi_ex_rs1_addr : Z;
  hi_ex_rs2_addr : Z;
  hi_ex_rd_addr : Z;
  hi_ex_reg_write_en : bool;
  hi_ex_is_load : bool;
  hi_ex_branch_taken : bool;
  hi_ex_branch_target : Z;
  hi_mem_rd_addr : Z;
  hi_mem_reg_write_en : bool;
  hi_mem_stall_req : bool;
  hi_trap_flush_req : bool;
  hi_trap_pc_sel : bool;
  hi_trap_target_pc : Z;
  hi_wb_rd_addr : Z;
  hi_wb_reg_write_en : bool
}.

(** Stall and flush controls. *)
Record hu_ctl := mk_hu_ctl {
  if_stall_en : bool;
  if_id_stall_en : bool;
  id_ex_stall_en : bool;
  ex_mem_stall_en : bool;
  if_id_flush_en : bool;
  id_ex_flush_en : bool
}.

(** PC redirect. *)
Record hu_redirect := mk_hu_redirect {
  pc_redirect_sel : bool;
  pc_redirect_target : Z;
  pc_redirect_is_trap : bool
}.

Record hu_out := mk_hu_out {
  forward_a_sel : Z;
  forward_b_sel : Z;
  hu_c : hu_ctl;
  hu_r : hu_redirect
}.

#[global] Instance settable_hu_ctl : Settable hu_ctl :=
  fun r => mk_hu_ctl (if_stall_en r) (if_id_stall_en r) (id_ex_stall_en r) (ex_mem_stall_en r)
             (if_id_flush_en r) (id_ex_flush_en r).

(** One operand's forwarding select: 0 none, 1 from MEM, 2 from WB. *)
Definition forward_sel (i : hu_in) (ex_rs_addr : Z) : Z :=
  if hi_mem_reg_write_en i && negb (hi_mem_rd_addr i =? 0) && (hi_mem_rd_addr i =? ex_rs_addr)
  then 1
  else if hi_wb_reg_write_en i && negb (hi_wb_rd_addr i =? 0) && (hi_wb_rd_addr i =? ex_rs_addr)
  then 2
  else 0.

Definition load_use_stall (i : hu_in) : bool :=
  hi_ex_is_load i && negb (hi_ex_rd_addr i =? 0) &&
  ((hi_ex_rd_addr i =? hi_id_rs1_addr i) || (hi_ex_rd_addr i =? hi_id_rs2_addr i)).

Definition redirect (i : hu_in) : hu_redirect :=
  if hi_trap_pc_sel i then
    {| pc_redirect_sel := true; pc_redirect_target := hi_trap_target_pc i;
       pc_redirect_is_trap := true |}
  else if hi_ex_branch_taken i then
    {| pc_redirect_sel := true; pc_redirect_target := hi_ex_branch_target i;
       pc_redirect_is_trap := false |}
  else
    {| pc_redirect_sel := false; pc_redirect_target := 0; pc_redirect_is_trap := false |}.

Definition hu_ctl_idle : hu_ctl :=
  {| if_stall_en := false; if_id_stall_en := false; id_ex_stall_en := false;
     ex_mem_stall_en := false; if_id_flush_en := false; id_ex_flush_en := false |}.

(** (1) memory stall, (2) load-use stall, (3) taken branch; a trap overrides them all. *)
Definition stall_flush (i : hu_in) : hu_ctl :=
  if hi_trap_flush_req i then hu_ctl_idle <| if_id_flush_en := true |> <| id_ex_flush_en := true |>
  else
    let c := hu_ctl_idle in
    let c := if hi_mem_stall_req i then
               c <| if_stall_en := true |> <| if_id_stall_en := true |>
                 <| id_ex_stall_en := true |> <| ex_mem_stall_en := true |>
             else c in
    let c := if load_use_stall i && negb (hi_mem_stall_req i) then
               c <| if_stall_en := true |> <| if_id_stall_en := true |>
                 <| id_ex_flush_en := true |>
             else c in
    if hi_ex_branch_taken i then
      c <| if_id_flush_en := true |> <| id_ex_flush_en := true |>
        <| if_stall_en := false |> <| if_id_stall_en := false |>
    else c.

(** [module hazard_unit] *)
Definition hazard_unit (i : hu_in) : hu_out :=
  {| forward_a_sel := forward_sel i (hi_ex_rs1_addr i);
     forward_b_sel := forward_sel i (hi_ex_rs2_addr i);
     hu_c := stall_flush i;
     hu_r := redirect i |}.

(** ** Properties *)

(** Stall and flush controls.  When memory is ready and the trap controller's flush and
    redirect requests agree, no register is stalled and flushed at once, the program counter is
    held exactly when IF/ID is, a held front end always sends a bubble into EX, and every
    redirect of the fetch, to the trap target first, empties IF/ID and ID/EX and holds
    nothing. *)
Theorem hazard_controls_consistent i :
  hi_mem_stall_req i = false -> hi_trap_flush_req i = hi_trap_pc_sel i ->
  let c := hu_c (hazard_unit i) in
  let r := hu_r (hazard_unit i) in
  if_id_stall_en c && if_id_flush_en c = false /\
  id_ex_stall_en c && id_ex_flush_en c = false /\
  if_stall_en c = if_id_stall_en c /\
  (if_id_stall_en c = true -> id_ex_flush_en c = true) /\
  (pc_redirect_sel r = true ->
     if_id_flush_en c = true /\ id_ex_flush_en c = true /\ if_stall_en c = false) /\
  (hi_trap_pc_sel i = true -> pc_redirect_target r = hi_trap_target_pc i).
Proof.
  intros Hm Ht c r. subst c r. unfold hazard_unit, stall_flush, redirect; cbn [hu_c hu_r].
  rewrite Hm, Ht. destruct (hi_trap_pc_sel i), (load_use_stall i), (hi_ex_branch_taken i); done.
Qed.

(** A jump resolved during a memory stall would be lost.  With a memory stall request and a
    taken jump in EX, the unit freezes EX/MEM and at the same time flushes ID/EX, which holds the
    jump: its link register is never written.  [richard_core] ties the memory handshake to
    ready, so the state is not reached in this core. *)
Theorem hazard_jump_lost_on_mem_stall i :
  hi_trap_flush_req i = false -> hi_mem_stall_req i = true -> hi_ex_branch_taken i = true ->
  let c := hu_c (hazard_unit i) in
  ex_mem_stall_en c = true /\ id_ex_flush_en c = true.
Proof.
  intros Ht Hm Hb. unfold hazard_unit, stall_flush; cbn [hu_c]. by rewrite Ht, Hm, Hb, andb_false_r.
Qed.

(** ** Witnesses *)

(** A load in EX whose destination the instruction in ID reads. *)
Definition demo_load_use : hu_in :=
  mk_hu_in 5 0 0 0 5 true true false 0 0 false false false false 0 0 false.

Lemma hazard_controls_consistent_witness :
  if_id_stall_en (hu_c (hazard_unit demo_load_use)) = true /\
  id_ex_flush_en (hu_c (hazard_unit demo_load_use)) = true.
Proof.
  destruct (hazard_controls_consistent demo_load_use) as (_ & _ & _ & H & _); [reflexivity..|].
  split; [reflexivity|apply H; reflexivity].
Defined.

Definition demo_stalled_jump : hu_in :=
  mk_hu_in 0 0 0 0 1 true false true 64 0 false true false false 0 0 false.

Lemma hazard_jump_lost_on_mem_stall_witness :
  ex_mem_stall_en (hu_c (hazard_unit demo_stalled_jump)) = true /\
  id_ex_flush_en (hu_c (hazard_unit demo_stalled_jump)) = true.
Proof. apply (hazard_jump_lost_on_mem_stall demo_stalled_jump); reflexivity. Defined.
