(* ===== verification/PipeRegs.v ===== *)
(** * Fetch stage and pipeline registers

    [rtl/core/if_stage.sv], [if_id_reg.sv], [id_ex_reg.sv], [ex_mem_reg.sv] and
    [mem_wb_reg.sv].  Each [*_next] is the module's [always_ff] block: the register's value
    after a clock edge, from its value before it and the inputs sampled at the edge. *)

From S2P Require Import Prelude Rv64Pkg Decoder.

(** ** [module if_stage] *)

Definition RESET_PC : Z := 0x80000000.

Definition pc_next (rst stall_en pc_redirect_sel : bool) (pc_redirect_target : Z)
    (pc_redirect_is_trap : bool) (pc_reg : Z) : Z :=
  if rst then RESET_PC
  else if pc_redirect_sel && pc_redirect_is_trap then pc_redirect_target
  else if negb stall_en then
    (if pc_redirect_sel then pc_redirect_target else add64 pc_reg 4)
  else pc_reg.

(** ** [module if_id_reg] *)

Definition NOP_INSTR : Z := 0x00000013.

Record if_id := mk_if_id { id_pc : Z; id_instr : Z }.

Definition if_id_reset : if_id := {| id_pc := 0; id_instr := NOP_INSTR |}.

Definition if_id_next (rst stall_en flush_en : bool) (if_pc if_instr : Z) (r : if_id) : if_id :=
  if rst then if_id_reset
  else if flush_en then if_id_reset
  else if negb stall_en then {| id_pc := if_pc; id_instr := if_instr |}
  else r.

(** ** [module id_ex_reg] *)

Record id_ex := mk_id_ex {
  ex_instr : Z;
  ex_pc : Z;
  ex_rs1_rdata : Z;
  ex_rs2_rdata : Z;
  ex_dec : dec_out
}.

#[global] Instance settable_id_ex : Settable id_ex :=
  fun r => mk_id_ex (ex_instr r) (ex_pc r) (ex_rs1_rdata r) (ex_rs2_rdata r) (ex_dec r).

Definition dec_reset : dec_out :=
  {| rs1_addr := 0; rs2_addr := 0; imm := 0; ex_c := ex_ctl_nop; mem_c := mem_ctl_nop;
     wb_c := wb_ctl_nop; sys_c := sys_ctl_nop; fence_c := fence_ctl_nop |}.

(** A flush clears the control bundles and keeps the addresses and the immediate. *)
Definition dec_flush (d : dec_out) : dec_out :=
  {| rs1_addr := rs1_addr d; rs2_addr := rs2_addr d; imm := imm d; ex_c := ex_ctl_nop;
     mem_c := mem_ctl_nop; wb_c := wb_ctl_nop; sys_c := sys_ctl_nop; fence_c := fence_ctl_nop |}.

Definition id_ex_reset : id_ex :=
  {| ex_instr := 0; ex_pc := 0; ex_rs1_rdata := 0; ex_rs2_rdata := 0; ex_dec := dec_reset |}.

Definition id_ex_next (rst stall_en flush_en : bool) (i r : id_ex) : id_ex :=
  if rst then id_ex_reset
  else if flush_en then r <| ex_instr := 0 |> <| ex_dec := dec_flush (ex_dec r) |>
  else if negb stall_en then i
  else r.

(** ** [module ex_mem_reg] *)

Record ex_mem := mk_ex_mem {
  mem_alu_result : Z;
  mem_branch_taken : bool;
  mem_branch_target : Z;
  mem_rs1_rdata : Z;
  mem_rs2_rdata : Z;
  mem_rs1_addr : Z;
  mem_pc : Z;
  mem_imm : Z;
  mem_instr : Z;
  mem_mc : mem_ctl;
  mem_wc : wb_ctl;
  mem_sc : sys_ctl;
  mem_fc : fence_ctl
}.

#[global] Instance settable_ex_mem : Settable ex_mem :=
  fun r => mk_ex_mem (mem_alu_result r) (mem_branch_taken r) (mem_branch_target r)
             (mem_rs1_rdata r) (mem_rs2_rdata r) (mem_rs1_addr r) (mem_pc r) (mem_imm r)
             (mem_instr r) (mem_mc r) (mem_wc r) (mem_sc r) (mem_fc r).

Definition ex_mem_reset : ex_mem :=
  {| mem_alu_result := 0; mem_branch_taken := false; mem_branch_target := 0;
     mem_rs1_rdata := 0; mem_rs2_rdata := 0; mem_rs1_addr := 0; mem_pc := 0; mem_imm := 0;
     mem_instr := 0; mem_mc := mem_ctl_nop; mem_wc := wb_ctl_nop; mem_sc := sys_ctl_nop;
     mem_fc := fence_ctl_nop |}.

Definition ex_mem_next (rst stall_en flush_en : bool) (i r : ex_mem) : ex_mem :=
  if rst then ex_mem_reset
  else if flush_en then
    r <| mem_instr := 0 |> <| mem_branch_taken := false |> <| mem_mc := mem_ctl_nop |>
      <| mem_wc := wb_ctl_nop |> <| mem_sc := sys_ctl_nop |> <| mem_fc := fence_ctl_nop |>
  else if negb stall_en then i
  else r.

(** ** [module mem_wb_reg] *)

Record mem_wb := mk_mem_wb {
  wb_pc : Z;
  wb_alu_result : Z;
  wb_mem_rdata : Z;
  wb_instr : Z;
  wb_wc : wb_ctl;
  wb_sc : sys_ctl;
  wb_rs1_rdata : Z;
  wb_rs1_addr : Z;
  wb_imm : Z;
  wb_load_fault : bool;
  wb_store_fault : bool;
  wb_fault_addr : Z
}.

#[global] Instance settable_mem_wb : Settable mem_wb :=
  fun r => mk_mem_wb (wb_pc r) (wb_alu_result r) (wb_mem_rdata r) (wb_instr r) (wb_wc r)
             (wb_sc r) (wb_rs1_rdata r) (wb_rs1_addr r) (wb_imm r) (wb_load_fault r)
             (wb_store_fault r) (wb_fault_addr r).

Definition mem_wb_reset : mem_wb :=
  {| wb_pc := 0; wb_alu_result := 0; wb_mem_rdata := 0; wb_instr := 0; wb_wc := wb_ctl_nop;
     wb_sc := sys_ctl_nop; wb_rs1_rdata := 0; wb_rs1_addr := 0; wb_imm := 0;
     wb_load_fault := false; wb_store_fault := false; wb_fault_addr := 0 |}.

(** The flush clears the listed control signals only: [rd_addr], [wb_sel] and [csr_op] stay. *)
Definition mem_wb_flush (r : mem_wb) : mem_wb :=
  r <| wb_wc := wb_wc r <| reg_write_en := false |> |>
    <| wb_sc := sys_ctl_nop <| csr_op := csr_op (wb_sc r) |> |>
    <| wb_load_fault := false |> <| wb_store_fault := false |> <| wb_fault_addr := 0 |>.

Definition mem_wb_next (rst stall_en flush_en : bool) (i r : mem_wb) : mem_wb :=
  if rst then mem_wb_reset
  else if flush_en then mem_wb_flush r
  else if negb stall_en then i
  else r.
