(* ===== verification/MemStage.v ===== *)
(** * Memory stage: [rtl/core/mem_stage.sv] *)

From S2P Require Import Prelude Rv64Pkg Decoder PipeRegs.

Definition addr_misaligned (size addr : Z) : bool :=
  match size with
  | 0 | 4 => false
  | 1 | 5 => addr@[0]
  | 2 | 6 => negb (addr@[1:0] =? 0)
  | 3 => negb (addr@[2:0] =? 0)
  | _ => false
  end.

(** Store data moved to its byte lanes, and the byte strobes. *)
Definition store_align (is_store : bool) (size addr rs2_rdata : Z) : Z * Z :=
  let align_offset := addr@[2:0] in
  if is_store then
    match size with
    | 0 => (wrap 64 (Z.shiftl (rs2_rdata@[7:0]) (align_offset * 8)),
            wrap 8 (Z.shiftl 0x01 align_offset))
    | 1 => (wrap 64 (Z.shiftl (rs2_rdata@[15:0]) (align_offset * 8)),
            wrap 8 (Z.shiftl 0x03 align_offset))
    | 2 => (wrap 64 (Z.shiftl (rs2_rdata@[31:0]) (align_offset * 8)),
            wrap 8 (Z.shiftl 0x0F align_offset))
    | 3 => (rs2_rdata, 0xFF)
    | _ => (0, 0)
    end
  else (0, 0).

(** Load data moved down and extended. *)
Definition load_align (size addr dmem_rdata : Z) : Z :=
  let align_offset := addr@[2:0] in
  let shifted_rdata := Z.shiftr dmem_rdata (align_offset * 8) in
  match size with
  | 0 => cat 8 (repb 56 (shifted_rdata@[7])) (shifted_rdata@[7:0])
  | 1 => cat 16 (repb 48 (shifted_rdata@[15])) (shifted_rdata@[15:0])
  | 2 => cat 32 (repb 32 (shifted_rdata@[31])) (shifted_rdata@[31:0])
  | 3 => shifted_rdata
  | 4 => shifted_rdata@[7:0]
  | 5 => shifted_rdata@[15:0]
  | 6 => shifted_rdata@[31:0]
  | _ => 0
  end.

(** The request half: it depends on the EX/MEM register only. *)
Record dmem_req := mk_dmem_req {
  dmem_read_req : bool;
  dmem_write_req : bool;
  dmem_addr : Z;
  dmem_wdata : Z;
  dmem_wstrb : Z
}.

Definition load_addr_misaligned (m : ex_mem) : bool :=
  is_load (mem_mc m) && addr_misaligned (mem_size (mem_mc m)) (mem_alu_result m).
Definition store_addr_misaligned (m : ex_mem) : bool :=
  is_store (mem_mc m) && addr_misaligned (mem_size (mem_mc m)) (mem_alu_result m).

Definition mem_request (m : ex_mem) : dmem_req :=
  let st := store_align (is_store (mem_mc m)) (mem_size (mem_mc m)) (mem_alu_result m)
              (mem_rs2_rdata m) in
  {| dmem_read_req := is_load (mem_mc m) && negb (load_addr_misaligned m);
     dmem_write_req := is_store (mem_mc m) && negb (store_addr_misaligned m);
     dmem_addr := mem_alu_result m;
     dmem_wdata := fst st;
     dmem_wstrb := snd st |}.

Definition mem_stall (m : ex_mem) (dmem_req_ready dmem_rsp_valid : bool) : bool :=
  (is_load (mem_mc m) || is_store (mem_mc m)) &&
  (negb dmem_req_ready || (is_load (mem_mc m) && negb dmem_rsp_valid)).

(** The response half: what MEM/WB latches. *)
Definition mem_result (m : ex_mem) (dmem_rdata : Z) : mem_wb :=
  {| wb_pc := mem_pc m;
     wb_alu_result := mem_alu_result m;
     wb_mem_rdata := load_align (mem_size (mem_mc m)) (mem_alu_result m) dmem_rdata;
     wb_instr := mem_instr m;
     wb_wc := mem_wc m;
     wb_sc := mem_sc m;
     wb_rs1_rdata := mem_rs1_rdata m;
     wb_rs1_addr := mem_rs1_addr m;
     wb_imm := mem_imm m;
     wb_load_fault := load_addr_misaligned m;
     wb_store_fault := store_addr_misaligned m;
     wb_fault_addr :=
       if load_addr_misaligned m || store_addr_misaligned m then mem_alu_result m else 0 |}.

(** [module mem_stage] *)
Definition mem_stage (m : ex_mem) (dmem_req_ready dmem_rsp_valid : bool) (dmem_rdata : Z)
  : dmem_req * mem_wb * bool :=
  (mem_request m, mem_result m dmem_rdata, mem_stall m dmem_req_ready dmem_rsp_valid).
