(* ===== verification/WbStage.v ===== *)
(** * Write-back stage: [rtl/core/wb_stage.sv]

    The module has a combinational path out to the CSR unit and one back; it is modelled as
    its CSR request, which does not depend on the CSR unit's answer, and its results, which
    do. *)

From S2P Require Import Prelude Rv64Pkg Decoder PipeRegs.

Record csr_request := mk_csr_request {
  cq_req : bool;
  cq_op : Z;
  cq_addr : Z;
  cq_rs1_data : Z
}.

Definition wb_has_trap (w : mem_wb) : bool :=
  illegal_instr (wb_sc w) || is_ecall (wb_sc w) || is_ebreak (wb_sc w) ||
  wb_load_fault w || wb_store_fault w.

Definition wb_csr_request (w : mem_wb) : csr_request :=
  {| cq_req := is_csr (wb_sc w) && negb (wb_has_trap w);
     cq_op := csr_op (wb_sc w);
     cq_addr := (wb_imm w)@[11:0];
     cq_rs1_data := if (csr_op (wb_sc w))@[2] then wb_rs1_addr w else wb_rs1_rdata w |}.

(** The trap bus to the trap controller. *)
Record trap_bus := mk_trap_bus {
  trap_illegal_instr : bool;
  trap_is_ecall : bool;
  trap_is_ebreak : bool;
  trap_is_mret : bool;
  trap_is_sret : bool;
  trap_epc : Z;
  trap_load_fault : bool;
  trap_store_fault : bool;
  trap_bad_addr : Z;
  trap_bad_instr : Z
}.

Record wb_out := mk_wb_out {
  wo_rd_wdata : Z;
  wo_rd_addr : Z;
  wo_reg_write_en : bool;
  wo_trap : trap_bus
}.

Definition wb_mux (w : mem_wb) (mem_wb_pc_plus_4 csr_rdata : Z) : Z :=
  if is_csr (wb_sc w) then csr_rdata
  else match wb_sel (wb_wc w) with
       | 0 => wb_alu_result w
       | 1 => wb_mem_rdata w
       | 2 => mem_wb_pc_plus_4
       | _ => 0
       end.

(** [module wb_stage] *)
Definition wb_stage (w : mem_wb) (mem_wb_pc_plus_4 csr_rdata : Z) (csr_illegal_access : bool)
  : wb_out :=
  {| wo_rd_wdata := wb_mux w mem_wb_pc_plus_4 csr_rdata;
     wo_rd_addr := rd_addr (wb_wc w);
     wo_reg_write_en :=
       reg_write_en (wb_wc w) && negb (wb_has_trap w || csr_illegal_access);
     wo_trap :=
       {| trap_illegal_instr := illegal_instr (wb_sc w) || csr_illegal_access;
          trap_is_ecall := is_ecall (wb_sc w);
          trap_is_ebreak := is_ebreak (wb_sc w);
          trap_is_mret := is_mret (wb_sc w);
          trap_is_sret := is_sret (wb_sc w);
          trap_epc := wb_pc w;
          trap_load_fault := wb_load_fault w;
          trap_store_fault := wb_store_fault w;
          trap_bad_addr := wb_fault_addr w;
          trap_bad_instr := wb_instr w |} |}.
