(* ===== verification/TrapCtrl.v ===== *)
(** * Trap controller: [rtl/core/trap_ctrl.sv] *)

From S2P Require Import Prelude Rv64Pkg PipeRegs WbStage.

Record page_faults := mk_page_faults {
  trap_instr_page_fault : bool;
  trap_load_page_fault : bool;
  trap_store_page_fault : bool
}.

(** External interrupt lines. *)
Record irq := mk_irq { irq_timer : bool; irq_software : bool; irq_external : bool }.

Definition irq_none : irq := {| irq_timer := false; irq_software := false; irq_external := false |}.

(** What the controller reads from the CSR unit. *)
Record trap_csrs := mk_trap_csrs {
  tc_mstatus_mie : bool;
  tc_mtvec : Z;
  tc_stvec : Z;
  tc_mepc : Z;
  tc_sepc : Z;
  tc_medeleg : Z;
  tc_mideleg : Z;
  tc_priv_mode : Z
}.

Record trap_out := mk_trap_out {
  to_trigger : bool;
  to_mepc : Z;
  to_mcause : Z;
  to_mtval : Z;
  to_to_s_mode : bool;
  to_mret_en : bool;
  to_sret_en : bool;
  to_flush_req : bool;
  to_pc_sel : bool;
  to_next_pc : Z
}.

Definition INTERRUPT_BIT : Z := 2 ^ 63.

(** The synchronous exception of highest priority: its cause and trap value. *)
Definition sync_exception (wb_pc : Z) (t : trap_bus) (p : page_faults) (priv_mode : Z)
  : option (Z * Z) :=
  if trap_illegal_instr t then Some (EXC_INST_ILLEGAL, cat 32 0 (trap_bad_instr t))
  else if trap_is_ebreak t then Some (EXC_BREAKPOINT, wb_pc)
  else if trap_is_ecall t then
    Some (if priv_mode =? PRIV_MODE_U then EXC_ECALL_FROM_U
          else if priv_mode =? PRIV_MODE_S then EXC_ECALL_FROM_S
          else EXC_ECALL_FROM_M, 0)
  else if trap_load_fault t then Some (EXC_LOAD_FAULT, trap_bad_addr t)
  else if trap_store_fault t then Some (EXC_STORE_FAULT, trap_bad_addr t)
  else if trap_instr_page_fault p then Some (EXC_INSTR_PAGE_FAULT, trap_bad_addr t)
  else if trap_load_page_fault p then Some (EXC_LOAD_PAGE_FAULT, trap_bad_addr t)
  else if trap_store_page_fault p then Some (EXC_STORE_PAGE_FAULT, trap_bad_addr t)
  else None.

(** The interrupt taken, if any: masked by [MIE] only. *)
Definition pending_interrupt (mie : bool) (q : irq) : option Z :=
  if mie then
    if irq_external q then Some (Z.lor INTERRUPT_BIT INTERRUPT_M_EXTERNAL)
    else if irq_software q then Some (Z.lor INTERRUPT_BIT INTERRUPT_M_SOFTWARE)
    else if irq_timer q then Some (Z.lor INTERRUPT_BIT INTERRUPT_M_TIMER)
    else None
  else None.

(** The trap-vector target for a trap taken with base [tvec]. *)
Definition trap_vector (tvec : Z) (is_interrupt : bool) (cause_index : Z) : Z :=
  let aligned := cat 2 (tvec@[63:2]) 0 in
  if (tvec@[1:0] =? 1) && is_interrupt
  then add64 aligned (wrap 64 (Z.shiftl cause_index 2))
  else aligned.

(** [module trap_ctrl] *)
Definition trap_ctrl (wb_pc : Z) (t : trap_bus) (p : page_faults) (q : irq) (c : trap_csrs)
  : trap_out :=
  let sync := sync_exception wb_pc t p (tc_priv_mode c) in
  let intr := pending_interrupt (tc_mstatus_mie c) q in
  let trap_is_interrupt := match intr with Some _ => true | None => false end in
  let '(trap_trigger, cause, mtval) :=
    match intr, sync with
    | Some cause, _ => (true, cause, 0)
    | None, Some (cause, v) => (true, cause, v)
    | None, None => (false, 0, 0)
    end in
  let trap_cause_index := cause@[5:0] in
  let deleg_mask := if trap_is_interrupt then tc_mideleg c else tc_medeleg c in
  let delegate_to_s :=
    trap_trigger && negb (tc_priv_mode c =? PRIV_MODE_M) && deleg_mask@[trap_cause_index] in
  let mret_en := trap_is_mret t && negb trap_trigger in
  let sret_en := trap_is_sret t && negb trap_trigger in
  let trap_flush_req := trap_trigger || mret_en || sret_en in
  {| to_trigger := trap_trigger;
     to_mepc := if trap_trigger then wb_pc else 0;
     to_mcause := if trap_trigger then cause else 0;
     to_mtval := if trap_trigger then mtval else 0;
     to_to_s_mode := delegate_to_s;
     to_mret_en := mret_en;
     to_sret_en := sret_en;
     to_flush_req := trap_flush_req;
     to_pc_sel := trap_flush_req;
     to_next_pc :=
       if trap_trigger then
         trap_vector (if delegate_to_s then tc_stvec c else tc_mtvec c) trap_is_interrupt
           trap_cause_index
       else if mret_en then tc_mepc c
       else if sret_en then tc_sepc c
       else 0 |}.

(** ** Properties *)

(** What the controller takes: an interrupt before an exception. *)
Definition trap_taken (wb_pc : Z) (t : trap_bus) (p : page_faults) (q : irq) (c : trap_csrs)
  : option (bool * Z * Z) :=
  match pending_interrupt (tc_mstatus_mie c) q with
  | Some cause => Some (true, cause, 0)
  | None =>
      match sync_exception wb_pc t p (tc_priv_mode c) with
      | Some (cause, v) => Some (false, cause, v)
      | None => None
      end
  end.

Lemma trap_ctrl_none wb_pc t p q c :
  trap_taken wb_pc t p q c = None ->
  let o := trap_ctrl wb_pc t p q c in
  to_trigger o = false /\ to_mret_en o = trap_is_mret t /\ to_sret_en o = trap_is_sret t.
Proof.
  unfold trap_taken, trap_ctrl. destruct (pending_interrupt _ _); [done|].
  destruct (sync_exception _ _ _ _) as [[??]|]; [done|]. cbn. by rewrite !andb_true_r.
Qed.

(** The delegation register that applies to a cause. *)
Definition delegated (c : trap_csrs) (is_int : bool) (cause : Z) : bool :=
  negb (tc_priv_mode c =? PRIV_MODE_M) &&
  (if is_int then tc_mideleg c else tc_medeleg c)@[cause@[5:0]].

Lemma trap_ctrl_some wb_pc t p q c is_int cause v :
  trap_taken wb_pc t p q c = Some (is_int, cause, v) ->
  let o := trap_ctrl wb_pc t p q c in
  to_trigger o = true /\ to_flush_req o = true /\ to_pc_sel o = true /\
  to_mret_en o = false /\ to_sret_en o = false /\
  to_mepc o = wb_pc /\ to_mcause o = cause /\ to_mtval o = v /\
  to_to_s_mode o = delegated c is_int cause /\
  to_next_pc o = trap_vector (if delegated c is_int cause then tc_stvec c else tc_mtvec c) is_int
                   (cause@[5:0]).
Proof.
  unfold trap_taken, trap_ctrl, delegated. intros E.
  destruct (pending_interrupt _ _) as [ci|].
  - injection E as <- <- <-. cbn. by rewrite !andb_false_r.
  - destruct (sync_exception _ _ _ _) as [[cs vs]|]; [|done].
    injection E as <- <- <-. cbn. by rewrite !andb_false_r.
Qed.

Lemma trap_vector_aligned tvec is_int cause :
  is_bv 64 tvec -> is_bv 6 cause ->
  trap_vector tvec is_int cause mod 4 = 0 /\ is_bv 64 (trap_vector tvec is_int cause) /\
  trap_vector tvec is_int cause =
    if (tvec mod 4 =? 1) && is_int then wrap 64 (tvec - tvec mod 4 + 4 * cause)
    else tvec - tvec mod 4.
Proof.
  intros Ht Hc. assert (E : cat 2 (tvec@[63:2]) 0 = tvec - tvec mod 4).
  { rewrite cat_add, slice_div_mod by done. change (2 ^ 2) with 4. rewrite Z.mod_small.
    - Z.div_mod_to_equations; lia.
    - unfold is_bv in Ht. change (2 ^ (63 - 2 + 1)) with (2 ^ 62). pow2_consts.
      Z.div_mod_to_equations; lia. }
  assert (El : tvec@[1:0] = tvec mod 4) by (by apply (slice_low 2)).
  assert (Es : wrap 64 (Z.shiftl cause 2) = 4 * cause).
  { rewrite Z.shiftl_mul_pow2 by lia. rewrite wrap_small; [lia|]. bv_lia. }
  unfold trap_vector. rewrite E, El, Es. unfold add64, wrap, is_bv in *. pow2_consts.
  destruct (_ && _); (split; [|split]); try done; Z.div_mod_to_equations; lia.
Qed.

(** C10: Trap entry.  When an interrupt is enabled and pending or the retiring instruction
    raises an exception, the controller reports that cause (an interrupt first), the address of
    the retiring instruction, and jumps to the handler: the aligned base of the vector of the
    mode the trap goes to, plus four times the cause for a vectored interrupt.  A trap taken in
    machine mode is never delegated. *)
Theorem trap_ctrl_entry wb_pc t p q c is_int cause v :
  is_bv 64 (tc_mtvec c) -> is_bv 64 (tc_stvec c) ->
  trap_taken wb_pc t p q c = Some (is_int, cause, v) ->
  let o := trap_ctrl wb_pc t p q c in
  let tvec := if to_to_s_mode o then tc_stvec c else tc_mtvec c in
  to_trigger o = true /\ to_mepc o = wb_pc /\ to_mcause o = cause /\ to_mtval o = v /\
  to_flush_req o = true /\ to_pc_sel o = true /\
  (tc_priv_mode c = PRIV_MODE_M -> to_to_s_mode o = false) /\
  to_next_pc o mod 4 = 0 /\
  to_next_pc o = if (tvec mod 4 =? 1) && is_int then wrap 64 (tvec - tvec mod 4 + 4 * (cause mod 64))
                 else tvec - tvec mod 4.
Proof.
  intros Hm Hs E o tvec. destruct (trap_ctrl_some _ _ _ _ _ _ _ _ E)
    as (H1 & H2 & H3 & _ & _ & H4 & H5 & H6 & H7 & H8). fold o in H1, H2, H3, H4, H5, H6, H7, H8.
  rewrite <- H7 in H8. fold tvec in H8.
  assert (Ht : is_bv 64 tvec) by (unfold tvec; by destruct (to_to_s_mode o)).
  assert (Hc : cause@[5:0] = cause mod 64) by (by apply (slice_low 6)).
  assert (Hb : is_bv 6 (cause mod 64)) by (by apply (wrap_bv 6)).
  rewrite H8, Hc. destruct (trap_vector_aligned tvec is_int (cause mod 64) Ht Hb) as (A1 & _ & A3).
  split_and!; try done.
  - intros Hp. rewrite H7. unfold delegated. by rewrite Hp.
Qed.

(** *** Priority

    The requests for a trap, the most urgent first: whether it is raised, its cause and the value
    it reports, with the numbers of the privileged specification. *)
Definition trap_requests (wb_pc : Z) (t : trap_bus) (p : page_faults) (q : irq) (c : trap_csrs)
  : list (bool * Z * Z) :=
  [(tc_mstatus_mie c && irq_external q, 2 ^ 63 + 11, 0);
   (tc_mstatus_mie c && irq_software q, 2 ^ 63 + 3, 0);
   (tc_mstatus_mie c && irq_timer q, 2 ^ 63 + 7, 0);
   (trap_illegal_instr t, 2, trap_bad_instr t);
   (trap_is_ebreak t, 3, wb_pc);
   (trap_is_ecall t && (tc_priv_mode c =? 0), 8, 0);
   (trap_is_ecall t && (tc_priv_mode c =? 1), 9, 0);
   (trap_is_ecall t, 11, 0);
   (trap_load_fault t, 5, trap_bad_addr t);
   (trap_store_fault t, 7, trap_bad_addr t);
   (trap_instr_page_fault p, 12, trap_bad_addr t);
   (trap_load_page_fault p, 13, trap_bad_addr t);
   (trap_store_page_fault p, 15, trap_bad_addr t)].

(** The first request raised. *)
Fixpoint first_raised (l : list (bool * Z * Z)) : option (Z * Z) :=
  match l with
  | [] => None
  | (b, cause, v) :: l => if b then Some (cause, v) else first_raised l
  end.

Lemma first_raised_at l i cause v :
  l !! i = Some (true, cause, v) ->
  (forall j x, (j < i)%nat -> l !! j = Some x -> x.1.1 = false) ->
  first_raised l = Some (cause, v).
Proof.
  revert i. induction l as [|[[b c'] v'] l IH]; intros [|i] Hi Hlt; try done.
  - by injection Hi as -> -> ->.
  - pose proof (Hlt O _ ltac:(lia) eq_refl) as Hb. cbn in Hb. subst b. apply (IH i); [done|].
    intros j x Hj. apply (Hlt (S j)). lia.
Qed.

Lemma first_raised_none l : (forall x, x ∈ l -> x.1.1 = false) -> first_raised l = None.
Proof.
  induction l as [|[[b c] v] l IH]; intros H; [done|].
  pose proof (H _ ltac:(left)) as Hb. cbn in Hb. subst b. apply IH. intros x Hx. apply H. by right.
Qed.

Lemma trap_taken_first wb_pc t p q c :
  trap_taken wb_pc t p q c =
  (fun '(cause, v) => (2 ^ 63 <=? cause, cause, v)) <$> first_raised (trap_requests wb_pc t p q c).
Proof.
  unfold trap_taken, pending_interrupt, sync_exception, trap_requests, cat.
  rewrite Z.shiftl_0_l, Z.lor_0_l.
  destruct (tc_mstatus_mie c); cbn [andb first_raised].
  1: destruct (irq_external q), (irq_software q), (irq_timer q); try reflexivity.
  all: destruct (trap_illegal_instr t); [reflexivity|].
  all: destruct (trap_is_ebreak t); [reflexivity|].
  all: destruct (trap_is_ecall t);
    [unfold PRIV_MODE_U, PRIV_MODE_S; cbn [andb];
     by destruct (tc_priv_mode c =? 0), (tc_priv_mode c =? 1)|cbn [andb]].
  all: destruct (trap_load_fault t), (trap_store_fault t), (trap_instr_page_fault p),
    (trap_load_page_fault p), (trap_store_page_fault p); reflexivity.
Qed.

Lemma trap_ctrl_idle wb_pc t p q c :
  trap_taken wb_pc t p q c = None ->
  let o := trap_ctrl wb_pc t p q c in
  to_trigger o = false /\ to_mcause o = 0 /\
  to_mret_en o = trap_is_mret t /\ to_sret_en o = trap_is_sret t /\
  to_flush_req o = trap_is_mret t || trap_is_sret t.
Proof.
  unfold trap_taken, trap_ctrl. destruct (pending_interrupt _ _); [done|].
  destruct (sync_exception _ _ _ _) as [[??]|]; [done|]. cbn. by rewrite !andb_true_r.
Qed.

(** C11: Priority and masking.  Of the requests raised, the first in the order external, software
    and timer interrupt (each only with MIE set), illegal instruction, EBREAK, ECALL, load fault,
    store fault, and instruction, load and store page fault is the trap taken, with its cause and
    value; no trap is taken when none is raised; [MRET] and [SRET] take effect exactly when no trap
    is taken, and the pipeline is flushed exactly on a trap or a return. *)
Theorem trap_ctrl_priority wb_pc t p q c :
  let o := trap_ctrl wb_pc t p q c in
  let l := trap_requests wb_pc t p q c in
  (forall i cause v, l !! i = Some (true, cause, v) ->
     (forall j x, (j < i)%nat -> l !! j = Some x -> x.1.1 = false) ->
     to_trigger o = true /\ to_mcause o = cause /\ to_mtval o = v /\
     to_mret_en o = false /\ to_sret_en o = false /\ to_flush_req o = true) /\
  ((forall x, x ∈ l -> x.1.1 = false) ->
     to_trigger o = false /\ to_mcause o = 0 /\
     to_mret_en o = trap_is_mret t /\ to_sret_en o = trap_is_sret t /\
     to_flush_req o = trap_is_mret t || trap_is_sret t).
Proof.
  intros o l. pose proof (trap_taken_first wb_pc t p q c) as E. fold l in E. split.
  - intros i cause v Hi Hlt. rewrite (first_raised_at l i cause v Hi Hlt) in E.
    apply trap_ctrl_some in E. fold o in E. intuition.
  - intros Hl. rewrite (first_raised_none l Hl) in E. by apply trap_ctrl_idle.
Qed.

(** ** Witness *)

Definition demo_trap_bus : trap_bus :=
  mk_trap_bus false true false false false 0x80000004 false false 0 0x73.
Definition demo_trap_csrs : trap_csrs := mk_trap_csrs true 0x101 0x200 0 0 0 0 PRIV_MODE_M.

(** A vectored external interrupt in front of an [ECALL]. *)
Lemma trap_ctrl_entry_witness :
  to_next_pc (trap_ctrl 0x80000004 demo_trap_bus (mk_page_faults false false false)
    (mk_irq true false true) demo_trap_csrs) = 0x100 + 4 * 11.
Proof.
  destruct (trap_ctrl_entry 0x80000004 demo_trap_bus (mk_page_faults false false false)
    (mk_irq true false true) demo_trap_csrs true (Z.lor INTERRUPT_BIT INTERRUPT_M_EXTERNAL) 0)
    as (_ & _ & _ & _ & _ & _ & _ & _ & H);
    [split; vm_compute; congruence|split; vm_compute; congruence|reflexivity|].
  rewrite H. vm_compute. reflexivity.
Defined.
