(* ===== verification/CsrUnit.v ===== *)
(** * CSR unit: [rtl/core/csr_unit.sv] *)

From S2P Require Import Prelude Rv64Pkg.

(** Module parameters. *)
Record csr_params := mk_csr_params {
  HART_ID : Z;
  VENDOR_ID : Z;
  ARCH_ID : Z;
  IMPL_ID : Z;
  MISA_VALUE : Z
}.

Definition csr_params_default : csr_params :=
  {| HART_ID := 0; VENDOR_ID := 0; ARCH_ID := 0; IMPL_ID := 0; MISA_VALUE := 0x800000000050112D |}.

Definition MSTATUS_MIE_BIT : Z := 3.
Definition MSTATUS_MPIE_BIT : Z := 7.
Definition MSTATUS_MPP_LO : Z := 11.
Definition MSTATUS_MPP_HI : Z := 12.
Definition SSTATUS_SIE_BIT : Z := 1.
Definition SSTATUS_SPIE_BIT : Z := 5.
Definition SSTATUS_SPP_BIT : Z := 8.

(** The registers of the unit. *)
Record csr := mk_csr {
  mstatus_reg : Z;
  medeleg_reg : Z;
  mideleg_reg : Z;
  mie_reg : Z;
  mtvec_reg : Z;
  mcounteren_reg : Z;
  mscratch_reg : Z;
  mepc_reg : Z;
  mcause_reg : Z;
  mtval_reg : Z;
  mip_reg : Z;
  sstatus_reg : Z;
  sie_reg : Z;
  stvec_reg : Z;
  scounteren_reg : Z;
  sscratch_reg : Z;
  sepc_reg : Z;
  scause_reg : Z;
  stval_reg : Z;
  sip_reg : Z;
  satp_reg : Z;
  mcycle_reg : Z;
  minstret_reg : Z;
  time_reg : Z;
  fflags_reg : Z;
  frm_reg : Z;
  priv_mode_q : Z;
  trap_vector_q : Z;
  trap_to_s_q : bool
}.

#[global] Instance settable_csr : Settable csr :=
  fun r => mk_csr
    (mstatus_reg r) (medeleg_reg r) (mideleg_reg r) (mie_reg r) (mtvec_reg r)
    (mcounteren_reg r) (mscratch_reg r) (mepc_reg r) (mcause_reg r) (mtval_reg r) (mip_reg r)
    (sstatus_reg r) (sie_reg r) (stvec_reg r) (scounteren_reg r) (sscratch_reg r) (sepc_reg r)
    (scause_reg r) (stval_reg r) (sip_reg r) (satp_reg r) (mcycle_reg r) (minstret_reg r)
    (time_reg r) (fflags_reg r) (frm_reg r) (priv_mode_q r) (trap_vector_q r) (trap_to_s_q r).

Definition csr_reset : csr :=
  {|
    mstatus_reg := 0; medeleg_reg := 0; mideleg_reg := 0; mie_reg := 0; mtvec_reg := 0;
    mcounteren_reg := 0; mscratch_reg := 0; mepc_reg := 0; mcause_reg := 0; mtval_reg := 0;
    mip_reg := 0; sstatus_reg := 0; sie_reg := 0; stvec_reg := 0; scounteren_reg := 0;
    sscratch_reg := 0; sepc_reg := 0; scause_reg := 0; stval_reg := 0; sip_reg := 0;
    satp_reg := 0; mcycle_reg := 0; minstret_reg := 0; time_reg := 0; fflags_reg := 0;
    frm_reg := 0; priv_mode_q := PRIV_MODE_M; trap_vector_q := 0; trap_to_s_q := false
  |}.

(** The inputs sampled at a clock edge. *)
Record csr_in := mk_csr_in {
  ci_req : bool;
  ci_op : Z;
  ci_addr : Z;
  ci_rs1_data : Z;
  ci_trap_trigger : bool;
  ci_trap_to_s_mode : bool;
  ci_trap_mepc : Z;
  ci_trap_mcause : Z;
  ci_trap_mtval : Z;
  ci_mret_en : bool;
  ci_sret_en : bool
}.

#[global] Instance settable_csr_in : Settable csr_in :=
  fun r => mk_csr_in (ci_req r) (ci_op r) (ci_addr r) (ci_rs1_data r) (ci_trap_trigger r)
             (ci_trap_to_s_mode r) (ci_trap_mepc r) (ci_trap_mcause r) (ci_trap_mtval r)
             (ci_mret_en r) (ci_sret_en r).

(** ** Functions of the module *)

Definition canonical_addr (addr : Z) : Z :=
  if addr =? CSR_CYCLE then CSR_MCYCLE
  else if addr =? CSR_INSTRET then CSR_MINSTRET
  else addr.

Definition csr_write_next (current_data write_data op_code : Z) : Z :=
  match op_code with
  | 1 | 5 => write_data
  | 2 | 6 => Z.lor current_data write_data
  | 3 | 7 => Z.land current_data (bnot 64 write_data)
  | _ => current_data
  end.

Definition csr_read_only : list Z :=
  [CSR_MISA; CSR_MVENDORID; CSR_MARCHID; CSR_MIMPID; CSR_MHARTID; CSR_TIME].

Definition csr_is_writable (addr : Z) : bool :=
  negb (existsb (Z.eqb addr) csr_read_only).

Definition csr_supported : list Z :=
  [CSR_MSTATUS; CSR_MISA; CSR_MEDELEG; CSR_MIDELEG; CSR_MIE; CSR_MTVEC; CSR_MSCRATCH; CSR_MEPC;
   CSR_MCAUSE; CSR_MTVAL; CSR_MIP; CSR_MCOUNTEREN; CSR_MVENDORID; CSR_MARCHID; CSR_MIMPID;
   CSR_MHARTID; CSR_SSTATUS; CSR_SIE; CSR_STVEC; CSR_SCOUNTEREN; CSR_SSCRATCH; CSR_SEPC;
   CSR_SCAUSE; CSR_STVAL; CSR_SIP; CSR_SATP; CSR_MCYCLE; CSR_MINSTRET; CSR_CYCLE; CSR_INSTRET;
   CSR_TIME; CSR_FFLAGS; CSR_FRM; CSR_FCSR].

Definition csr_is_supported (addr : Z) : bool := existsb (Z.eqb addr) csr_supported.

Definition apply_sstatus_to_mstatus (mstatus_cur sstatus_data : Z) : Z :=
  let next_data := set_bit mstatus_cur SSTATUS_SIE_BIT (sstatus_data@[SSTATUS_SIE_BIT]) in
  let next_data := set_bit next_data SSTATUS_SPIE_BIT (sstatus_data@[SSTATUS_SPIE_BIT]) in
  set_bit next_data SSTATUS_SPP_BIT (sstatus_data@[SSTATUS_SPP_BIT]).

Definition mirror_mstatus_to_sstatus (sstatus_cur mstatus_data : Z) : Z :=
  let next_data := set_bit sstatus_cur SSTATUS_SIE_BIT (mstatus_data@[SSTATUS_SIE_BIT]) in
  let next_data := set_bit next_data SSTATUS_SPIE_BIT (mstatus_data@[SSTATUS_SPIE_BIT]) in
  set_bit next_data SSTATUS_SPP_BIT (mstatus_data@[SSTATUS_SPP_BIT]).

Definition compose_fcsr (s : csr) : Z :=
  let value := set_slice 0 4 0 (fflags_reg s) in
  set_slice value 7 5 (frm_reg s).

Definition decode_priv_mode (encoded : Z) : Z :=
  match encoded with
  | 0 => PRIV_MODE_U
  | 1 => PRIV_MODE_S
  | _ => PRIV_MODE_M
  end.

Definition encode_priv_mode (mode : Z) : Z :=
  if mode =? PRIV_MODE_U then 0 else if mode =? PRIV_MODE_S then 1 else 3.

Definition read_csr (p : csr_params) (s : csr) (addr : Z) : Z :=
  if addr =? CSR_FFLAGS then cat 5 0 (fflags_reg s)
  else if addr =? CSR_FRM then cat 3 0 (frm_reg s)
  else if addr =? CSR_FCSR then compose_fcsr s
  else if addr =? CSR_MSTATUS then mstatus_reg s
  else if addr =? CSR_MISA then MISA_VALUE p
  else if addr =? CSR_MEDELEG then medeleg_reg s
  else if addr =? CSR_MIDELEG then mideleg_reg s
  else if addr =? CSR_MIE then mie_reg s
  else if addr =? CSR_MTVEC then mtvec_reg s
  else if addr =? CSR_MSCRATCH then mscratch_reg s
  else if addr =? CSR_MEPC then mepc_reg s
  else if addr =? CSR_MCAUSE then mcause_reg s
  else if addr =? CSR_MTVAL then mtval_reg s
  else if addr =? CSR_MIP then mip_reg s
  else if addr =? CSR_MCOUNTEREN then mcounteren_reg s
  else if addr =? CSR_MVENDORID then VENDOR_ID p
  else if addr =? CSR_MARCHID then ARCH_ID p
  else if addr =? CSR_MIMPID then IMPL_ID p
  else if addr =? CSR_MHARTID then HART_ID p
  else if addr =? CSR_SSTATUS then sstatus_reg s
  else if addr =? CSR_SIE then sie_reg s
  else if addr =? CSR_STVEC then stvec_reg s
  else if addr =? CSR_SCOUNTEREN then scounteren_reg s
  else if addr =? CSR_SSCRATCH then sscratch_reg s
  else if addr =? CSR_SEPC then sepc_reg s
  else if addr =? CSR_SCAUSE then scause_reg s
  else if addr =? CSR_STVAL then stval_reg s
  else if addr =? CSR_SIP then sip_reg s
  else if addr =? CSR_SATP then satp_reg s
  else if addr =? CSR_MCYCLE then mcycle_reg s
  else if addr =? CSR_MINSTRET then minstret_reg s
  else if addr =? CSR_CYCLE then mcycle_reg s
  else if addr =? CSR_INSTRET then minstret_reg s
  else if addr =? CSR_TIME then time_reg s
  else 0.

(** ** Combinational outputs *)

Definition is_write_cmd (op : Z) : bool := (op =? 1) || (op =? 5).
Definition is_set_cmd (op : Z) : bool := (op =? 2) || (op =? 6).
Definition is_clear_cmd (op : Z) : bool := (op =? 3) || (op =? 7).

Definition csr_write_en (req : bool) (op addr data : Z) : bool :=
  req && csr_is_supported (canonical_addr addr) &&
  (is_write_cmd op || ((is_set_cmd op || is_clear_cmd op) && negb (data =? 0))).

Definition csr_rdata (p : csr_params) (s : csr) (addr : Z) : Z := read_csr p s (canonical_addr addr).

Definition csr_write_illegal (req : bool) (op addr : Z) : bool :=
  req && (is_write_cmd op || is_set_cmd op || is_clear_cmd op) &&
  negb (csr_is_writable (canonical_addr addr)).

Definition csr_illegal_access (req : bool) (op addr : Z) : bool :=
  req && (negb (csr_is_supported (canonical_addr addr)) || csr_write_illegal req op addr).

Definition csr_trap_vector_next (s : csr) (i : csr_in) : Z :=
  if ci_trap_to_s_mode i then stvec_reg s else mtvec_reg s.

(** ** The clock edge

    Non-blocking assignments read [old], the state before the edge, and the last assignment
    to a register wins: each part below takes the assignments made so far, [s], and adds its
    own. *)

Definition csr_counters (i : csr_in) (old s : csr) : csr :=
  let s := s <| mcycle_reg := add64 (mcycle_reg old) 1 |>
             <| time_reg := add64 (time_reg old) 1 |> in
  if negb (ci_trap_trigger i) then s <| minstret_reg := add64 (minstret_reg old) 1 |> else s.

Definition csr_do_write (addr op data : Z) (old s : csr) : csr :=
  if addr =? CSR_MSTATUS then
    let next_data := csr_write_next (mstatus_reg old) data op in
    s <| mstatus_reg := next_data |>
      <| sstatus_reg := mirror_mstatus_to_sstatus (sstatus_reg old) next_data |>
  else if addr =? CSR_MEDELEG then
    s <| medeleg_reg := csr_write_next (medeleg_reg old) data op |>
  else if addr =? CSR_MIDELEG then
    s <| mideleg_reg := csr_write_next (mideleg_reg old) data op |>
  else if addr =? CSR_MIE then
    s <| mie_reg := csr_write_next (mie_reg old) data op |>
  else if addr =? CSR_MTVEC then
    s <| mtvec_reg := csr_write_next (mtvec_reg old) data op |>
  else if addr =? CSR_MSCRATCH then
    s <| mscratch_reg := csr_write_next (mscratch_reg old) data op |>
  else if addr =? CSR_MEPC then
    s <| mepc_reg := csr_write_next (mepc_reg old) data op |>
  else if addr =? CSR_MCAUSE then
    s <| mcause_reg := csr_write_next (mcause_reg old) data op |>
  else if addr =? CSR_MTVAL then
    s <| mtval_reg := csr_write_next (mtval_reg old) data op |>
  else if addr =? CSR_MIP then
    s <| mip_reg := csr_write_next (mip_reg old) data op |>
  else if addr =? CSR_MCOUNTEREN then
    s <| mcounteren_reg := csr_write_next (mcounteren_reg old) data op |>
  else if addr =? CSR_SSTATUS then
    let next_sstatus := csr_write_next (sstatus_reg old) data op in
    s <| sstatus_reg := next_sstatus |>
      <| mstatus_reg := apply_sstatus_to_mstatus (mstatus_reg old) next_sstatus |>
  else if addr =? CSR_SIE then
    s <| sie_reg := csr_write_next (sie_reg old) data op |>
  else if addr =? CSR_STVEC then
    s <| stvec_reg := csr_write_next (stvec_reg old) data op |>
  else if addr =? CSR_SCOUNTEREN then
    s <| scounteren_reg := csr_write_next (scounteren_reg old) data op |>
  else if addr =? CSR_SSCRATCH then
    s <| sscratch_reg := csr_write_next (sscratch_reg old) data op |>
  else if addr =? CSR_SEPC then
    s <| sepc_reg := csr_write_next (sepc_reg old) data op |>
  else if addr =? CSR_SCAUSE then
    s <| scause_reg := csr_write_next (scause_reg old) data op |>
  else if addr =? CSR_STVAL then
    s <| stval_reg := csr_write_next (stval_reg old) data op |>
  else if addr =? CSR_SIP then
    s <| sip_reg := csr_write_next (sip_reg old) data op |>
  else if addr =? CSR_SATP then
    s <| satp_reg := csr_write_next (satp_reg old) data op |>
  else if addr =? CSR_MCYCLE then
    s <| mcycle_reg := csr_write_next (mcycle_reg old) data op |>
  else if addr =? CSR_MINSTRET then
    s <| minstret_reg := csr_write_next (minstret_reg old) data op |>
  else if addr =? CSR_FFLAGS then
    let next_flags := csr_write_next (cat 5 0 (fflags_reg old)) data op in
    s <| fflags_reg := next_flags@[4:0] |>
  else if addr =? CSR_FRM then
    let next_frm := csr_write_next (cat 3 0 (frm_reg old)) data op in
    s <| frm_reg := next_frm@[2:0] |>
  else if addr =? CSR_FCSR then
    let next_fcsr := csr_write_next (compose_fcsr old) data op in
    s <| fflags_reg := next_fcsr@[4:0] |> <| frm_reg := next_fcsr@[7:5] |>
  else s.

Definition csr_write_part (i : csr_in) (old s : csr) : csr :=
  let addr := canonical_addr (ci_addr i) in
  if csr_write_en (ci_req i) (ci_op i) (ci_addr i) (ci_rs1_data i) && csr_is_writable addr
  then csr_do_write addr (ci_op i) (ci_rs1_data i) old s
  else s.

(** A trap delegated to supervisor mode. *)
Definition csr_trap_s (i : csr_in) (old s : csr) : csr :=
  let next_sstatus := set_bit (sstatus_reg old) SSTATUS_SPIE_BIT ((sstatus_reg old)@[SSTATUS_SIE_BIT]) in
  let next_sstatus := set_bit next_sstatus SSTATUS_SIE_BIT false in
  let next_sstatus := set_bit next_sstatus SSTATUS_SPP_BIT (priv_mode_q old =? PRIV_MODE_S) in
  s <| sstatus_reg := next_sstatus |>
    <| mstatus_reg := apply_sstatus_to_mstatus (mstatus_reg old) next_sstatus |>
    <| sepc_reg := ci_trap_mepc i |>
    <| scause_reg := ci_trap_mcause i |>
    <| stval_reg := ci_trap_mtval i |>
    <| priv_mode_q := PRIV_MODE_S |>.

(** A trap taken in machine mode. *)
Definition csr_trap_m (i : csr_in) (old s : csr) : csr :=
  let next_mstatus := set_bit (mstatus_reg old) MSTATUS_MPIE_BIT ((mstatus_reg old)@[MSTATUS_MIE_BIT]) in
  let next_mstatus := set_bit next_mstatus MSTATUS_MIE_BIT false in
  let next_mstatus :=
    set_slice next_mstatus MSTATUS_MPP_HI MSTATUS_MPP_LO (encode_priv_mode (priv_mode_q old)) in
  s <| mstatus_reg := next_mstatus |>
    <| sstatus_reg := mirror_mstatus_to_sstatus (sstatus_reg old) next_mstatus |>
    <| mepc_reg := ci_trap_mepc i |>
    <| mcause_reg := ci_trap_mcause i |>
    <| mtval_reg := ci_trap_mtval i |>
    <| priv_mode_q := PRIV_MODE_M |>.

Definition csr_mret (old s : csr) : csr :=
  let return_mode := decode_priv_mode ((mstatus_reg old)@[MSTATUS_MPP_HI:MSTATUS_MPP_LO]) in
  let next_mstatus := set_bit (mstatus_reg old) MSTATUS_MIE_BIT ((mstatus_reg old)@[MSTATUS_MPIE_BIT]) in
  let next_mstatus := set_bit next_mstatus MSTATUS_MPIE_BIT true in
  let next_mstatus :=
    set_slice next_mstatus MSTATUS_MPP_HI MSTATUS_MPP_LO (encode_priv_mode PRIV_MODE_U) in
  s <| mstatus_reg := next_mstatus |>
    <| sstatus_reg := mirror_mstatus_to_sstatus (sstatus_reg old) next_mstatus |>
    <| priv_mode_q := return_mode |>.

Definition csr_sret (old s : csr) : csr :=
  let next_sstatus := set_bit (sstatus_reg old) SSTATUS_SIE_BIT ((sstatus_reg old)@[SSTATUS_SPIE_BIT]) in
  let next_sstatus := set_bit next_sstatus SSTATUS_SPIE_BIT true in
  let next_sstatus := set_bit next_sstatus SSTATUS_SPP_BIT false in
  s <| sstatus_reg := next_sstatus |>
    <| mstatus_reg := apply_sstatus_to_mstatus (mstatus_reg old) next_sstatus |>
    <| priv_mode_q := if (sstatus_reg old)@[SSTATUS_SPP_BIT] then PRIV_MODE_S else PRIV_MODE_U |>.

Definition csr_trap_part (i : csr_in) (old s : csr) : csr :=
  if ci_trap_trigger i then
    let s := s <| trap_vector_q := csr_trap_vector_next old i |>
               <| trap_to_s_q := ci_trap_to_s_mode i |> in
    if ci_trap_to_s_mode i then csr_trap_s i old s else csr_trap_m i old s
  else
    let s := if ci_mret_en i then csr_mret old s else s in
    if ci_sret_en i then csr_sret old s else s.

(** The module's [always_ff] block. *)
Definition csr_next (rst : bool) (i : csr_in) (s : csr) : csr :=
  if rst then csr_reset
  else csr_trap_part i s (csr_write_part i s (csr_counters i s s)).

(** ** The [mstatus]/[sstatus] mirror *)

Definition sstatus_bits : list Z := [SSTATUS_SIE_BIT; SSTATUS_SPIE_BIT; SSTATUS_SPP_BIT].

(** [sstatus] agrees with [mstatus] on SIE, SPIE and SPP. *)
Definition mirrored (mstatus sstatus : Z) : Prop :=
  Forall (fun b => mstatus@[b] = sstatus@[b]) sstatus_bits.

Definition csr_mirror (s : csr) : Prop := mirrored (mstatus_reg s) (sstatus_reg s).

Ltac bit_cases :=
  rewrite !set_bit_testbit by (unfold SSTATUS_SIE_BIT, SSTATUS_SPIE_BIT, SSTATUS_SPP_BIT; lia);
  cbn [Z.eqb Pos.eqb SSTATUS_SIE_BIT SSTATUS_SPIE_BIT SSTATUS_SPP_BIT].

Lemma mirror_mirrored sst mst : mirrored mst (mirror_mstatus_to_sstatus sst mst).
Proof.
  unfold mirrored, sstatus_bits, mirror_mstatus_to_sstatus.
  rewrite !Forall_cons_iff. split_and!; [bit_cases; done..|constructor].
Qed.

Lemma apply_mirrored mst sst : mirrored (apply_sstatus_to_mstatus mst sst) sst.
Proof.
  unfold mirrored, sstatus_bits, apply_sstatus_to_mstatus.
  rewrite !Forall_cons_iff. split_and!; [bit_cases; done..|constructor].
Qed.

Lemma csr_do_write_mirror addr op data old s :
  csr_mirror s -> csr_mirror (csr_do_write addr op data old s).
Proof.
  intros Hs. unfold csr_do_write.
  repeat match goal with
         | |- csr_mirror (if ?b then _ else _) =>
             destruct b; [first [exact Hs | apply mirror_mirrored | apply apply_mirrored]|]
         end; exact Hs.
Qed.

Lemma csr_trap_part_mirror i old s : csr_mirror s -> csr_mirror (csr_trap_part i old s).
Proof.
  intros Hs. unfold csr_trap_part. destruct (ci_trap_trigger i).
  - destruct (ci_trap_to_s_mode i); [apply apply_mirrored | apply mirror_mirrored].
  - destruct (ci_sret_en i); [apply apply_mirrored|].
    destruct (ci_mret_en i); [apply mirror_mirrored | exact Hs].
Qed.

(** ** Ranges *)

Definition priv_ok (p : Z) : Prop := p = PRIV_MODE_U \/ p = PRIV_MODE_S \/ p = PRIV_MODE_M.

(** Every register within its width, and a privilege mode that exists. *)
Record csr_ok (s : csr) : Prop := {
  ok_csrs : Forall (is_bv 64)
    [mstatus_reg s; medeleg_reg s; mideleg_reg s; mie_reg s; mtvec_reg s; mcounteren_reg s;
     mscratch_reg s; mepc_reg s; mcause_reg s; mtval_reg s; mip_reg s; sstatus_reg s; sie_reg s;
     stvec_reg s; scounteren_reg s; sscratch_reg s; sepc_reg s; scause_reg s; stval_reg s;
     sip_reg s; satp_reg s; mcycle_reg s; minstret_reg s; time_reg s; trap_vector_q s];
  ok_fflags : is_bv 5 (fflags_reg s);
  ok_frm : is_bv 3 (frm_reg s);
  ok_priv : priv_ok (priv_mode_q s)
}.

Definition csr_in_ok (i : csr_in) : Prop :=
  is_bv 64 (ci_rs1_data i) /\ is_bv 64 (ci_trap_mepc i) /\ is_bv 64 (ci_trap_mcause i) /\
  is_bv 64 (ci_trap_mtval i).

Lemma csr_write_next_bv cur data op :
  is_bv 64 cur -> is_bv 64 data -> is_bv 64 (csr_write_next cur data op).
Proof.
  intros Hc Hd. unfold csr_write_next.
  destruct op as [|p|p]; try done. repeat (destruct p as [p|p|]; try done);
    first [by apply lor_bv | by apply land_bv].
Qed.

Lemma status_bits_bv mst sst :
  is_bv 64 mst -> is_bv 64 (mirror_mstatus_to_sstatus mst sst).
Proof. intros. unfold mirror_mstatus_to_sstatus. repeat apply set_bit_bv; done || lia. Qed.

Lemma encode_priv_bv p : is_bv 2 (encode_priv_mode p).
Proof. unfold encode_priv_mode. by case_bools. Qed.

Lemma compose_fcsr_bv s : is_bv 5 (fflags_reg s) -> is_bv 3 (frm_reg s) -> is_bv 64 (compose_fcsr s).
Proof. intros. unfold compose_fcsr. repeat apply set_slice_bv; done || lia. Qed.

Lemma set_field_bits_bv mst hi lo v :
  is_bv 64 mst -> 0 <= lo -> lo <= hi + 1 -> hi < 64 -> is_bv (hi - lo + 1) v ->
  is_bv 64 (set_slice mst hi lo v).
Proof. intros. by apply set_slice_bv. Qed.

Create HintDb csr.
#[export] Hint Resolve csr_write_next_bv status_bits_bv encode_priv_bv compose_fcsr_bv : csr.
#[export] Hint Resolve add64_bv : csr.

(** Open the ranges of a state. *)
Ltac csr_open H :=
  let Hc := fresh "Hc" in let Hf := fresh "Hf" in let Hr := fresh "Hr" in
  let Hp := fresh "Hp" in
  destruct H as [Hc Hf Hr Hp];
  repeat (apply Forall_cons_iff in Hc; let H := fresh in destruct Hc as [H Hc]); clear Hc.

(** Prove the ranges of an updated state: the fields left alone, then the assigned ones. *)
Ltac csr_close :=
  split; cbn -[csr_write_next mirror_mstatus_to_sstatus apply_sstatus_to_mstatus slice set_bit
               set_slice add64 is_bv cat compose_fcsr encode_priv_mode decode_priv_mode Z.testbit];
  [repeat first [apply Forall_nil | apply Forall_cons]; try assumption; auto with csr
  |try assumption; auto with csr..].

Lemma csr_do_write_ok addr op data old s :
  is_bv 64 data -> csr_ok old -> csr_ok s -> csr_ok (csr_do_write addr op data old s).
Proof.
  intros Hd Ho Hs.
  assert (Hold : csr_ok old) by done. csr_open Ho.
  assert (Hs' : csr_ok s) by done. csr_open Hs.
  assert (is_bv 64 (cat 5 0 (fflags_reg old))) by (by apply (bv_weaken (0 + 5)), cat_bv).
  assert (is_bv 64 (cat 3 0 (frm_reg old))) by (by apply (bv_weaken (0 + 3)), cat_bv).
  unfold csr_do_write.
  repeat match goal with
         | |- csr_ok (if ?b then _ else _) => destruct b; [clear Hs' Hold|]
         end; [..|exact Hs'].
  all: csr_close.
  all: try (by apply slice_bv).
Qed.

Lemma csr_counters_ok i old s : csr_ok old -> csr_ok s -> csr_ok (csr_counters i old s).
Proof.
  intros Ho Hs. csr_open Hs. unfold csr_counters. destruct (negb _); csr_close.
Qed.

Lemma set_bits3_bv x b1 v1 b2 v2 b3 v3 :
  is_bv 64 x -> 0 <= b1 < 64 -> 0 <= b2 < 64 -> 0 <= b3 < 64 ->
  is_bv 64 (set_bit (set_bit (set_bit x b1 v1) b2 v2) b3 v3).
Proof. intros. repeat apply set_bit_bv; done. Qed.

Lemma set_bits2_mpp_bv x b1 v1 b2 v2 v :
  is_bv 64 x -> 0 <= b1 < 64 -> 0 <= b2 < 64 -> is_bv 2 v ->
  is_bv 64 (set_slice (set_bit (set_bit x b1 v1) b2 v2) MSTATUS_MPP_HI MSTATUS_MPP_LO v).
Proof. intros. apply set_slice_bv; try done. repeat apply set_bit_bv; done. Qed.

Lemma decode_priv_ok p : priv_ok (decode_priv_mode p).
Proof.
  unfold decode_priv_mode, priv_ok. destruct p as [|p|p]; auto. destruct p; auto.
Qed.

Lemma csr_trap_part_ok i old s :
  csr_in_ok i -> csr_ok old -> csr_ok s -> csr_ok (csr_trap_part i old s).
Proof.
  intros (_ & H1 & H2 & H3) Ho Hs.
  assert (Hs' : csr_ok s) by done. csr_open Ho. csr_open Hs.
  assert (Hbits : forall x b1 v1 b2 v2 b3 v3, is_bv 64 x -> 0 <= b1 < 64 -> 0 <= b2 < 64 ->
    0 <= b3 < 64 -> is_bv 64 (set_bit (set_bit (set_bit x b1 v1) b2 v2) b3 v3))
    by (intros; by apply set_bits3_bv).
  unfold csr_trap_part, csr_trap_s, csr_trap_m, csr_mret, csr_sret, csr_trap_vector_next.
  destruct (ci_trap_trigger i).
  - destruct (ci_trap_to_s_mode i); csr_close;
      first [by apply Hbits | by apply status_bits_bv, Hbits | by apply set_bits2_mpp_bv, encode_priv_bv
            | by apply status_bits_bv | unfold priv_ok; auto].
  - destruct (ci_sret_en i), (ci_mret_en i); try exact Hs'; csr_close;
      first [by apply Hbits | by apply status_bits_bv | by apply set_bits2_mpp_bv
            | apply decode_priv_ok | (destruct (_ : bool); unfold priv_ok; auto)].
Qed.

Lemma csr_next_mirrored rst i s : csr_mirror s -> csr_mirror (csr_next rst i s).
Proof.
  intros Hs. unfold csr_next. destruct rst.
  - unfold csr_mirror, mirrored, sstatus_bits. repeat constructor.
  - apply csr_trap_part_mirror. unfold csr_write_part. case_bools; [apply csr_do_write_mirror|];
      unfold csr_counters; case_bools; exact Hs.
Qed.

Lemma csr_next_range rst i s : csr_in_ok i -> csr_ok s -> csr_ok (csr_next rst i s).
Proof.
  intros Hi Hs. unfold csr_next. destruct rst.
  - split; cbn; [repeat constructor; done|done|done|]. unfold priv_ok; auto.
  - apply csr_trap_part_ok; try done. unfold csr_write_part.
    case_bools; [apply csr_do_write_ok; [apply Hi|done|]|]; by apply csr_counters_ok.
Qed.

(** ** Properties *)

(** A clock edge that only takes a trap, resp. only returns from one. *)
Definition csr_idle : csr_in :=
  {| ci_req := false; ci_op := 0; ci_addr := 0; ci_rs1_data := 0; ci_trap_trigger := false;
     ci_trap_to_s_mode := false; ci_trap_mepc := 0; ci_trap_mcause := 0; ci_trap_mtval := 0;
     ci_mret_en := false; ci_sret_en := false |}.

Definition trap_in (to_s : bool) (pc cause tval : Z) : csr_in :=
  csr_idle <| ci_trap_trigger := true |> <| ci_trap_to_s_mode := to_s |>
    <| ci_trap_mepc := pc |> <| ci_trap_mcause := cause |> <| ci_trap_mtval := tval |>.

Lemma decode_encode_priv p : priv_ok p -> decode_priv_mode (encode_priv_mode p) = p.
Proof. by intros [->|[->| ->]]. Qed.

Lemma set_slice_get x hi lo v :
  0 <= lo -> lo <= hi + 1 -> is_bv (hi - lo + 1) v -> (set_slice x hi lo v)@[hi:lo] = v.
Proof.
  intros Hlo Hhi Hv. apply Z.bits_inj'; intros i Hi.
  rewrite slice_testbit, set_slice_testbit by (done || lia).
  destruct (i <=? hi - lo) eqn:E; reflect_bools; cbn [andb].
  - rewrite (proj2 (Z.leb_le lo (lo + i))), (proj2 (Z.leb_le (lo + i) hi)) by lia. cbn [andb].
    f_equal; lia.
  - symmetry. apply (bv_testbit_high (hi - lo + 1)); [done|lia].
Qed.

(** Writing MPP leaves the lower bits of [mstatus] alone. *)
Lemma mpp_other x v b :
  0 <= b < MSTATUS_MPP_LO -> is_bv 2 v ->
  (set_slice x MSTATUS_MPP_HI MSTATUS_MPP_LO v)@[b] = x@[b].
Proof.
  intros Hb Hv. unfold MSTATUS_MPP_LO, MSTATUS_MPP_HI in *.
  rewrite set_slice_testbit by (done || lia). by rewrite (proj2 (Z.leb_gt 11 b)) by lia.
Qed.

(** C12: Machine trap entry and return.  Taking a trap in machine mode saves the program counter,
    the cause and the trap value, enters M and masks interrupts; [MRET] from there restores the
    privilege mode and the interrupt enable of before the trap. *)
Theorem csr_trap_mret_roundtrip s pc cause tval :
  csr_ok s ->
  let s1 := csr_next false (trap_in false pc cause tval) s in
  let s2 := csr_next false (csr_idle <| ci_mret_en := true |>) s1 in
  (mepc_reg s1 = pc /\ mcause_reg s1 = cause /\ mtval_reg s1 = tval /\
   priv_mode_q s1 = PRIV_MODE_M /\ (mstatus_reg s1)@[MSTATUS_MIE_BIT] = false) /\
  (priv_mode_q s2 = priv_mode_q s /\
   (mstatus_reg s2)@[MSTATUS_MIE_BIT] = (mstatus_reg s)@[MSTATUS_MIE_BIT] /\
   (mstatus_reg s2)@[MSTATUS_MPIE_BIT] = true /\ mepc_reg s2 = pc).
Proof.
  intros [_ _ _ Hp] s1 s2.
  assert (Hpb : is_bv (MSTATUS_MPP_HI - MSTATUS_MPP_LO + 1) (encode_priv_mode (priv_mode_q s)))
    by apply encode_priv_bv.
  set (m1 := set_slice (set_bit (set_bit (mstatus_reg s) MSTATUS_MPIE_BIT
    ((mstatus_reg s)@[MSTATUS_MIE_BIT])) MSTATUS_MIE_BIT false) MSTATUS_MPP_HI MSTATUS_MPP_LO
    (encode_priv_mode (priv_mode_q s))).
  assert (H1 : mstatus_reg s1 = m1) by done.
  assert (Hmpp : m1@[MSTATUS_MPP_HI:MSTATUS_MPP_LO] = encode_priv_mode (priv_mode_q s))
    by (by apply set_slice_get).
  assert (Hmie : m1@[MSTATUS_MIE_BIT] = false).
  { unfold m1. rewrite mpp_other by done. by rewrite set_bit_testbit. }
  assert (Hmpie : m1@[MSTATUS_MPIE_BIT] = (mstatus_reg s)@[MSTATUS_MIE_BIT]).
  { unfold m1. rewrite mpp_other by done. by rewrite !set_bit_testbit. }
  split; [rewrite H1; done|].
  assert (H2 : mstatus_reg s2 = set_slice (set_bit (set_bit m1 MSTATUS_MIE_BIT (m1@[MSTATUS_MPIE_BIT]))
    MSTATUS_MPIE_BIT true) MSTATUS_MPP_HI MSTATUS_MPP_LO (encode_priv_mode PRIV_MODE_U)) by done.
  split.
  { change (priv_mode_q s2) with (decode_priv_mode (m1@[MSTATUS_MPP_HI:MSTATUS_MPP_LO])).
    rewrite Hmpp. by apply decode_encode_priv. }
  rewrite H2, !mpp_other by done. rewrite !set_bit_testbit by done. by rewrite Hmpie.
Qed.

(** C13: Supervisor trap entry and return.  A trap delegated from U or S saves its context in the
    supervisor registers, enters S and masks supervisor interrupts; [SRET] restores the privilege
    mode and the supervisor interrupt enable of before the trap. *)
Theorem csr_trap_sret_roundtrip s pc cause tval :
  csr_ok s -> priv_mode_q s <> PRIV_MODE_M ->
  let s1 := csr_next false (trap_in true pc cause tval) s in
  let s2 := csr_next false (csr_idle <| ci_sret_en := true |>) s1 in
  (sepc_reg s1 = pc /\ scause_reg s1 = cause /\ stval_reg s1 = tval /\
   priv_mode_q s1 = PRIV_MODE_S /\ (sstatus_reg s1)@[SSTATUS_SIE_BIT] = false /\
   mepc_reg s1 = mepc_reg s) /\
  (priv_mode_q s2 = priv_mode_q s /\
   (sstatus_reg s2)@[SSTATUS_SIE_BIT] = (sstatus_reg s)@[SSTATUS_SIE_BIT] /\ sepc_reg s2 = pc).
Proof.
  intros [_ _ _ Hp] HM s1 s2.
  set (t1 := set_bit (set_bit (set_bit (sstatus_reg s) SSTATUS_SPIE_BIT
    ((sstatus_reg s)@[SSTATUS_SIE_BIT])) SSTATUS_SIE_BIT false) SSTATUS_SPP_BIT
    (priv_mode_q s =? PRIV_MODE_S)).
  assert (H1 : sstatus_reg s1 = t1) by done.
  assert (Hb : t1@[SSTATUS_SIE_BIT] = false /\ t1@[SSTATUS_SPP_BIT] = (priv_mode_q s =? PRIV_MODE_S) /\
               t1@[SSTATUS_SPIE_BIT] = (sstatus_reg s)@[SSTATUS_SIE_BIT]).
  { unfold t1. by rewrite !set_bit_testbit by done. }
  destruct Hb as (Hb1 & Hb2 & Hb3). split; [rewrite H1; done|].
  split; [|split; [|done]].
  - change (priv_mode_q s2) with (if t1@[SSTATUS_SPP_BIT] then PRIV_MODE_S else PRIV_MODE_U).
    rewrite Hb2. by destruct Hp as [E|[E|E]]; rewrite E in *.
  - change (sstatus_reg s2) with (set_bit (set_bit (set_bit t1 SSTATUS_SIE_BIT (t1@[SSTATUS_SPIE_BIT]))
      SSTATUS_SPIE_BIT true) SSTATUS_SPP_BIT false).
    rewrite !set_bit_testbit by done. exact Hb3.
Qed.

(** ** CSR instructions *)

(** A clock edge that performs one CSR operation. *)
Definition access_in (op addr data : Z) : csr_in :=
  csr_idle <| ci_req := true |> <| ci_op := op |> <| ci_addr := addr |> <| ci_rs1_data := data |>.

(** The operation writes: [CSRRW], or [CSRRS]/[CSRRC] with a non-zero operand. *)
Definition op_writes (op data : Z) : bool :=
  is_write_cmd op || ((is_set_cmd op || is_clear_cmd op) && negb (data =? 0)).

(** The bits a register implements. *)
Definition csr_mask (addr v : Z) : Z :=
  if addr =? CSR_FFLAGS then v@[4:0]
  else if addr =? CSR_FRM then v@[2:0]
  else if addr =? CSR_FCSR then v@[7:0]
  else v.

Lemma compose_fcsr_cat s :
  is_bv 5 (fflags_reg s) -> is_bv 3 (frm_reg s) -> compose_fcsr s = cat 5 (frm_reg s) (fflags_reg s).
Proof.
  intros Hf Hr. apply Z.bits_inj'; intros i Hi. unfold compose_fcsr.
  rewrite !set_slice_testbit, cat_testbit, Z.bits_0 by (done || lia).
  destruct (i <? 5) eqn:E, (5 <=? i) eqn:E1, (i <=? 7) eqn:E2, (0 <=? i) eqn:E3, (i <=? 4) eqn:E4;
    reflect_bools; try lia; cbn; try done.
  - by rewrite Z.sub_0_r.
  - symmetry. apply (bv_testbit_high 3); [done|lia].
Qed.

Lemma supported_canonical addr : In addr csr_supported -> csr_is_supported (canonical_addr addr) = true.
Proof.
  assert (H : Forall (fun a => csr_is_supported (canonical_addr a) = true) csr_supported)
    by (repeat (apply Forall_cons; [reflexivity|]); constructor).
  intros Hin. by apply (proj1 (Forall_forall _ _) H).
Qed.

Lemma access_step op addr data s :
  op_writes op data = true -> csr_is_supported (canonical_addr addr) = true ->
  csr_is_writable (canonical_addr addr) = true ->
  csr_next false (access_in op addr data) s =
  csr_do_write (canonical_addr addr) op data s (csr_counters csr_idle s s).
Proof.
  intros Hop Hs Hw. unfold csr_next, csr_trap_part, csr_write_part, csr_write_en, access_in. cbn -[csr_do_write csr_counters canonical_addr csr_is_supported csr_is_writable].
  unfold op_writes in Hop. by rewrite Hs, Hw, Hop.
Qed.

Lemma csr_access_value p op addr data s :
  csr_ok s -> is_bv 64 data -> In addr csr_supported ->
  csr_is_writable (canonical_addr addr) = true -> op_writes op data = true ->
  csr_rdata p (csr_next false (access_in op addr data) s) addr =
  csr_mask addr (csr_write_next (csr_rdata p s addr) data op).
Proof.
  intros Hs Hd Hin Hw Hop.
  pose proof (supported_canonical addr Hin) as Hsup.
  rewrite access_step by done. pose proof (ok_fflags _ Hs) as Hf. pose proof (ok_frm _ Hs) as Hr.
  unfold csr_rdata. clear Hop Hsup.
  repeat (destruct Hin as [<-|Hin]); try destruct Hin; vm_compute in Hw; try discriminate Hw;
    try reflexivity.
  set (v := csr_write_next (read_csr p s (canonical_addr CSR_FCSR)) data op).
  change (csr_mask CSR_FCSR v) with (v@[7:0]). rewrite <- (slice_join 7 5 0 v) by lia.
  etransitivity; [apply compose_fcsr_cat; apply slice_bv; lia|reflexivity].
Qed.

(** The effect of an operation on one bit of a register, in the words of the ISA manual: a write
    ([CSRRW], [CSRRWI]) copies the operand's bit, a set ([CSRRS], [CSRRSI]) sets the bit where the
    operand's is set, a clear ([CSRRC], [CSRRCI]) clears it there. *)
Definition csr_op_bit (op : Z) (old data : bool) : bool :=
  if (op =? 1) || (op =? 5) then data
  else if (op =? 2) || (op =? 6) then (if data then true else old)
  else if (op =? 3) || (op =? 7) then (if data then false else old)
  else old.

(** The number of bits a register implements. *)
Definition csr_width (addr : Z) : Z :=
  if addr =? CSR_FFLAGS then 5 else if addr =? CSR_FRM then 3 else if addr =? CSR_FCSR then 8 else 64.

Lemma csr_write_next_bit old data op n :
  is_bv 64 old -> is_bv 64 data -> 0 <= n ->
  (csr_write_next old data op)@[n] = csr_op_bit op (old@[n]) (data@[n]).
Proof.
  intros Ho Hd Hn. unfold csr_write_next, csr_op_bit.
  assert (Hc : (Z.land old (bnot 64 data))@[n] = if data@[n] then false else old@[n]).
  { unfold bnot. rewrite Z.land_spec, Z.lxor_spec, Z.testbit_ones by lia.
    destruct (Z_lt_dec n 64) as [Hlt|Hge].
    - replace ((0 <=? n) && (n <? 64)) with true by (symmetry; reflect_bools; lia).
      by destruct (old@[n]), (data@[n]).
    - rewrite (bv_testbit_high 64 old n), (bv_testbit_high 64 data n) by (done || lia). done. }
  destruct op as [|[[[]|[]|]|[[]|[]|]|]|]; cbn [Z.eqb Pos.eqb orb]; try reflexivity;
    try exact Hc; rewrite Z.lor_spec; by destruct (old@[n]), (data@[n]).
Qed.

Lemma csr_mask_bit addr v n :
  is_bv 64 v -> 0 <= n -> (csr_mask addr v)@[n] = (n <? csr_width addr) && v@[n].
Proof.
  intros Hv Hn. unfold csr_mask, csr_width.
  assert (Hs : forall k, 0 <= k -> (v@[k:0])@[n] = (n <? k + 1) && v@[n]).
  { intros k Hk. rewrite slice_testbit by lia. rewrite Z.add_0_l, Z.sub_0_r.
    destruct (n <=? k) eqn:E1, (n <? k + 1) eqn:E2, (0 <=? n) eqn:E3; reflect_bools; try lia;
      by rewrite ?andb_false_r, ?andb_true_r. }
  destruct (addr =? _); [by apply (Hs 4)|]. destruct (addr =? _); [by apply (Hs 2)|].
  destruct (addr =? _); [by apply (Hs 7)|].
  destruct (n <? 64) eqn:E; [done|]. reflect_bools. by rewrite (bv_testbit_high 64 v n) by (done || lia).
Qed.

(** C14: CSR read-modify-write.  A CSR operation on a supported, writable register (by either
    name of an aliased counter) leaves in each bit the register implements what the operation
    makes of the bit read before it and the bit of the operand, and zero in the others. *)
Theorem csr_write_read p op addr data s n :
  csr_ok s -> is_bv 64 (csr_rdata p s addr) -> is_bv 64 data -> In addr csr_supported ->
  csr_is_writable (canonical_addr addr) = true -> op_writes op data = true -> 0 <= n ->
  (csr_rdata p (csr_next false (access_in op addr data) s) addr)@[n] =
  (n <? csr_width addr) && csr_op_bit op ((csr_rdata p s addr)@[n]) (data@[n]).
Proof.
  intros Hs Hr Hd Hin Hw Hop Hn. rewrite csr_access_value by done.
  rewrite csr_mask_bit by (done || by apply csr_write_next_bv). by rewrite csr_write_next_bit.
Qed.

(** Registers that share storage, or that change at every clock edge. *)
Definition csr_group (addr : Z) : Z :=
  if existsb (Z.eqb addr) [CSR_MSTATUS; CSR_SSTATUS] then CSR_MSTATUS
  else if existsb (Z.eqb addr) [CSR_FFLAGS; CSR_FRM; CSR_FCSR] then CSR_FCSR
  else canonical_addr addr.

Definition csr_ticks (addr : Z) : bool :=
  existsb (Z.eqb addr) [CSR_MCYCLE; CSR_MINSTRET; CSR_CYCLE; CSR_INSTRET; CSR_TIME].

Definition frame_ok (p : csr_params) (op data : Z) (s : csr) (addr b : Z) : Prop :=
  csr_group addr <> csr_group b -> csr_ticks b = false ->
  csr_rdata p (csr_do_write (canonical_addr addr) op data s (csr_counters csr_idle s s)) b =
  csr_rdata p s b.

Lemma frame_all p op data s :
  Forall (fun a => Forall (frame_ok p op data s a) csr_supported) csr_supported.
Proof.
  repeat (apply Forall_cons; [repeat (apply Forall_cons;
    [first [intros _ _; reflexivity | intros E; by destruct E | intros _; discriminate]|]); apply Forall_nil|]); apply Forall_nil.
Qed.

(** C15: CSR writes are isolated.  A CSR operation leaves every other supported register that is
    not a view of the same storage, and is not a running counter, with the value it had; a
    rejected operation changes nothing but the counters. *)
Theorem csr_write_frame p op addr data s :
  (forall b, In addr csr_supported -> In b csr_supported ->
     csr_is_writable (canonical_addr addr) = true -> op_writes op data = true ->
     csr_group addr <> csr_group b -> csr_ticks b = false ->
     csr_rdata p (csr_next false (access_in op addr data) s) b = csr_rdata p s b) /\
  (csr_illegal_access true op addr = true ->
   csr_next false (access_in op addr data) s = csr_counters csr_idle s s).
Proof.
  split.
  - intros b Ha Hb Hw Hop Hg Ht. rewrite access_step by (done || by apply supported_canonical).
    pose proof (frame_all p op data s) as Hall.
    pose proof (proj1 (Forall_forall _ _) Hall addr Ha) as Hall2.
    by apply (proj1 (Forall_forall _ _) Hall2 b Hb).
  - intros Hi. unfold csr_next, csr_trap_part, csr_write_part, csr_write_en, access_in.
    cbn -[csr_do_write csr_counters canonical_addr csr_is_supported csr_is_writable].
    unfold csr_illegal_access, csr_write_illegal in Hi.
    destruct (csr_is_supported _); [|done]. cbn [andb negb orb] in Hi |- *.
    apply andb_true_iff in Hi as [_ Hi]. apply negb_true_iff in Hi. by rewrite Hi, andb_false_r.
Qed.

(** ** Counters *)











(** ** Witnesses *)

Lemma csr_reset_ok : csr_ok csr_reset.
Proof. split; cbn; [repeat constructor; done|done|done|]. unfold priv_ok; auto. Qed.

Definition user_csr : csr := csr_reset <| priv_mode_q := PRIV_MODE_U |>.

Lemma user_csr_ok : csr_ok user_csr.
Proof. split; cbn; [repeat constructor; done|done|done|]. unfold priv_ok; auto. Qed.

Lemma csr_trap_mret_roundtrip_witness :
  priv_mode_q (csr_next false (csr_idle <| ci_mret_en := true |>)
    (csr_next false (trap_in false 0x80000010 EXC_ECALL_FROM_U 0) user_csr)) = PRIV_MODE_U.
Proof.
  destruct (csr_trap_mret_roundtrip user_csr 0x80000010 EXC_ECALL_FROM_U 0 user_csr_ok)
    as (_ & H & _). exact H.
Defined.

Lemma csr_trap_sret_roundtrip_witness :
  priv_mode_q (csr_next false (csr_idle <| ci_sret_en := true |>)
    (csr_next false (trap_in true 0x80000010 EXC_ECALL_FROM_U 0) user_csr)) = PRIV_MODE_U.
Proof.
  destruct (csr_trap_sret_roundtrip user_csr 0x80000010 EXC_ECALL_FROM_U 0 user_csr_ok)
    as (_ & H & _); [discriminate|exact H].
Defined.

Lemma csr_write_read_witness :
  (csr_rdata csr_params_default (csr_next false (access_in 2 CSR_FCSR 0x1A5) csr_reset) CSR_FCSR)@[7] = true.
Proof.
  rewrite (csr_write_read csr_params_default 2 CSR_FCSR 0x1A5 csr_reset 7);
    [vm_compute; reflexivity|apply csr_reset_ok|split; vm_compute; congruence|
     split; vm_compute; congruence|cbn; tauto|reflexivity|reflexivity|lia].
Defined.

