(* ===== verification/Core.v ===== *)
(** * Core top: [rtl/core/id_stage.sv] and [rtl/core/richard_core.sv]

    The combinational wires of [richard_core] are functions of the registers and the inputs,
    in the order of their dependencies: the MEM request, the WB stage with the CSR unit, the
    trap controller, the EX stage with its forwarding multiplexers, the ID stage, the hazard
    unit.  [core_next] is the clock edge of the whole core. *)

From S2P Require Import Prelude Rv64Pkg Alu Decoder RegFile HazardUnit PipeRegs MemStage WbStage.
From S2P Require Import TrapCtrl CsrUnit.

Record core := mk_core {
  c_pc : Z;
  c_if_id : if_id;
  c_id_ex : id_ex;
  c_ex_mem : ex_mem;
  c_mem_wb : mem_wb;
  c_regs : regs_t;
  c_csr : csr
}.

(** The input pins other than [clk] and [rst]. *)
Record core_in := mk_core_in {
  in_imem_rdata : Z;
  in_dmem_rdata : Z;
  in_irq : irq
}.

(** The output pins. *)
Record core_out := mk_core_out {
  out_imem_addr : Z;
  out_dmem_read_en : bool;
  out_dmem_write_en : bool;
  out_dmem_addr : Z;
  out_dmem_wdata : Z;
  out_dmem_size : Z
}.

(** ** WB stage, CSR unit and trap controller *)

Definition core_csr_req (c : core) : csr_request := wb_csr_request (c_mem_wb c).

Definition core_wb (c : core) : wb_out :=
  let q := core_csr_req c in
  wb_stage (c_mem_wb c) (add64 (wb_pc (c_mem_wb c)) 4)
    (csr_rdata csr_params_default (c_csr c) (cq_addr q))
    (csr_illegal_access (cq_req q) (cq_op q) (cq_addr q)).

(** Page-fault paths are tied to zero until the MMU drives them. *)
Definition no_page_faults : page_faults :=
  {| trap_instr_page_fault := false; trap_load_page_fault := false;
     trap_store_page_fault := false |}.

Definition core_trap_csrs (s : csr) : trap_csrs :=
  {| tc_mstatus_mie := (mstatus_reg s)@[MSTATUS_MIE_BIT];
     tc_mtvec := mtvec_reg s;
     tc_stvec := stvec_reg s;
     tc_mepc := mepc_reg s;
     tc_sepc := sepc_reg s;
     tc_medeleg := medeleg_reg s;
     tc_mideleg := mideleg_reg s;
     tc_priv_mode := priv_mode_q s |}.

Definition core_trap (q : irq) (c : core) : trap_out :=
  trap_ctrl (wb_pc (c_mem_wb c)) (wo_trap (core_wb c)) no_page_faults q (core_trap_csrs (c_csr c)).

Definition core_csr_in (q : irq) (c : core) : csr_in :=
  let r := core_csr_req c in
  let t := core_trap q c in
  {| ci_req := cq_req r;
     ci_op := cq_op r;
     ci_addr := cq_addr r;
     ci_rs1_data := cq_rs1_data r;
     ci_trap_trigger := to_trigger t;
     ci_trap_to_s_mode := to_to_s_mode t;
     ci_trap_mepc := to_mepc t;
     ci_trap_mcause := to_mcause t;
     ci_trap_mtval := to_mtval t;
     ci_mret_en := to_mret_en t;
     ci_sret_en := to_sret_en t |}.

(** ** ID stage ([module id_stage]) *)

Definition id_stage (r : if_id) (priv_mode : Z) (regs : regs_t)
    (wb_reg_write_en : bool) (wb_rd_addr wb_rd_wdata : Z) : id_ex :=
  let d := decoder (id_instr r) priv_mode in
  {| ex_instr := id_instr r;
     ex_pc := id_pc r;
     ex_rs1_rdata := reg_read regs (rs1_addr d) wb_reg_write_en wb_rd_addr wb_rd_wdata;
     ex_rs2_rdata := reg_read regs (rs2_addr d) wb_reg_write_en wb_rd_addr wb_rd_wdata;
     ex_dec := d |}.

Definition core_id (c : core) : id_ex :=
  let w := core_wb c in
  id_stage (c_if_id c) (priv_mode_q (c_csr c)) (c_regs c)
    (wo_reg_write_en w) (wo_rd_addr w) (wo_rd_wdata w).

(** ** EX stage *)

(** The hazard unit's inputs, its own feedback being limited to the EX results. *)
Definition core_hu_in (c : core) (x : ex_out) (t : trap_out) : hu_in :=
  let d := ex_dec (c_id_ex c) in
  {| hi_id_rs1_addr := rs1_addr (ex_dec (core_id c));
     hi_id_rs2_addr := rs2_addr (ex_dec (core_id c));
     hi_ex_rs1_addr := rs1_addr d;
     hi_ex_rs2_addr := rs2_addr d;
     hi_ex_rd_addr := rd_addr (wb_c d);
     hi_ex_reg_write_en := reg_write_en (wb_c d);
     hi_ex_is_load := is_load (mem_c d);
     hi_ex_branch_taken := xo_branch_taken x;
     hi_ex_branch_target := xo_branch_target x;
     hi_mem_rd_addr := rd_addr (mem_wc (c_ex_mem c));
     hi_mem_reg_write_en := reg_write_en (mem_wc (c_ex_mem c));
     hi_mem_stall_req := mem_stall (c_ex_mem c) true true;
     hi_trap_flush_req := to_flush_req t;
     hi_trap_pc_sel := to_pc_sel t;
     hi_trap_target_pc := to_next_pc t;
     hi_wb_rd_addr := rd_addr (wb_wc (c_mem_wb c));
     hi_wb_reg_write_en := wo_reg_write_en (core_wb c) |}.

(** The hazard unit's inputs that the forwarding selects depend on: they do not involve the
    EX results, so they can be computed first. *)
Definition core_fwd_in (c : core) : hu_in :=
  core_hu_in c (mk_ex_out 0 false 0)
    (mk_trap_out false 0 0 0 false false false false false 0).

(** One operand's forwarding multiplexer. *)
Definition forward_mux (sel mem_alu wb_data id_ex_data : Z) : Z :=
  match sel with
  | 1 => mem_alu
  | 2 => wb_data
  | _ => id_ex_data
  end.

Definition core_rs1_fwd (c : core) : Z :=
  forward_mux (forward_sel (core_fwd_in c) (rs1_addr (ex_dec (c_id_ex c))))
    (mem_alu_result (c_ex_mem c)) (wo_rd_wdata (core_wb c)) (ex_rs1_rdata (c_id_ex c)).
Definition core_rs2_fwd (c : core) : Z :=
  forward_mux (forward_sel (core_fwd_in c) (rs2_addr (ex_dec (c_id_ex c))))
    (mem_alu_result (c_ex_mem c)) (wo_rd_wdata (core_wb c)) (ex_rs2_rdata (c_id_ex c)).

(** The EX inputs of an instruction with given operand values. *)
Definition ex_in_of (pc rs1 rs2 : Z) (d : dec_out) : ex_in :=
  {| xi_pc := pc;
     xi_rs1_rdata := rs1;
     xi_rs2_rdata := rs2;
     xi_imm := imm d;
     xi_alu_op := alu_op (ex_c d);
     xi_alu_src1_sel := alu_src1_sel (ex_c d);
     xi_alu_src2_sel := alu_src2_sel (ex_c d);
     xi_is_branch := is_branch (ex_c d);
     xi_branch_op := branch_op (ex_c d);
     xi_is_jump := is_jump (ex_c d);
     xi_is_word_op := is_word_op (ex_c d) |}.

Definition core_ex (c : core) : ex_out :=
  ex_stage (ex_in_of (ex_pc (c_id_ex c)) (core_rs1_fwd c) (core_rs2_fwd c) (ex_dec (c_id_ex c))).

(** The EX/MEM register's input. *)
Definition ex_mem_in (x : id_ex) (rs1 rs2 : Z) (o : ex_out) : ex_mem :=
  let d := ex_dec x in
  {| mem_alu_result := xo_alu_result o;
     mem_branch_taken := xo_branch_taken o;
     mem_branch_target := xo_branch_target o;
     mem_rs1_rdata := rs1;
     mem_rs2_rdata := rs2;
     mem_rs1_addr := rs1_addr d;
     mem_pc := ex_pc x;
     mem_imm := imm d;
     mem_instr := ex_instr x;
     mem_mc := mem_c d;
     mem_wc := wb_c d;
     mem_sc := sys_c d;
     mem_fc := fence_c d |}.

Definition core_hazard (q : irq) (c : core) : hu_out :=
  hazard_unit (core_hu_in c (core_ex c) (core_trap q c)).

(** ** Output pins *)

Definition core_outputs (c : core) : core_out :=
  let r := mem_request (c_ex_mem c) in
  {| out_imem_addr := c_pc c;
     out_dmem_read_en := dmem_read_req r;
     out_dmem_write_en := dmem_write_req r;
     out_dmem_addr := dmem_addr r;
     out_dmem_wdata := dmem_wdata r;
     out_dmem_size := mem_size (mem_mc (c_ex_mem c)) |}.

(** ** The clock edge of [module richard_core] *)

Definition core_next (rst : bool) (i : core_in) (c : core) : core :=
  let h := core_hazard (in_irq i) c in
  let t := core_trap (in_irq i) c in
  let w := core_wb c in
  {| c_pc :=
       pc_next rst (if_stall_en (hu_c h)) (pc_redirect_sel (hu_r h)) (pc_redirect_target (hu_r h))
         (pc_redirect_is_trap (hu_r h)) (c_pc c);
     c_if_id :=
       if_id_next rst (if_id_stall_en (hu_c h)) (if_id_flush_en (hu_c h)) (c_pc c)
         (in_imem_rdata i) (c_if_id c);
     c_id_ex :=
       id_ex_next rst (id_ex_stall_en (hu_c h)) (id_ex_flush_en (hu_c h)) (core_id c) (c_id_ex c);
     c_ex_mem :=
       ex_mem_next rst (ex_mem_stall_en (hu_c h)) false
         (ex_mem_in (c_id_ex c) (core_rs1_fwd c) (core_rs2_fwd c) (core_ex c)) (c_ex_mem c);
     c_mem_wb :=
       mem_wb_next rst false (to_flush_req t) (mem_result (c_ex_mem c) (in_dmem_rdata i))
         (c_mem_wb c);
     c_regs :=
       regfile_next rst (c_regs c) (wo_reg_write_en w) (wo_rd_addr w) (wo_rd_wdata w);
     c_csr := csr_next rst (core_csr_in (in_irq i) c) (c_csr c) |}.

(** The state every register has after a clock edge with [rst] high. *)
Definition core_reset : core :=
  {| c_pc := RESET_PC; c_if_id := if_id_reset; c_id_ex := id_ex_reset; c_ex_mem := ex_mem_reset;
     c_mem_wb := mem_wb_reset; c_regs := regs_reset; c_csr := csr_reset |}.

(** ** Lemmas *)

(** One edge under reset reaches [core_reset] from any state: no register is left out. *)
Lemma core_next_rst i c : core_next true i c = core_reset.
Proof. reflexivity. Qed.

(** The forwarding selects do not depend on the part of the hazard unit's inputs that
    [core_fwd_in] leaves out: the split evaluation computes the module's outputs. *)
Lemma core_forward_selects q c :
  forward_a_sel (core_hazard q c) = forward_sel (core_fwd_in c) (rs1_addr (ex_dec (c_id_ex c))) /\
  forward_b_sel (core_hazard q c) = forward_sel (core_fwd_in c) (rs2_addr (ex_dec (c_id_ex c))).
Proof. done. Qed.
