(* ===== verification/Bus.v ===== *)
(** * Memory interface and system tick

    The core drives an instruction port and a data port; the two test harnesses under [tb/]
    attach different memories to them.  [Bus] is what the core needs of a memory, and
    [sys_tick] one clock cycle of a core attached to one: [CoreSim::tick] of
    [tb/core/tb_core.cc] and [tick] of [tb/compliance/compliance_runner.cc]. *)

From S2P Require Import Prelude PipeRegs Core TrapCtrl.

(** [bus_write m addr wdata size] is [None] where the C++ code has undefined behaviour. *)
Class Bus (M : Type) := {
  bus_fetch : M -> Z -> Z;
  bus_read : M -> Z -> Z;
  bus_write : M -> Z -> Z -> Z -> option M
}.

Section Tick.
Context {M : Type} `{Bus M}.

(** The responses a memory drives for the core's present outputs. *)
Definition bus_inputs (q : irq) (c : core) (m : M) : core_in :=
  let o := core_outputs c in
  {| in_imem_rdata := bus_fetch m (out_imem_addr o);
     in_dmem_rdata := if out_dmem_read_en o then bus_read m (out_dmem_addr o) else 0;
     in_irq := q |}.

(** The write the core requests, performed after the edge. *)
Definition bus_commit (c : core) (m : M) : option M :=
  let o := core_outputs c in
  if out_dmem_write_en o
  then bus_write m (out_dmem_addr o) (out_dmem_wdata o) (out_dmem_size o)
  else Some m.

Definition sys_tick (rst : bool) (q : irq) (cm : core * M) : option (core * M) :=
  let c := core_next rst (bus_inputs q cm.1 cm.2) cm.1 in
  m ← bus_commit c cm.2; Some (c, m).

(** [n] cycles with [rst] low; the interrupt lines may differ at each cycle. *)
Fixpoint sys_run (n : nat) (q : nat -> irq) (cm : core * M) : option (core * M) :=
  match n with
  | O => Some cm
  | S n => cm' ← sys_run n q cm; sys_tick false (q n) cm'
  end.

(** [n] cycles with [rst] high. *)
Fixpoint sys_reset (n : nat) (cm : core * M) : option (core * M) :=
  match n with
  | O => Some cm
  | S n => cm' ← sys_reset n cm; sys_tick true irq_none cm'
  end.

(** Resetting for at least one cycle gives the reset core and leaves memory alone. *)
Lemma sys_reset_core n c m : sys_reset (S n) (c, m) = Some (core_reset, m).
Proof.
  revert c; induction n as [|n IH]; intros c; [done|].
  change (sys_reset (S (S n)) (c, m)) with
    (cm' ← sys_reset (S n) (c, m); sys_tick true irq_none cm').
  by rewrite IH.
Qed.
End Tick.
