(* ===== verification/SeqMachine.v ===== *)
(** * The sequential machine

    An abstract specification of [richard_core] without a pipeline: one instruction per step,
    each step running decode, execute, memory and write-back of one instruction to the end.
    It is the reference the pipelined core is proved to refine ([Pipeline.v]), and is itself
    proved to execute the RV64I instruction set ([Isa.v]).

    A step is [None] when the instruction leaves the subset the refinement covers: it traps,
    is a CSR instruction or a trap return, or its store has no defined effect on the memory. *)

From S2P Require Import Prelude Rv64Pkg Alu Decoder RegFile PipeRegs MemStage WbStage Core Bus.

Section Seq.
Context {M : Type} `{Bus M}.

Record seq_state := mk_seq { s_pc : Z; s_regs : regs_t; s_mem : M }.

Definition sq_instr (s : seq_state) : Z := bus_fetch (s_mem s) (s_pc s).
Definition sq_dec (s : seq_state) : dec_out := decoder (sq_instr s) PRIV_MODE_M.
Definition sq_rs1 (s : seq_state) : Z := reg_get (s_regs s) (rs1_addr (sq_dec s)).
Definition sq_rs2 (s : seq_state) : Z := reg_get (s_regs s) (rs2_addr (sq_dec s)).

Definition sq_ex (s : seq_state) : ex_out :=
  ex_stage (ex_in_of (s_pc s) (sq_rs1 s) (sq_rs2 s) (sq_dec s)).

(** What the instruction carries into its memory stage. *)
Definition sq_exmem (s : seq_state) : ex_mem :=
  ex_mem_in (mk_id_ex (sq_instr s) (s_pc s) (sq_rs1 s) (sq_rs2 s) (sq_dec s))
    (sq_rs1 s) (sq_rs2 s) (sq_ex s).

Definition sq_rdata (s : seq_state) : Z :=
  let r := mem_request (sq_exmem s) in
  if dmem_read_req r then bus_read (s_mem s) (dmem_addr r) else 0.

(** What the instruction carries into its write-back stage. *)
Definition sq_memwb (s : seq_state) : mem_wb := mem_result (sq_exmem s) (sq_rdata s).

Definition sq_mem_next (s : seq_state) : option M :=
  let r := mem_request (sq_exmem s) in
  if dmem_write_req r
  then bus_write (s_mem s) (dmem_addr r) (dmem_wdata r) (mem_size (mem_mc (sq_exmem s)))
  else Some (s_mem s).

(** Neither a trap, nor a CSR instruction, nor a trap return. *)
Definition plain (w : mem_wb) : bool :=
  negb (wb_has_trap w) && negb (is_csr (wb_sc w)) && negb (is_mret (wb_sc w)) &&
  negb (is_sret (wb_sc w)).

Definition sq_wdata (s : seq_state) : Z := wb_mux (sq_memwb s) (add64 (s_pc s) 4) 0.

Definition sq_regs_next (s : seq_state) : regs_t :=
  let w := wb_wc (sq_memwb s) in
  reg_write (s_regs s) (reg_write_en w) (rd_addr w) (sq_wdata s).

Definition sq_pc_next (s : seq_state) : Z :=
  if xo_branch_taken (sq_ex s) then xo_branch_target (sq_ex s) else add64 (s_pc s) 4.

Definition seq_step (s : seq_state) : option seq_state :=
  if plain (sq_memwb s) then
    m ← sq_mem_next s;
    Some {| s_pc := sq_pc_next s; s_regs := sq_regs_next s; s_mem := m |}
  else None.

Fixpoint seq_run (n : nat) (s : seq_state) : option seq_state :=
  match n with
  | O => Some s
  | S n => s' ← seq_run n s; seq_step s'
  end.

(** The state the core comes out of reset in. *)
Definition seq_init (m : M) : seq_state :=
  {| s_pc := RESET_PC; s_regs := regs_reset; s_mem := m |}.

(** The run does not overwrite its own code: what it fetches at each of the first [n] steps
    was there from the start of the run. *)
Definition code_stable (n : nat) (s : seq_state) : Prop :=
  forall i j si sj, (i <= j)%nat -> (j <= n)%nat ->
    seq_run i s = Some si -> seq_run j s = Some sj ->
    bus_fetch (s_mem si) (s_pc sj) = bus_fetch (s_mem sj) (s_pc sj).

(** ** Lemmas *)

Lemma seq_step_inv s s' :
  seq_step s = Some s' ->
  plain (sq_memwb s) = true /\ sq_mem_next s = Some (s_mem s') /\
  s_pc s' = sq_pc_next s /\ s_regs s' = sq_regs_next s.
Proof.
  unfold seq_step. destruct (plain _); [|done].
  destruct (sq_mem_next s) as [m|]; [|done]. intros [= <-]. done.
Qed.

Lemma plain_inv w :
  plain w = true ->
  wb_has_trap w = false /\ is_csr (wb_sc w) = false /\ is_mret (wb_sc w) = false /\
  is_sret (wb_sc w) = false.
Proof. unfold plain. intros; reflect_bools; done. Qed.

Lemma seq_run_le n k s s' : (k <= n)%nat -> seq_run n s = Some s' -> is_Some (seq_run k s).
Proof.
  intros Hk. revert s'. induction Hk as [|n Hk IH]; intros s' Hn; [by eexists|].
  simpl in Hn. destruct (seq_run n s) as [s1|] eqn:E; [|done]. by eapply IH.
Qed.
End Seq.

Arguments seq_state : clear implicits.
Arguments seq_state M : assert.

(** ** Facts about decoded instructions that the pipeline relies on *)

(** Unfold the decoder's arms; the opcode decides the shape. *)
Ltac decode_cases :=
  unfold decoder;
  repeat match goal with
         | |- context [match opcode_dec ?x with _ => _ end] =>
             let o := fresh "o" in destruct (opcode_dec x) as [o|]; [destruct o|]
         end;
  unfold decode_priv, decode_csr, word_alu;
  repeat match goal with
         | |- context [match ?x with _ => _ end] => destruct x
         end.

Lemma decoder_addrs instr p :
  rs1_addr (decoder instr p) = rs1_addr (dec_default instr) /\
  rs2_addr (decoder instr p) = instr@[24:20] /\
  rd_addr (wb_c (decoder instr p)) = instr@[11:7].
Proof. decode_cases; done. Qed.

(** The write-back source tells which unit produces the result. *)
Lemma decoder_wb_sel instr p :
  let d := decoder instr p in
  wb_sel (wb_c d) = 0 /\ is_load (mem_c d) = false /\ is_jump (ex_c d) = false \/
  wb_sel (wb_c d) = 1 /\ is_load (mem_c d) = true \/
  wb_sel (wb_c d) = 2 /\ is_jump (ex_c d) = true.
Proof. cbv zeta. decode_cases; cbn; auto. Qed.

(** No instruction both loads and stores. *)
Lemma decoder_load_store instr p :
  is_load (mem_c (decoder instr p)) && is_store (mem_c (decoder instr p)) = false.
Proof. decode_cases; done. Qed.
