(* ===== verification/Pipeline.v ===== *)
(** * The pipelined core refines the sequential machine

    The simulation relation [pipe_inv] ties every pipeline slot to the step of the sequential
    run whose instruction it carries; an empty slot is constrained only to be harmless. *)

From S2P Require Import Prelude Rv64Pkg Alu Decoder RegFile HazardUnit PipeRegs MemStage WbStage.
From S2P Require Import TrapCtrl CsrUnit Core Bus SeqMachine.

(** ** Harmless slots *)

Definition quiet_sys (s : sys_ctl) : Prop :=
  is_csr s = false /\ illegal_instr s = false /\ is_ecall s = false /\ is_ebreak s = false /\
  is_mret s = false /\ is_sret s = false.

Definition quiet_wc (w : wb_ctl) : Prop := reg_write_en w = false \/ rd_addr w = 0.

Definition quiet_mc (m : mem_ctl) : Prop := is_load m = false /\ is_store m = false.

Definition quiet_wb (w : mem_wb) : Prop :=
  quiet_wc (wb_wc w) /\ quiet_sys (wb_sc w) /\ wb_load_fault w = false /\ wb_store_fault w = false.

Definition quiet_mem (m : ex_mem) : Prop :=
  quiet_wc (mem_wc m) /\ quiet_sys (mem_sc m) /\ quiet_mc (mem_mc m).

Definition quiet_ex (x : id_ex) : Prop :=
  quiet_wc (wb_c (ex_dec x)) /\ quiet_sys (sys_c (ex_dec x)) /\ quiet_mc (mem_c (ex_dec x)) /\
  is_branch (ex_c (ex_dec x)) = false /\ is_jump (ex_c (ex_dec x)) = false.

(** Machine mode with interrupts globally disabled, as a reset leaves the CSR unit. *)
Definition quiet_csr (s : csr) : Prop :=
  (mstatus_reg s)@[MSTATUS_MIE_BIT] = false /\ priv_mode_q s = PRIV_MODE_M.

(** ** The CSR unit and the trap controller stay silent *)

Lemma quiet_wb_plain w : quiet_wb w -> plain w = true.
Proof.
  intros (_ & (H1 & H2 & H3 & H4 & H5 & H6) & H7 & H8).
  unfold plain, wb_has_trap. by rewrite H1, H2, H3, H4, H5, H6, H7, H8.
Qed.

Section Quiet.
Context (c : core).
Context (Hcsr : quiet_csr (c_csr c)) (Hplain : plain (c_mem_wb c) = true).

Lemma core_csr_req_quiet : cq_req (core_csr_req c) = false.
Proof. apply plain_inv in Hplain as (_ & E & _). unfold core_csr_req; simpl. by rewrite E. Qed.

Lemma core_wb_quiet :
  wo_reg_write_en (core_wb c) = reg_write_en (wb_wc (c_mem_wb c)) /\
  wo_rd_addr (core_wb c) = rd_addr (wb_wc (c_mem_wb c)) /\
  wo_rd_wdata (core_wb c) = wb_mux (c_mem_wb c) (add64 (wb_pc (c_mem_wb c)) 4) 0.
Proof.
  apply plain_inv in Hplain as (Ht & Hc & _).
  unfold core_wb, wb_stage, csr_illegal_access, wb_mux; simpl.
  rewrite Ht, Hc. by rewrite andb_true_r.
Qed.

Lemma core_trap_quiet q :
  let t := core_trap q c in
  to_trigger t = false /\ to_mret_en t = false /\ to_sret_en t = false /\
  to_flush_req t = false /\ to_pc_sel t = false.
Proof.
  destruct Hcsr as [Hmie Hpriv]. apply plain_inv in Hplain as (Ht & Hc & Hm & Hs).
  assert (Hsync : sync_exception (wb_pc (c_mem_wb c)) (wo_trap (core_wb c)) no_page_faults
                    (tc_priv_mode (core_trap_csrs (c_csr c))) = None).
  { unfold sync_exception, core_wb, wb_stage, csr_illegal_access; simpl. rewrite Hc; simpl.
    unfold wb_has_trap in Ht. reflect_bools.
    repeat match goal with E : _ = false |- _ => rewrite E; clear E end. done. }
  cbv zeta. unfold core_trap, trap_ctrl. rewrite Hsync.
  unfold pending_interrupt. cbn [core_trap_csrs tc_mstatus_mie]. rewrite Hmie.
  cbn. by rewrite Hm, Hs.
Qed.

Lemma core_csr_next_quiet q : quiet_csr (csr_next false (core_csr_in q c) (c_csr c)).
Proof.
  pose proof core_csr_req_quiet as Hreq. destruct (core_trap_quiet q) as (H1 & H2 & H3 & _).
  unfold csr_next, csr_trap_part, csr_write_part, csr_write_en, csr_counters, core_csr_in.
  cbn [ci_req ci_trap_trigger ci_mret_en ci_sret_en].
  rewrite H1, H2, H3, Hreq. exact Hcsr.
Qed.
End Quiet.

(** ** The simulation relation *)

Section Refinement.
Context {M : Type} `{Bus M}.

(** A sequential run, as the sequence of its states, whose first [N] steps succeed. *)
Variable s : nat -> seq_state M.
Variable N : nat.
Hypothesis s_step : forall k, (k < N)%nat -> seq_step (s k) = Some (s (S k)).
Hypothesis s_code : forall i j, (i <= j)%nat -> (j <= N)%nat ->
  bus_fetch (s_mem (s i)) (s_pc (s j)) = bus_fetch (s_mem (s j)) (s_pc (s j)).
Hypothesis s_init_regs : regs_ok (s_regs (s 0)).

(** Which slots carry an instruction of the run: a slot holding a wrong-path fetch does not. *)
Record slots := mk_slots { v_id : bool; v_ex : bool; v_mem : bool; v_wb : bool }.

Definition next (v : bool) (k : nat) : nat := if v then S k else k.

(** The run index of each slot's instruction, from the oldest: [k] steps have retired. *)
Definition i_mem (k : nat) (v : slots) : nat := next (v_wb v) k.
Definition i_ex (k : nat) (v : slots) : nat := next (v_mem v) (i_mem k v).
Definition i_id (k : nat) (v : slots) : nat := next (v_ex v) (i_ex k v).
Definition i_if (k : nat) (v : slots) : nat := next (v_id v) (i_id k v).

(** The ID/EX register carries the decoded instruction of [st], its operands read from the
    register file [regs]. *)
Definition ex_slot (st : seq_state M) (regs : regs_t) (x : id_ex) : Prop :=
  x = mk_id_ex (sq_instr st) (s_pc st)
        (reg_get regs (rs1_addr (sq_dec st))) (reg_get regs (rs2_addr (sq_dec st))) (sq_dec st).

(** Step [j] of the run takes a branch or a jump. *)
Definition taken_at (j : nat) : bool := xo_branch_taken (sq_ex (s j)).

(** The instruction in EX redirects the fetch. *)
Definition redirects (k : nat) (v : slots) : bool := v_ex v && taken_at (i_ex k v).

Record pipe_inv (k : nat) (v : slots) (c : core) (m : M) : Prop := {
  pi_bound : (i_if k v <= N)%nat;
  pi_csr : quiet_csr (c_csr c);
  pi_regs : c_regs c = s_regs (s k);
  pi_mem : m = s_mem (s (i_ex k v));
  pi_wb : if v_wb v then c_mem_wb c = sq_memwb (s k) else quiet_wb (c_mem_wb c);
  pi_exmem : if v_mem v then c_ex_mem c = sq_exmem (s (i_mem k v)) else quiet_mem (c_ex_mem c);
  pi_idex : if v_ex v then ex_slot (s (i_ex k v)) (s_regs (s k)) (c_id_ex c)
            else quiet_ex (c_id_ex c);
  (** no operand of EX is the target of a load or of a taken jump in MEM *)
  pi_load : v_mem v = true -> v_ex v = true ->
    is_load (mem_mc (c_ex_mem c)) = true -> rd_addr (mem_wc (c_ex_mem c)) <> 0 ->
    rd_addr (mem_wc (c_ex_mem c)) <> rs1_addr (ex_dec (c_id_ex c)) /\
    rd_addr (mem_wc (c_ex_mem c)) <> rs2_addr (ex_dec (c_id_ex c));
  pi_taken : v_mem v = true -> mem_branch_taken (c_ex_mem c) = true -> v_ex v = false;
  pi_fetch :
    if redirects k v then v_id v = false
    else (v_id v && taken_at (i_id k v) = false -> c_pc c = s_pc (s (i_if k v))) /\
         if v_id v
         then c_if_id c = mk_if_id (s_pc (s (i_id k v))) (sq_instr (s (i_id k v)))
         else id_instr (c_if_id c) = NOP_INSTR
}.

(** *** Well-formedness of the run *)

Lemma sq_rd_bv st : is_bv 5 (rd_addr (wb_wc (sq_memwb st))).
Proof.
  cbn. destruct (decoder_addrs (sq_instr st) PRIV_MODE_M) as (_ & _ & E). unfold sq_dec.
  rewrite E. by apply slice_bv.
Qed.

Lemma dec_rs_bv instr p :
  is_bv 5 (rs1_addr (decoder instr p)) /\ is_bv 5 (rs2_addr (decoder instr p)).
Proof.
  destruct (decoder_addrs instr p) as (-> & -> & _). split; [|by apply slice_bv].
  cbn. case_bools; [apply zero_bv|apply slice_bv]; lia.
Qed.

Lemma s_regs_ok k : (k <= N)%nat -> regs_ok (s_regs (s k)).
Proof.
  induction k as [|k IH]; intros Hk; [done|].
  destruct (seq_step_inv _ _ (s_step k ltac:(lia))) as (_ & _ & _ & ->).
  apply reg_write_ok; [apply IH; lia | apply sq_rd_bv].
Qed.
Lemma mem_no_stall x : mem_stall x true true = false.
Proof. unfold mem_stall. simpl. by rewrite !andb_false_r. Qed.

(** *** One cycle, slot by slot *)

Section Cycle.
Context (k : nat) (v : slots) (c : core) (m : M).
Context (Hinv : pipe_inv k v c m).

Lemma inv_bounds : (k <= i_mem k v <= i_ex k v)%nat /\ (i_ex k v <= i_id k v <= N)%nat /\
  (i_id k v <= i_if k v <= N)%nat.
Proof.
  pose proof (pi_bound _ _ _ _ Hinv). unfold i_if, i_id, i_ex, i_mem, next in *.
  case_bools; lia.
Qed.

Lemma wb_plain : plain (c_mem_wb c) = true.
Proof.
  pose proof (pi_wb _ _ _ _ Hinv) as Hwb. pose proof inv_bounds as Hb.
  unfold i_mem, next in Hb. destruct (v_wb v).
  - rewrite Hwb. by apply (seq_step_inv _ _ (s_step k ltac:(lia))).
  - by apply quiet_wb_plain.
Qed.

(** The WB slot retires into the register file. *)
Lemma wb_retire :
  reg_write (c_regs c) (wo_reg_write_en (core_wb c)) (wo_rd_addr (core_wb c))
    (wo_rd_wdata (core_wb c)) = s_regs (s (i_mem k v)).
Proof.
  pose proof (pi_wb _ _ _ _ Hinv) as Hwb. pose proof inv_bounds as Hb.
  destruct (core_wb_quiet c wb_plain) as (-> & -> & ->).
  rewrite (pi_regs _ _ _ _ Hinv). unfold i_mem, next in *. destruct (v_wb v).
  - rewrite Hwb. destruct (seq_step_inv _ _ (s_step k ltac:(lia))) as (_ & _ & _ & ->). done.
  - apply reg_write_quiet, Hwb.
Qed.

Lemma wb_rd_bv : wo_reg_write_en (core_wb c) = false \/ is_bv 5 (wo_rd_addr (core_wb c)).
Proof.
  pose proof (pi_wb _ _ _ _ Hinv) as Hwb. destruct (core_wb_quiet c wb_plain) as (-> & -> & _).
  destruct (v_wb v); [right; rewrite Hwb; apply sq_rd_bv|].
  destruct Hwb as ([?| ->] & _); [by left | right; apply zero_bv; lia].
Qed.

(** The register an EX operand names, after the MEM slot has retired too. *)
Lemma mem_operand a :
  v_ex v = true -> is_bv 5 a ->
  a = rs1_addr (ex_dec (c_id_ex c)) \/ a = rs2_addr (ex_dec (c_id_ex c)) ->
  reg_get (s_regs (s (i_ex k v))) a =
  let w := mem_wc (c_ex_mem c) in
  if reg_write_en w && negb (rd_addr w =? 0) && (rd_addr w =? a)
  then mem_alu_result (c_ex_mem c) else reg_get (s_regs (s (i_mem k v))) a.
Proof.
  intros Hex Ha Hop. cbv zeta.
  pose proof (pi_exmem _ _ _ _ Hinv) as Hm. pose proof (pi_load _ _ _ _ Hinv) as Hload.
  pose proof (pi_taken _ _ _ _ Hinv) as Htaken. pose proof inv_bounds as Hb.
  unfold i_ex, next in *. destruct (v_mem v).
  2:{ destruct Hm as ([-> | ->] & _); [done|]. by rewrite andb_false_r. }
  destruct (seq_step_inv _ _ (s_step (i_mem k v) ltac:(lia))) as (Hp & _ & _ & ->).
  unfold sq_regs_next. rewrite reg_get_write by (apply s_regs_ok; lia) || apply sq_rd_bv || done.
  rewrite Hm in *. change (wb_wc (sq_memwb ?st)) with (mem_wc (sq_exmem st)).
  destruct (_ && (rd_addr _ =? a)) eqn:E; [|done]. reflect_bools.
  unfold sq_wdata, wb_mux. apply plain_inv in Hp as (_ & -> & _).
  change (wb_wc (sq_memwb ?st)) with (mem_wc (sq_exmem st)).
  destruct (decoder_wb_sel (sq_instr (s (i_mem k v))) PRIV_MODE_M)
    as [(Hs & _)|[(Hs & Hl)|(Hs & Hj)]].
  - unfold sq_exmem at 1, ex_mem_in; cbn. unfold sq_dec. by rewrite Hs.
  - destruct (Hload eq_refl Hex Hl) as [? ?]; [done|]. exfalso; destruct Hop; congruence.
  - rewrite Htaken in Hex; [done..|]. cbn. unfold sq_dec; by rewrite Hj.
Qed.

(** Forwarding delivers the operand the sequential machine reads. *)
Lemma forward_operand a :
  v_ex v = true -> is_bv 5 a ->
  a = rs1_addr (ex_dec (c_id_ex c)) \/ a = rs2_addr (ex_dec (c_id_ex c)) ->
  forward_mux (forward_sel (core_fwd_in c) a) (mem_alu_result (c_ex_mem c))
    (wo_rd_wdata (core_wb c)) (reg_get (s_regs (s k)) a) =
  reg_get (s_regs (s (i_ex k v))) a.
Proof.
  intros Hex Ha Hop. rewrite mem_operand by done. cbv zeta.
  unfold forward_sel, core_fwd_in, core_hu_in. cbn [hi_mem_reg_write_en hi_mem_rd_addr
    hi_wb_reg_write_en hi_wb_rd_addr].
  destruct (reg_write_en _ && _ && _); [done|].
  rewrite <- wb_retire, (pi_regs _ _ _ _ Hinv).
  destruct (core_wb_quiet c wb_plain) as (_ & <- & _).
  destruct wb_rd_bv as [->|Hrd]; [done|].
  rewrite reg_get_write by (apply s_regs_ok; pose proof inv_bounds; lia) || done.
  by destruct (wo_reg_write_en _ && _ && _).
Qed.

Lemma ex_operands :
  v_ex v = true ->
  core_rs1_fwd c = sq_rs1 (s (i_ex k v)) /\ core_rs2_fwd c = sq_rs2 (s (i_ex k v)).
Proof.
  intros Hex. pose proof (pi_idex _ _ _ _ Hinv) as Hx. rewrite Hex in Hx.
  destruct (dec_rs_bv (sq_instr (s (i_ex k v))) PRIV_MODE_M) as [H1 H2].
  assert (E : ex_dec (c_id_ex c) = sq_dec (s (i_ex k v)) /\
    ex_rs1_rdata (c_id_ex c) = reg_get (s_regs (s k)) (rs1_addr (ex_dec (c_id_ex c))) /\
    ex_rs2_rdata (c_id_ex c) = reg_get (s_regs (s k)) (rs2_addr (ex_dec (c_id_ex c))))
    by (rewrite Hx; done).
  destruct E as (E0 & E1 & E2). unfold core_rs1_fwd, core_rs2_fwd. rewrite E1, E2.
  by split; rewrite forward_operand; rewrite ?E0; auto.
Qed.
(** What EX hands to the EX/MEM register. *)
Lemma ex_result :
  let x := ex_mem_in (c_id_ex c) (core_rs1_fwd c) (core_rs2_fwd c) (core_ex c) in
  xo_branch_taken (core_ex c) = redirects k v /\
  if v_ex v then core_ex c = sq_ex (s (i_ex k v)) /\ x = sq_exmem (s (i_ex k v))
  else quiet_mem x.
Proof.
  cbv zeta. pose proof (pi_idex _ _ _ _ Hinv) as Hx. unfold redirects.
  destruct (v_ex v) eqn:Hex.
  - destruct ex_operands as [E1 E2]; [done|]. unfold core_ex. rewrite E1, E2, Hx. done.
  - destruct Hx as (H1 & H2 & H3 & Hb & Hj). split; [|done].
    unfold core_ex, ex_stage, ex_in_of; cbn. by rewrite Hb, Hj.
Qed.

(** What ID hands to the ID/EX register. *)
Lemma id_result :
  redirects k v = false ->
  if v_id v then ex_slot (s (i_id k v)) (s_regs (s (i_mem k v))) (core_id c)
  else quiet_ex (core_id c) /\ rs1_addr (ex_dec (core_id c)) = 0 /\
       rs2_addr (ex_dec (core_id c)) = 0.
Proof.
  intros Hr. pose proof (pi_fetch _ _ _ _ Hinv) as Hf. rewrite Hr in Hf.
  destruct Hf as [_ Hid]. destruct (pi_csr _ _ _ _ Hinv) as [_ Hpriv].
  unfold core_id, id_stage. rewrite Hpriv. destruct (v_id v).
  - rewrite Hid. cbn [id_instr id_pc]. unfold ex_slot, sq_dec.
    destruct (dec_rs_bv (sq_instr (s (i_id k v))) PRIV_MODE_M) as [H1 H2].
    assert (Hok : regs_ok (c_regs c)).
    { rewrite (pi_regs _ _ _ _ Hinv). apply s_regs_ok. pose proof inv_bounds; lia. }
    rewrite !reg_read_bypass, wb_retire by (done || apply wb_rd_bv). done.
  - rewrite Hid. repeat split; try done. by right.
Qed.

(** The load data of the MEM slot, and the write-back record it becomes. *)
Lemma mem_result_ok q :
  let w := mem_result (c_ex_mem c) (in_dmem_rdata (bus_inputs q c m)) in
  if v_mem v then w = sq_memwb (s (i_mem k v)) else quiet_wb w.
Proof.
  cbv zeta. pose proof (pi_exmem _ _ _ _ Hinv) as Hm. pose proof (pi_mem _ _ _ _ Hinv) as Hmem.
  pose proof inv_bounds as Hb. unfold i_ex, next in Hmem, Hb. destruct (v_mem v).
  - unfold sq_memwb, bus_inputs, sq_rdata. cbn [in_dmem_rdata core_outputs out_dmem_read_en
      out_dmem_addr]. rewrite Hm. f_equal.
    destruct (dmem_read_req _) eqn:E; [|done]. f_equal. rewrite Hmem.
    destruct (seq_step_inv _ _ (s_step (i_mem k v) ltac:(lia))) as (_ & Hnext & _).
    unfold sq_mem_next in Hnext. cbn in E, Hnext. apply andb_true_iff in E as [E _].
    pose proof (decoder_load_store (sq_instr (s (i_mem k v))) PRIV_MODE_M) as Hls.
    cbn in E. unfold sq_dec in *. rewrite E in Hls. cbn in Hls. rewrite Hls in Hnext.
    by injection Hnext.
  - destruct Hm as (H1 & H2 & H3 & H4). split_and!; try done;
      cbn; unfold load_addr_misaligned, store_addr_misaligned; by rewrite ?H3, ?H4.
Qed.

(** The hazard unit's decision for the cycle. *)
Definition stalls (q : irq) : bool := load_use_stall (core_hu_in c (core_ex c) (core_trap q c)).

Lemma hazard_decision q :
  hu_c (core_hazard q c) =
    (if redirects k v
     then hu_ctl_idle <| if_id_flush_en := true |> <| id_ex_flush_en := true |>
     else if stalls q
     then hu_ctl_idle <| if_stall_en := true |> <| if_id_stall_en := true |>
            <| id_ex_flush_en := true |>
     else hu_ctl_idle) /\
  hu_r (core_hazard q c) =
    (if redirects k v
     then {| pc_redirect_sel := true; pc_redirect_target := xo_branch_target (core_ex c);
             pc_redirect_is_trap := false |}
     else {| pc_redirect_sel := false; pc_redirect_target := 0;
             pc_redirect_is_trap := false |}).
Proof.
  destruct (core_trap_quiet c (pi_csr _ _ _ _ Hinv) wb_plain q) as (_ & _ & _ & Hf & Hp).
  destruct ex_result as [Ht _]. unfold core_hazard, hazard_unit, stall_flush, redirect.
  cbn [hu_c hu_r core_hu_in hi_trap_flush_req hi_trap_pc_sel hi_mem_stall_req
       hi_ex_branch_taken hi_ex_branch_target].
  rewrite Hf, Hp, Ht, mem_no_stall. unfold stalls.
  by destruct (redirects k v), (load_use_stall _).
Qed.
End Cycle.

(** The data request on the bus is that of the instruction in MEM, and only an instruction of the
    run writes. *)
Lemma write_request k v c m :
  pipe_inv k v c m -> dmem_write_req (mem_request (c_ex_mem c)) = true ->
  i_ex k v = S (i_mem k v) /\ mem_request (c_ex_mem c) = mem_request (sq_exmem (s (i_mem k v))).
Proof.
  intros Hinv Hw. pose proof (pi_exmem _ _ _ _ Hinv) as Hm. unfold i_ex, next.
  destruct (v_mem v); [by rewrite Hm|]. destruct Hm as (_ & _ & _ & Hs). cbn in Hw. by rewrite Hs in Hw.
Qed.

(** *** The step of the simulation *)

Lemma pc_next_ok j : (j < N)%nat ->
  s_pc (s (S j)) = if taken_at j then xo_branch_target (sq_ex (s j)) else add64 (s_pc (s j)) 4.
Proof. intros Hj. by destruct (seq_step_inv _ _ (s_step j Hj)) as (_ & _ & -> & _). Qed.

(** Expose one register of [core_next] without unfolding the combinational logic. *)
Ltac core_reg :=
  cbn [core_next c_pc c_if_id c_id_ex c_ex_mem c_mem_wb c_regs c_csr bus_inputs in_irq
       in_imem_rdata core_outputs out_imem_addr].

(** The slots after a cycle: each instruction moves on, a redirect empties ID and EX, a
    load-use stall holds ID and empties EX, and what is fetched behind a branch that will be
    taken is not an instruction of the run. *)
Definition slots_next (stall : bool) (k : nat) (v : slots) : slots :=
  {| v_wb := v_mem v;
     v_mem := v_ex v;
     v_ex := negb (redirects k v) && negb stall && v_id v;
     v_id := if redirects k v then false else if stall then v_id v
             else negb (v_id v && taken_at (i_id k v)) |}.

Lemma slots_next_indices stall k v :
  (redirects k v = true -> v_id v = false) ->
  let k' := i_mem k v in
  let v' := slots_next stall k v in
  i_mem k' v' = i_ex k v /\ i_ex k' v' = i_id k v /\
  i_id k' v' = (if redirects k v || stall then i_id k v else i_if k v) /\
  i_if k' v' = (if redirects k v || stall || (v_id v && taken_at (i_id k v)) then i_if k v
                else S (i_if k v)).
Proof.
  intros Hr. unfold slots_next, i_if, i_id, i_ex, i_mem, next; cbn -[taken_at redirects].
  destruct (redirects k v) eqn:E; cbn -[taken_at]; [by rewrite Hr|].
  destruct stall, (v_id v) eqn:Ev; cbn -[taken_at];
    try match goal with |- context [taken_at ?j] => destruct (taken_at j) end;
    split_and!; done.
Qed.

(** EX/MEM after the edge: its memory request is the sequential machine's. *)
Lemma commit_ok k v c m q c' :
  pipe_inv k v c m ->
  c_ex_mem c' = c_ex_mem (core_next false (bus_inputs q c m) c) ->
  bus_commit c' m = Some (s_mem (s (i_id k v))).
Proof.
  intros Hinv Hc'. unfold bus_commit, core_outputs.
  cbn [out_dmem_write_en out_dmem_addr out_dmem_wdata out_dmem_size]. rewrite Hc'.
  cbn [core_next c_ex_mem]. destruct (hazard_decision k v c m Hinv q) as [Hh _].
  assert (ex_mem_stall_en (hu_c (core_hazard q c)) = false) as E
    by (rewrite Hh; by destruct (redirects k v), (stalls c q)).
  cbn [in_irq bus_inputs]. rewrite E. cbn [ex_mem_next negb].
  destruct (ex_result k v c m Hinv) as [_ Hx]. pose proof (inv_bounds k v c m Hinv) as Hb.
  rewrite (pi_mem _ _ _ _ Hinv). unfold i_id, next in *. destruct (v_ex v).
  - destruct Hx as [_ ->].
    by apply (seq_step_inv _ _ (s_step (i_ex k v) ltac:(lia))).
  - destruct Hx as (_ & _ & _ & Hst). cbn in *. by rewrite Hst.
Qed.

(** The fetch side of the relation: the program counter and the IF/ID register. *)
Lemma fetch_ok k v c m q :
  pipe_inv k v c m -> (S (i_if k v) <= N)%nat ->
  let c' := core_next false (bus_inputs q c m) c in
  let v' := slots_next (stalls c q) k v in
  let j' := if redirects k v || stalls c q then i_id k v else i_if k v in
  let p' := if redirects k v || stalls c q || (v_id v && taken_at (i_id k v))
            then i_if k v else S (i_if k v) in
  if v_ex v' && taken_at (i_id k v) then v_id v' = false
  else (v_id v' && taken_at j' = false -> c_pc c' = s_pc (s p')) /\
       if v_id v' then c_if_id c' = mk_if_id (s_pc (s j')) (sq_instr (s j'))
       else id_instr (c_if_id c') = NOP_INSTR.
Proof.
  intros Hinv HN. cbv zeta.
  pose proof (inv_bounds k v c m Hinv) as Hb. pose proof (pi_fetch _ _ _ _ Hinv) as Hf.
  destruct (hazard_decision k v c m Hinv q) as [Hh Hr].
  core_reg. rewrite Hh, Hr. unfold slots_next. cbn [v_ex v_id].
  destruct (redirects k v) eqn:Er; cbn [orb andb negb].
  - split; [intros _|done]. cbn [pc_next pc_redirect_sel pc_redirect_target].
    unfold redirects in Er. apply andb_true_iff in Er as [Hex Htk].
    destruct (ex_result k v c m Hinv) as [_ Hx]. rewrite Hex in Hx. destruct Hx as [-> _].
    unfold i_if, i_id, next in *. rewrite Hf, Hex in *. rewrite pc_next_ok by lia.
    by rewrite Htk.
  - destruct Hf as [Hpc Hid]. destruct (stalls c q); cbn [orb andb negb].
    + done.
    + destruct (v_id v && taken_at (i_id k v)) eqn:Et; cbn [negb]; [done|].
      cbn -[taken_at]. rewrite Hpc by done. split.
      * intros Hnt. rewrite pc_next_ok by lia. by rewrite Hnt.
      * unfold sq_instr. rewrite (pi_mem _ _ _ _ Hinv).
        by rewrite s_code by lia.
Qed.

Lemma pipe_step k v c m q :
  pipe_inv k v c m -> (S (i_if k v) <= N)%nat ->
  exists c' m',
    sys_tick false q (c, m) = Some (c', m') /\
    pipe_inv (i_mem k v) (slots_next (stalls c q) k v) c' m'.
Proof.
  intros Hinv HN. set (c' := core_next false (bus_inputs q c m) c).
  exists c', (s_mem (s (i_id k v))). split.
  { unfold sys_tick. cbn [fst snd]. fold c'. by rewrite (commit_ok k v c m q). }
  pose proof (inv_bounds k v c m Hinv) as Hb.
  destruct (hazard_decision k v c m Hinv q) as [Hh Hr].
  destruct (ex_result k v c m Hinv) as [Ht Hx].
  assert (Hred : redirects k v = true -> v_id v = false).
  { intros E. pose proof (pi_fetch _ _ _ _ Hinv) as Hf. by rewrite E in Hf. }
  destruct (slots_next_indices (stalls c q) k v Hred) as (I1 & I2 & I3 & I4).
  assert (Hexm : c_ex_mem c' =
    ex_mem_in (c_id_ex c) (core_rs1_fwd c) (core_rs2_fwd c) (core_ex c)).
  { unfold c'; core_reg. rewrite Hh. by destruct (redirects k v), (stalls c q). }
  assert (Hide : c_id_ex c' = if redirects k v || stalls c q
    then c_id_ex c <| ex_instr := 0 |> <| ex_dec := dec_flush (ex_dec (c_id_ex c)) |>
    else core_id c).
  { unfold c'; core_reg. rewrite Hh. by destruct (redirects k v), (stalls c q). }
  split; rewrite ?I1, ?I2, ?I3, ?I4.
  - case_bools; lia.
  - apply core_csr_next_quiet; [apply Hinv | by eapply wb_plain].
  - by apply (wb_retire k v c m).
  - done.
  - destruct (core_trap_quiet c (pi_csr _ _ _ _ Hinv) (wb_plain k v c m Hinv) q)
      as (_ & _ & _ & Hf & _).
    unfold c'; core_reg. rewrite Hf. by apply (mem_result_ok k v c m Hinv q).
  - rewrite Hexm. cbn [slots_next v_mem]. by destruct (v_ex v); [apply Hx|].
  - rewrite Hide. cbn [slots_next v_ex].
    destruct (redirects k v) eqn:Er, (stalls c q) eqn:Es; cbn [orb andb negb];
      try (split_and!; try done; by left).
    pose proof (id_result k v c m Hinv Er) as Hid. by destruct (v_id v); [|apply Hid].
  - intros Hvm Hve Hl Hrd. rewrite Hexm in Hl, Hrd |- *. rewrite Hide.
    cbn [slots_next v_ex] in Hve. reflect_bools.
    match goal with E1 : redirects k v = false, E2 : stalls c q = false |- _ =>
      rewrite E1, E2; unfold stalls, load_use_stall in E2 end.
    cbn in *. rewrite Hl, (proj2 (Z.eqb_neq _ _) Hrd) in *. cbn in *. reflect_bools. done.
  - intros _. rewrite Hexm. cbn [ex_mem_in mem_branch_taken slots_next v_ex]. rewrite Ht.
    by intros ->.
  - by apply (fetch_ok k v c m q).
Qed.

(** *** From reset *)

Hypothesis s_init : s 0 = seq_init (s_mem (s 0)).

Definition slots_empty : slots := mk_slots false false false false.

Lemma pipe_init : pipe_inv 0 slots_empty core_reset (s_mem (s 0)).
Proof. split; cbn -[RESET_PC]; try rewrite s_init; repeat split; try done; try lia; by left. Qed.

(** An empty EX slot never stalls the front end. *)
Lemma stall_needs_ex k v c m q : pipe_inv k v c m -> stalls c q = true -> v_ex v = true.
Proof.
  intros Hinv. pose proof (pi_idex _ _ _ _ Hinv) as Hx. destruct (v_ex v); [done|].
  destruct Hx as (_ & _ & [Hl _] & _). unfold stalls, load_use_stall. cbn. by rewrite Hl.
Qed.

(** Cycles spent since the instruction in EX got there, at most three of them: a redirect
    costs two bubbles, a load-use stall one. *)
Definition progress (k : nat) (v : slots) : nat :=
  (3 * i_ex k v + if v_ex v then 2 else if v_id v then 1 else 0)%nat.

Lemma progress_step k v c m q :
  pipe_inv k v c m ->
  (S (progress k v) <= progress (i_mem k v) (slots_next (stalls c q) k v))%nat.
Proof.
  intros Hinv. assert (Hred : redirects k v = true -> v_id v = false).
  { intros E. pose proof (pi_fetch _ _ _ _ Hinv) as Hf. by rewrite E in Hf. }
  destruct (slots_next_indices (stalls c q) k v Hred) as (_ & I2 & _).
  pose proof (stall_needs_ex _ _ _ _ q Hinv) as Hst.
  unfold progress. rewrite I2. unfold i_id, next. unfold slots_next; cbn [v_ex v_id].
  destruct (v_ex v) eqn:Ex; [lia|].
  destruct (stalls c q); [by specialize (Hst eq_refl)|].
  unfold redirects. rewrite Ex. by destruct (v_id v); cbn [andb negb]; lia.
Qed.

(** At most two instructions have left EX without having retired. *)
Lemma slots_window k v :
  (k <= i_ex k v <= k + 2)%nat /\ (progress k v <= 3 * i_ex k v + 2)%nat.
Proof. unfold progress, i_ex, i_mem, next. case_bools; lia. Qed.

Theorem pipe_run n q :
  (n <= N)%nat ->
  exists k v c m,
    sys_run n q (core_reset, s_mem (s 0)) = Some (c, m) /\ pipe_inv k v c m /\
    (i_if k v <= n)%nat /\ (n <= progress k v)%nat.
Proof.
  induction n as [|n IH]; intros Hn.
  { exists 0%nat, slots_empty, core_reset, (s_mem (s 0)).
    split; [done|]. split; [apply pipe_init|]. cbn; lia. }
  destruct IH as (k & v & c & m & Hrun & Hinv & Hif & Hp); [lia|].
  destruct (pipe_step k v c m (q n) Hinv ltac:(lia)) as (c' & m' & Htick & Hinv').
  exists (i_mem k v), (slots_next (stalls c (q n)) k v), c', m'.
  split; [cbn [sys_run]; by rewrite Hrun|]. split; [done|]. split.
  - assert (Hred : redirects k v = true -> v_id v = false).
    { intros E. pose proof (pi_fetch _ _ _ _ Hinv) as Hf. by rewrite E in Hf. }
    destruct (slots_next_indices (stalls c (q n)) k v Hred) as (_ & _ & _ & I4).
    rewrite I4. destruct (_ || _); lia.
  - pose proof (progress_step k v c m (q n) Hinv). lia.
Qed.
End Refinement.

(** ** The refinement, stated for executions *)

Section Theorems.
Context {M : Type} `{Bus M}.

(** The states of a run as a function of the step, the last one repeated after its end. *)
Definition seq_states (m : M) (k : nat) : seq_state M :=
  default (seq_init m) (seq_run k (seq_init m)).

Lemma seq_states_run m n s' k :
  seq_run n (seq_init m) = Some s' -> (k <= n)%nat ->
  seq_run k (seq_init m) = Some (seq_states m k).
Proof.
  intros Hn Hk. unfold seq_states. by destruct (seq_run_le n k _ _ Hk Hn) as [? ->].
Qed.

Lemma pipe_from_reset (m : M) n q s' :
  seq_run n (seq_init m) = Some s' ->
  code_stable n (seq_init m) ->
  exists c m' k j,
    sys_run n q (core_reset, m) = Some (c, m') /\
    (k <= j <= k + 2)%nat /\ (j <= n)%nat /\ (n <= 3 * k + 8)%nat /\
    (c_regs c = s_regs (seq_states m k) /\ m' = s_mem (seq_states m j)) /\
    (dmem_write_req (mem_request (c_ex_mem c)) = true ->
     exists p, j = S p /\ mem_request (c_ex_mem c) = mem_request (sq_exmem (seq_states m p))).
Proof.
  intros Hrun Hcode.
  pose proof (fun k => seq_states_run m n s' k Hrun) as Hs.
  destruct (pipe_run (seq_states m) n) with (n := n) (q := q)
    as (k & v & c & m' & Hc & Hinv & Hif & Hp); [..|done|].
  - intros k Hk. pose proof (Hs (S k) ltac:(lia)) as E. cbn [seq_run] in E.
    by rewrite Hs in E by lia.
  - intros i j Hi Hj. apply (Hcode i j); auto. apply Hs; lia.
  - apply regs_reset_ok.
  - done.
  - pose proof (inv_bounds _ _ _ _ _ _ Hinv) as Hb.
    pose proof (slots_window k v) as [Hk Hpr].
    exists c, m', k, (i_ex k v). split_and!; try lia; [exact Hc | apply Hinv..|].
    intros Hw. destruct (write_request _ _ _ _ _ _ Hinv Hw) as [E1 E2]. eauto.
Qed.

Lemma pipe_refines (m : M) n q s' :
  seq_run n (seq_init m) = Some s' ->
  code_stable n (seq_init m) ->
  exists c m' k j sk sj,
    sys_run n q (core_reset, m) = Some (c, m') /\
    (k <= j <= k + 2)%nat /\ (j <= n)%nat /\ (n <= 3 * k + 8)%nat /\
    seq_run k (seq_init m) = Some sk /\ seq_run j (seq_init m) = Some sj /\
    c_regs c = s_regs sk /\ m' = s_mem sj.
Proof.
  intros Hrun Hcode.
  destruct (pipe_from_reset m n q s' Hrun Hcode) as (c & m' & k & j & Hc & Hk & Hj & Hp & [Hr Hm] & _).
  pose proof (fun k => seq_states_run m n s' k Hrun) as Hs.
  exists c, m', k, j, (seq_states m k), (seq_states m j).
  split_and!; try lia; auto; apply Hs; lia.
Qed.

(** When the core writes to the bus after a cycle, the write is the store of one step of the
    sequential run, and the memory is the one after that step. *)
Lemma pipe_writes (m : M) n q s' c m' :
  seq_run n (seq_init m) = Some s' -> code_stable n (seq_init m) ->
  sys_run n q (core_reset, m) = Some (c, m') -> dmem_write_req (mem_request (c_ex_mem c)) = true ->
  exists p sp sj, (p < n)%nat /\ seq_run p (seq_init m) = Some sp /\ seq_step sp = Some sj /\
    mem_request (c_ex_mem c) = mem_request (sq_exmem sp) /\ m' = s_mem sj.
Proof.
  intros Hrun Hcode Hsys Hw.
  destruct (pipe_from_reset m n q s' Hrun Hcode) as (c' & m'' & k & j & Hc & Hk & Hj & Hp & [Hr Hm] & Hwr).
  rewrite Hsys in Hc. injection Hc as <- <-. destruct (Hwr Hw) as (p & -> & Hreq).
  pose proof (seq_states_run m n s' p Hrun ltac:(lia)) as Hsp.
  pose proof (seq_states_run m n s' (S p) Hrun Hj) as Hsj.
  exists p, (seq_states m p), (seq_states m (S p)). split_and!; try done; try lia.
  cbn [seq_run] in Hsj. by rewrite Hsp in Hsj.
Qed.

(** A program that ends in a jump to itself stays there. *)
Lemma seq_run_halted (s0 sK : seq_state M) K n :
  seq_run K s0 = Some sK -> seq_step sK = Some sK -> (K <= n)%nat -> seq_run n s0 = Some sK.
Proof.
  intros HK Hfix Hn. induction Hn as [|n Hn IH]; [done|]. cbn [seq_run]. by rewrite IH.
Qed.

Lemma code_stable_halted (s0 sK : seq_state M) K n :
  seq_run K s0 = Some sK -> seq_step sK = Some sK -> code_stable K s0 -> code_stable n s0.
Proof.
  intros HK Hfix Hcode i j si sj Hij Hj Hi Hsj.
  destruct (Nat.le_gt_cases j K) as [HjK|HjK]; [by eapply (Hcode i j)|].
  rewrite (seq_run_halted _ _ _ j HK Hfix ltac:(lia)) in Hsj. injection Hsj as <-.
  destruct (Nat.le_gt_cases i K) as [HiK|HiK]; [by eapply (Hcode i K)|].
  rewrite (seq_run_halted _ _ _ i HK Hfix ltac:(lia)) in Hi. by injection Hi as <-.
Qed.

Lemma pipe_halts (m : M) K n q sK :
  seq_run K (seq_init m) = Some sK ->
  seq_step sK = Some sK ->
  code_stable K (seq_init m) ->
  (3 * K + 8 <= n)%nat ->
  exists c, sys_run n q (core_reset, m) = Some (c, s_mem sK) /\ c_regs c = s_regs sK.
Proof.
  intros HK Hfix Hcode Hn.
  pose proof (seq_run_halted _ _ _ n HK Hfix ltac:(lia)) as Hrun.
  pose proof (code_stable_halted _ _ _ n HK Hfix Hcode) as Hst.
  pose proof (fun k => seq_states_run m n sK k Hrun) as Hs.
  destruct (pipe_from_reset m n q sK Hrun Hst) as (c & m' & k & j & Hc & Hk & Hj & Hp & [Hr Hm] & _).
  exists c. assert (Hfin : forall i, (K <= i <= n)%nat -> seq_states m i = sK).
  { intros i Hi. pose proof (Hs i ltac:(lia)) as E.
    rewrite (seq_run_halted _ _ _ i HK Hfix ltac:(lia)) in E. congruence. }
  rewrite !Hfin in * by lia. by subst.
Qed.

(** C3: Pipeline correctness.  Take a program (a memory) whose first [n] sequential steps are
    trap-free and execute unmodified code.  Then [n] cycles of the five-stage core after
    reset, with any interrupt lines, reach the sequential machine: the register file is that
    of the sequential run after [k] steps, and the memory is that after [j] steps, stores
    being at most two instructions ahead of write-back.  At least one instruction retires
    every three cycles.  Forwarding, load-use stalls and branch flushes are thus correct on
    every program. *)
Theorem core_refines_seq (m : M) n q s' :
  seq_run n (seq_init m) = Some s' ->
  code_stable n (seq_init m) ->
  exists c m' k j sk sj,
    sys_run n q (core_reset, m) = Some (c, m') /\
    (k <= j <= k + 2)%nat /\ (j <= n)%nat /\ (n <= 3 * k + 8)%nat /\
    seq_run k (seq_init m) = Some sk /\ seq_run j (seq_init m) = Some sj /\
    c_regs c = s_regs sk /\ m' = s_mem sj.
Proof. apply pipe_refines. Qed.
End Theorems.
