(* ===== verification/Encode.v ===== *)
(** * Instruction encoders of the test bench: [tb/core/tb_core.cc]

    The [rv_*_type] helpers, the instruction shorthands and the [emit_*] sequences with which
    the core test bench assembles its programs.  An argument is the [Z] the C++ [uint32_t] or
    [int32_t] denotes; arithmetic is that of [uint32_t]. *)

From S2P Require Import Prelude Rv64Pkg.

(** [x << n] of [uint32_t]. *)
Definition shl32 (x n : Z) : Z := wrap 32 (Z.shiftl x n).

(** ** Formats *)

Definition rv_r_type (funct7 rs2 rs1 funct3 rd opcode : Z) : Z :=
  Z.lor (Z.lor (Z.lor (Z.lor (Z.lor (shl32 funct7 25) (shl32 rs2 20)) (shl32 rs1 15))
    (shl32 funct3 12)) (shl32 rd 7)) opcode.

Definition rv_i_type (imm12 rs1 funct3 rd opcode : Z) : Z :=
  Z.lor (Z.lor (Z.lor (Z.lor (shl32 (Z.land imm12 0xFFF) 20) (shl32 rs1 15)) (shl32 funct3 12))
    (shl32 rd 7)) opcode.

Definition rv_s_type (imm12 rs2 rs1 funct3 opcode : Z) : Z :=
  let imm_hi := Z.land (Z.shiftr imm12 5) 0x7F in
  let imm_lo := Z.land imm12 0x1F in
  Z.lor (Z.lor (Z.lor (Z.lor (Z.lor (shl32 imm_hi 25) (shl32 rs2 20)) (shl32 rs1 15))
    (shl32 funct3 12)) (shl32 imm_lo 7)) opcode.

Definition rv_u_type (imm20 rd opcode : Z) : Z :=
  Z.lor (Z.lor (shl32 (Z.land imm20 0xFFFFF) 12) (shl32 rd 7)) opcode.

Definition rv_j_type (offset rd opcode : Z) : Z :=
  let imm := wrap 32 offset in
  let bit20 := Z.land (Z.shiftr imm 20) 0x1 in
  let bit10_1 := Z.land (Z.shiftr imm 1) 0x3FF in
  let bit11 := Z.land (Z.shiftr imm 11) 0x1 in
  let bit19_12 := Z.land (Z.shiftr imm 12) 0xFF in
  Z.lor (Z.lor (Z.lor (Z.lor (Z.lor (shl32 bit20 31) (shl32 bit10_1 21)) (shl32 bit11 20))
    (shl32 bit19_12 12)) (shl32 rd 7)) opcode.

Definition rv_b_type (offset rs2 rs1 funct3 opcode : Z) : Z :=
  let imm := wrap 32 offset in
  let bit12 := Z.land (Z.shiftr imm 12) 0x1 in
  let bit10_5 := Z.land (Z.shiftr imm 5) 0x3F in
  let bit4_1 := Z.land (Z.shiftr imm 1) 0xF in
  let bit11 := Z.land (Z.shiftr imm 11) 0x1 in
  Z.lor (Z.lor (Z.lor (Z.lor (Z.lor (Z.lor (Z.lor (shl32 bit12 31) (shl32 bit10_5 25))
    (shl32 rs2 20)) (shl32 rs1 15)) (shl32 funct3 12)) (shl32 bit4_1 8)) (shl32 bit11 7)) opcode.

(** ** Instruction shorthands *)

(** [static_cast<uint32_t>(imm) & 0xFFF] *)
Definition imm12_of (imm : Z) : Z := Z.land (wrap 32 imm) 0xFFF.

Definition NOP : Z := 0x00000013.
Definition ILLEGAL : Z := 0xFFFFFFFF.
Definition ADDI (rd rs1 imm : Z) : Z := rv_i_type (imm12_of imm) rs1 0x0 rd 0x13.
Definition ADD (rd rs1 rs2 : Z) : Z := rv_r_type 0x00 rs2 rs1 0x0 rd 0x33.
Definition SUB (rd rs1 rs2 : Z) : Z := rv_r_type 0x20 rs2 rs1 0x0 rd 0x33.
Definition LD (rd rs1 imm : Z) : Z := rv_i_type (imm12_of imm) rs1 0x3 rd 0x03.
Definition SD (rs2 rs1 imm : Z) : Z := rv_s_type (imm12_of imm) rs2 rs1 0x3 0x23.
Definition BEQ (rs1 rs2 offset : Z) : Z := rv_b_type offset rs2 rs1 0x0 0x63.
Definition BNE (rs1 rs2 offset : Z) : Z := rv_b_type offset rs2 rs1 0x1 0x63.
Definition LUI (rd imm : Z) : Z := rv_u_type imm rd 0x37.
Definition JAL (rd offset : Z) : Z := rv_j_type offset rd 0x6f.
Definition JALR (rd rs1 imm : Z) : Z := rv_i_type (imm12_of imm) rs1 0x0 rd 0x67.

Definition SYSTEM (funct12 rs1 funct3 rd : Z) : Z :=
  Z.lor (Z.lor (Z.lor (Z.lor (shl32 (Z.land funct12 0xFFF) 20) (shl32 (Z.land rs1 0x1F) 15))
    (shl32 (Z.land funct3 0x7) 12)) (shl32 (Z.land rd 0x1F) 7)) 0x73.
Definition ECALL : Z := SYSTEM 0x000 0 0x0 0.
Definition EBREAK : Z := SYSTEM 0x001 0 0x0 0.
Definition MRET : Z := SYSTEM 0x302 0 0x0 0.
Definition SRET : Z := SYSTEM 0x102 0 0x0 0.

Definition CSRInstrReg (csr funct3 rd rs1 : Z) : Z :=
  Z.lor (Z.lor (Z.lor (Z.lor (shl32 (Z.land csr 0xFFF) 20) (shl32 (Z.land rs1 0x1F) 15))
    (shl32 (Z.land funct3 0x7) 12)) (shl32 (Z.land rd 0x1F) 7)) 0x73.
Definition CSRRW (rd csr rs1 : Z) : Z := CSRInstrReg csr 1 rd rs1.
Definition CSRRS (rd csr rs1 : Z) : Z := CSRInstrReg csr 2 rd rs1.
Definition CSRRWI (rd csr zimm : Z) : Z := CSRInstrReg csr 5 rd (Z.land zimm 0x1F).

(** ** Instruction sequences

    The C++ code appends to [prog]; these give what is appended. *)

Definition emit_load_imm64 (rd imm : Z) : list Z :=
  let upper := Z.shiftr (wrap 64 (imm + 0x800)) 12 in
  let lower := Z.land imm 0xFFF in
  let lower := if 2048 <=? lower then lower - 4096 else lower in
  [LUI rd (wrap 32 upper); ADDI rd rd lower].

Definition emit_nops (count : Z) : list Z := repeat NOP (Z.to_nat count).

Definition emit_csrrw_imm64 (tmp_reg csr value : Z) : list Z :=
  emit_load_imm64 tmp_reg value ++ emit_nops 6 ++ [CSRRW 0 csr tmp_reg].

(** ** The formats as concatenations of their fields *)

Definition fields_r (funct7 rs2 rs1 funct3 rd opcode : Z) : Z :=
  cat 7 (cat 5 (cat 3 (cat 5 (cat 5 funct7 rs2) rs1) funct3) rd) opcode.

Definition fields_i (imm12 rs1 funct3 rd opcode : Z) : Z :=
  cat 7 (cat 5 (cat 3 (cat 5 imm12 rs1) funct3) rd) opcode.

Definition fields_u (imm20 rd opcode : Z) : Z := cat 7 (cat 5 imm20 rd) opcode.

Lemma shl32_small v n x : 0 <= n -> v + n <= 32 -> is_bv v x -> shl32 x n = Z.shiftl x n.
Proof.
  intros Hn Hv Hx. apply wrap_small. apply (bv_weaken (v + n)); [done|].
  unfold is_bv in *. rewrite Z.shiftl_mul_pow2 by lia.
  destruct (Z.neg_nonneg_cases v); [rewrite Z.pow_neg_r in Hx by lia; lia|].
  rewrite Z.pow_add_r by lia. nia.
Qed.

(** Remove the truncation of every shifted field, given its width. *)
Ltac shl32_fields :=
  repeat match goal with
         | |- context [shl32 (?x@[?hi:?lo]) ?n] =>
             let v := eval vm_compute in (hi - lo + 1) in
             rewrite (shl32_small v n (x@[hi:lo])) by (lia || apply slice_bv; lia)
         | |- context [shl32 (wrap ?v ?x) ?n] =>
             rewrite (shl32_small v n (wrap v x)) by (lia || apply wrap_bv; lia)
         | H : is_bv ?v ?x |- context [shl32 ?x ?n] =>
             rewrite (shl32_small v n x) by (exact H || lia)
         end.

(** Shifts of concatenations, flattened to one disjunction of shifted fields. *)
Ltac flatten_cat :=
  unfold cat; repeat (rewrite Z.shiftl_lor || rewrite Z.shiftl_shiftl by lia);
  repeat match goal with
         | |- context [Z.shiftl ?x (?a + ?b)] =>
             let c := eval vm_compute in (a + b) in change (a + b) with c
         end.

Lemma rv_r_type_fields funct7 rs2 rs1 funct3 rd opcode :
  is_bv 7 funct7 -> is_bv 5 rs2 -> is_bv 5 rs1 -> is_bv 3 funct3 -> is_bv 5 rd ->
  rv_r_type funct7 rs2 rs1 funct3 rd opcode = fields_r funct7 rs2 rs1 funct3 rd opcode.
Proof.
  intros. unfold rv_r_type, fields_r.
  shl32_fields.
  by flatten_cat.
Qed.

Lemma land_mask n x : 0 <= n -> Z.land x (Z.ones n) = wrap n x.
Proof. intros; unfold wrap. by rewrite Z.land_ones. Qed.

Lemma rv_i_type_fields imm12 rs1 funct3 rd opcode :
  is_bv 5 rs1 -> is_bv 3 funct3 -> is_bv 5 rd ->
  rv_i_type imm12 rs1 funct3 rd opcode = fields_i (wrap 12 imm12) rs1 funct3 rd opcode.
Proof.
  intros. unfold rv_i_type, fields_i. change 0xFFF with (Z.ones 12). rewrite land_mask by lia.
  shl32_fields.
  by flatten_cat.
Qed.

Lemma land_shiftr_slice lo n x : Z.land (Z.shiftr x lo) (Z.ones n) = x@[lo + n - 1 : lo].
Proof. unfold slice. do 2 f_equal. lia. Qed.

Lemma rv_s_type_fields imm12 rs2 rs1 funct3 opcode :
  is_bv 5 rs2 -> is_bv 5 rs1 -> is_bv 3 funct3 ->
  rv_s_type imm12 rs2 rs1 funct3 opcode =
  fields_r (imm12@[11:5]) rs2 rs1 funct3 (imm12@[4:0]) opcode.
Proof.
  intros. unfold rv_s_type, fields_r. change 0x7F with (Z.ones 7). change 0x1F with (Z.ones 5).
  rewrite (land_shiftr_slice 5 7). change (5 + 7 - 1) with 11.
  replace (Z.land imm12 (Z.ones 5)) with (imm12@[4:0]) by (unfold slice; by rewrite Z.shiftr_0_r).
  shl32_fields.
  by flatten_cat.
Qed.

Lemma rv_u_type_fields imm20 rd opcode :
  is_bv 5 rd -> rv_u_type imm20 rd opcode = fields_u (wrap 20 imm20) rd opcode.
Proof.
  intros. unfold rv_u_type, fields_u. change 0xFFFFF with (Z.ones 20). rewrite land_mask by lia.
  shl32_fields.
  by flatten_cat.
Qed.

Lemma rv_b_type_fields offset rs2 rs1 funct3 opcode :
  is_bv 5 rs2 -> is_bv 5 rs1 -> is_bv 3 funct3 ->
  let o := wrap 32 offset in
  rv_b_type offset rs2 rs1 funct3 opcode =
  fields_r (cat 6 (o@[12:12]) (o@[10:5])) rs2 rs1 funct3 (cat 1 (o@[4:1]) (o@[11:11])) opcode.
Proof.
  intros. unfold rv_b_type, fields_r. fold o.
  change (Z.land (Z.shiftr o 12) 0x1) with (o@[12:12]).
  change (Z.land (Z.shiftr o 5) 0x3F) with (o@[10:5]).
  change (Z.land (Z.shiftr o 1) 0xF) with (o@[4:1]).
  change (Z.land (Z.shiftr o 11) 0x1) with (o@[11:11]).
  shl32_fields.
  flatten_cat. by rewrite !Z.lor_assoc.
Qed.

Lemma rv_j_type_fields offset rd opcode :
  is_bv 5 rd ->
  let o := wrap 32 offset in
  rv_j_type offset rd opcode =
  fields_u (cat 8 (cat 1 (cat 10 (o@[20:20]) (o@[10:1])) (o@[11:11])) (o@[19:12])) rd opcode.
Proof.
  intros. unfold rv_j_type, fields_u. fold o.
  change (Z.land (Z.shiftr o 20) 0x1) with (o@[20:20]).
  change (Z.land (Z.shiftr o 1) 0x3FF) with (o@[10:1]).
  change (Z.land (Z.shiftr o 11) 0x1) with (o@[11:11]).
  change (Z.land (Z.shiftr o 12) 0xFF) with (o@[19:12]).
  shl32_fields.
  by flatten_cat.
Qed.
