(* ===== verification/ByteBus.v ===== *)
(** * The byte-addressed memory behind a bus

    What the instruction set assumes of the memory: bytes, little-endian multi-byte accesses
    that wrap around the 64-bit address space.  [ByteBus] promises that the 64-bit port with
    its byte lanes, as the core drives it, is such a memory; the test harness's memory
    discharges it in [Memory.v]. *)

From S2P Require Import Prelude Bus.

Class ByteMem (M : Type) := {
  mem_byte : M -> Z -> Z;
  mem_store : M -> Z -> Z -> M
}.

Section Bytes.
Context {M : Type} `{ByteMem M}.

(** [n] bytes at [a], least significant first. *)
Fixpoint le_load (n : nat) (m : M) (a : Z) : Z :=
  match n with
  | O => 0
  | S n => mem_byte m a + 2 ^ 8 * le_load n m (add64 a 1)
  end.

(** The low [n] bytes of [v] at [a], least significant first. *)
Fixpoint le_store (n : nat) (m : M) (a v : Z) : M :=
  match n with
  | O => m
  | S n => le_store n (mem_store m a (wrap 8 v)) (add64 a 1) (Z.shiftr v 8)
  end.
End Bytes.

(** The base of the doubleword an address lies in: [addr & ~0x7ULL]. *)
Definition dword_base (a : Z) : Z := Z.land a (bnot 64 7).

Class ByteBus (M : Type) `{Bus M} `{ByteMem M} := {
  mem_byte_bv m a : is_bv 8 (mem_byte m a);
  (** the instruction port delivers the word at any address *)
  bus_fetch_le m a : is_bv 64 a -> bus_fetch m a = le_load 4 m a;
  (** the data port delivers the doubleword an address lies in *)
  bus_read_le m a : is_bv 64 a -> bus_read m a = le_load 8 m (dword_base a);
  (** an aligned store of [2^s] bytes, its data shifted to its byte lanes *)
  bus_write_le m a s v :
    is_bv 64 a -> 0 <= s <= 3 -> is_bv (8 * 2 ^ s) v -> a mod 2 ^ s = 0 ->
    bus_write m a (Z.shiftl v (8 * (a mod 8))) s = Some (le_store (Z.to_nat (2 ^ s)) m a v)
}.

Section Laws.
Context {M : Type} `{ByteBus M}.

Lemma le_load_bv n m a : is_bv (8 * Z.of_nat n) (le_load n m a).
Proof.
  revert a. induction n as [|n IH]; intros a; cbn [le_load]; [done|].
  replace (8 * Z.of_nat (S n)) with (8 * Z.of_nat n + 8) by lia.
  pose proof (mem_byte_bv m a). specialize (IH (add64 a 1)).
  unfold is_bv in *. rewrite Z.pow_add_r by lia. nia.
Qed.

Lemma add64_assoc a b c : add64 (add64 a b) c = add64 a (b + c).
Proof. unfold add64, wrap. rewrite Zplus_mod_idemp_l. f_equal; lia. Qed.

Lemma le_load_app i n m a :
  is_bv 64 a ->
  le_load (i + n) m a = le_load i m a + 2 ^ (8 * Z.of_nat i) * le_load n m (add64 a (Z.of_nat i)).
Proof.
  revert a. induction i as [|i IH]; intros a Ha; cbn [le_load Nat.add].
  - unfold add64. rewrite Z.add_0_r, wrap_small by done. change (2 ^ (8 * Z.of_nat 0)) with 1. lia.
  - rewrite IH by apply add64_bv. rewrite add64_assoc.
    replace (8 * Z.of_nat (S i)) with (8 + 8 * Z.of_nat i) by lia.
    replace (1 + Z.of_nat i) with (Z.of_nat (S i)) by lia.
    rewrite Z.pow_add_r by lia. ring.
Qed.

(** The bytes from [i] on of a longer access are the access from [i] on. *)
Lemma le_load_sub i n k m a :
  is_bv 64 a -> (i + n <= k)%nat ->
  (le_load k m a / 2 ^ (8 * Z.of_nat i)) mod 2 ^ (8 * Z.of_nat n) =
  le_load n m (add64 a (Z.of_nat i)).
Proof.
  intros Ha Hk. replace k with (i + (n + (k - i - n)))%nat by lia.
  rewrite !le_load_app by (done || apply add64_bv).
  pose proof (le_load_bv i m a) as Hi.
  pose proof (le_load_bv n m (add64 a (Z.of_nat i))) as Hn. unfold is_bv in *.
  rewrite (Z.mul_comm (2 ^ _) (_ + _)), Z.div_add, Z.div_small by lia.
  rewrite (Z.mul_comm (2 ^ _)), Z.add_0_l, Z.mod_add, Z.mod_small by lia. done.
Qed.

Lemma dword_base_eq a : is_bv 64 a -> dword_base a = a - a mod 8.
Proof.
  intros Ha. unfold dword_base. change (a mod 8) with (a mod 2 ^ 3).
  rewrite <- Z.land_ones by lia. rewrite Z.sub_nocarry_ldiff.
  - apply Z.bits_inj'; intros i Hi. unfold bnot. change 7 with (Z.ones 3).
    rewrite Z.ldiff_spec, !Z.land_spec, Z.lxor_spec, !Z.testbit_ones_nonneg by lia.
    destruct (Z.testbit a i) eqn:E; [|done].
    destruct (i <? 64) eqn:E3; [by destruct (i <? 3)|]. reflect_bools.
    by rewrite (bv_testbit_high 64 a) in E.
  - apply Z.bits_inj'; intros i Hi. rewrite Z.ldiff_spec, Z.land_spec, Z.bits_0.
    by destruct (Z.testbit a i), (Z.testbit _ i).
Qed.

(** An aligned access of [2^s] bytes is the selected part of its doubleword. *)
Lemma bus_read_aligned m a s :
  is_bv 64 a -> 0 <= s <= 3 -> a mod 2 ^ s = 0 ->
  Z.shiftr (bus_read m a) (8 * (a mod 8)) mod 2 ^ (8 * 2 ^ s) = le_load (Z.to_nat (2 ^ s)) m a.
Proof.
  intros Ha Hs Hal. rewrite bus_read_le by done.
  pose proof (Z.mod_pos_bound a 8 ltac:(lia)) as Ho.
  rewrite Z.shiftr_div_pow2 by lia.
  assert (Hfit : a mod 8 + 2 ^ s <= 8).
  { assert (s = 0 \/ s = 1 \/ s = 2 \/ s = 3) as [->|[->|[->| ->]]] by lia;
      change (2 ^ 0) with 1 in *; change (2 ^ 1) with 2 in *; change (2 ^ 2) with 4 in *;
      change (2 ^ 3) with 8 in *; Z.div_mod_to_equations; lia. }
  pose proof (Z.pow_pos_nonneg 2 s).
  assert (Hb : is_bv 64 (dword_base a)).
  { rewrite dword_base_eq by done. unfold is_bv in *. Z.div_mod_to_equations; lia. }
  pose proof (le_load_sub (Z.to_nat (a mod 8)) (Z.to_nat (2 ^ s)) 8 m (dword_base a) Hb) as E.
  rewrite !Z2Nat.id in E by lia. rewrite E by lia. f_equal.
  rewrite dword_base_eq by done. unfold add64.
  rewrite Z.sub_add. by apply wrap_small.
Qed.
End Laws.
