(* ===== verification/Memory.v ===== *)
(** * The memories of the two test harnesses

    [class MemoryModel] of [tb/core/tb_core.cc] and [class ByteMemory] of
    [tb/compliance/compliance_runner.cc].  A [std::map] from [uint64_t] is a [gmap] from [Z];
    address arithmetic is that of [uint64_t]. *)

From stdpp Require Import gmap.
From Stdlib Require Import Strings.Byte.
From S2P Require Import Prelude Rv64Pkg Encode Bus ByteBus.

(** ** [class MemoryModel]: separate instruction and data maps *)

Record memory_model := mk_memory_model { imem : gmap Z Z; dmem : gmap Z Z }.

Definition memory_empty : memory_model := {| imem := ∅; dmem := ∅ |}.

(** [load_program]: word [i] of the program at [base_addr + i * 4]. *)
Fixpoint load_words (base_addr i : Z) (program : list Z) (m : gmap Z Z) : gmap Z Z :=
  match program with
  | [] => m
  | w :: program => load_words base_addr (i + 1) program (<[add64 base_addr (i * 4) := w]> m)
  end.

Definition load_program (base_addr : Z) (program : list Z) (m : memory_model) : memory_model :=
  {| imem := load_words base_addr 0 program (imem m); dmem := dmem m |}.

Definition read_instr (m : memory_model) (addr : Z) : Z := default NOP (imem m !! addr).

Definition read_data (m : memory_model) (addr : Z) : Z := default 0 (dmem m !! dword_base addr).

(** [write_data] replaces the whole doubleword: the access size is not consulted. *)
Definition write_data (m : memory_model) (addr data : Z) : memory_model :=
  {| imem := imem m; dmem := <[dword_base addr := data]> (dmem m) |}.

#[export] Instance memory_model_bus : Bus memory_model :=
  {| bus_fetch := read_instr;
     bus_read := read_data;
     bus_write m addr data _ := Some (write_data m addr data) |}.

Lemma read_write_data m a b d :
  read_data (write_data m a d) b = if decide (dword_base a = dword_base b) then d else read_data m b.
Proof.
  unfold read_data, write_data; cbn. case_decide as E.
  - by rewrite E, lookup_insert_eq.
  - by rewrite lookup_insert_ne.
Qed.

Lemma read_instr_write_data m a d b : read_instr (write_data m a d) b = read_instr m b.
Proof. done. Qed.

(** ** [class ByteMemory] *)

(** [uint8_t] and its conversions. *)
Definition byte_val (b : byte) : Z := Z.of_N (Byte.to_N b).
Definition to_byte (v : Z) : byte := default x00 (Byte.of_N (Z.to_N (wrap 8 v))).

Abbreviation byte_memory := (gmap Z byte).

Definition write_byte (m : byte_memory) (addr : Z) (value : byte) : byte_memory :=
  <[addr := value]> m.

Definition read_byte (m : byte_memory) (addr : Z) : Z :=
  match m !! addr with
  | None => 0
  | Some b => byte_val b
  end.

(** The read loops: [value |= read_byte(addr + i) << (8 * i)] for [n] values of [i]. *)
Fixpoint read_loop (n : nat) (i : Z) (m : byte_memory) (addr value : Z) : Z :=
  match n with
  | O => value
  | S n => read_loop n (i + 1) m addr (Z.lor value (Z.shiftl (read_byte m (add64 addr i)) (8 * i)))
  end.

Definition read_u32 (m : byte_memory) (addr : Z) : Z := read_loop 4 0 m addr 0.
Definition read_u64 (m : byte_memory) (addr : Z) : Z := read_loop 8 0 m addr 0.

Definition store_bytes_of (size_code : Z) : nat :=
  match size_code with
  | 0 | 4 => 1
  | 1 | 5 => 2
  | 2 | 6 => 4
  | _ => 8
  end.

(** The loop of [write_store]; a lane past the doubleword shifts [wdata] by 64 bits or more,
    which C++ leaves undefined. *)
Fixpoint store_loop (n : nat) (lane : Z) (m : byte_memory) (aligned wdata : Z)
  : option byte_memory :=
  match n with
  | O => Some m
  | S n =>
      if lane * 8 <? 64 then
        store_loop n (lane + 1)
          (write_byte m (add64 aligned lane) (to_byte (Z.land (Z.shiftr wdata (lane * 8)) 0xFF)))
          aligned wdata
      else None
  end.

Definition write_store (m : byte_memory) (addr wdata size_code : Z) : option byte_memory :=
  store_loop (store_bytes_of size_code) (Z.land addr 0x7) m (dword_base addr) wdata.

#[export] Instance byte_memory_bus : Bus byte_memory :=
  {| bus_fetch := read_u32;
     bus_read m addr := read_u64 m (dword_base addr);
     bus_write := write_store |}.

#[export] Instance byte_memory_bytes : ByteMem byte_memory :=
  {| mem_byte := read_byte;
     mem_store m a v := write_byte m a (to_byte v) |}.

Lemma byte_val_bv b : is_bv 8 (byte_val b).
Proof. destruct b; done. Qed.

Lemma byte_val_to_byte v : byte_val (to_byte v) = wrap 8 v.
Proof.
  unfold to_byte, byte_val. pose proof (wrap_bv 8 v ltac:(lia)) as Hv.
  destruct (Byte.of_N (Z.to_N (wrap 8 v))) as [b|] eqn:E; cbn.
  - apply Byte.to_of_N in E. rewrite E. bv_lia.
  - apply Byte.of_N_None_iff in E. bv_lia.
Qed.

Lemma read_write_byte m a v b :
  read_byte (write_byte m a v) b = if decide (a = b) then byte_val v else read_byte m b.
Proof.
  unfold read_byte, write_byte. case_decide as E.
  - by rewrite E, lookup_insert_eq.
  - by rewrite lookup_insert_ne.
Qed.

Lemma read_byte_bv m a : is_bv 8 (read_byte m a).
Proof. unfold read_byte. case_match; [apply byte_val_bv | done]. Qed.

(** ** [ByteMemory] is a byte-addressed memory behind a bus *)

Lemma read_loop_le n i m addr value :
  0 <= i -> is_bv (8 * i) value ->
  read_loop n i m addr value = value + 2 ^ (8 * i) * le_load n m (add64 addr i).
Proof.
  revert i value. induction n as [|n IH]; intros i value Hi Hv; cbn [read_loop le_load]; [ring|].
  pose proof (read_byte_bv m (add64 addr i)) as Hb.
  assert (E : Z.lor value (Z.shiftl (read_byte m (add64 addr i)) (8 * i)) =
              value + 2 ^ (8 * i) * read_byte m (add64 addr i)).
  { rewrite Z.lor_comm. etransitivity; [apply cat_add; [lia|done]|]. lia. }
  rewrite E, IH; [|lia|].
  - unfold add64 at 2. rewrite Z.mul_add_distr_l, Z.pow_add_r by lia. change (8 * 1) with 8.
    unfold add64, wrap. rewrite Zplus_mod_idemp_l, Z.add_assoc. cbn [mem_byte byte_memory_bytes]. ring.
  - replace (8 * (i + 1)) with (8 * i + 8) by lia.
    unfold is_bv in *. rewrite Z.pow_add_r by lia. nia.
Qed.

Lemma read_loop_0 n m addr : is_bv 64 addr -> read_loop n 0 m addr 0 = le_load n m addr.
Proof.
  intros Ha. rewrite read_loop_le by done. unfold add64. rewrite Z.add_0_r, wrap_small by done.
  change (2 ^ (8 * 0)) with 1. ring.
Qed.

Lemma dword_base_bv a : is_bv 64 a -> is_bv 64 (dword_base a).
Proof. intros. by apply land_bv. Qed.

(** The lanes of an access that stays in its doubleword. *)
Lemma store_loop_le n lane m aligned wdata v :
  0 <= lane -> lane + Z.of_nat n <= 8 -> Z.shiftr wdata (8 * lane) = v ->
  store_loop n lane m aligned wdata = Some (le_store n m (add64 aligned lane) v).
Proof.
  revert lane m v. induction n as [|n IH]; intros lane m v Hl Hn Hv; [done|].
  cbn [store_loop le_store]. rewrite (proj2 (Z.ltb_lt _ _)) by lia.
  rewrite (IH (lane + 1) _ (Z.shiftr v 8)); [|lia..|].
  - rewrite Z.mul_comm, Hv. change 0xFF with (Z.ones 8). rewrite land_mask by lia.
    cbn [mem_store byte_memory_bytes].
    replace (add64 (add64 aligned lane) 1) with (add64 aligned (lane + 1));
      [done|symmetry; apply add64_assoc].
  - rewrite <- Hv, Z.shiftr_shiftr by lia. f_equal; lia.
Qed.

#[export] Instance byte_memory_byte_bus : ByteBus byte_memory.
Proof.
  split; cbn [bus_fetch bus_read bus_write byte_memory_bus].
  - apply read_byte_bv.
  - intros; by apply read_loop_0.
  - intros; by apply read_loop_0, dword_base_bv.
  - intros m a s v Ha Hs Hv Hal. unfold write_store. change (Z.land a 7) with (Z.land a (Z.ones 3)).
    rewrite Z.land_ones by lia. change (2 ^ 3) with 8.
    rewrite (store_loop_le _ _ _ _ _ v).
    + rewrite dword_base_eq by done. unfold add64. rewrite Z.sub_add, wrap_small by done.
      assert (s = 0 \/ s = 1 \/ s = 2 \/ s = 3) as [->|[->|[->| ->]]] by lia; done.
    + apply Z.mod_pos_bound; lia.
    + assert (s = 0 \/ s = 1 \/ s = 2 \/ s = 3) as [->|[->|[->| ->]]] by lia;
        cbn [store_bytes_of]; Z.div_mod_to_equations; lia.
    + pose proof (Z.mod_pos_bound a 8 ltac:(lia)).
      rewrite Z.shiftr_shiftl_l, Z.sub_diag by lia. apply Z.shiftl_0_r.
Qed.

(** ** Stores byte by byte *)

(** The byte of [wdata] in the lane of address [x]. *)
Definition lane_byte (wdata x : Z) : Z := (wdata / 2 ^ (8 * (x mod 8))) mod 2 ^ 8.

Lemma store_loop_bytes n lane m aligned wdata :
  0 <= lane -> lane + Z.of_nat n <= 8 -> is_bv 64 aligned -> aligned mod 8 = 0 ->
  exists m', store_loop n lane m aligned wdata = Some m' /\
    forall x, read_byte m' x =
      if (aligned + lane <=? x) && (x <? aligned + lane + Z.of_nat n)
      then lane_byte wdata x else read_byte m x.
Proof.
  intros Hl Hn Ha Hal. revert lane m Hl Hn. induction n as [|n IH]; intros lane m Hl Hn.
  { exists m. split; [done|]. intros x. destruct (_ && _) eqn:E; [reflect_bools; lia|done]. }
  cbn [store_loop]. rewrite (proj2 (Z.ltb_lt _ _)) by lia.
  assert (Hadd : add64 aligned lane = aligned + lane).
  { apply wrap_small. unfold is_bv in *. Z.div_mod_to_equations. lia. }
  destruct (IH (lane + 1) (write_byte m (add64 aligned lane)
    (to_byte (Z.land (Z.shiftr wdata (lane * 8)) 0xFF)))) as (m' & -> & Hm); [lia..|].
  exists m'. split; [done|]. intros x. rewrite Hm, read_write_byte, Hadd.
  change 0xFF with (Z.ones 8). rewrite byte_val_to_byte, land_mask, wrap_wrap by lia.
  destruct (decide (aligned + lane = x)) as [<-|Hne].
  - rewrite (proj2 (Z.leb_gt (aligned + (lane + 1)) _)) by lia. cbn [andb].
    rewrite (proj2 (Z.leb_le _ _)), (proj2 (Z.ltb_lt _ _)) by lia. cbn [andb].
    unfold lane_byte, wrap. rewrite Z.shiftr_div_pow2 by lia. do 3 f_equal.
    rewrite <- Zplus_mod_idemp_l, Hal, Z.add_0_l, Z.mod_small by lia. lia.
  - destruct (aligned + (lane + 1) <=? x) eqn:E1, (aligned + lane <=? x) eqn:E2,
      (x <? aligned + (lane + 1) + Z.of_nat n) eqn:E3, (x <? aligned + lane + Z.of_nat (S n)) eqn:E4;
      reflect_bools; try lia; done.
Qed.

Lemma store_loop_undefined n lane m aligned wdata :
  lane <= 8 -> 8 < lane + Z.of_nat n -> store_loop n lane m aligned wdata = None.
Proof.
  revert lane m. induction n as [|n IH]; intros lane m Hl Hn; [lia|]. cbn [store_loop].
  destruct (lane * 8 <? 64) eqn:E; [|done]. reflect_bools. apply IH; lia.
Qed.

(** C38: The store port of the runner's memory.  A store whose [2^(size mod 4)] bytes stay in the
    doubleword of its address writes to each of them the byte of its lane of the data bus and
    changes no other byte of the address space; one that leaves the doubleword shifts the data by
    64 bits or more, which C++ leaves undefined. *)
Theorem write_store_bytes m a wdata size :
  is_bv 64 a -> 0 <= size < 8 ->
  let n := 2 ^ (size mod 4) in
  (a mod 8 + n <= 8 ->
   exists m', write_store m a wdata size = Some m' /\
     forall x, read_byte m' x =
       if (a <=? x) && (x <? a + n) then (wdata / 2 ^ (8 * (x mod 8))) mod 2 ^ 8 else read_byte m x) /\
  (8 < a mod 8 + n -> write_store m a wdata size = None).
Proof.
  intros Ha Hs n. unfold write_store. change 0x7 with (Z.ones 3). rewrite Z.land_ones by lia.
  change (2 ^ 3) with 8.
  assert (Hn : Z.of_nat (store_bytes_of size) = n).
  { unfold n. destruct size as [|p|p]; [reflexivity| |lia]. 
    do 3 (destruct p as [p|p|]; try reflexivity); lia. }
  pose proof (dword_base_eq a Ha) as Hb. pose proof (Z.mod_pos_bound a 8 ltac:(lia)).
  split; intros Hfit.
  - destruct (store_loop_bytes (store_bytes_of size) (a mod 8) m (dword_base a) wdata)
      as (m' & -> & Hm); [lia|lia|by apply dword_base_bv| |].
    + rewrite Hb. Z.div_mod_to_equations; lia.
    + exists m'. split; [done|]. intros x. rewrite Hm, Hn, Hb, Z.sub_add. done.
  - apply store_loop_undefined; lia.
Qed.

(** The two upper bytes of a word. *)
Lemma write_store_bytes_witness :
  exists m', write_store (∅ : byte_memory) 0x1002 0xBEEF0000 1 = Some m' /\
    read_byte m' 0x1002 = 0xEF /\ read_byte m' 0x1003 = 0xBE /\ read_byte m' 0x1004 = 0.
Proof.
  destruct (write_store_bytes ∅ 0x1002 0xBEEF0000 1) as [H _];
    [split; vm_compute; congruence|lia|].
  destruct H as (m' & H1 & H2); [vm_compute; congruence|].
  exists m'. split; [exact H1|]. rewrite !H2. split; [reflexivity|]. split; reflexivity.
Defined.
