(* ===== verification/Isa.v ===== *)
(** * The RV64I base instruction set

    An instruction-set specification that does not mention the hardware: abstract syntax, the
    encoding (by the encoders of the test bench), and the effect of each instruction on
    registers and byte-addressed memory in the terms of the ISA manual.  It is the contract of
    the sequential machine: [seq_step] decodes and executes exactly these instructions. *)

From S2P Require Import Prelude Rv64Pkg Alu Decoder RegFile PipeRegs MemStage WbStage Core Bus.
From S2P Require Import SeqMachine Encode ByteBus.

(** ** Syntax *)

Inductive instr :=
  | ILui (rd imm20 : Z)
  | IAuipc (rd imm20 : Z)
  | IJal (rd offset : Z)
  | IJalr (rd rs1 offset : Z)
  | IBranch (op : branch_op_t) (rs1 rs2 offset : Z)
  | ILoad (sz : Z) (uns : bool) (rd rs1 offset : Z)
  | IStore (sz : Z) (rs2 rs1 offset : Z)
  | IOpImm (op : alu_op_t) (rd rs1 imm : Z)
  | IOp (op : alu_op_t) (rd rs1 rs2 : Z)
  | IOpImmW (op : alu_op_t) (rd rs1 imm : Z)
  | IOpW (op : alu_op_t) (rd rs1 rs2 : Z)
  | IFence.

Definition is_shift (op : alu_op_t) : bool :=
  match op with ALU_SLL | ALU_SRL | ALU_SRA => true | _ => false end.

(** The operations that have a 32-bit form. *)
Definition has_word_form (op : alu_op_t) : bool :=
  match op with ALU_ADD | ALU_SUB | ALU_SLL | ALU_SRL | ALU_SRA => true | _ => false end.

Definition sub_free (op : alu_op_t) : bool := match op with ALU_SUB => false | _ => true end.

(** A signed [w]-bit immediate. *)
Definition is_simm (w x : Z) : Prop := - 2 ^ (w - 1) <= x < 2 ^ (w - 1).

Definition is_reg (r : Z) : Prop := is_bv 5 r.

(** The instructions there are. *)
Definition instr_wf (i : instr) : Prop :=
  match i with
  | ILui rd imm20 | IAuipc rd imm20 => is_reg rd /\ is_bv 20 imm20
  | IJal rd offset => is_reg rd /\ is_simm 21 offset /\ Z.even offset = true
  | IJalr rd rs1 offset => is_reg rd /\ is_reg rs1 /\ is_simm 12 offset
  | IBranch _ rs1 rs2 offset =>
      is_reg rs1 /\ is_reg rs2 /\ is_simm 13 offset /\ Z.even offset = true
  | ILoad sz uns rd rs1 offset =>
      0 <= sz <= 3 /\ (sz = 3 -> uns = false) /\ is_reg rd /\ is_reg rs1 /\ is_simm 12 offset
  | IStore sz rs2 rs1 offset => 0 <= sz <= 3 /\ is_reg rs2 /\ is_reg rs1 /\ is_simm 12 offset
  | IOpImm op rd rs1 imm =>
      sub_free op = true /\ is_reg rd /\ is_reg rs1 /\
      if is_shift op then is_bv 6 imm else is_simm 12 imm
  | IOp _ rd rs1 rs2 => is_reg rd /\ is_reg rs1 /\ is_reg rs2
  | IOpImmW op rd rs1 imm =>
      has_word_form op && sub_free op = true /\ is_reg rd /\ is_reg rs1 /\
      if is_shift op then is_bv 5 imm else is_simm 12 imm
  | IOpW op rd rs1 rs2 => has_word_form op = true /\ is_reg rd /\ is_reg rs1 /\ is_reg rs2
  | IFence => True
  end.

#[global] Instance is_simm_dec w x : Decision (is_simm w x).
Proof. unfold is_simm; apply _. Defined.
#[global] Instance is_reg_dec r : Decision (is_reg r).
Proof. unfold is_reg; apply _. Defined.
#[global] Instance instr_wf_dec i : Decision (instr_wf i).
Proof. destruct i; cbn; try destruct (is_shift _); apply _. Defined.

(** ** Encoding *)

Definition op_funct3 (op : alu_op_t) : Z :=
  match op with
  | ALU_ADD | ALU_SUB => 0
  | ALU_SLL => 1
  | ALU_SLT => 2
  | ALU_SLTU => 3
  | ALU_XOR => 4
  | ALU_SRL | ALU_SRA => 5
  | ALU_OR => 6
  | ALU_AND => 7
  end.

Definition op_funct7 (op : alu_op_t) : Z :=
  match op with ALU_SUB | ALU_SRA => 0x20 | _ => 0 end.

Definition branch_funct3 (op : branch_op_t) : Z :=
  match op with
  | BRANCH_EQ => 0 | BRANCH_NE => 1 | BRANCH_LT => 4
  | BRANCH_GE => 5 | BRANCH_LTU => 6 | BRANCH_GEU => 7
  end.

Definition load_funct3 (sz : Z) (uns : bool) : Z := if uns then sz + 4 else sz.

(** The 12-bit immediate of an immediate operation: shifts carry [funct7] above the amount. *)
Definition op_imm12 (op : alu_op_t) (imm : Z) : Z :=
  if is_shift op then op_funct7 op * 2 ^ 5 + imm else imm12_of imm.

Definition encode (i : instr) : Z :=
  match i with
  | ILui rd imm20 => rv_u_type imm20 rd 0x37
  | IAuipc rd imm20 => rv_u_type imm20 rd 0x17
  | IJal rd offset => rv_j_type offset rd 0x6f
  | IJalr rd rs1 offset => rv_i_type (imm12_of offset) rs1 0 rd 0x67
  | IBranch op rs1 rs2 offset => rv_b_type offset rs2 rs1 (branch_funct3 op) 0x63
  | ILoad sz uns rd rs1 offset => rv_i_type (imm12_of offset) rs1 (load_funct3 sz uns) rd 0x03
  | IStore sz rs2 rs1 offset => rv_s_type (imm12_of offset) rs2 rs1 sz 0x23
  | IOpImm op rd rs1 imm => rv_i_type (op_imm12 op imm) rs1 (op_funct3 op) rd 0x13
  | IOp op rd rs1 rs2 => rv_r_type (op_funct7 op) rs2 rs1 (op_funct3 op) rd 0x33
  | IOpImmW op rd rs1 imm => rv_i_type (op_imm12 op imm) rs1 (op_funct3 op) rd 0x1b
  | IOpW op rd rs1 rs2 => rv_r_type (op_funct7 op) rs2 rs1 (op_funct3 op) rd 0x3b
  | IFence => 0x0000000f
  end.

(** ** Semantics *)

(** The 64-bit sign extension of the low 32 bits. *)
Definition sext32 (x : Z) : Z := wrap 64 (signed 32 (wrap 32 x)).

(** A signed integer as a 64-bit value. *)
Definition of_signed (x : Z) : Z := wrap 64 x.

Definition op_sem (op : alu_op_t) (a b : Z) : Z :=
  match op with
  | ALU_ADD => wrap 64 (a + b)
  | ALU_SUB => wrap 64 (a - b)
  | ALU_SLL => wrap 64 (a * 2 ^ (b mod 64))
  | ALU_SLT => if signed 64 a <? signed 64 b then 1 else 0
  | ALU_SLTU => if a <? b then 1 else 0
  | ALU_XOR => Z.lxor a b
  | ALU_SRL => a / 2 ^ (b mod 64)
  | ALU_SRA => of_signed (signed 64 a / 2 ^ (b mod 64))
  | ALU_OR => Z.lor a b
  | ALU_AND => Z.land a b
  end.

(** The 32-bit form: operate on the low words, sign-extend the result. *)
Definition op_sem_w (op : alu_op_t) (a b : Z) : Z :=
  match op with
  | ALU_ADD => sext32 (a + b)
  | ALU_SUB => sext32 (a - b)
  | ALU_SLL => sext32 (a * 2 ^ (b mod 32))
  | ALU_SRL => sext32 (wrap 32 a / 2 ^ (b mod 32))
  | ALU_SRA => sext32 (signed 32 (wrap 32 a) / 2 ^ (b mod 32))
  | _ => 0
  end.

Definition branch_sem (op : branch_op_t) (a b : Z) : bool :=
  match op with
  | BRANCH_EQ => a =? b
  | BRANCH_NE => negb (a =? b)
  | BRANCH_LT => signed 64 a <? signed 64 b
  | BRANCH_GE => negb (signed 64 a <? signed 64 b)
  | BRANCH_LTU => a <? b
  | BRANCH_GEU => negb (a <? b)
  end.

Definition reg_set (regs : regs_t) (rd v : Z) : regs_t :=
  if rd =? 0 then regs else <[Z.to_nat rd := v]> regs.

Section Exec.
Context {M : Type} `{ByteBus M}.

(** Assign [rd] and go to the next instruction. *)
Definition assign (s : seq_state M) (rd v : Z) : seq_state M :=
  mk_seq (wrap 64 (s_pc s + 4)) (reg_set (s_regs s) rd v) (s_mem s).

(** [None]: a misaligned access, which raises an exception. *)
Definition exec (i : instr) (s : seq_state M) : option (seq_state M) :=
  let x r := reg_get (s_regs s) r in
  match i with
  | ILui rd imm20 => Some (assign s rd (sext32 (imm20 * 2 ^ 12)))
  | IAuipc rd imm20 => Some (assign s rd (wrap 64 (s_pc s + sext32 (imm20 * 2 ^ 12))))
  | IJal rd offset =>
      Some (mk_seq (wrap 64 (s_pc s + offset)) (reg_set (s_regs s) rd (wrap 64 (s_pc s + 4)))
              (s_mem s))
  | IJalr rd rs1 offset =>
      Some (mk_seq (wrap 64 (x rs1 + offset) / 2 * 2)
              (reg_set (s_regs s) rd (wrap 64 (s_pc s + 4))) (s_mem s))
  | IBranch op rs1 rs2 offset =>
      Some (mk_seq (wrap 64 (s_pc s + if branch_sem op (x rs1) (x rs2) then offset else 4))
              (s_regs s) (s_mem s))
  | ILoad sz uns rd rs1 offset =>
      let a := wrap 64 (x rs1 + offset) in
      if a mod 2 ^ sz =? 0 then
        let v := le_load (Z.to_nat (2 ^ sz)) (s_mem s) a in
        Some (assign s rd (if uns then v else of_signed (signed (8 * 2 ^ sz) v)))
      else None
  | IStore sz rs2 rs1 offset =>
      let a := wrap 64 (x rs1 + offset) in
      if a mod 2 ^ sz =? 0 then
        Some (mk_seq (wrap 64 (s_pc s + 4)) (s_regs s)
                (le_store (Z.to_nat (2 ^ sz)) (s_mem s) a (x rs2 mod 2 ^ (8 * 2 ^ sz))))
      else None
  | IOpImm op rd rs1 imm => Some (assign s rd (op_sem op (x rs1) (of_signed imm)))
  | IOp op rd rs1 rs2 => Some (assign s rd (op_sem op (x rs1) (x rs2)))
  | IOpImmW op rd rs1 imm => Some (assign s rd (op_sem_w op (x rs1) (of_signed imm)))
  | IOpW op rd rs1 rs2 => Some (assign s rd (op_sem_w op (x rs1) (x rs2)))
  | IFence => Some (mk_seq (wrap 64 (s_pc s + 4)) (s_regs s) (s_mem s))
  end.

(** The state is well formed: [x0] is zero, everything is 64 bits wide, and the program
    counter is even. *)
Record state_ok (s : seq_state M) : Prop := {
  ok_pc : is_bv 64 (s_pc s);
  ok_even : Z.even (s_pc s) = true;
  ok_regs : regs_ok (s_regs s);
  ok_range : regs_range (s_regs s)
}.

(** One step of the instruction set: the instruction in memory at the program counter. *)
Definition isa_step (s s' : seq_state M) : Prop :=
  exists i, instr_wf i /\ le_load 4 (s_mem s) (s_pc s) = encode i /\ exec i s = Some s'.

Inductive isa_run : nat -> seq_state M -> seq_state M -> Prop :=
  | isa_run_refl s : isa_run 0 s s
  | isa_run_step n s1 s2 s3 : isa_run n s1 s2 -> isa_step s2 s3 -> isa_run (S n) s1 s3.
End Exec.
