(* ===== verification/IsaDecode.v ===== *)
(** * The decoder recognises the RV64I encodings

    Field extraction from the instruction formats, the immediates, and the control word of
    every encoded instruction. *)

From S2P Require Import Prelude Rv64Pkg Alu Decoder Encode ByteBus Isa.

(** ** Fields of a format *)

Ltac norm_slices :=
  repeat match goal with
         | |- context [slice ?h ?l ?x] =>
             let h' := eval vm_compute in h in let l' := eval vm_compute in l in
             progress change (slice h l x) with (slice h' l' x)
         end.

(** Push a slice into a concatenation that contains it. *)
Ltac slice_cats :=
  repeat (first [ rewrite slice_cat_high by (lia || assumption)
                | rewrite slice_cat_low by (lia || assumption) ]; norm_slices).

Lemma fields_r_get f7 rs2 rs1 f3 rd op :
  is_bv 7 f7 -> is_bv 5 rs2 -> is_bv 5 rs1 -> is_bv 3 f3 -> is_bv 5 rd -> is_bv 7 op ->
  let x := fields_r f7 rs2 rs1 f3 rd op in
  x@[6:0] = op /\ x@[11:7] = rd /\ x@[14:12] = f3 /\ x@[19:15] = rs1 /\ x@[24:20] = rs2 /\
  x@[31:25] = f7 /\ x@[31:31] = f7@[6:6] /\ x@[30:25] = f7@[5:0] /\ x@[11:8] = rd@[4:1] /\
  x@[7:7] = rd@[0:0].
Proof.
  intros. subst x. unfold fields_r.
  split_and!; slice_cats; try done;
    first [by apply (slice_all 7) | by apply (slice_all 5) | by apply (slice_all 3)].
Qed.

Lemma fields_i_get imm12 rs1 f3 rd op :
  is_bv 12 imm12 -> is_bv 5 rs1 -> is_bv 3 f3 -> is_bv 5 rd -> is_bv 7 op ->
  let x := fields_i imm12 rs1 f3 rd op in
  x@[6:0] = op /\ x@[11:7] = rd /\ x@[14:12] = f3 /\ x@[19:15] = rs1 /\ x@[31:20] = imm12 /\
  x@[31:31] = imm12@[11:11] /\ x@[31:25] = imm12@[11:5].
Proof.
  intros. subst x. unfold fields_i.
  split_and!; slice_cats; try done;
    first [by apply (slice_all 7) | by apply (slice_all 5) | by apply (slice_all 3)
          | by apply (slice_all 12)].
Qed.

Lemma fields_u_get imm20 rd op :
  is_bv 20 imm20 -> is_bv 5 rd -> is_bv 7 op ->
  let x := fields_u imm20 rd op in
  x@[6:0] = op /\ x@[11:7] = rd /\ x@[31:12] = imm20 /\ x@[31:31] = imm20@[19:19] /\
  x@[19:12] = imm20@[7:0] /\ x@[20:20] = imm20@[8:8] /\ x@[30:21] = imm20@[18:9].
Proof.
  intros. subst x. unfold fields_u.
  split_and!; slice_cats; try done;
    first [by apply (slice_all 7) | by apply (slice_all 5) | by apply (slice_all 20)].
Qed.

(** ** Immediates *)

Lemma bit_of_slice i j x y : 0 <= i -> 0 <= j -> x@[i:i] = y@[j:j] -> x@[i] = y@[j].
Proof.
  intros Hi Hj E. rewrite !slice_bit in E by done. by destruct (x@[i]), (y@[j]).
Qed.

(** [{{(64-n){b[n-1]}}, b}] *)
Lemma sext_imm n x off :
  0 < n <= 64 -> is_simm n off -> x = wrap n off ->
  cat n (repb (64 - n) (x@[n - 1])) x = wrap 64 off.
Proof.
  intros Hn Hoff ->. rewrite cat_sext by (lia || apply wrap_bv; lia).
  rewrite signed_wrap by (done || lia). f_equal; lia.
Qed.

Lemma imm12_wrap off : wrap 12 (imm12_of off) = wrap 12 off.
Proof.
  unfold imm12_of. change 0xFFF with (Z.ones 12). rewrite land_mask, wrap_wrap by lia.
  apply wrap_wrap_le; lia.
Qed.

Lemma imm12_of_wrap off : imm12_of off = wrap 12 off.
Proof.
  rewrite <- imm12_wrap, wrap_small; [done|]. apply land_bv_r; done.
Qed.

Lemma imm_i_of x off : is_simm 12 off -> x@[31:20] = wrap 12 off -> imm_i x = wrap 64 off.
Proof.
  intros Hoff Hx. unfold imm_i. rewrite Hx.
  assert (x@[31] = (wrap 12 off)@[12 - 1]) as ->; [|by apply (sext_imm 12)].
  rewrite <- Hx, slice_testbit by lia. done.
Qed.

Lemma imm_s_of x off :
  is_simm 12 off -> x@[31:25] = (wrap 12 off)@[11:5] -> x@[11:7] = (wrap 12 off)@[4:0] ->
  imm_s x = wrap 64 off.
Proof.
  intros Hoff H1 H2. unfold imm_s. rewrite H1, H2.
  rewrite (slice_join 11 5 0) by lia. rewrite (slice_all 12) by auto with bv.
  assert (x@[31] = (wrap 12 off)@[12 - 1]) as ->; [|by apply (sext_imm 12)].
  apply bit_of_slice; [lia..|]. change (x@[31:31]) with (x@[25 + 6:25 + 6]).
  rewrite <- (slice_slice 31 25 6 6 x), H1 by lia.
  by rewrite slice_slice by lia.
Qed.

Lemma even_bit0 off w : 0 < w -> Z.even off = true -> (wrap w off)@[0:0] = 0.
Proof.
  intros Hw He. rewrite slice_bit, wrap_testbit, Z.bit0_odd by lia.
  rewrite <- Z.negb_even, He. by rewrite andb_false_r.
Qed.

Lemma imm_b_of x off :
  is_simm 13 off -> Z.even off = true ->
  let o := wrap 13 off in
  x@[31:31] = o@[12:12] -> x@[7:7] = o@[11:11] -> x@[30:25] = o@[10:5] -> x@[11:8] = o@[4:1] ->
  imm_b x = wrap 64 off.
Proof.
  intros Hoff He o H1 H2 H3 H4. unfold imm_b. rewrite <- !slice_bit, H1, H2, H3, H4 by lia.
  rewrite <- (even_bit0 off 13) by done. fold o.
  rewrite (slice_join 4 1 0), (slice_join 10 5 0), (slice_join 11 11 0), (slice_join 12 12 0),
    (slice_all 13) by (lia || apply wrap_bv; lia).
  assert (x@[31] = o@[13 - 1]) as -> by (apply bit_of_slice; done || lia).
  by apply (sext_imm 13).
Qed.

Lemma imm_j_of x off :
  is_simm 21 off -> Z.even off = true ->
  let o := wrap 21 off in
  x@[31:31] = o@[20:20] -> x@[19:12] = o@[19:12] -> x@[20:20] = o@[11:11] ->
  x@[30:21] = o@[10:1] -> imm_j x = wrap 64 off.
Proof.
  intros Hoff He o H1 H2 H3 H4. unfold imm_j. rewrite <- !slice_bit, H1, H2, H3, H4 by lia.
  rewrite <- (even_bit0 off 21) by done. fold o.
  rewrite (slice_join 10 1 0), (slice_join 11 11 0), (slice_join 19 12 0), (slice_join 20 20 0),
    (slice_all 21) by (lia || apply wrap_bv; lia).
  assert (x@[31] = o@[21 - 1]) as -> by (apply bit_of_slice; done || lia).
  by apply (sext_imm 21).
Qed.

Lemma imm_u_of x imm20 :
  is_bv 20 imm20 -> x@[31:12] = imm20 -> imm_u x = sext32 (imm20 * 2 ^ 12).
Proof.
  intros Himm Hx. unfold imm_u. rewrite Hx.
  assert (Hw : is_bv 32 (imm20 * 2 ^ 12)) by (unfold is_bv in *; pow2_consts; lia).
  assert (E : cat 12 imm20 0 = imm20 * 2 ^ 12) by (rewrite cat_add by done; lia).
  unfold sext32. rewrite (wrap_small 32) by done. rewrite E. change 64 with (32 + 32) at 1.
  rewrite <- (cat_sext 32 32) by (done || lia). do 2 f_equal.
  rewrite <- E, cat_testbit by done. cbn [Z.ltb Z.compare Pos.compare Pos.compare_cont].
  change (32 - 1 - 12) with 19. rewrite <- Hx, slice_testbit by lia. done.
Qed.

(** ** Control words *)

(** The control signals of each instruction, on top of the decoder's defaults [d]. *)
Definition control (i : instr) (d : dec_out) : dec_out :=
  match i with
  | ILui _ imm20 =>
      immediate (sext32 (imm20 * 2 ^ 12)) (operands false true ALU_ADD (write_reg d))
  | IAuipc _ imm20 =>
      immediate (sext32 (imm20 * 2 ^ 12)) (operands true true ALU_ADD (write_reg d))
  | IJal _ offset =>
      writeback 2 (immediate (of_signed offset) (operands true true ALU_ADD
        (set_ex (fun e => e <| is_jump := true |>) (write_reg d))))
  | IJalr _ _ offset =>
      writeback 2 (immediate (of_signed offset) (operands false true ALU_ADD
        (set_ex (fun e => e <| is_jump := true |>) (write_reg d))))
  | IBranch op _ _ offset =>
      immediate (of_signed offset) (operands true true ALU_ADD
        (set_ex (fun e => e <| is_branch := true |> <| branch_op := branch_funct3 op |>) d))
  | ILoad sz uns _ _ offset =>
      writeback 1 (immediate (of_signed offset) (operands false true ALU_ADD
        (set_mem (fun m => m <| is_load := true |> <| mem_size := load_funct3 sz uns |>)
           (write_reg d))))
  | IStore sz _ _ offset =>
      immediate (of_signed offset) (operands false true ALU_ADD
        (set_mem (fun m => m <| is_store := true |> <| mem_size := sz |>) d))
  | IOpImm op _ _ imm =>
      immediate (of_signed (if is_shift op then op_imm12 op imm else imm))
        (operands false true op (write_reg d))
  | IOp op _ _ _ => operands false false op (write_reg d)
  | IOpImmW op _ _ imm =>
      immediate (of_signed (if is_shift op then op_imm12 op imm else imm))
        (operands false true op (word_op (write_reg d)))
  | IOpW op _ _ _ => operands false false op (word_op (write_reg d))
  | IFence => set_fence (fun f => f <| is_fence := true |>) d
  end.

(** The register operands of an instruction, as the decoder presents them. *)
Definition operand_regs (i : instr) (d : dec_out) : Prop :=
  match i with
  | ILui rd _ => rd_addr (wb_c d) = rd /\ rs1_addr d = 0
  | IAuipc rd _ | IJal rd _ => rd_addr (wb_c d) = rd
  | IJalr rd rs1 _ | ILoad _ _ rd rs1 _ | IOpImm _ rd rs1 _ | IOpImmW _ rd rs1 _ =>
      rd_addr (wb_c d) = rd /\ rs1_addr d = rs1
  | IOp _ rd rs1 rs2 | IOpW _ rd rs1 rs2 =>
      rd_addr (wb_c d) = rd /\ rs1_addr d = rs1 /\ rs2_addr d = rs2
  | IBranch _ rs1 rs2 _ | IStore _ rs2 rs1 _ => rs1_addr d = rs1 /\ rs2_addr d = rs2
  | IFence => True
  end.

Lemma op_funct3_bv op : is_bv 3 (op_funct3 op).
Proof. by destruct op. Qed.
Lemma op_funct7_bv op : is_bv 7 (op_funct7 op).
Proof. by destruct op. Qed.
Lemma branch_funct3_bv op : is_bv 3 (branch_funct3 op).
Proof. by destruct op. Qed.
Lemma load_funct3_bv sz uns : 0 <= sz <= 3 -> is_bv 3 (load_funct3 sz uns).
Proof. intros; unfold load_funct3; destruct uns; bv_lia. Qed.
Lemma size_bv sz : 0 <= sz <= 3 -> is_bv 3 sz.
Proof. intros; bv_lia. Qed.

(** The immediate of a shift: [funct7] does not reach the sign bit. *)
Lemma shift_imm12 op imm :
  is_shift op = true -> is_bv 6 imm ->
  is_simm 12 (op_imm12 op imm) /\ wrap 12 (op_imm12 op imm) = op_imm12 op imm /\
  (op_imm12 op imm)@[10] = match op with ALU_SRA => true | _ => false end.
Proof.
  intros Hop Himm. unfold is_simm, op_imm12. rewrite Hop.
  assert (Hc : forall b, is_bv 11 (b * 2 ^ 10 + imm) -> Z.odd b = (b * 2 ^ 10 + imm)@[10]).
  { intros b _. rewrite Z.testbit_odd, Z.shiftr_div_pow2 by lia.
    rewrite Z.add_comm, Z.div_add, Z.div_small by (bv_lia || lia). by rewrite Z.add_0_l. }
  split; [|split].
  - destruct op; try done; cbn; bv_lia.
  - apply wrap_small. destruct op; try done; cbn; bv_lia.
  - destruct op; try done; symmetry;
      [apply (Hc 0) | apply (Hc 0) | apply (Hc 1)]; cbn; bv_lia.
Qed.

(** Name the fields of an instruction word, then run the decoder on them. *)
Ltac run_decoder :=
  unfold decoder, dec_default;
  repeat match goal with
         | H : ?x@[?h:?l] = _ |- context [?x@[?h:?l]] => rewrite H
         end;
  repeat match goal with
         | |- context [opcode_dec ?n] =>
             let v := eval vm_compute in (opcode_dec n) in change (opcode_dec n) with v
         | |- context [?n =? opcode_enc OPCODE_LUI] =>
             let v := eval vm_compute in (n =? opcode_enc OPCODE_LUI) in
             change (n =? opcode_enc OPCODE_LUI) with v
         end;
  cbv beta iota zeta.

Lemma decode_u p i rd imm20 op :
  i = ILui rd imm20 /\ op = 0x37 \/ i = IAuipc rd imm20 /\ op = 0x17 -> instr_wf i ->
  let x := encode i in
  decoder x p = control i (dec_default x) /\ operand_regs i (dec_default x).
Proof.
  intros Hi Hwf x.
  assert (H : is_bv 5 rd /\ is_bv 20 imm20) by (destruct Hi as [[-> _]|[-> _]]; apply Hwf).
  destruct H as [Hrd Himm].
  assert (Hx : x = fields_u imm20 rd op).
  { subst x. rewrite <- (wrap_small 20 imm20) by done. rewrite <- rv_u_type_fields by done.
    destruct Hi as [[-> ->]|[-> ->]]; done. }
  assert (Hop : is_bv 7 op) by (destruct Hi as [[_ ->]|[_ ->]]; done).
  destruct (fields_u_get imm20 rd op Himm Hrd Hop) as (F1 & F2 & F3 & _). rewrite <- Hx in *.
  destruct Hi as [[-> ->]|[-> ->]]; unfold operand_regs; run_decoder;
    rewrite (imm_u_of x imm20) by done; done.
Qed.

Lemma decode_r p i op rd rs1 rs2 oc :
  i = IOp op rd rs1 rs2 /\ oc = 0x33 \/ i = IOpW op rd rs1 rs2 /\ oc = 0x3b -> instr_wf i ->
  let x := encode i in
  decoder x p = control i (dec_default x) /\ operand_regs i (dec_default x).
Proof.
  intros Hi Hwf x.
  assert (H : is_reg rd /\ is_reg rs1 /\ is_reg rs2)
    by (destruct Hi as [[-> _]|[-> _]]; apply Hwf).
  destruct H as (Hrd & Hrs1 & Hrs2). pose proof (op_funct7_bv op). pose proof (op_funct3_bv op).
  assert (Hx : x = fields_r (op_funct7 op) rs2 rs1 (op_funct3 op) rd oc).
  { subst x. rewrite <- rv_r_type_fields by done. destruct Hi as [[-> ->]|[-> ->]]; done. }
  assert (Hop : is_bv 7 oc) by (destruct Hi as [[_ ->]|[_ ->]]; done).
  destruct (fields_r_get (op_funct7 op) rs2 rs1 (op_funct3 op) rd oc)
    as (F1 & F2 & F3 & F4 & F5 & F6 & _); [done..|]. rewrite <- Hx in *. clear Hx.
  destruct Hi as [[-> ->]|[-> ->]]; unfold operand_regs; run_decoder.
  - by destruct op.
  - destruct Hwf as [Hw _]. by destruct op.
Qed.

Lemma decode_i i imm12 rs1 f3 rd oc :
  encode i = rv_i_type imm12 rs1 f3 rd oc -> is_reg rs1 -> is_bv 3 f3 -> is_reg rd ->
  is_bv 7 oc ->
  let x := encode i in
  x@[6:0] = oc /\ x@[11:7] = rd /\ x@[14:12] = f3 /\ x@[19:15] = rs1 /\
  x@[31:20] = wrap 12 imm12 /\ x@[31:25] = (wrap 12 imm12)@[11:5].
Proof.
  intros Hi Hrs1 Hf3 Hrd Hoc x. subst x. rewrite Hi, rv_i_type_fields by done.
  destruct (fields_i_get (wrap 12 imm12) rs1 f3 rd oc) as (F1 & F2 & F3 & F4 & F5 & _ & F7);
    [by apply wrap_bv|done..|]. done.
Qed.

Lemma decode_i_mem p i rd rs1 offset :
  i = IJalr rd rs1 offset \/ (exists sz uns, i = ILoad sz uns rd rs1 offset) -> instr_wf i ->
  let x := encode i in
  decoder x p = control i (dec_default x) /\ operand_regs i (dec_default x).
Proof.
  intros [->|(sz & uns & ->)] Hwf x.
  - destruct Hwf as (Hrd & Hrs1 & Hoff).
    destruct (decode_i (IJalr rd rs1 offset) (imm12_of offset) rs1 0 rd 0x67)
      as (F1 & F2 & F3 & F4 & F5 & _); [done..|]. fold x in F1, F2, F3, F4, F5.
    unfold operand_regs; run_decoder. rewrite imm12_wrap in F5.
    by rewrite (imm_i_of x offset).
  - destruct Hwf as (Hsz & _ & Hrd & Hrs1 & Hoff).
    destruct (decode_i (ILoad sz uns rd rs1 offset) (imm12_of offset) rs1 (load_funct3 sz uns) rd 0x03)
      as (F1 & F2 & F3 & F4 & F5 & _); [done|done|by apply load_funct3_bv|done..|].
    fold x in F1, F2, F3, F4, F5.
    unfold operand_regs; run_decoder. rewrite imm12_wrap in F5.
    by rewrite (imm_i_of x offset).
Qed.

(** The operation an immediate instruction's fields select. *)
Lemma decode_op_imm_of op imm :
  sub_free op = true -> (if is_shift op then is_bv 6 imm else True) ->
  decode_op_imm (op_funct3 op) ((wrap 12 (op_imm12 op imm))@[11:5]) = op.
Proof.
  intros Hop Himm. destruct (is_shift op) eqn:Hs; [|by destruct op].
  destruct (shift_imm12 op imm Hs Himm) as (_ & -> & H10). change 10 with (5 + 5) in H10.
  destruct op; try done; cbn [op_funct3 decode_op_imm];
    by rewrite slice_testbit, H10 by lia.
Qed.

Lemma decode_i_op p i op rd rs1 imm oc :
  i = IOpImm op rd rs1 imm /\ oc = 0x13 \/ i = IOpImmW op rd rs1 imm /\ oc = 0x1b ->
  instr_wf i ->
  let x := encode i in
  decoder x p = control i (dec_default x) /\ operand_regs i (dec_default x).
Proof.
  intros Hi Hwf x.
  assert (H : sub_free op = true /\ is_reg rd /\ is_reg rs1 /\
              if is_shift op then is_bv 6 imm else is_simm 12 imm).
  { destruct Hi as [[-> _]|[-> _]]; [done|]. destruct Hwf as (Hw & Hrd & Hrs1 & Himm).
    apply andb_true_iff in Hw as [_ Hw]. split_and!; try done.
    destruct (is_shift op); [|done]. by apply (bv_weaken 5). }
  destruct H as (Hsub & Hrd & Hrs1 & Himm).
  assert (Hoc : is_bv 7 oc) by (destruct Hi as [[_ ->]|[_ ->]]; done).
  destruct (decode_i i (op_imm12 op imm) rs1 (op_funct3 op) rd oc)
    as (F1 & F2 & F3 & F4 & F5 & F6); [by destruct Hi as [[-> ->]|[-> ->]]|done| |done|done|].
  { apply op_funct3_bv. }
  fold x in F1, F2, F3, F4, F5, F6.
  assert (Himm_i : imm_i x = of_signed (if is_shift op then op_imm12 op imm else imm)).
  { destruct (is_shift op) eqn:Hs.
    - destruct (shift_imm12 op imm Hs Himm) as (Hb & _). by apply imm_i_of.
    - apply imm_i_of; [done|]. rewrite F5. unfold op_imm12. by rewrite Hs, imm12_wrap. }
  assert (Hop : decode_op_imm (op_funct3 op) (x@[31:25]) = op).
  { rewrite F6. apply decode_op_imm_of; [done|]. by destruct (is_shift op). }
  clear F5 F6. destruct Hi as [[-> ->]|[-> ->]]; unfold operand_regs; run_decoder.
  - by rewrite Hop, Himm_i.
  - rewrite Himm_i. destruct Hwf as [Hw _]. revert Hop.
    destruct op; cbn [decode_op_imm op_funct3 decode_op_imm_32 word_alu]; try done;
      by destruct ((x@[31:25])@[5]).
Qed.

Lemma decode_store p sz rs2 rs1 offset :
  let i := IStore sz rs2 rs1 offset in
  instr_wf i ->
  let x := encode i in
  decoder x p = control i (dec_default x) /\ operand_regs i (dec_default x).
Proof.
  intros i (Hsz & Hrs2 & Hrs1 & Hoff) x. pose proof (size_bv sz Hsz).
  assert (Hx : x = fields_r ((imm12_of offset)@[11:5]) rs2 rs1 sz ((imm12_of offset)@[4:0]) 0x23).
  { by apply rv_s_type_fields. }
  destruct (fields_r_get ((imm12_of offset)@[11:5]) rs2 rs1 sz ((imm12_of offset)@[4:0]) 0x23)
    as (F1 & F2 & F3 & F4 & F5 & F6 & _); [apply slice_bv; lia|done|done|done|apply slice_bv; lia|done|].
  rewrite <- Hx in *. rewrite imm12_of_wrap in F2, F6.
  unfold i, operand_regs; run_decoder. rewrite (imm_s_of x offset) by done.
  unfold dec_default in *. run_decoder. done.
Qed.

Lemma decode_branch p op rs1 rs2 offset :
  let i := IBranch op rs1 rs2 offset in
  instr_wf i ->
  let x := encode i in
  decoder x p = control i (dec_default x) /\ operand_regs i (dec_default x).
Proof.
  intros i (Hrs1 & Hrs2 & Hoff & Heven) x. set (o := wrap 32 offset).
  pose proof (branch_funct3_bv op) as Hf3.
  assert (Hs : forall h l, 0 <= l -> l <= h + 1 -> h < 13 -> o@[h:l] = (wrap 13 offset)@[h:l]).
  { intros. unfold o. by rewrite !slice_wrap by lia. }
  assert (Hhi : is_bv 7 (cat 6 (o@[12:12]) (o@[10:5]))) by (apply (cat_bv 6 1); auto with bv).
  assert (Hlo : is_bv 5 (cat 1 (o@[4:1]) (o@[11:11]))) by (apply (cat_bv 1 4); auto with bv).
  assert (is_bv 6 (o@[10:5])) by (apply slice_bv; lia).
  assert (is_bv 1 (o@[11:11])) by (apply slice_bv; lia).
  assert (Hx : x = fields_r (cat 6 (o@[12:12]) (o@[10:5])) rs2 rs1 (branch_funct3 op)
                     (cat 1 (o@[4:1]) (o@[11:11])) 0x63) by (by apply rv_b_type_fields).
  destruct (fields_r_get (cat 6 (o@[12:12]) (o@[10:5])) rs2 rs1 (branch_funct3 op)
              (cat 1 (o@[4:1]) (o@[11:11])) 0x63)
    as (F1 & F2 & F3 & F4 & F5 & F6 & F7 & F8 & F9 & F10); [done..|].
  rewrite <- Hx in *. revert F7 F8 F9 F10. slice_cats. rewrite !slice_slice by lia.
  cbn [Z.add Pos.add Pos.succ]. intros F7 F8 F9 F10.
  assert (imm_b x = of_signed offset) as Himm.
  { apply imm_b_of; [done..| | | |]; rewrite <- Hs by lia; done. }
  unfold i, operand_regs; run_decoder. by rewrite Himm.
Qed.

Lemma decode_jal p rd offset :
  let i := IJal rd offset in
  instr_wf i ->
  let x := encode i in
  decoder x p = control i (dec_default x) /\ operand_regs i (dec_default x).
Proof.
  intros i (Hrd & Hoff & Heven) x. set (o := wrap 32 offset).
  assert (Hs : forall h l, 0 <= l -> l <= h + 1 -> h < 21 -> o@[h:l] = (wrap 21 offset)@[h:l]).
  { intros. unfold o. by rewrite !slice_wrap by lia. }
  set (f := cat 8 (cat 1 (cat 10 (o@[20:20]) (o@[10:1])) (o@[11:11])) (o@[19:12])).
  assert (is_bv 8 (o@[19:12])) by (apply slice_bv; lia).
  assert (is_bv 1 (o@[11:11])) by (apply slice_bv; lia).
  assert (is_bv 10 (o@[10:1])) by (apply slice_bv; lia).
  assert (Hf : is_bv 20 f).
  { apply (cat_bv 8 12), slice_bv; try lia. apply (cat_bv 1 11), slice_bv; try lia.
    apply (cat_bv 10 1); auto with bv. }
  assert (Hx : x = fields_u f rd 0x6f) by (by apply rv_j_type_fields).
  destruct (fields_u_get f rd 0x6f) as (F1 & F2 & _ & F4 & F5 & F6 & F7); [done..|].
  rewrite <- Hx in *. revert F4 F5 F6 F7. unfold f. slice_cats. rewrite !slice_slice by lia.
  cbn [Z.add Pos.add Pos.succ]. intros F4 F5 F6 F7.
  assert (imm_j x = of_signed offset) as Himm.
  { apply imm_j_of; [done..| | | |]; rewrite <- Hs by lia; done. }
  unfold i, operand_regs; run_decoder. by rewrite Himm.
Qed.

Lemma decode_rv64i i p :
  instr_wf i ->
  decoder (encode i) p = control i (dec_default (encode i)) /\
  operand_regs i (dec_default (encode i)).
Proof.
  intros Hwf. destruct i; try done.
  - eapply decode_u; eauto.
  - eapply decode_u; eauto.
  - by apply decode_jal.
  - eapply decode_i_mem; eauto.
  - by apply decode_branch.
  - eapply decode_i_mem; eauto.
  - by apply decode_store.
  - eapply decode_i_op; eauto.
  - eapply decode_r; eauto.
  - eapply decode_i_op; eauto.
  - eapply decode_r; eauto.
Qed.

(** C5: The decoder is correct on all of RV64I: the word the encoders build for a well-formed
    instruction decodes, in every privilege mode, to that instruction's control signals, its
    sign-extended immediate and its register numbers. *)
Theorem decoder_encode i p :
  instr_wf i ->
  decoder (encode i) p = control i (dec_default (encode i)) /\
  operand_regs i (dec_default (encode i)).
Proof. apply decode_rv64i. Qed.

Lemma decoder_encode_witness :
  mem_size (mem_c (decoder (encode (ILoad 2 true 10 11 (-4))) PRIV_MODE_U)) = 6 /\
  imm (decoder (encode (ILoad 2 true 10 11 (-4))) PRIV_MODE_U) = 2 ^ 64 - 4.
Proof.
  assert (H : instr_wf (ILoad 2 true 10 11 (-4))).
  { split; [lia|]. split; [discriminate|]. split; [|split]; split; vm_compute; congruence. }
  destruct (decoder_encode (ILoad 2 true 10 11 (-4)) PRIV_MODE_U H) as [-> _]. split; reflexivity.
Defined.
