(* ===== verification/IsaCorrect.v ===== *)
(** * The sequential machine executes RV64I *)

From stdpp Require Import gmap.
From S2P Require Import Memory.
From S2P Require Import Prelude Rv64Pkg Alu Decoder RegFile PipeRegs MemStage WbStage Core Bus.
From S2P Require Import SeqMachine Encode ByteBus Isa IsaDecode.

(** ** The ALU *)

Lemma shamt_mod b : b@[5:0] = b mod 64.
Proof. by apply (slice_low 6). Qed.

Lemma alu_op_sem op a b : is_bv 64 a -> is_bv 64 b -> alu op a b = op_sem op a b.
Proof.
  intros Ha Hb. pose proof (Z.mod_pos_bound b 64 ltac:(lia)).
  destruct op; cbn [alu op_sem]; rewrite ?cat1_b2z, ?shamt_mod; try done.
  - by rewrite Z.shiftl_mul_pow2 by lia.
  - by rewrite Z.shiftr_div_pow2 by lia.
  - by rewrite Z.shiftr_div_pow2 by lia.
Qed.

Lemma sext32_cat r : cat 32 (repb 32 (r@[31])) (r@[31:0]) = sext32 r.
Proof.
  assert (E : r@[31] = (r@[31:0])@[32 - 1]) by (by rewrite slice_testbit by lia).
  rewrite E, (cat_sext 32 32) by (auto with bv). unfold sext32. f_equal. f_equal.
  by apply (slice_low 32).
Qed.

Lemma sext32_wrap64 x : sext32 (wrap 64 x) = sext32 x.
Proof. unfold sext32. by rewrite wrap_wrap_le by lia. Qed.

Lemma word_alu_sem op a b :
  has_word_form op = true -> is_bv 64 a -> is_bv 64 b ->
  let r := alu op (ex_operand_a true op a) (ex_operand_b true op b) in
  cat 32 (repb 32 (r@[31])) (r@[31:0]) = op_sem_w op a b.
Proof.
  intros Hop Ha Hb r. rewrite sext32_cat. subst r.
  assert (Hsh : (cat 5 0 (b@[4:0]))@[5:0] = b mod 32).
  { unfold cat. rewrite Z.shiftl_0_l, Z.lor_0_l. rewrite (slice_low 6), (slice_low 5) by lia.
    apply wrap_small. apply (bv_weaken 5); [lia|]. by apply wrap_bv. }
  pose proof (Z.mod_pos_bound b 32 ltac:(lia)).
  destruct op; try done; cbn [alu ex_operand_a ex_operand_b op_sem_w]; rewrite ?Hsh.
  - apply sext32_wrap64.
  - apply sext32_wrap64.
  - by rewrite Z.shiftl_mul_pow2, sext32_wrap64 by lia.
  - rewrite Z.shiftr_div_pow2 by lia. do 2 f_equal. unfold cat.
    rewrite Z.shiftl_0_l, Z.lor_0_l. by apply (slice_low 32).
  - rewrite sext32_cat, Z.shiftr_div_pow2, sext32_wrap64 by lia. do 2 f_equal.
    unfold sext32. pose proof (signed_range 32 (wrap 32 a) ltac:(lia) ltac:(auto with bv)).
    apply signed_wrap; [lia|]. pow2_consts. lia.
Qed.

Lemma branch_unit_sem op a b :
  branch_unit true (branch_funct3 op) a b = branch_sem op a b.
Proof.
  destruct op; cbn; try done.
  - apply eq_true_iff_eq. rewrite negb_true_iff, Z.leb_le, Z.ltb_ge. done.
  - apply eq_true_iff_eq. rewrite negb_true_iff, Z.leb_le, Z.ltb_ge. done.
Qed.

(** ** Data memory *)

Lemma mod8_slice a : a@[2:0] = a mod 8.
Proof. by apply (slice_low 3). Qed.

(** The four access sizes. *)
Ltac size_cases sz H :=
  let E := fresh in
  assert (E : sz = 0 \/ sz = 1 \/ sz = 2 \/ sz = 3) by (clear - H; lia);
  destruct E as [->|[->|[->| ->]]].

(** An address is misaligned for an access when it is not a multiple of its size. *)
Lemma addr_misaligned_spec sz uns a :
  0 <= sz <= 3 -> (sz = 3 -> uns = false) ->
  addr_misaligned (load_funct3 sz uns) a = negb (a mod 2 ^ sz =? 0).
Proof.
  intros Hsz Hu. size_cases sz Hsz.
  - destruct uns; cbn; by rewrite Z.mod_1_r.
  - assert (a@[0] = negb (a mod 2 ^ 1 =? 0)) as E.
    { rewrite Z.bit0_odd, Zmod_odd. by destruct (Z.odd a). }
    by destruct uns.
  - assert (a@[1:0] = a mod 2 ^ 2) as E by (by apply (slice_low 2)).
    rewrite <- E. by destruct uns.
  - rewrite Hu by done. change (2 ^ 3) with 8. by rewrite <- (mod8_slice a).
Qed.

(** [{{(64-n){x[n-1]}}, x[n-1:0]}] *)
Lemma sext_slice n x :
  0 < n <= 64 -> cat n (repb (64 - n) (x@[n - 1])) (x@[n - 1:0]) = wrap 64 (signed n (wrap n x)).
Proof.
  intros Hn. rewrite slice_low by lia.
  assert (x@[n - 1] = (wrap n x)@[n - 1]) as ->.
  { rewrite wrap_testbit by lia. by rewrite (proj2 (Z.ltb_lt _ _)) by lia. }
  rewrite cat_sext by (lia || apply wrap_bv; lia). f_equal; lia.
Qed.

Section Memory.
Context {M : Type} `{ByteBus M}.

Lemma load_align_le m a sz uns :
  is_bv 64 a -> 0 <= sz <= 3 -> (sz = 3 -> uns = false) -> a mod 2 ^ sz = 0 ->
  let v := le_load (Z.to_nat (2 ^ sz)) m a in
  load_align (load_funct3 sz uns) a (bus_read m a) =
  if uns then v else of_signed (signed (8 * 2 ^ sz) v).
Proof.
  intros Ha Hsz Hu Hal v. pose proof (bus_read_aligned m a sz Ha Hsz Hal) as E. fold v in E.
  rewrite Z.mul_comm in E. unfold load_align. rewrite mod8_slice.
  set (x := Z.shiftr (bus_read m a) (a mod 8 * 8)) in *. fold (wrap (8 * 2 ^ sz) x) in E.
  size_cases sz Hsz; [destruct uns..|rewrite Hu by done].
  - rewrite <- E. by apply (slice_low 8).
  - rewrite <- E. by apply (sext_slice 8).
  - rewrite <- E. by apply (slice_low 16).
  - rewrite <- E. by apply (sext_slice 16).
  - rewrite <- E. by apply (slice_low 32).
  - rewrite <- E. by apply (sext_slice 32).
  - cbn [load_funct3]. change (8 * 2 ^ 3) with 64 in *. unfold of_signed.
    rewrite <- E, wrap_signed by (done || apply wrap_bv; lia). symmetry. apply wrap_small.
    subst x. change (2 ^ 3) with 8 in Hal. rewrite Hal, Z.shiftr_0_r, bus_read_le by done.
    by apply (le_load_bv 8).
Qed.

Lemma store_align_le m a sz v :
  is_bv 64 a -> 0 <= sz <= 3 -> a mod 2 ^ sz = 0 -> is_bv 64 v ->
  let n := Z.to_nat (2 ^ sz) in
  bus_write m a (store_align true sz a v).1 sz =
    Some (le_store n m a (v mod 2 ^ (8 * 2 ^ sz))) /\
  (store_align true sz a v).2 = Z.shiftl (Z.ones (2 ^ sz)) (a mod 8).
Proof.
  intros Ha Hsz Hal Hv n. pose proof (Z.mod_pos_bound a 8 ltac:(lia)) as Ho.
  assert (Hb : is_bv (8 * 2 ^ sz) (v mod 2 ^ (8 * 2 ^ sz))) by (apply wrap_bv; lia).
  rewrite <- (bus_write_le m a sz (v mod 2 ^ (8 * 2 ^ sz))) by done.
  assert (Hal2 : a mod 8 + 2 ^ sz <= 8).
  { size_cases sz Hsz; change (2 ^ 0) with 1 in *; change (2 ^ 1) with 2 in *;
      change (2 ^ 2) with 4 in *; change (2 ^ 3) with 8 in *; Z.div_mod_to_equations; lia. }
  assert (Hw : forall w x, 0 <= w -> a mod 8 * 8 + w <= 64 -> is_bv w x ->
            wrap 64 (Z.shiftl x (a mod 8 * 8)) = Z.shiftl x (8 * (a mod 8))).
  { intros w x Hw0 Hw Hx. rewrite (Z.mul_comm 8). apply wrap_small.
    apply (bv_weaken (w + a mod 8 * 8)); [lia|]. unfold is_bv in *.
    rewrite Z.shiftl_mul_pow2, Z.pow_add_r by lia. nia. }
  assert (Hm : forall w, 0 <= w -> a mod 8 + w <= 8 ->
            wrap 8 (Z.shiftl (Z.ones w) (a mod 8)) = Z.shiftl (Z.ones w) (a mod 8)).
  { intros w Hw0 Hw8. apply wrap_small, (bv_weaken (w + a mod 8)); [lia|].
    pose proof (repb_bv w true Hw0) as Hx. cbn in Hx. unfold is_bv in *.
    rewrite Z.shiftl_mul_pow2, Z.pow_add_r by lia. nia. }
  unfold store_align. rewrite mod8_slice.
  size_cases sz Hsz; cbn [fst snd]; (split; [f_equal|]).
  - rewrite (slice_low 8) by lia. by apply (Hw 8); [lia|lia|apply wrap_bv].
  - by apply (Hm 1).
  - rewrite (slice_low 16) by lia. by apply (Hw 16); [lia|lia|apply wrap_bv].
  - by apply (Hm 2).
  - rewrite (slice_low 32) by lia. by apply (Hw 32); [lia|lia|apply wrap_bv].
  - by apply (Hm 4).
  - change (2 ^ 3) with 8 in Hal. rewrite Hal. rewrite Z.shiftl_0_r. symmetry.
    by apply (wrap_small 64).
  - change (2 ^ 3) with 8 in Hal. by rewrite Hal.
Qed.
End Memory.

(** ** One step *)

Lemma reg_write_set regs rd v : reg_write regs true rd v = reg_set regs rd v.
Proof. unfold reg_write, reg_set. by destruct (rd =? 0). Qed.


(** Clearing bit 0 rounds down to an even number. *)
Lemma clear_bit0 x : is_bv 64 x -> Z.land x (bnot 64 1) = x / 2 * 2.
Proof.
  intros Hx. replace (x / 2 * 2) with (Z.shiftl (Z.shiftr x 1) 1)
    by (rewrite Z.shiftl_mul_pow2, Z.shiftr_div_pow2 by lia; done).
  apply Z.bits_inj'; intros i Hi. unfold bnot. change 1 with (Z.ones 1) at 1.
  rewrite Z.land_spec, Z.lxor_spec, !Z.testbit_ones_nonneg, Z.shiftl_spec by lia.
  destruct (i <? 1) eqn:E1, (i <? 64) eqn:E2; reflect_bools; try lia.
  - rewrite (Z.testbit_neg_r _ (i - 1)) by lia. apply andb_false_r.
  - rewrite Z.shiftr_spec, Z.sub_add by lia. apply andb_true_r.
  - by rewrite Z.shiftr_spec, Z.sub_add, (bv_testbit_high 64 x) by (done || lia).
Qed.

Lemma clear_bit0_even x : is_bv 64 x -> Z.even x = true -> Z.land x (bnot 64 1) = x.
Proof.
  intros Hx He. rewrite clear_bit0 by done. rewrite Zeven_mod in He. reflect_bools.
  Z.div_mod_to_equations; lia.
Qed.

Lemma even_wrap64 x : Z.even (wrap 64 x) = Z.even x.
Proof.
  unfold wrap. rewrite !Zeven_mod. f_equal. apply Z.mod_mod_divide. by exists (2 ^ 63).
Qed.

Lemma of_signed_add a b : wrap 64 (a + of_signed b) = wrap 64 (a + b).
Proof. unfold of_signed, wrap. by rewrite Zplus_mod_idemp_r. Qed.

(** The shift amount is the low part of a shift's immediate. *)
Lemma op_imm_sem op a imm :
  (if is_shift op then is_bv 6 imm else True) ->
  let i := of_signed (if is_shift op then op_imm12 op imm else imm) in
  op_sem op a i = op_sem op a (of_signed imm) /\ op_sem_w op a i = op_sem_w op a (of_signed imm).
Proof.
  intros Himm. destruct op; cbn [is_shift] in *; try done.
  unfold op_imm12, of_signed, wrap; cbn [is_shift op_funct7 op_sem op_sem_w].
  unfold is_bv in Himm; pow2_consts.
  rewrite !(Z.mod_small _ 18446744073709551616) by lia.
  replace ((32 * 32 + imm) mod 64) with (imm mod 64) by (Z.div_mod_to_equations; lia).
  by replace ((32 * 32 + imm) mod 32) with (imm mod 32) by (Z.div_mod_to_equations; lia).
Qed.

Section Step.
Context {M : Type} `{ByteBus M}.

(** The decoder's defaults are the register fields of the word. *)
Lemma dec_default_fields x : exists r1 r2 rd,
  dec_default x = mk_dec_out r1 r2 0 ex_ctl_nop mem_ctl_nop (mk_wb_ctl false rd 0) sys_ctl_nop
                    fence_ctl_nop.
Proof. by do 3 eexists. Qed.

(** A step of an instruction that does not access memory, from its EX results. *)
Lemma seq_step_nomem s d o :
  sq_dec s = d -> sq_ex s = o ->
  mem_c d = mem_ctl_nop -> sys_c d = sys_ctl_nop -> wb_sel (wb_c d) = 0 \/ wb_sel (wb_c d) = 2 ->
  seq_step s =
  Some (mk_seq (if xo_branch_taken o then xo_branch_target o else add64 (s_pc s) 4)
          (reg_write (s_regs s) (reg_write_en (wb_c d)) (rd_addr (wb_c d))
             (if wb_sel (wb_c d) =? 0 then xo_alu_result o else add64 (s_pc s) 4)) (s_mem s)).
Proof.
  intros Hd Ho Hm Hs Hsel.
  assert (Hp : plain (sq_memwb s) = true).
  { unfold plain, wb_has_trap, sq_memwb, mem_result, load_addr_misaligned, store_addr_misaligned.
    cbn [wb_sc wb_load_fault wb_store_fault sq_exmem ex_mem_in mem_mc mem_sc ex_dec].
    by rewrite Hd, Hm, Hs. }
  unfold seq_step. rewrite Hp.
  assert (sq_mem_next s = Some (s_mem s)) as ->.
  { unfold sq_mem_next. cbn [mem_request dmem_write_req sq_exmem ex_mem_in mem_mc ex_dec].
    by rewrite Hd, Hm. }
  cbn [mbind option_bind]. unfold sq_pc_next. rewrite Ho. do 2 f_equal.
  unfold sq_regs_next, sq_wdata, wb_mux, sq_memwb.
  cbn [mem_result wb_wc wb_sc wb_alu_result sq_exmem ex_mem_in mem_wc mem_sc mem_alu_result ex_dec].
  rewrite Hd, Ho, Hs. by destruct Hsel as [-> | ->].
Qed.

(** The EX results of a step, in terms of its operands; [Hd] gives its control word. *)
Ltac ex_results Hd :=
  unfold sq_ex, sq_rs1, sq_rs2; rewrite Hd; unfold ex_stage, ex_in_of;
  cbn -[alu branch_unit reg_get reg_write reg_set Z.land bnot add64 cat repb slice Z.testbit
        ex_operand_a ex_operand_b of_signed sext32 Z.pow Z.mul Z.add wrap op_sem op_sem_w
        Z.div branch_sem branch_funct3].

Definition plain_instr (i : instr) : bool :=
  match i with
  | IJal _ _ | IJalr _ _ _ | IBranch _ _ _ _ | ILoad _ _ _ _ _ | IStore _ _ _ _ => false
  | _ => true
  end.

Lemma alu_step i s d :
  state_ok s -> sq_dec s = control i d -> operand_regs i d -> instr_wf i ->
  (exists r1 r2 rd, d = mk_dec_out r1 r2 0 ex_ctl_nop mem_ctl_nop (mk_wb_ctl false rd 0)
                    sys_ctl_nop fence_ctl_nop) ->
  plain_instr i = true -> seq_step s = exec i s.
Proof.
  intros Hs Hd Hr Hwf (r1 & r2 & r & ->) Hi. destruct s as [pc regs m].
  destruct Hs as [Hpc Heven Hok Hrange]. cbn [s_pc s_regs s_mem] in *.
  pose proof (fun a => reg_get_bv regs a Hrange) as Hget.
  pose proof (fun x => wrap_bv 64 x ltac:(lia)) as Hsig.
  destruct i; try done; cbn in Hr; destruct_and?; subst;
    (erewrite seq_step_nomem; [|exact Hd|reflexivity|done|done|by left]);
    ex_results Hd; unfold assign; cbn [s_pc s_regs s_mem]; rewrite ?reg_write_set; try done.
  - rewrite regs_x0 by done. do 3 f_equal. apply wrap_small, Hsig.
  - do 3 f_equal. destruct Hwf as (_ & _ & _ & Himm).
    destruct (op_imm_sem op (reg_get regs rs1) imm) as [<- _]; [by destruct (is_shift op)|].
    by apply alu_op_sem.
  - do 3 f_equal. by apply alu_op_sem.
  - do 3 f_equal. destruct Hwf as (Hop & _ & _ & Himm). apply andb_true_iff in Hop as [Hop _].
    destruct (op_imm_sem op (reg_get regs rs1) imm) as [_ <-].
    { destruct (is_shift op); [by apply (bv_weaken 5)|done]. }
    by apply word_alu_sem.
  - do 3 f_equal. destruct Hwf as [Hop _]. by apply word_alu_sem.
Qed.

Lemma jump_step i s d :
  state_ok s -> sq_dec s = control i d -> operand_regs i d -> instr_wf i ->
  (exists r1 r2 rd, d = mk_dec_out r1 r2 0 ex_ctl_nop mem_ctl_nop (mk_wb_ctl false rd 0)
                    sys_ctl_nop fence_ctl_nop) ->
  match i with IJal _ _ | IJalr _ _ _ | IBranch _ _ _ _ => True | _ => False end ->
  seq_step s = exec i s.
Proof.
  intros Hs Hd Hr Hwf (r1 & r2 & r & ->) Hi. destruct s as [pc regs m].
  destruct Hs as [Hpc Heven Hok Hrange]. cbn [s_pc s_regs s_mem] in *.
  destruct i; try done; cbn in Hr; destruct_and?; subst;
    (erewrite seq_step_nomem; [|exact Hd|reflexivity|done|done|by left + by right]);
    ex_results Hd; rewrite ?reg_write_set; f_equal; cbn [alu ex_operand_a ex_operand_b].
  - destruct Hwf as (_ & _ & He). unfold add64 at 1. rewrite of_signed_add.
    rewrite clear_bit0_even; [done|by apply wrap_bv|]. by rewrite even_wrap64, Z.even_add, Heven, He.
  - unfold add64 at 1. rewrite of_signed_add, clear_bit0 by (by apply wrap_bv). done.
  - destruct Hwf as (_ & _ & _ & He). rewrite branch_unit_sem.
    rewrite reg_write_quiet by (by left). f_equal.
    destruct (branch_sem _ _ _); cbn [orb andb]; [|done].
    unfold add64. rewrite of_signed_add. apply clear_bit0_even; [by apply wrap_bv|].
    by rewrite even_wrap64, Z.even_add, Heven, He.
Qed.

(** What the memory stage sees of an instruction with EX results [o]. *)
Lemma sq_mem_fields s d o :
  sq_dec s = d -> sq_ex s = o ->
  mem_mc (sq_exmem s) = mem_c d /\ mem_sc (sq_exmem s) = sys_c d /\
  mem_wc (sq_exmem s) = wb_c d /\ mem_alu_result (sq_exmem s) = xo_alu_result o /\
  mem_rs2_rdata (sq_exmem s) = reg_get (s_regs s) (rs2_addr d).
Proof. by intros <- <-. Qed.

Lemma load_step sz uns rd rs1 offset s d :
  let i := ILoad sz uns rd rs1 offset in
  state_ok s -> sq_dec s = control i d -> operand_regs i d -> instr_wf i ->
  (exists r1 r2 rd, d = mk_dec_out r1 r2 0 ex_ctl_nop mem_ctl_nop (mk_wb_ctl false rd 0)
                    sys_ctl_nop fence_ctl_nop) ->
  seq_step s = exec i s.
Proof.
  intros i Hs Hd Hr Hwf (r1 & r2 & r & ->). destruct s as [pc regs m].
  destruct Hs as [Hpc Heven Hok Hrange]. cbn [s_pc s_regs s_mem] in *.
  destruct Hwf as (Hsz & Hu & Hrd & Hrs1 & Hoff). cbn in Hr. destruct Hr as [<- <-].
  set (s := mk_seq pc regs m) in *. remember (wrap 64 (reg_get regs r1 + offset)) as a eqn:Ea.
  assert (Ha : is_bv 64 a) by (subst a; by apply wrap_bv).
  assert (Ho : exists t, sq_ex s = mk_ex_out a false t).
  { ex_results Hd. cbn [alu ex_operand_a ex_operand_b]. unfold add64 at 1.
    rewrite of_signed_add, <- Ea. by eexists. }
  destruct Ho as [t Ho]. destruct (sq_mem_fields s _ _ Hd Ho) as (Fm & Fs & Fw & Fa & _).
  pose proof (addr_misaligned_spec sz uns a Hsz Hu) as Hmis.
  unfold seq_step, plain, wb_has_trap, sq_mem_next, sq_regs_next, sq_wdata, sq_pc_next, wb_mux,
    sq_memwb, sq_rdata, mem_result, mem_request, load_addr_misaligned, store_addr_misaligned.
  cbn [wb_sc wb_wc wb_load_fault wb_store_fault wb_mem_rdata dmem_read_req dmem_write_req dmem_addr].
  rewrite Fm, Fs, Fw, Fa, Ho. unfold i; unfold s; cbn [exec s_regs s_pc s_mem].
  rewrite <- Ea.
  cbn -[load_align addr_misaligned load_funct3 reg_write reg_set le_load Z.pow Z.modulo Z.mul
        Z.eqb wrap of_signed add64]. rewrite Hmis.
  destruct (a mod 2 ^ sz =? 0) eqn:Hal; cbn [negb andb orb]; [|done]. reflect_bools.
  cbn -[load_align load_funct3 reg_write reg_set le_load Z.pow Z.modulo Z.mul wrap of_signed
        add64].
  rewrite reg_write_set, load_align_le by done. done.
Qed.

Lemma store_step sz rs2 rs1 offset s d :
  let i := IStore sz rs2 rs1 offset in
  state_ok s -> sq_dec s = control i d -> operand_regs i d -> instr_wf i ->
  (exists r1 r2 rd, d = mk_dec_out r1 r2 0 ex_ctl_nop mem_ctl_nop (mk_wb_ctl false rd 0)
                    sys_ctl_nop fence_ctl_nop) ->
  seq_step s = exec i s.
Proof.
  intros i Hs Hd Hr Hwf (r1 & r2 & r & ->). destruct s as [pc regs m].
  destruct Hs as [Hpc Heven Hok Hrange]. cbn [s_pc s_regs s_mem] in *.
  destruct Hwf as (Hsz & Hrs2 & Hrs1 & Hoff). cbn in Hr. destruct Hr as [<- <-].
  set (s := mk_seq pc regs m) in *. remember (wrap 64 (reg_get regs r1 + offset)) as a eqn:Ea.
  assert (Ha : is_bv 64 a) by (subst a; by apply wrap_bv).
  assert (Ho : exists t, sq_ex s = mk_ex_out a false t).
  { ex_results Hd. cbn [alu ex_operand_a ex_operand_b]. unfold add64 at 1.
    rewrite of_signed_add, <- Ea. by eexists. }
  destruct Ho as [t Ho]. destruct (sq_mem_fields s _ _ Hd Ho) as (Fm & Fs & Fw & Fa & F2).
  pose proof (addr_misaligned_spec sz false a Hsz (fun _ => eq_refl)) as Hmis.
  cbn [load_funct3] in Hmis.
  unfold seq_step, plain, wb_has_trap, sq_mem_next, sq_regs_next, sq_wdata, sq_pc_next, wb_mux,
    sq_memwb, mem_result, mem_request, load_addr_misaligned, store_addr_misaligned.
  cbn [wb_sc wb_wc wb_load_fault wb_store_fault dmem_wdata dmem_write_req dmem_addr].
  rewrite Fm, Fs, Fw, Fa, F2, Ho. unfold i; unfold s; cbn [exec s_regs s_pc s_mem].
  rewrite <- Ea.
  cbn -[store_align addr_misaligned reg_write reg_set le_store Z.pow Z.modulo Z.mul reg_get
        Z.eqb wrap of_signed add64]. rewrite Hmis.
  destruct (a mod 2 ^ sz =? 0) eqn:Hal; cbn [negb andb orb]; [|done]. reflect_bools.
  cbn -[store_align reg_write reg_set le_store Z.pow Z.modulo Z.mul wrap of_signed reg_get
        add64].
  destruct (store_align_le m a sz (reg_get regs r2) Ha Hsz Hal (reg_get_bv _ _ Hrange))
    as [-> _].
  cbn [mbind option_bind]. by rewrite reg_write_quiet by (by left).
Qed.

Lemma fetch_dec i s :
  state_ok s -> le_load 4 (s_mem s) (s_pc s) = encode i ->
  sq_dec s = decoder (encode i) PRIV_MODE_M.
Proof.
  intros Hs E. unfold sq_dec, sq_instr. by rewrite bus_fetch_le, E by apply Hs.
Qed.

Lemma seq_step_isa i s :
  state_ok s -> instr_wf i -> le_load 4 (s_mem s) (s_pc s) = encode i ->
  seq_step s = exec i s.
Proof.
  intros Hs Hwf E. pose proof (fetch_dec i s Hs E) as Hd.
  destruct (decode_rv64i i PRIV_MODE_M Hwf) as [Hc Hr]. rewrite Hc in Hd.
  pose proof (dec_default_fields (encode i)) as Hf.
  destruct (plain_instr i) eqn:Hp; [by eapply alu_step|].
  destruct i; try done;
    solve [by eapply jump_step | by eapply load_step | by eapply store_step].
Qed.
(** Only a store instruction requests a write, at its effective address. *)
Lemma store_request i s :
  state_ok s -> instr_wf i -> le_load 4 (s_mem s) (s_pc s) = encode i ->
  dmem_write_req (mem_request (sq_exmem s)) = true ->
  exists sz rs2 rs1 offset, i = IStore sz rs2 rs1 offset /\
    dmem_addr (mem_request (sq_exmem s)) = wrap 64 (reg_get (s_regs s) rs1 + offset).
Proof.
  intros Hs Hwf E Hw. pose proof (fetch_dec i s Hs E) as Hd.
  destruct (decode_rv64i i PRIV_MODE_M Hwf) as [Hc Hr]. rewrite Hc in Hd.
  assert (Hst : is_store (mem_c (sq_dec s)) = true) by (cbn in Hw; by apply andb_true_iff in Hw as [? _]).
  destruct i as [| | | | | |sz rs2 rs1 offset| | | | |]; try (rewrite Hd in Hst; discriminate Hst).
  exists sz, rs2, rs1, offset. split; [done|]. destruct (dec_default_fields (encode (IStore sz rs2 rs1 offset)))
    as (r1 & r2 & r & Hf).
  rewrite Hf in Hd, Hr. cbn in Hr. destruct Hr as [<- <-]. cbn [mem_request dmem_addr].
  change (mem_alu_result (sq_exmem s)) with (xo_alu_result (sq_ex s)).
  ex_results Hd. cbn [alu ex_operand_a ex_operand_b]. unfold add64 at 1. by rewrite of_signed_add.
Qed.
End Step.

(** ** Properties *)

(** C31: The execute stage computes the RV64I operations.  For all 64-bit inputs the result of
    [ex_stage] is the ISA manual's operation on the selected operands (the program counter or
    [rs1], the immediate or [rs2]), for a word operation its 32-bit form, sign-extended; the
    branch decision is the condition of the branch on the two registers, always true for a jump,
    and false for neither and for the reserved conditions; the target is the sum of the operands
    with bit 0 cleared. *)
Theorem execute_units_correct i :
  is_bv 64 (xi_pc i) -> is_bv 64 (xi_rs1_rdata i) -> is_bv 64 (xi_rs2_rdata i) ->
  is_bv 64 (xi_imm i) ->
  let a := if xi_alu_src1_sel i then xi_pc i else xi_rs1_rdata i in
  let b := if xi_alu_src2_sel i then xi_imm i else xi_rs2_rdata i in
  let o := ex_stage i in
  (xi_is_word_op i = false -> xo_alu_result o = op_sem (xi_alu_op i) a b) /\
  (xi_is_word_op i = true -> has_word_form (xi_alu_op i) = true ->
   xo_alu_result o = op_sem_w (xi_alu_op i) a b) /\
  (xi_is_jump i = true -> xo_branch_taken o = true) /\
  (xi_is_jump i = false -> xi_is_branch i = false -> xo_branch_taken o = false) /\
  (forall op, xi_is_jump i = false -> xi_is_branch i = true -> xi_branch_op i = branch_funct3 op ->
   xo_branch_taken o = branch_sem op (xi_rs1_rdata i) (xi_rs2_rdata i)) /\
  (xi_is_jump i = false -> xi_branch_op i = 2 \/ xi_branch_op i = 3 -> xo_branch_taken o = false) /\
  (xi_is_word_op i = false -> xi_alu_op i = ALU_ADD ->
   xo_branch_target o = wrap 64 (a + b) / 2 * 2).
Proof.
  intros Hpc H1 H2 Himm a b o.
  assert (Ha : is_bv 64 a) by (subst a; by destruct (xi_alu_src1_sel i)).
  assert (Hb : is_bv 64 b) by (subst b; by destruct (xi_alu_src2_sel i)).
  subst o. unfold ex_stage; cbn [xo_alu_result xo_branch_taken xo_branch_target]. fold a b.
  split_and!.
  - intros ->. by apply alu_op_sem.
  - intros -> Hop. by apply word_alu_sem.
  - by intros ->.
  - by intros -> ->.
  - intros op -> -> ->. by rewrite branch_unit_sem.
  - intros -> [-> | ->]; unfold branch_unit; destruct (xi_is_branch i); reflexivity.
  - intros -> ->. cbn [ex_operand_a ex_operand_b alu]. apply clear_bit0. by apply wrap_bv.
Qed.

Section Properties.
Context {M : Type} `{ByteBus M}.

(** C29: Loads.  The doubleword the bus returns, moved down by the address offset and extended
    in [mem_stage], is the sign- or zero-extended little-endian value of the addressed bytes,
    for every load size and every aligned address. *)
Theorem load_align_correct m a sz uns :
  is_bv 64 a -> 0 <= sz <= 3 -> (sz = 3 -> uns = false) -> a mod 2 ^ sz = 0 ->
  let v := le_load (Z.to_nat (2 ^ sz)) m a in
  load_align (load_funct3 sz uns) a (bus_read m a) =
  if uns then v else of_signed (signed (8 * 2 ^ sz) v).
Proof. apply load_align_le. Qed.

(** C30: Stores.  For every store size and aligned address, the data and the byte strobes that
    [mem_stage] drives write exactly the addressed bytes, little-endian. *)
Theorem store_align_correct m a sz v :
  is_bv 64 a -> 0 <= sz <= 3 -> a mod 2 ^ sz = 0 -> is_bv 64 v ->
  let n := Z.to_nat (2 ^ sz) in
  bus_write m a (store_align true sz a v).1 sz =
    Some (le_store n m a (v mod 2 ^ (8 * 2 ^ sz))) /\
  (store_align true sz a v).2 = Z.shiftl (Z.ones (2 ^ sz)) (a mod 8).
Proof. apply store_align_le. Qed.

(** C4: The sequential machine executes the instruction set.  In a well-formed state whose
    program counter addresses the encoding of an RV64I instruction, one step of the decoder,
    EX, MEM and WB stages has exactly the effect of that instruction on the program counter,
    the registers and the memory, and stops exactly on the misaligned accesses. *)
Theorem seq_step_exec i s :
  state_ok s -> instr_wf i -> le_load 4 (s_mem s) (s_pc s) = encode i ->
  seq_step s = exec i s.
Proof. apply seq_step_isa. Qed.
End Properties.

(** ** Witnesses *)

(** [SRAW] of a negative word, and [BLTU] between its registers. *)
Definition demo_ex : ex_in :=
  mk_ex_in 0x80000000 0xFFFFFFF8 2 64 ALU_SRA false false true (branch_funct3 BRANCH_LTU) false true.

Lemma execute_units_correct_witness :
  xo_alu_result (ex_stage demo_ex) = 2 ^ 64 - 2 /\ xo_branch_taken (ex_stage demo_ex) = false.
Proof.
  destruct (execute_units_correct demo_ex) as (_ & Hw & _ & _ & Hb & _);
    [split; vm_compute; congruence..|].
  split; [rewrite (Hw eq_refl eq_refl); vm_compute; reflexivity|].
  rewrite (Hb BRANCH_LTU eq_refl eq_refl eq_refl). reflexivity.
Defined.

(** The byte memory of the compliance runner, with the bytes 0x80 0xFF at 0x1002. *)
Definition demo_bytes : byte_memory := le_store 2 (∅ : byte_memory) 0x1002 0xFF80.

Lemma load_align_correct_witness :
  load_align (load_funct3 1 false) 0x1002 (bus_read demo_bytes 0x1002) = 2 ^ 64 - 128.
Proof.
  rewrite (load_align_correct demo_bytes 0x1002 1 false);
    [vm_compute; reflexivity|split; vm_compute; congruence|lia|discriminate|reflexivity].
Defined.

Lemma store_align_correct_witness :
  bus_write demo_bytes 0x1004 (store_align true 2 0x1004 0xDEADBEEF).1 2 =
    Some (le_store 4 demo_bytes 0x1004 0xDEADBEEF).
Proof.
  destruct (store_align_correct demo_bytes 0x1004 2 0xDEADBEEF) as [H _];
    [split; vm_compute; congruence|lia|reflexivity|split; vm_compute; congruence|exact H].
Defined.

Definition demo_state : seq_state byte_memory :=
  mk_seq RESET_PC regs_reset (le_store 4 (∅ : byte_memory) RESET_PC (encode (IOpImm ALU_ADD 1 0 5))).

Lemma seq_step_exec_witness :
  seq_step demo_state = exec (IOpImm ALU_ADD 1 0 5) demo_state /\
  match seq_step demo_state with Some s => reg_get (s_regs s) 1 = 5 | None => False end.
Proof.
  split; [|vm_compute; reflexivity]. apply (seq_step_exec (IOpImm ALU_ADD 1 0 5) demo_state).
  - split; [split; vm_compute; congruence|reflexivity|apply regs_reset_ok|apply regs_reset_range].
  - split; [reflexivity|]. split; [|split]; split; vm_compute; congruence.
  - vm_compute. reflexivity.
Defined.
