(* ===== verification/CoreIsa.v ===== *)
(** * The pipelined core executes RV64I programs

    The two refinements composed: the pipeline refines the sequential machine ([Pipeline.v]),
    which executes the instruction set ([IsaCorrect.v]). *)

From stdpp Require Import gmap.
From S2P Require Import Prelude Rv64Pkg Alu Decoder RegFile PipeRegs MemStage WbStage TrapCtrl.
From S2P Require Import Core Bus SeqMachine Pipeline Encode ByteBus Memory Isa IsaDecode.
From S2P Require Import IsaCorrect.

Section CoreIsa.
Context {M : Type} `{ByteBus M}.

(** ** Instructions preserve well-formedness *)

Lemma reg_set_ok regs rd v : regs_ok regs -> is_reg rd -> regs_ok (reg_set regs rd v).
Proof. intros. rewrite <- reg_write_set. by apply reg_write_ok. Qed.

Lemma reg_set_range regs rd v :
  regs_range regs -> is_bv 64 v -> regs_range (reg_set regs rd v).
Proof. intros. rewrite <- reg_write_set. by apply reg_write_range. Qed.

Lemma op_sem_bv op a b : is_bv 64 a -> is_bv 64 b -> is_bv 64 (op_sem op a b).
Proof. intros. rewrite <- alu_op_sem by done. by apply alu_bv. Qed.

Lemma op_sem_w_bv op a b : is_bv 64 (op_sem_w op a b).
Proof. destruct op; try (by apply wrap_bv); by apply zero_bv. Qed.

Lemma assign_ok (s : seq_state M) rd v :
  state_ok s -> is_reg rd -> is_bv 64 v -> state_ok (assign s rd v).
Proof.
  intros [Hpc He Hok Hr] Hrd Hv. split; cbn [assign s_pc s_regs].
  - by apply wrap_bv.
  - by rewrite even_wrap64, Z.even_add, He.
  - by apply reg_set_ok.
  - by apply reg_set_range.
Qed.

Lemma goto_ok (s : seq_state M) regs x (m : M) :
  state_ok s -> regs_ok regs -> regs_range regs -> Z.even x = true ->
  state_ok (mk_seq (wrap 64 (s_pc s + x)) regs m).
Proof.
  intros [Hpc He Hok Hr] Ho Hrg Hx. split; cbn [s_pc s_regs]; try done.
  - by apply wrap_bv.
  - by rewrite even_wrap64, Z.even_add, He, Hx.
Qed.

Lemma le_load_width sz (m : M) a : 0 <= sz <= 3 -> is_bv 64 (le_load (Z.to_nat (2 ^ sz)) m a).
Proof.
  intros Hsz. pose proof (le_load_bv (Z.to_nat (2 ^ sz)) m a) as Hb.
  apply (bv_weaken (8 * Z.of_nat (Z.to_nat (2 ^ sz)))); [|done].
  by size_cases sz Hsz.
Qed.

Lemma exec_state_ok i (s s' : seq_state M) :
  instr_wf i -> state_ok s -> exec i s = Some s' -> state_ok s'.
Proof.
  intros Hwf Hs E. pose proof Hs as [Hpc He Hok Hr].
  assert (Hw : forall x, is_bv 64 (wrap 64 x)) by (intros; by apply wrap_bv).
  pose proof (fun a => reg_get_bv (s_regs s) a Hr) as Hg.
  destruct i; cbn [instr_wf] in Hwf; destruct_and?; cbn [exec] in E;
    try (case_match; [|done]); injection E as <-; try (apply assign_ok; try done);
    try (apply goto_ok; try done); try apply Hw; auto using op_sem_bv, op_sem_w_bv, reg_set_ok, reg_set_range.
  - split; cbn [s_pc s_regs]; auto using reg_set_ok, reg_set_range.
    + pose proof (Hw (reg_get (s_regs s) rs1 + offset)). unfold is_bv in *.
      Z.div_mod_to_equations; lia.
    + by rewrite Z.even_mul, orb_true_r.
  - by destruct (branch_sem _ _ _).
  - destruct uns; [by apply le_load_width|apply Hw].
Qed.

(** ** Runs *)

Lemma seq_init_ok (m : M) : state_ok (seq_init m).
Proof. split; try done. apply regs_reset_range. Qed.

Lemma isa_run_ok n (s s' : seq_state M) : state_ok s -> isa_run n s s' -> state_ok s'.
Proof.
  intros Hs Hr. induction Hr as [|n s1 s2 s3 _ IH (i & Hwf & _ & Hx)]; [done|].
  apply (exec_state_ok i s2); auto.
Qed.

Lemma isa_step_seq (s s' : seq_state M) : state_ok s -> isa_step s s' -> seq_step s = Some s'.
Proof. intros Hs (i & Hwf & Hf & Hx). by rewrite (seq_step_isa i). Qed.

Lemma isa_run_seq n (s s' : seq_state M) :
  state_ok s -> isa_run n s s' -> seq_run n s = Some s'.
Proof.
  intros Hs Hr. induction Hr as [|n s1 s2 s3 Hr IH Hx]; [done|].
  cbn [seq_run]. rewrite IH by done. apply isa_step_seq; [|done]. by eapply isa_run_ok.
Qed.

(** A run of [n] steps passes through its state after each [k] steps. *)
Lemma isa_run_prefix_ex n k (s s' : seq_state M) :
  (k <= n)%nat -> isa_run n s s' -> exists sk, isa_run k s sk.
Proof.
  intros Hk Hr. induction Hr as [s|n s1 s2 s3 Hr IH Hx].
  - replace k with 0%nat by lia. exists s. constructor.
  - destruct (Nat.eq_dec k (S n)) as [->|]; [by exists s3; econstructor|]. apply IH; lia.
Qed.

Lemma isa_run_prefix n k (s s' sk : seq_state M) :
  state_ok s -> isa_run n s s' -> (k <= n)%nat -> seq_run k s = Some sk -> isa_run k s sk.
Proof.
  intros Hs Hr Hk Hsk. destruct (isa_run_prefix_ex n k s s' Hk Hr) as [sk' Hr'].
  pose proof (isa_run_seq _ _ _ Hs Hr') as E. congruence.
Qed.

(** The run does not overwrite its own code. *)
Definition isa_code_stable (n : nat) (s : seq_state M) : Prop :=
  forall i j si sj, (i <= j)%nat -> (j <= n)%nat -> isa_run i s si -> isa_run j s sj ->
    le_load 4 (s_mem si) (s_pc sj) = le_load 4 (s_mem sj) (s_pc sj).

Lemma isa_code_stable_le n k (s : seq_state M) :
  (k <= n)%nat -> isa_code_stable n s -> isa_code_stable k s.
Proof. intros Hk Hc i j si sj Hij Hj. apply Hc; lia. Qed.

Lemma isa_code_stable_seq n (s s' : seq_state M) :
  state_ok s -> isa_run n s s' -> isa_code_stable n s -> code_stable n s.
Proof.
  intros Hs Hr Hc i j si sj Hij Hj Hi Hsj.
  assert (isa_run i s si) by (apply (isa_run_prefix n i s s'); done || lia).
  assert (Hrj : isa_run j s sj) by (by apply (isa_run_prefix n j s s')).
  pose proof (ok_pc _ (isa_run_ok _ _ _ Hs Hrj)).
  rewrite !bus_fetch_le by done. by apply (Hc i j).
Qed.

(** ** Checking a concrete run

    A list of instructions is run against the memory that should encode it. *)
Fixpoint isa_exec_list (l : list instr) (s : seq_state M) : option (seq_state M) :=
  match l with
  | [] => Some s
  | i :: l =>
      if bool_decide (instr_wf i) && (le_load 4 (s_mem s) (s_pc s) =? encode i)
      then s' ← exec i s; isa_exec_list l s'
      else None
  end.

Lemma isa_run_cons n (s1 s2 s3 : seq_state M) :
  isa_step s1 s2 -> isa_run n s2 s3 -> isa_run (S n) s1 s3.
Proof.
  intros Hx1 Hr. induction Hr as [s|n s s' s'' Hr IH Hx].
  - econstructor; [constructor|done].
  - econstructor; [by apply IH|done].
Qed.

Lemma isa_exec_list_run l (s s' : seq_state M) :
  isa_exec_list l s = Some s' -> isa_run (length l) s s'.
Proof.
  revert s. induction l as [|i l IH]; intros s E; cbn in E; [injection E as ->; constructor|].
  destruct (bool_decide (instr_wf i)) eqn:Hw; [|done]. apply bool_decide_eq_true in Hw.
  destruct (_ =? _) eqn:Hf; [|done]. reflect_bools. cbn [andb] in E.
  destruct (exec i s) as [s1|] eqn:Hx; [|done].
  apply isa_run_cons with s1; [by exists i|by apply IH].
Qed.

(** The states of a sequential run, and the check that each word fetched is already there at
    every earlier state. *)
Fixpoint seq_trace (n : nat) (s : seq_state M) : list (seq_state M) :=
  s :: match n with
       | O => []
       | S n => match seq_step s with Some s' => seq_trace n s' | None => [] end
       end.

Fixpoint stable_check (l : list (seq_state M)) : bool :=
  match l with
  | [] => true
  | si :: l =>
      forallb (fun sj => le_load 4 (s_mem si) (s_pc sj) =? le_load 4 (s_mem sj) (s_pc sj)) l &&
      stable_check l
  end.

Lemma seq_run_cons k (s s' : seq_state M) :
  seq_run (S k) s = Some s' -> exists s1, seq_step s = Some s1 /\ seq_run k s1 = Some s'.
Proof.
  revert s'. induction k as [|k IH]; intros s' E; [cbn in E; eauto|].
  change (seq_run (S (S k)) s) with (s2 ← seq_run (S k) s; seq_step s2) in E.
  destruct (seq_run (S k) s) as [s2|]; [|done].
  destruct (IH s2 eq_refl) as (s1 & Hs1 & Hk). exists s1. split; [done|].
  cbn [seq_run]. by rewrite Hk.
Qed.

Lemma seq_trace_lookup n k (s sk : seq_state M) :
  (k <= n)%nat -> seq_run k s = Some sk -> seq_trace n s !! k = Some sk.
Proof.
  revert k s. induction n as [|n IH]; intros [|k] s Hk E; try lia; try done.
  apply seq_run_cons in E as (s1 & Hs1 & E). cbn [seq_trace]. rewrite Hs1.
  apply IH; [lia|done].
Qed.

Lemma stable_check_lookup l i j si sj :
  stable_check l = true -> (i <= j)%nat -> l !! i = Some si -> l !! j = Some sj ->
  le_load 4 (s_mem si) (s_pc sj) = le_load 4 (s_mem sj) (s_pc sj).
Proof.
  revert i j. induction l as [|s l IH]; intros i j Hc Hij Hi Hj; [done|].
  cbn in Hc. apply andb_true_iff in Hc as [Hc1 Hc2]. rewrite forallb_forall in Hc1.
  destruct i as [|i], j as [|j]; try lia; cbn in Hi, Hj.
  - congruence.
  - injection Hi as <-. apply Z.eqb_eq, Hc1. by eapply list_elem_of_In, list_elem_of_lookup_2.
  - apply (IH i j); done || lia.
Qed.

Lemma code_stable_checked n (s : seq_state M) :
  state_ok s -> stable_check (seq_trace n s) = true -> isa_code_stable n s.
Proof.
  intros Hs Hc i j si sj Hij Hj Hi Hsj.
  apply (stable_check_lookup _ i j si sj Hc Hij); apply seq_trace_lookup; try lia;
    by apply isa_run_seq.
Qed.

Lemma core_run_isa (m : M) n q s' :
  isa_run n (seq_init m) s' ->
  isa_code_stable n (seq_init m) ->
  exists c m' k j sk sj,
    sys_run n q (core_reset, m) = Some (c, m') /\
    (k <= j <= k + 2)%nat /\ (j <= n)%nat /\ (n <= 3 * k + 8)%nat /\
    isa_run k (seq_init m) sk /\ isa_run j (seq_init m) sj /\
    c_regs c = s_regs sk /\ m' = s_mem sj.
Proof.
  intros Hr Hc. pose proof (seq_init_ok m) as Hs.
  destruct (pipe_refines m n q s' (isa_run_seq _ _ _ Hs Hr) (isa_code_stable_seq _ _ _ Hs Hr Hc))
    as (c & m' & k & j & sk & sj & H2 & H3 & H4 & H5 & H6 & H7 & H8 & H9).
  exists c, m', k, j, sk, sj. split_and!; try done; try lia;
    (apply (isa_run_prefix n _ _ s'); done || lia).
Qed.

Lemma core_finish_isa (m : M) K n q sK :
  isa_run K (seq_init m) sK ->
  isa_step sK sK ->
  isa_code_stable K (seq_init m) ->
  (3 * K + 8 <= n)%nat ->
  exists c, sys_run n q (core_reset, m) = Some (c, s_mem sK) /\ c_regs c = s_regs sK.
Proof.
  intros Hr Hfix Hc Hn. pose proof (seq_init_ok m) as Hs.
  apply (pipe_halts m K n q sK); try done.
  - by apply isa_run_seq.
  - apply isa_step_seq; [|done]. by eapply isa_run_ok.
  - by eapply isa_code_stable_seq.
Qed.

(** A step that is a store instruction, to effective address [a]. *)
Definition isa_store (s s' : seq_state M) (a : Z) : Prop :=
  exists sz rs2 rs1 offset,
    let i := IStore sz rs2 rs1 offset in
    instr_wf i /\ le_load 4 (s_mem s) (s_pc s) = encode i /\ exec i s = Some s' /\
    a = wrap 64 (reg_get (s_regs s) rs1 + offset).

(** A write on the core's bus is a store of the instruction-set run, at the same address, and
    leaves the memory as that store does. *)
Lemma core_writes_isa (m : M) n q s' c m' :
  isa_run n (seq_init m) s' -> isa_code_stable n (seq_init m) ->
  sys_run n q (core_reset, m) = Some (c, m') -> out_dmem_write_en (core_outputs c) = true ->
  exists p sp sj, (p < n)%nat /\ isa_run p (seq_init m) sp /\
    isa_store sp sj (out_dmem_addr (core_outputs c)) /\ m' = s_mem sj.
Proof.
  intros Hr Hc Hsys Hw. pose proof (seq_init_ok m) as Hs.
  destruct (pipe_writes m n q s' c m' (isa_run_seq _ _ _ Hs Hr) (isa_code_stable_seq _ _ _ Hs Hr Hc)
              Hsys Hw) as (p & sp & sj & Hp & Hsp & Hstep & Hreq & Hm).
  exists p, sp, sj. split; [done|].
  assert (Hrp : isa_run p (seq_init m) sp) by (apply (isa_run_prefix n _ _ s'); done || lia).
  split; [done|]. split; [|done].
  destruct (isa_run_prefix_ex n (S p) _ _ ltac:(lia) Hr) as [s1 Hr1].
  inversion Hr1 as [|? ? s2 ? Hr2 (i & Hwf & Hf & Hx)]; subst.
  pose proof (isa_run_seq _ _ _ Hs Hr2) as E. rewrite Hsp in E. injection E as <-.
  pose proof (isa_run_ok _ _ _ Hs Hrp) as Hok. rewrite (seq_step_isa i) in Hstep by done.
  cbn [core_outputs out_dmem_write_en] in Hw. rewrite Hreq in Hw.
  destruct (store_request i sp Hok Hwf Hf Hw) as (sz & rs2 & rs1 & offset & -> & Ha).
  exists sz, rs2, rs1, offset. split_and!; try done. cbn [core_outputs out_dmem_addr]. by rewrite Hreq.
Qed.

(** C1: The core executes RV64I.  Take any memory in which [n] steps of the instruction set
    run from the reset address, without misaligned accesses and without modifying code.  Then
    [n] cycles of the pipelined core from reset, whatever the interrupt lines do, reach the
    registers of the instruction-set run after some [k] steps and the memory of the run after
    [j] steps, with [j] between [k] and [k + 2] (a store is performed in MEM, before its
    instruction retires), and [k] is at least [(n - 8) / 3]. *)
Theorem core_executes_rv64i (m : M) n q s' :
  isa_run n (seq_init m) s' ->
  isa_code_stable n (seq_init m) ->
  exists c m' k j sk sj,
    sys_run n q (core_reset, m) = Some (c, m') /\
    (k <= j <= k + 2)%nat /\ (j <= n)%nat /\ (n <= 3 * k + 8)%nat /\
    isa_run k (seq_init m) sk /\ isa_run j (seq_init m) sj /\
    c_regs c = s_regs sk /\ m' = s_mem sj.
Proof. apply core_run_isa. Qed.

(** C2: Programs finish on the core.  If the instruction set reaches, after [K] steps from
    reset, an instruction that jumps to itself, then after [3 * K + 8] or more cycles the core
    holds exactly the final registers and the final memory of the program. *)
Theorem core_finishes_rv64i (m : M) K n q sK :
  isa_run K (seq_init m) sK ->
  isa_step sK sK ->
  isa_code_stable K (seq_init m) ->
  (3 * K + 8 <= n)%nat ->
  exists c, sys_run n q (core_reset, m) = Some (c, s_mem sK) /\ c_regs c = s_regs sK.
Proof. apply core_finish_isa. Qed.

(** The instruction set keeps the architectural state well formed: a 64-bit even program
    counter, 64-bit registers, and a zero [x0]. *)
Theorem exec_preserves_state_ok i (s s' : seq_state M) :
  instr_wf i -> state_ok s -> exec i s = Some s' -> state_ok s'.
Proof. apply exec_state_ok. Qed.
End CoreIsa.

(** ** A concrete program

    A load-use dependency, a store, a taken branch and a call: the sum of 1..3 is stored at
    0x1000 and read back. *)
Definition demo_program : list Z :=
  [ ADDI 1 0 3;                        (* 00: x1 = 3 *)
    ADD 2 2 1;                         (* 04: x2 += x1 *)
    ADDI 1 1 (-1);                     (* 08: x1 -= 1 *)
    BNE 1 0 (-8);                      (* 0c: loop *)
    LUI 3 1;                           (* 10: x3 = 0x1000 *)
    SD 2 3 0;                          (* 14: mem[x3] = x2 *)
    LD 4 3 0;                          (* 18: x4 = mem[x3] *)
    ADD 5 4 4;                         (* 1c: x5 = 2 * x4 *)
    JAL 0 0 ].                         (* 20: stop *)

(** Little-endian words from the reset address. *)
Definition memory_of_words (l : list Z) : byte_memory :=
  snd (fold_left (fun '(a, m) w => (a + 4, le_store 4 m a w)) l (RESET_PC, ∅)).

Definition demo_memory : byte_memory := memory_of_words demo_program.

Definition demo_trace : list instr :=
  let body := [IOp ALU_ADD 2 2 1; IOpImm ALU_ADD 1 1 (-1); IBranch BRANCH_NE 1 0 (-8)] in
  IOpImm ALU_ADD 1 0 3 :: body ++ body ++ body ++
  [ILui 3 1; IStore 3 2 3 0; ILoad 3 false 4 3 0; IOp ALU_ADD 5 4 4].

Definition demo_final : seq_state byte_memory :=
  default (seq_init demo_memory) (isa_exec_list demo_trace (seq_init demo_memory)).

Lemma demo_run : isa_run 14 (seq_init demo_memory) demo_final.
Proof. apply (isa_exec_list_run demo_trace). vm_compute. reflexivity. Qed.

Lemma demo_fix : isa_step demo_final demo_final.
Proof.
  exists (IJal 0 0). split; [apply (bool_decide_unpack _); vm_compute; done|].
  split; vm_compute; reflexivity.
Qed.

Lemma demo_stable : isa_code_stable 14 (seq_init demo_memory).
Proof. apply code_stable_checked; [apply seq_init_ok|]. vm_compute. reflexivity. Qed.

Lemma core_finishes_rv64i_witness :
  exists c, sys_run 50 (fun _ => irq_none) (core_reset, demo_memory) =
              Some (c, s_mem demo_final) /\
            reg_get (c_regs c) 5 = 12.
Proof.
  destruct (core_finishes_rv64i demo_memory 14 50 (fun _ => irq_none) demo_final demo_run demo_fix
              demo_stable ltac:(lia)) as (c & Hrun & Hregs).
  exists c. split; [exact Hrun|]. rewrite Hregs. vm_compute. reflexivity.
Defined.

Lemma core_executes_rv64i_witness :
  exists c m' k, sys_run 14 (fun _ => irq_none) (core_reset, demo_memory) = Some (c, m') /\
    (14 <= 3 * k + 8)%nat.
Proof.
  destruct (core_executes_rv64i demo_memory 14 (fun _ => irq_none) demo_final demo_run demo_stable)
    as (c & m' & k & j & sk & sj & Hrun & _ & _ & Hk & _).
  exists c, m', k. split; [exact Hrun | exact Hk].
Defined.

Lemma exec_preserves_state_ok_witness : state_ok demo_final /\ state_ok (seq_init demo_memory).
Proof.
  split; [|apply seq_init_ok].
  assert (H : exec (IJal 0 0) demo_final = Some demo_final) by (vm_compute; reflexivity).
  apply (exec_preserves_state_ok (IJal 0 0) demo_final demo_final);
    [apply (bool_decide_unpack _); vm_compute; done| |exact H].
  apply (isa_run_ok _ _ _ (seq_init_ok _) demo_run).
Defined.

(** The same program, for the refinement of the sequential machine. *)
Lemma core_refines_seq_witness :
  exists c m' k, sys_run 14 (fun _ => irq_none) (core_reset, demo_memory) = Some (c, m') /\
    (14 <= 3 * k + 8)%nat.
Proof.
  destruct (core_refines_seq demo_memory 14 (fun _ => irq_none) demo_final)
    as (c & m' & k & j & sk & sj & Hrun & _ & _ & Hk & _);
    [by apply isa_run_seq; [apply seq_init_ok|apply demo_run]
    |by eapply isa_code_stable_seq; [apply seq_init_ok|apply demo_run|apply demo_stable]|].
  exists c, m', k. split; [exact Hrun | exact Hk].
Defined.
