(* ===== verification/Tlb.v ===== *)
(** * Translation look-aside buffer: [rtl/core/mmu/tlb.sv]

    The module's parameters [ENTRIES] and [ASID_WIDTH] are section variables; the response is a
    function of the entries and the request, [tlb_next] is the clock edge. *)

From S2P Require Import Prelude.

Definition SATP_MODE_BARE : Z := 0.
Definition SATP_MODE_SV32 : Z := 1.
Definition SATP_MODE_SV48 : Z := 9.
Definition SATP_MODE_SV57 : Z := 10.

Record tlb_entry := mk_tlb_entry {
  e_valid : bool;
  e_mode : Z;
  e_asid : Z;
  e_vpn : Z;
  e_ppn : Z;
  e_level : Z;
  e_g : bool;
  e_u : bool;
  e_r : bool;
  e_w : bool;
  e_x : bool;
  e_a : bool;
  e_d : bool
}.

#[global] Instance settable_tlb_entry : Settable tlb_entry :=
  fun e => mk_tlb_entry (e_valid e) (e_mode e) (e_asid e) (e_vpn e) (e_ppn e) (e_level e) (e_g e)
             (e_u e) (e_r e) (e_w e) (e_x e) (e_a e) (e_d e).

Record tlb := mk_tlb { entries : list tlb_entry; repl_ptr : Z }.

Record tlb_req := mk_tlb_req {
  req_valid : bool;
  req_vaddr : Z;
  req_asid : Z;
  req_mode : Z;
  req_priv : Z;
  req_is_fetch : bool;
  req_is_store : bool;
  req_sum : bool;
  req_mxr : bool
}.

Record tlb_resp := mk_tlb_resp {
  resp_valid : bool;
  resp_hit : bool;
  resp_paddr : Z;
  resp_page_fault : bool;
  resp_need_ptw : bool
}.

(** The refill port: the entry it writes is [rf_entry] made valid. *)
Record tlb_refill := mk_tlb_refill { refill_valid : bool; rf_entry : tlb_entry }.

Record tlb_flush := mk_tlb_flush {
  flush_all : bool;
  flush_asid_valid : bool;
  flush_asid : Z;
  flush_vpn_valid : bool;
  flush_vpn : Z;
  flush_mode : Z
}.

#[global] Instance settable_tlb_req : Settable tlb_req :=
  fun q => mk_tlb_req (req_valid q) (req_vaddr q) (req_asid q) (req_mode q) (req_priv q)
             (req_is_fetch q) (req_is_store q) (req_sum q) (req_mxr q).
#[global] Instance settable_tlb_refill : Settable tlb_refill :=
  fun r => mk_tlb_refill (refill_valid r) (rf_entry r).
#[global] Instance settable_tlb_flush : Settable tlb_flush :=
  fun f => mk_tlb_flush (flush_all f) (flush_asid_valid f) (flush_asid f) (flush_vpn_valid f)
             (flush_vpn f) (flush_mode f).

(** ** Functions of the module *)

Definition is_supported_mode (mode : Z) : bool :=
  (mode =? SATP_MODE_BARE) || (mode =? SATP_MODE_SV32) ||
  (mode =? SATP_MODE_SV48) || (mode =? SATP_MODE_SV57).

Definition vpn_width (mode : Z) : Z :=
  if mode =? SATP_MODE_SV32 then 20
  else if mode =? SATP_MODE_SV48 then 36
  else if mode =? SATP_MODE_SV57 then 45
  else 0.

Definition vpn_stride (mode : Z) : Z :=
  if mode =? SATP_MODE_SV32 then 10
  else if (mode =? SATP_MODE_SV48) || (mode =? SATP_MODE_SV57) then 9
  else 0.

(** [for (i = ignore; i < width; i++) mask[i] = 1'b1]: [n] iterations from [i]. *)
Fixpoint mask_loop (n : nat) (i mask : Z) : Z :=
  match n with
  | O => mask
  | S n => mask_loop n (i + 1) (set_bit mask i true)
  end.

Definition make_vpn_mask (mode level : Z) : Z :=
  let width := vpn_width mode in
  let stride := vpn_stride mode in
  let ignore := level * stride in
  if 0 <? width then mask_loop (Z.to_nat (width - ignore)) ignore 0 else 0.

Definition vaddr_to_vpn (vaddr mode : Z) : Z :=
  if mode =? SATP_MODE_SV32 then vaddr@[31:12]
  else if mode =? SATP_MODE_SV48 then vaddr@[47:12]
  else if mode =? SATP_MODE_SV57 then vaddr@[56:12]
  else 0.

Definition page_shift (mode level : Z) : Z := wrap 6 (12 + level * vpn_stride mode).

Definition entry_match (e : tlb_entry) (vpn asid mode : Z) : bool :=
  let mask := make_vpn_mask (e_mode e) (e_level e) in
  e_valid e && (e_mode e =? mode) && (e_g e || (e_asid e =? asid)) &&
  (Z.land (Z.lxor (e_vpn e) vpn) mask =? 0).

Definition allow_access (is_fetch is_store priv_u sum mxr u r w x a d : bool) : bool :=
  let is_load := negb is_fetch && negb is_store in
  let readable := r || (mxr && x) in
  let priv_ok :=
    if u then (if priv_u then true else negb is_fetch && sum) else negb priv_u in
  a && priv_ok && ((is_fetch && x) || (is_store && w && d) || (is_load && readable)).

(** ** Response *)

(** The search loop: the first matching entry. *)
Fixpoint first_match (l : list tlb_entry) (vpn asid mode : Z) : option tlb_entry :=
  match l with
  | [] => None
  | e :: l => if entry_match e vpn asid mode then Some e else first_match l vpn asid mode
  end.

(** [(1 << shift_index) - 1]; [shift_index] is the 6-bit [page_shift], so the all-ones arm
    ([shift_index >= XLEN]) is never taken. *)
Definition low_mask (shift_index : Z) : Z :=
  if 64 <=? shift_index then Z.ones 64 else wrap 64 (Z.shiftl 1 shift_index - 1).

Definition hit_paddr (e : tlb_entry) (vaddr : Z) : Z :=
  let m := low_mask (page_shift (e_mode e) (e_level e)) in
  Z.lor (Z.land (cat 12 (e_ppn e) 0) (bnot 64 m)) (Z.land vaddr m).

Definition entry_allows (e : tlb_entry) (q : tlb_req) : bool :=
  allow_access (req_is_fetch q) (req_is_store q) (req_priv q =? 0) (req_sum q) (req_mxr q)
    (e_u e) (e_r e) (e_w e) (e_x e) (e_a e) (e_d e).

(** The search a request performs. *)
Definition tlb_search (t : tlb) (q : tlb_req) : option tlb_entry :=
  first_match (entries t) (vaddr_to_vpn (req_vaddr q) (req_mode q)) (req_asid q) (req_mode q).

Definition tlb_response (t : tlb) (q : tlb_req) : tlb_resp :=
  let resp hit paddr fault ptw :=
    {| resp_valid := req_valid q; resp_hit := hit; resp_paddr := paddr; resp_page_fault := fault;
       resp_need_ptw := ptw |} in
  if req_valid q then
    if negb (is_supported_mode (req_mode q)) then resp false (req_vaddr q) true false
    else if (req_mode q =? SATP_MODE_BARE) || (req_priv q =? 3) then
      resp true (req_vaddr q) false false
    else
      match tlb_search t q with
      | Some e =>
          if negb (entry_allows e q) then resp false (req_vaddr q) true false
          else resp true (hit_paddr e (req_vaddr q)) false false
      | None => resp false (req_vaddr q) false true
      end
  else resp false (req_vaddr q) false false.

(** ** Clock edge *)

Definition entry_reset : tlb_entry :=
  {| e_valid := false; e_mode := SATP_MODE_BARE; e_asid := 0; e_vpn := 0; e_ppn := 0; e_level := 0;
     e_g := false; e_u := false; e_r := false; e_w := false; e_x := false; e_a := false;
     e_d := false |}.

(** What a selective flush invalidates. *)
Definition flush_selects (f : tlb_flush) (e : tlb_entry) : bool :=
  let asid_match := negb (flush_asid_valid f) || (negb (e_g e) && (e_asid e =? flush_asid f)) in
  let mode_match := negb (flush_vpn_valid f) || (e_mode e =? flush_mode f) in
  let vpn_match :=
    if flush_vpn_valid f
    then Z.land (Z.lxor (e_vpn e) (flush_vpn f)) (make_vpn_mask (e_mode e) (e_level e)) =? 0
    else true in
  e_valid e && asid_match && mode_match && vpn_match.

Definition flush_entry (f : tlb_flush) (e : tlb_entry) : tlb_entry :=
  if flush_all f then e <| e_valid := false |>
  else if flush_asid_valid f || flush_vpn_valid f then
    (if flush_selects f e then e <| e_valid := false |> else e)
  else e.

Section Tlb.
Variable ENTRIES : nat.

(** The width of [repl_ptr], declared [[$clog2(ENTRIES)-1:0]]; with a single entry the range is
    [[-1:0]], which is two bits. *)
Definition ptr_width : Z :=
  let c := Z.log2_up (Z.of_nat ENTRIES) in if c =? 0 then 2 else c.

Definition tlb_reset : tlb := {| entries := replicate ENTRIES entry_reset; repl_ptr := 0 |}.

Definition refill_accepted (r : tlb_refill) : bool :=
  refill_valid r && is_supported_mode (e_mode (rf_entry r)) &&
  negb (e_mode (rf_entry r) =? SATP_MODE_BARE).

(** A write at [repl_ptr] beyond the last entry is dropped, as an out-of-range array write. *)
Definition tlb_next (rst : bool) (f : tlb_flush) (r : tlb_refill) (t : tlb) : tlb :=
  if rst then tlb_reset
  else
    let es := map (flush_entry f) (entries t) in
    if refill_accepted r then
      {| entries := <[Z.to_nat (repl_ptr t) := rf_entry r <| e_valid := true |>]> es;
         repl_ptr := wrap ptr_width (repl_ptr t + 1) |}
    else {| entries := es; repl_ptr := repl_ptr t |}.
End Tlb.

(** ** Lemmas *)

Lemma mask_loop_testbit n i mask j :
  0 <= i -> 0 <= j ->
  Z.testbit (mask_loop n i mask) j =
  Z.testbit mask j || ((i <=? j) && (j <? i + Z.of_nat n)).
Proof.
  revert i mask. induction n as [|n IH]; intros i mask Hi Hj; cbn [mask_loop].
  - destruct (i <=? j) eqn:E1, (j <? i + Z.of_nat 0) eqn:E2; reflect_bools; try lia;
      by rewrite orb_false_r.
  - rewrite IH, set_bit_testbit by lia.
    destruct (Z.testbit mask j), (j =? i) eqn:E1, (i + 1 <=? j) eqn:E2, (i <=? j) eqn:E3,
      (j <? i + 1 + Z.of_nat n) eqn:E4, (j <? i + Z.of_nat (S n)) eqn:E5; reflect_bools;
      try lia; done.
Qed.

Lemma vpn_mask_testbit mode level j :
  0 <= level -> 0 <= j ->
  Z.testbit (make_vpn_mask mode level) j =
  (level * vpn_stride mode <=? j) && (j <? vpn_width mode).
Proof.
  intros Hl Hj. assert (0 <= vpn_stride mode) by (unfold vpn_stride; case_bools; lia).
  unfold make_vpn_mask. destruct (0 <? vpn_width mode) eqn:Ew; reflect_bools.
  - rewrite mask_loop_testbit, Z.bits_0 by nia. cbn [orb].
    destruct (level * vpn_stride mode <=? j) eqn:E1; [|done]. cbn [andb]. reflect_bools.
    apply eq_true_iff_eq. rewrite !Z.ltb_lt. lia.
  - rewrite Z.bits_0. destruct (j <? vpn_width mode) eqn:E; reflect_bools; [lia|].
    by rewrite andb_false_r.
Qed.

(** The number of low VPN bits a page of the entry's size leaves to the offset. *)
Definition entry_ignore (e : tlb_entry) : Z := e_level e * vpn_stride (e_mode e).

Lemma div_pow2_eq_bits x y k :
  0 <= k -> x / 2 ^ k = y / 2 ^ k <-> (forall j, k <= j -> Z.testbit x j = Z.testbit y j).
Proof.
  intros Hk. rewrite <- !Z.shiftr_div_pow2 by done. split.
  - intros E j Hj. replace j with (j - k + k) by lia.
    rewrite <- !Z.shiftr_spec by lia. by rewrite E.
  - intros E. apply Z.bits_inj'; intros i Hi. rewrite !Z.shiftr_spec by lia. apply E. lia.
Qed.

(** Comparing under the mask is comparing the page numbers of the entry's page size. *)
Lemma mask_same_page mode level x y :
  0 <= level -> is_bv (vpn_width mode) x -> is_bv (vpn_width mode) y ->
  (Z.land (Z.lxor x y) (make_vpn_mask mode level) =? 0) =
  (x / 2 ^ (level * vpn_stride mode) =? y / 2 ^ (level * vpn_stride mode)).
Proof.
  intros Hl Hx Hy. assert (0 <= vpn_stride mode) by (unfold vpn_stride; case_bools; lia).
  assert (Hw : 0 <= vpn_width mode) by (unfold vpn_width; case_bools; lia).
  apply eq_true_iff_eq. rewrite !Z.eqb_eq, div_pow2_eq_bits by nia. split.
  - intros E j Hj. destruct (Z.lt_ge_cases j (vpn_width mode)) as [Hlt|Hge].
    + apply (f_equal (fun z => Z.testbit z j)) in E. rewrite Z.land_spec, Z.lxor_spec in E.
      rewrite vpn_mask_testbit, Z.bits_0, (proj2 (Z.leb_le _ _) Hj), (proj2 (Z.ltb_lt _ _) Hlt) in E
        by nia. rewrite andb_true_r in E. by apply xorb_eq.
    + by rewrite (bv_testbit_high _ x j Hx), (bv_testbit_high _ y j Hy).
  - intros E. apply Z.bits_inj'; intros j Hj.
    rewrite Z.land_spec, Z.lxor_spec, Z.bits_0, vpn_mask_testbit by done.
    destruct (level * vpn_stride mode <=? j) eqn:Ej; [|by rewrite andb_false_r].
    reflect_bools. by rewrite E, xorb_nilpotent.
Qed.

(** The bits of the other number above the mode's page-number width do not matter. *)
Lemma mask_same_page_mod mode level x y :
  0 <= level -> is_bv (vpn_width mode) x -> 
  (Z.land (Z.lxor x y) (make_vpn_mask mode level) =? 0) =
  (x / 2 ^ (level * vpn_stride mode) =? y mod 2 ^ vpn_width mode / 2 ^ (level * vpn_stride mode)).
Proof.
  intros Hl Hx. assert (Hw : 0 <= vpn_width mode) by (unfold vpn_width; case_bools; lia).
  rewrite <- mask_same_page by (done || by apply wrap_bv). f_equal.
  apply Z.bits_inj'; intros j Hj. rewrite !Z.land_spec, !Z.lxor_spec, vpn_mask_testbit by done.
  destruct (j <? vpn_width mode) eqn:E; [|by rewrite !andb_false_r]. reflect_bools.
  by rewrite (Z.mod_pow2_bits_low y) by lia.
Qed.

Lemma first_match_spec l vpn asid mode e :
  first_match l vpn asid mode = Some e ->
  e ∈ l /\ entry_match e vpn asid mode = true.
Proof.
  induction l as [|e' l IH]; cbn; [done|]. destruct (entry_match e' _ _ _) eqn:E.
  - intros [= ->]. split; [left|done].
  - intros H. apply IH in H as [??]. split; [by right|done].
Qed.

(** The search in terms of positions. *)
Lemma first_match_index l vpn asid mode e :
  first_match l vpn asid mode = Some e <->
  exists i, l !! i = Some e /\ entry_match e vpn asid mode = true /\
    forall j e', (j < i)%nat -> l !! j = Some e' -> entry_match e' vpn asid mode = false.
Proof.
  induction l as [|e0 l IH]; cbn; [split; [done|by intros (i & ? & _)]|].
  destruct (entry_match e0 vpn asid mode) eqn:E0.
  - split.
    + intros [= ->]. exists 0%nat. split_and!; [done..|]. intros; lia.
    + intros ([|i] & Hi & _ & Hf); [exact Hi|].
      specialize (Hf 0%nat e0 ltac:(lia) eq_refl). congruence.
  - rewrite IH. split.
    + intros (i & Hi & He & Hf). exists (S i). split_and!; [done..|].
      intros [|j] e' Hj Hl; cbn in Hl; [by injection Hl as <-|]. apply (Hf j); [lia|done].
    + intros ([|i] & Hi & He & Hf); cbn in Hi; [congruence|]. exists i. split_and!; [done..|].
      intros j e' Hj Hl. apply (Hf (S j)); [lia|done].
Qed.

Lemma first_match_none l vpn asid mode :
  first_match l vpn asid mode = None <-> Forall (fun e => entry_match e vpn asid mode = false) l.
Proof.
  induction l as [|e l IH]; cbn; [done|]. rewrite Forall_cons_iff.
  destruct (entry_match e _ _ _); [split; [done|by intros [? _]]|]. rewrite IH. by intuition.
Qed.

Lemma entry_match_inv e vpn asid mode :
  entry_match e vpn asid mode = true ->
  e_valid e = true /\ e_mode e = mode /\ (e_g e = true \/ e_asid e = asid) /\
  Z.land (Z.lxor (e_vpn e) vpn) (make_vpn_mask (e_mode e) (e_level e)) = 0.
Proof.
  unfold entry_match. intros. reflect_bools.
  match goal with E : _ || _ = true |- _ => apply orb_true_iff in E end.
  rewrite Z.eqb_eq in *. done.
Qed.

Lemma vaddr_vpn vaddr mode :
  is_supported_mode mode = true -> mode <> SATP_MODE_BARE ->
  vaddr_to_vpn vaddr mode = (vaddr / 2 ^ 12) mod 2 ^ vpn_width mode.
Proof.
  unfold is_supported_mode, vaddr_to_vpn, vpn_width. intros Hs Hb.
  destruct (mode =? SATP_MODE_SV32) eqn:E1; [by rewrite slice_div_mod by lia|].
  destruct (mode =? SATP_MODE_SV48) eqn:E2; [by rewrite slice_div_mod by lia|].
  destruct (mode =? SATP_MODE_SV57) eqn:E3; [by rewrite slice_div_mod by lia|].
  apply Z.eqb_neq in Hb. by rewrite Hb in Hs.
Qed.

(** A power-of-two mask splits an address into page base and offset. *)
Lemma hit_paddr_split base vaddr s :
  0 <= s < 64 -> is_bv 64 base -> is_bv 64 vaddr ->
  Z.lor (Z.land base (bnot 64 (low_mask s))) (Z.land vaddr (low_mask s)) =
  base / 2 ^ s * 2 ^ s + vaddr mod 2 ^ s.
Proof.
  intros Hs Hb Hv. unfold low_mask. rewrite (proj2 (Z.leb_gt 64 s)) by lia.
  assert (wrap 64 (Z.shiftl 1 s - 1) = Z.ones s) as ->.
  { rewrite Z.shiftl_1_l, Z.sub_1_r, <- Z.ones_equiv.
    apply wrap_small, (bv_weaken s); [lia|]. apply (repb_bv s true); lia. }
  rewrite <- (cat_add s (base / 2 ^ s) (vaddr mod 2 ^ s)) by (lia || by apply (wrap_bv s); lia).
  unfold cat. rewrite Z.land_ones by lia. f_equal.
  rewrite <- Z.shiftr_div_pow2 by lia.
  apply Z.bits_inj'; intros i Hi. unfold bnot.
  rewrite Z.land_spec, Z.lxor_spec, !Z.testbit_ones_nonneg, Z.shiftl_spec by lia.
  destruct (i <? s) eqn:E1, (i <? 64) eqn:E2; reflect_bools; try lia; cbn [xorb].
  - rewrite andb_false_r. by rewrite Z.testbit_neg_r by lia.
  - rewrite andb_true_r, Z.shiftr_spec by lia. f_equal; lia.
  - by rewrite Z.shiftr_spec, Z.sub_add, (bv_testbit_high 64 base) by (done || lia).
Qed.

(** ** Lookup *)

Definition translated (q : tlb_req) : bool :=
  req_valid q && is_supported_mode (req_mode q) &&
  negb (req_mode q =? SATP_MODE_BARE) && negb (req_priv q =? 3).

Lemma tlb_response_translated t q :
  translated q = true ->
  tlb_response t q =
  match tlb_search t q with
  | Some e =>
      if entry_allows e q then mk_tlb_resp true true (hit_paddr e (req_vaddr q)) false false
      else mk_tlb_resp true false (req_vaddr q) true false
  | None => mk_tlb_resp true false (req_vaddr q) false true
  end.
Proof.
  unfold translated, tlb_response. intros; reflect_bools.
  repeat match goal with E : _ = _ :> bool |- _ => rewrite E; clear E end.
  repeat match goal with E : _ <> _ |- _ => apply Z.eqb_neq in E; rewrite E; clear E end.
  cbn [negb orb]. destruct (tlb_search t q) as [e|]; [|done]. by destruct (entry_allows e q).
Qed.

(** Well-formed entries: what the page-table walker refills. *)
Definition entry_ok (e : tlb_entry) : Prop :=
  is_bv (vpn_width (e_mode e)) (e_vpn e) /\ is_bv 44 (e_ppn e) /\ 0 <= e_level e /\
  12 + entry_ignore e < 64.

Lemma vpn_page vaddr mode k :
  0 <= k -> is_supported_mode mode = true -> mode <> SATP_MODE_BARE ->
  vaddr_to_vpn vaddr mode / 2 ^ k = (vaddr / 2 ^ 12) mod 2 ^ vpn_width mode / 2 ^ k.
Proof. intros. by rewrite vaddr_vpn. Qed.

Lemma search_spec t q e :
  translated q = true -> Forall entry_ok (entries t) -> is_bv 64 (req_vaddr q) ->
  tlb_search t q = Some e ->
  e ∈ entries t /\ e_valid e = true /\ e_mode e = req_mode q /\
  (e_g e = true \/ e_asid e = req_asid q) /\
  e_vpn e / 2 ^ entry_ignore e =
    (req_vaddr q / 2 ^ 12) mod 2 ^ vpn_width (req_mode q) / 2 ^ entry_ignore e /\
  hit_paddr e (req_vaddr q) =
    (e_ppn e * 2 ^ 12) / 2 ^ (12 + entry_ignore e) * 2 ^ (12 + entry_ignore e) +
    req_vaddr q mod 2 ^ (12 + entry_ignore e).
Proof.
  intros Hq Hok Hv Hs. unfold translated in Hq. reflect_bools.
  apply first_match_spec in Hs as [Hin Hm]. assert (He : entry_ok e) by (by apply (proj1 (Forall_forall _ _) Hok), list_elem_of_In).
  destruct He as (Hvpn & Hppn & Hl & Hsh).
  apply entry_match_inv in Hm as (Hva & Hmode & Hasid & Hmask). split_and!; try done.
  - apply Z.eqb_eq in Hmask. rewrite mask_same_page in Hmask; [|done|done|].
    + apply Z.eqb_eq in Hmask. unfold entry_ignore. rewrite Hmask, Hmode.
      by rewrite vaddr_vpn.
    + rewrite Hmode, vaddr_vpn by done. apply wrap_bv. unfold vpn_width; case_bools; lia.
  - assert (0 <= entry_ignore e).
    { unfold entry_ignore, vpn_stride. case_bools; lia. }
    unfold hit_paddr, page_shift. fold (entry_ignore e). rewrite wrap_small by (unfold is_bv; lia).
    assert (is_bv 64 (cat 12 (e_ppn e) 0)) by (by apply (bv_weaken (44 + 12)), cat_bv).
    rewrite hit_paddr_split by (done || lia).
    rewrite (cat_add 12) by done. by rewrite Z.add_0_r.
Qed.

(** A TLB lookup gives exactly one verdict: a hit, a page fault or a request to the
    page-table walker; without a request it gives none. *)
Theorem tlb_response_one_verdict t q :
  let r := tlb_response t q in
  Z.b2z (resp_hit r) + Z.b2z (resp_page_fault r) + Z.b2z (resp_need_ptw r) = Z.b2z (req_valid q).
Proof.
  unfold tlb_response. destruct (req_valid q); [|done].
  destruct (negb _); [done|]. destruct (_ || _); [done|].
  destruct (tlb_search t q) as [e|]; [|done]. by destruct (negb _).
Qed.

(** C16: Translation.  A hit in a translated mode comes from a valid entry of the same mode, of
    the request's address space or global, for the page (of the entry's size) that contains the
    virtual address, and permitting the access; the physical address is that page's frame plus
    the offset in the page. *)
Theorem tlb_hit_translates t q :
  translated q = true -> Forall entry_ok (entries t) -> is_bv 64 (req_vaddr q) ->
  resp_hit (tlb_response t q) = true ->
  exists e, e ∈ entries t /\ e_valid e = true /\ e_mode e = req_mode q /\
    (e_g e = true \/ e_asid e = req_asid q) /\
    e_vpn e / 2 ^ entry_ignore e =
      (req_vaddr q / 2 ^ 12) mod 2 ^ vpn_width (req_mode q) / 2 ^ entry_ignore e /\
    entry_allows e q = true /\
    resp_paddr (tlb_response t q) =
      (e_ppn e * 2 ^ 12) / 2 ^ (12 + entry_ignore e) * 2 ^ (12 + entry_ignore e) +
      req_vaddr q mod 2 ^ (12 + entry_ignore e).
Proof.
  intros Hq Hok Hv. rewrite tlb_response_translated by done.
  destruct (tlb_search t q) as [e|] eqn:Hs; [|done].
  destruct (entry_allows e q) eqn:Ha; [|done]. intros _. exists e.
  destruct (search_spec t q e Hq Hok Hv Hs) as (? & ? & ? & ? & ? & ->). done.
Qed.

(** ** Protection *)

(** The number of address bits below the page number of a page of a mode and level, and of a
    virtual address of a mode, as the privileged architecture gives them. *)
Definition page_bits (mode level : Z) : Z := 12 + level * (if mode =? 1 then 10 else 9).
Definition va_bits (mode : Z) : Z := if mode =? 1 then 32 else if mode =? 9 then 48 else 57.

(** The entry maps the page the request falls in. *)
Definition covers (e : tlb_entry) (q : tlb_req) : Prop :=
  e_valid e = true /\ e_mode e = req_mode q /\ (e_g e = true \/ e_asid e = req_asid q) /\
  e_vpn e * 2 ^ 12 / 2 ^ page_bits (e_mode e) (e_level e) =
    req_vaddr q mod 2 ^ va_bits (req_mode q) / 2 ^ page_bits (e_mode e) (e_level e).

(** Entry [i] is the one that answers: it covers the request and none before it does. *)
Definition answers (t : tlb) (q : tlb_req) (i : nat) (e : tlb_entry) : Prop :=
  entries t !! i = Some e /\ covers e q /\
  forall j e', (j < i)%nat -> entries t !! j = Some e' -> ~ covers e' q.

(** What the architecture asks of a leaf entry for an access. *)
Definition may_access (e : tlb_entry) (q : tlb_req) : Prop :=
  e_a e = true /\
  (req_priv q = 0 -> e_u e = true) /\
  (req_priv q <> 0 -> e_u e = true -> req_is_fetch q = false /\ req_sum q = true) /\
  (req_is_fetch q = true -> e_x e = true) /\
  (req_is_store q = true -> e_w e = true /\ e_d e = true) /\
  (req_is_fetch q = false -> req_is_store q = false ->
   e_r e = true \/ req_mxr q = true /\ e_x e = true).

Lemma entry_allows_spec e q :
  req_is_fetch q && req_is_store q = false -> entry_allows e q = true <-> may_access e q.
Proof.
  unfold entry_allows, allow_access, may_access. intros Hfs.
  destruct (e_a e); cbn [andb]; [|split; [done|by intros [? _]]].
  destruct (Z.eqb_spec (req_priv q) 0), (e_u e), (req_is_fetch q), (req_is_store q);
    try discriminate Hfs; cbn [andb orb negb]; rewrite ?andb_true_iff, ?orb_true_iff, ?andb_true_iff;
    intuition congruence.
Qed.

Lemma translated_mode q :
  translated q = true -> req_mode q = 1 \/ req_mode q = 9 \/ req_mode q = 10.
Proof.
  unfold translated, is_supported_mode, SATP_MODE_BARE, SATP_MODE_SV32, SATP_MODE_SV48, SATP_MODE_SV57.
  intros H. reflect_bools. match goal with E : _ || _ = true |- _ => rename E into Hs end.
  rewrite !orb_true_iff, !Z.eqb_eq in Hs. tauto.
Qed.

(** Page numbers shifted up by the 12 offset bits. *)
Lemma page_of_vpn v k : 0 <= k -> v * 2 ^ 12 / 2 ^ (12 + k) = v / 2 ^ k.
Proof.
  intros Hk. rewrite (Z.add_comm 12), Z.pow_add_r by lia. by apply Z.div_mul_cancel_r; lia.
Qed.

Lemma page_of_vaddr v w k :
  0 <= k -> 0 <= w -> v mod 2 ^ (12 + w) / 2 ^ (12 + k) = (v / 2 ^ 12) mod 2 ^ w / 2 ^ k.
Proof.
  intros Hk Hw. rewrite (Z.pow_add_r 2 12 k), <- Z.div_div by lia. f_equal.
  rewrite Z.pow_add_r by lia. rewrite Z.rem_mul_r by lia.
  rewrite (Z.add_comm (v mod _)), (Z.mul_comm (2 ^ 12)), Z.div_add_l by lia.
  rewrite (Z.div_small (v mod _)) by (apply Z.mod_pos_bound; lia). apply Z.add_0_r.
Qed.

Lemma translated_bits q :
  translated q = true ->
  (forall level, page_bits (req_mode q) level = 12 + level * vpn_stride (req_mode q)) /\
  va_bits (req_mode q) = 12 + vpn_width (req_mode q) /\
  0 <= vpn_stride (req_mode q) /\ 0 <= vpn_width (req_mode q) /\
  vaddr_to_vpn (req_vaddr q) (req_mode q) =
    (req_vaddr q / 2 ^ 12) mod 2 ^ vpn_width (req_mode q).
Proof.
  intros Hq. rewrite <- vaddr_vpn by (destruct (translated_mode q Hq) as [->|[-> | ->]]; done).
  unfold page_bits, va_bits, vpn_stride, vpn_width.
  destruct (translated_mode q Hq) as [->|[-> | ->]]; cbn [Z.eqb Pos.eqb SATP_MODE_SV32 orb];
    split_and!; reflexivity || discriminate.
Qed.

Lemma entry_match_covers e q :
  translated q = true -> entry_ok e ->
  entry_match e (vaddr_to_vpn (req_vaddr q) (req_mode q)) (req_asid q) (req_mode q) = true <->
  covers e q.
Proof.
  intros Hq (Hvpn & Hppn & Hl & Hsh). destruct (translated_bits q Hq) as (Hp & Hv & Hs & Hw & Hpn).
  unfold covers, entry_match. rewrite mask_same_page_mod by done.
  rewrite !andb_true_iff, orb_true_iff, !Z.eqb_eq, Hpn.
  assert (Hpage : e_mode e = req_mode q ->
    e_vpn e / 2 ^ (e_level e * vpn_stride (e_mode e)) =
      ((req_vaddr q / 2 ^ 12) mod 2 ^ vpn_width (req_mode q)) mod 2 ^ vpn_width (e_mode e) /
      2 ^ (e_level e * vpn_stride (e_mode e)) <->
    e_vpn e * 2 ^ 12 / 2 ^ page_bits (e_mode e) (e_level e) =
      req_vaddr q mod 2 ^ va_bits (req_mode q) / 2 ^ page_bits (e_mode e) (e_level e)).
  { intros ->. rewrite Hp, Hv, page_of_vpn, page_of_vaddr, Z.mod_mod by (try apply Z.pow_nonzero; nia).
    done. }
  tauto.
Qed.

Lemma answers_search t q e :
  translated q = true -> Forall entry_ok (entries t) ->
  tlb_search t q = Some e <-> exists i, answers t q i e.
Proof.
  intros Hq Hok. rewrite Forall_lookup in Hok. unfold tlb_search. rewrite first_match_index.
  unfold answers. split; intros (i & Hi & He & Hf); exists i; split_and!; try done.
  - apply entry_match_covers; eauto.
  - intros j e' Hj Hl Hc. apply entry_match_covers in Hc; [|by eauto..].
    rewrite (Hf j e' Hj Hl) in Hc. done.
  - apply entry_match_covers; eauto.
  - intros j e' Hj Hl. destruct (entry_match e' _ _ _) eqn:E; [|done].
    apply entry_match_covers in E; [|by eauto..]. by destruct (Hf j e' Hj Hl).
Qed.

Lemma answers_unique t q i j e e' :
  answers t q i e -> answers t q j e' -> e = e'.
Proof.
  intros (Hi & Hc & Hf) (Hj & Hc' & Hf').
  destruct (Nat.lt_trichotomy i j) as [H|[->|H]]; [|congruence|].
  - by destruct (Hf' i e H Hi).
  - by destruct (Hf j e' H Hj).
Qed.

Lemma hit_paddr_page e q :
  translated q = true -> entry_ok e -> e_mode e = req_mode q -> is_bv 64 (req_vaddr q) ->
  let p := page_bits (e_mode e) (e_level e) in
  hit_paddr e (req_vaddr q) = e_ppn e * 2 ^ 12 / 2 ^ p * 2 ^ p + req_vaddr q mod 2 ^ p.
Proof.
  intros Hq (Hvpn & Hppn & Hl & Hsh) Hm Hv p.
  destruct (translated_bits q Hq) as (Hp & _ & Hs & _). subst p. unfold entry_ignore in Hsh.
  rewrite Hm in *. rewrite Hp.
  unfold hit_paddr, page_shift. rewrite Hm, wrap_small by (unfold is_bv; nia).
  assert (is_bv 64 (cat 12 (e_ppn e) 0)) by (by apply (bv_weaken (44 + 12)), cat_bv).
  rewrite hit_paddr_split by (done || nia).
  rewrite (cat_add 12) by done. by rewrite Z.add_0_r.
Qed.

(** C17: Protection.  For a translated request the entry that answers decides: the response is
    a hit exactly when that entry permits the access (A; U pages for users, and for supervisors
    only as data with SUM; X to fetch; W and D to store; R, or X with MXR, to load), with that
    entry's frame, and a page fault exactly when it does not; without such an entry the request
    goes to the page-table walker. *)
Theorem tlb_hit_protected t q :
  translated q = true -> Forall entry_ok (entries t) -> is_bv 64 (req_vaddr q) ->
  req_is_fetch q && req_is_store q = false ->
  let r := tlb_response t q in
  (forall i e, answers t q i e -> may_access e q ->
   resp_hit r = true /\ resp_page_fault r = false /\ resp_need_ptw r = false /\
   let p := page_bits (e_mode e) (e_level e) in
   resp_paddr r = e_ppn e * 2 ^ 12 / 2 ^ p * 2 ^ p + req_vaddr q mod 2 ^ p) /\
  (forall i e, answers t q i e -> ~ may_access e q ->
   resp_hit r = false /\ resp_page_fault r = true /\ resp_need_ptw r = false) /\
  ((forall e, e ∈ entries t -> ~ covers e q) ->
   resp_hit r = false /\ resp_page_fault r = false /\ resp_need_ptw r = true).
Proof.
  intros Hq Hok Hv Hfs r. subst r. rewrite tlb_response_translated by done. split_and!.
  - intros i e Ha Hp. rewrite (proj2 (answers_search t q e Hq Hok)) by eauto.
    rewrite (proj2 (entry_allows_spec e q Hfs) Hp). split_and!; [done..|].
    destruct Ha as (Hi & (_ & Hm & _) & _). rewrite Forall_lookup in Hok.
    apply hit_paddr_page; eauto.
  - intros i e Ha Hp. rewrite (proj2 (answers_search t q e Hq Hok)) by eauto.
    rewrite <- entry_allows_spec in Hp by done. by destruct (entry_allows e q).
  - intros Hn. destruct (tlb_search t q) as [e|] eqn:E; [exfalso|done].
    apply answers_search in E as (i & Hi & Hc & _); [|done..].
    apply (Hn e); [by eapply list_elem_of_lookup_2|done].
Qed.

(** ** Refill and flush *)

Section TlbOps.
Variable ENTRIES : nat.

Definition flush_none : tlb_flush :=
  {| flush_all := false; flush_asid_valid := false; flush_asid := 0; flush_vpn_valid := false;
     flush_vpn := 0; flush_mode := SATP_MODE_SV48 |}.

Definition refill_none : tlb_refill := {| refill_valid := false; rf_entry := entry_reset |}.

Definition tlb_ok (t : tlb) : Prop :=
  length (entries t) = ENTRIES /\ 0 <= repl_ptr t < Z.of_nat ENTRIES.

Lemma tlb_reset_ok : (0 < ENTRIES)%nat -> tlb_ok (tlb_reset ENTRIES).
Proof. intros. split; cbn; [by rewrite length_replicate|lia]. Qed.

Lemma ptr_width_pow2 w : ENTRIES = Nat.pow 2 w -> (0 < w)%nat -> 2 ^ ptr_width ENTRIES = Z.of_nat ENTRIES.
Proof.
  intros HE Hw. unfold ptr_width. rewrite HE, Nat2Z.inj_pow. change (Z.of_nat 2) with 2.
  rewrite Z.log2_up_pow2 by lia. cbv zeta. by rewrite (proj2 (Z.eqb_neq (Z.of_nat w) 0)) by lia.
Qed.

(** The pointer stays in range when the number of entries is a power of two above one. *)
Lemma tlb_next_ok w rst f r t :
  ENTRIES = Nat.pow 2 w -> (0 < w)%nat -> tlb_ok t -> tlb_ok (tlb_next ENTRIES rst f r t).
Proof.
  intros HE Hw [Hlen Hptr]. pose proof (ptr_width_pow2 w HE Hw) as Hp.
  unfold tlb_next. destruct rst; [apply tlb_reset_ok; lia|].
  destruct (refill_accepted r); split; cbn [entries repl_ptr];
    rewrite ?length_insert, ?length_map; try done.
  unfold wrap. rewrite Hp. apply Z.mod_pos_bound. lia.
Qed.

Lemma flush_entry_none e : flush_entry flush_none e = e.
Proof. done. Qed.

Lemma map_flush_none l : map (flush_entry flush_none) l = l.
Proof. apply list_fmap_id. Qed.

Lemma first_match_insert l i e vpn asid mode :
  first_match l vpn asid mode = None -> (i < length l)%nat ->
  entry_match e vpn asid mode = true -> first_match (<[i := e]> l) vpn asid mode = Some e.
Proof.
  revert i. induction l as [|e' l IH]; intros [|i] Hn Hi He; cbn in *; try lia.
  - by rewrite He.
  - destruct (entry_match e' _ _ _); [done|]. apply IH; done || lia.
Qed.

Lemma entry_match_invalid e vpn asid mode :
  entry_match (e <| e_valid := false |>) vpn asid mode = false.
Proof. done. Qed.

(** A flush only removes matches. *)
Lemma flush_match f e vpn asid mode :
  entry_match (flush_entry f e) vpn asid mode = true ->
  flush_entry f e = e /\ entry_match e vpn asid mode = true.
Proof.
  unfold flush_entry. destruct (flush_all f); [by rewrite entry_match_invalid|].
  destruct (_ || _); [|done]. destruct (flush_selects f e); [by rewrite entry_match_invalid|done].
Qed.

Lemma flush_search f l vpn asid mode e :
  first_match (map (flush_entry f) l) vpn asid mode = Some e ->
  flush_entry f e = e /\ entry_match e vpn asid mode = true.
Proof.
  induction l as [|e' l IH]; cbn; [done|]. destruct (entry_match (flush_entry f e') _ _ _) eqn:E.
  - intros [= <-]. apply flush_match in E as [Hf E]. by rewrite !Hf.
  - done.
Qed.

(** C18: The walker's answer is used.  If a translated request misses and the walker refills
    the page it needs (no flush in that cycle), the repeated request finds the new entry and,
    when the access is permitted, hits with its translation. *)
Theorem tlb_refill_then_hit t q r :
  tlb_ok t -> translated q = true -> resp_need_ptw (tlb_response t q) = true ->
  refill_valid r = true -> e_mode (rf_entry r) = req_mode q ->
  let e := rf_entry r <| e_valid := true |> in
  entry_match e (vaddr_to_vpn (req_vaddr q) (req_mode q)) (req_asid q) (req_mode q) = true ->
  entry_allows e q = true ->
  let t' := tlb_next ENTRIES false flush_none r t in
  tlb_response t' q = mk_tlb_resp true true (hit_paddr e (req_vaddr q)) false false.
Proof.
  intros [Hlen Hptr] Hq Hm Hr Hmode e He Ha t'.
  rewrite tlb_response_translated in Hm by done.
  destruct (tlb_search t q) as [e0|] eqn:Hs; [by destruct (entry_allows e0 q)|].
  rewrite tlb_response_translated by done.
  assert (tlb_search t' q = Some e) as ->; [|by rewrite Ha].
  subst t'. unfold tlb_next, refill_accepted. rewrite Hr, Hmode.
  unfold translated in Hq. reflect_bools.
  match goal with E1 : is_supported_mode _ = true, E2 : req_mode q <> SATP_MODE_BARE |- _ =>
    rewrite E1, (proj2 (Z.eqb_neq _ _) E2) end.
  cbn [andb negb]. unfold tlb_search; cbn [entries]. rewrite map_flush_none.
  apply first_match_insert; [done|lia|done].
Qed.

(** C19: [SFENCE.VMA] for a page.  After a flush of the page number of [va] in a mode (any
    address space), no translated request for [va] in that mode hits or faults on a stale
    entry: it goes to the page-table walker. *)
Theorem tlb_flush_vpn_misses f r t q :
  flush_all f = false -> flush_asid_valid f = false -> flush_vpn_valid f = true ->
  flush_vpn f = vaddr_to_vpn (req_vaddr q) (req_mode q) -> flush_mode f = req_mode q ->
  refill_valid r = false -> translated q = true ->
  resp_need_ptw (tlb_response (tlb_next ENTRIES false f r t) q) = true.
Proof.
  intros Ha Hasid Hv Hvpn Hmode Hr Hq. rewrite tlb_response_translated by done.
  assert (tlb_search (tlb_next ENTRIES false f r t) q = None) as ->; [|done].
  unfold tlb_next, refill_accepted. rewrite Hr. unfold tlb_search; cbn [entries andb].
  destruct (first_match _ _ _ _) as [e|] eqn:E; [|done]. exfalso.
  apply flush_search in E as [Hfix Hm]. pose proof (entry_match_inv _ _ _ _ Hm) as (Hva & He & _ & Hk).
  unfold flush_entry in Hfix. rewrite Ha, Hasid, Hv in Hfix. cbn [orb] in Hfix.
  unfold flush_selects in Hfix. rewrite Hva, Hasid, Hv, Hvpn, Hmode, He, Z.eqb_refl in Hfix.
  rewrite He in Hk. rewrite Hk in Hfix. cbn in Hfix.
  apply (f_equal e_valid) in Hfix. cbn in Hfix. congruence.
Qed.

Lemma flush_match_keep f e vpn asid mode :
  entry_match e vpn asid mode = false -> entry_match (flush_entry f e) vpn asid mode = false.
Proof.
  intros He. destruct (entry_match (flush_entry f e) vpn asid mode) eqn:E; [|done].
  apply flush_match in E as [_ E]. congruence.
Qed.

(** What a flush request asks to forget: everything; or every entry that is not global and of
    the address space, if one is given, and of the page in the mode, if one is given. *)
Definition flush_hits (f : tlb_flush) (e : tlb_entry) : Prop :=
  flush_all f = true \/
  (flush_asid_valid f = true \/ flush_vpn_valid f = true) /\
  (flush_asid_valid f = true -> e_g e = false /\ e_asid e = flush_asid f) /\
  (flush_vpn_valid f = true -> e_mode e = flush_mode f /\
     e_vpn e / 2 ^ entry_ignore e =
     flush_vpn f mod 2 ^ vpn_width (e_mode e) / 2 ^ entry_ignore e).

Lemma invalid_entry e : e_valid e = false -> e <| e_valid := false |> = e.
Proof. destruct e; cbn. by intros ->. Qed.

Lemma flush_entry_hit f e :
  entry_ok e -> flush_hits f e -> flush_entry f e = e <| e_valid := false |>.
Proof.
  intros (Hv & _ & Hl & _) Hh. unfold flush_entry. destruct (flush_all f) eqn:Ha; [done|].
  destruct Hh as [Hh|(Hr & Has & Hvp)]; [congruence|].
  replace (flush_asid_valid f || flush_vpn_valid f) with true
    by (symmetry; apply orb_true_iff; destruct Hr; auto).
  destruct (flush_selects f e) eqn:Hs; [done|]. symmetry. apply invalid_entry.
  destruct (e_valid e) eqn:He; [exfalso|done]. unfold flush_selects in Hs. rewrite He in Hs.
  rewrite mask_same_page_mod in Hs by done.
  destruct (flush_asid_valid f).
  - destruct (Has eq_refl) as [Hg Hi]. rewrite Hg, Hi, Z.eqb_refl in Hs.
    destruct (flush_vpn_valid f); [|done].
    destruct (Hvp eq_refl) as [Hm Hp]. unfold entry_ignore in Hp. by rewrite Hp, Hm, !Z.eqb_refl in Hs.
  - destruct (flush_vpn_valid f); [|by destruct Hr].
    destruct (Hvp eq_refl) as [Hm Hp]. unfold entry_ignore in Hp. by rewrite Hp, Hm, !Z.eqb_refl in Hs.
Qed.

Lemma flush_entry_spared f e : entry_ok e -> ~ flush_hits f e -> flush_entry f e = e.
Proof.
  intros (Hv & _ & Hl & _) Hh. unfold flush_entry.
  destruct (flush_all f) eqn:Ha; [destruct Hh; by left|].
  destruct (flush_asid_valid f || flush_vpn_valid f) eqn:Hr; [|done].
  destruct (flush_selects f e) eqn:Hs; [exfalso; apply Hh; right|done].
  unfold flush_selects in Hs. rewrite mask_same_page_mod in Hs by done. apply orb_true_iff in Hr.
  rewrite !andb_true_iff in Hs. destruct Hs as [[[_ Has] Hm] Hp]. split; [done|]. split.
  - intros E. rewrite E in Has. cbn in Has. apply andb_true_iff in Has as [Hg Hi].
    by rewrite negb_true_iff, Z.eqb_eq in *.
  - intros E. rewrite E in Hm, Hp. cbn in Hm. by rewrite Z.eqb_eq in *.
Qed.

(** C20: Flushes are precise.  A flush invalidates every entry its request names and leaves
    every other entry as it is: [SFENCE.VMA] with an address space spares the global entries and
    those of other spaces, with a page spares the other pages and modes.  The answer to a
    request whose entry is spared does not change, and the replacement pointer does not move. *)
Theorem tlb_flush_precise f r t :
  refill_valid r = false -> Forall entry_ok (entries t) ->
  let t' := tlb_next ENTRIES false f r t in
  repl_ptr t' = repl_ptr t /\ length (entries t') = length (entries t) /\
  (forall i e, entries t !! i = Some e ->
   (flush_hits f e -> entries t' !! i = Some (e <| e_valid := false |>)) /\
   (~ flush_hits f e -> entries t' !! i = Some e)) /\
  (forall q e, tlb_search t q = Some e -> ~ flush_hits f e -> tlb_search t' q = Some e).
Proof.
  intros Hr Hok t'. subst t'. unfold tlb_next, refill_accepted. rewrite Hr.
  unfold tlb_search; cbn [entries repl_ptr andb]. split; [done|]. split; [apply length_map|].
  split.
  - intros i e Hi. pose proof (proj1 (Forall_lookup _ _) Hok i e Hi) as He.
    change (map (flush_entry f)) with (fmap (M := list) (flush_entry f)).
    rewrite list_lookup_fmap, Hi. cbn. split; intros Hh; f_equal.
    + by apply flush_entry_hit.
    + by apply flush_entry_spared.
  - intros q e Hs Hh. assert (He : entry_ok e).
    { apply first_match_spec in Hs as [Hin _]. rewrite Forall_forall in Hok.
      apply Hok. by apply list_elem_of_In. }
    pose proof (flush_entry_spared f e He Hh) as Hfix. clear Hok. revert Hs.
    induction (entries t) as [|e' l IH]; cbn; [done|]. destruct (entry_match e' _ _ _) eqn:E.
    + intros [= ->]. by rewrite Hfix, E.
    + rewrite flush_match_keep by done. exact IH.
Qed.







(** Refills in consecutive cycles. *)
Definition tlb_refills (l : list tlb_refill) (t : tlb) : tlb :=
  fold_left (fun t r => tlb_next ENTRIES false flush_none r t) l t.

Lemma tlb_refill_step r t :
  refill_accepted r = true ->
  tlb_next ENTRIES false flush_none r t =
  {| entries := <[Z.to_nat (repl_ptr t) := rf_entry r <| e_valid := true |>]> (entries t);
     repl_ptr := wrap (ptr_width ENTRIES) (repl_ptr t + 1) |}.
Proof. intros Hr. unfold tlb_next. by rewrite Hr, map_flush_none. Qed.

Lemma tlb_refills_spec w l t :
  ENTRIES = Nat.pow 2 w -> (0 < w)%nat -> tlb_ok t ->
  Forall (fun r => refill_accepted r = true) l -> (length l <= ENTRIES)%nat ->
  let t' := tlb_refills l t in
  tlb_ok t' /\ repl_ptr t' = (repl_ptr t + Z.of_nat (length l)) mod Z.of_nat ENTRIES /\
  forall i r, l !! i = Some r ->
    entries t' !! Z.to_nat ((repl_ptr t + Z.of_nat i) mod Z.of_nat ENTRIES) =
    Some (rf_entry r <| e_valid := true |>).
Proof.
  intros HE Hw Hok Hall. pose proof (ptr_width_pow2 w HE Hw) as Hp.
  induction l as [|r l IH] using rev_ind; intros Hlen t'.
  { cbn in t'. subst t'. split; [done|]. destruct Hok as [? Hptr].
    split; [|done]. cbn. rewrite Z.add_0_r. by rewrite Z.mod_small. }
  rewrite length_app in Hlen. cbn in Hlen. apply Forall_app in Hall as [Hall Hr].
  apply Forall_inv in Hr. destruct (IH Hall ltac:(lia)) as ([Hl Hptr] & Hpt & Hent). clear IH.
  assert (Ht' : t' = tlb_next ENTRIES false flush_none r (tlb_refills l t)).
  { subst t'. unfold tlb_refills. by rewrite fold_left_app. }
  assert (Hok' : tlb_ok t') by (rewrite Ht'; by apply (tlb_next_ok w)).
  split; [done|]. rewrite Ht', tlb_refill_step by done. cbn [repl_ptr entries].
  unfold wrap. rewrite Hp, Hpt, length_app. cbn [length]. split.
  - rewrite Zplus_mod_idemp_l. f_equal. lia.
  - intros i ri Hi. destruct (Nat.eq_dec i (length l)) as [->|Hne].
    + rewrite lookup_app_r, Nat.sub_diag in Hi by lia. injection Hi as <-.
      apply list_lookup_insert_eq. rewrite Hl.
      pose proof (Z.mod_pos_bound (repl_ptr t + Z.of_nat (length l)) (Z.of_nat ENTRIES)). lia.
    + assert (i < length l)%nat.
      { apply lookup_lt_Some in Hi. rewrite length_app in Hi. cbn in Hi. lia. }
      rewrite lookup_app_l in Hi by done. rewrite list_lookup_insert_ne; [by apply Hent|].
      set (N := Z.of_nat ENTRIES) in *. set (a := repl_ptr t) in *.
      pose proof (Z.mod_pos_bound (a + Z.of_nat (length l)) N).
      pose proof (Z.mod_pos_bound (a + Z.of_nat i) N).
      intros E. apply Z2Nat.inj in E; [|lia..].
      assert ((Z.of_nat (length l) - Z.of_nat i) mod N = 0) as Hz.
      { replace (Z.of_nat (length l) - Z.of_nat i)
          with ((a + Z.of_nat (length l)) - (a + Z.of_nat i)) by lia.
        rewrite Zminus_mod, E, Z.sub_diag. by rewrite Z.mod_0_l by lia. }
      rewrite Z.mod_small in Hz by lia. lia.
Qed.

(** C21: Round-robin replacement.  For a power-of-two number of entries, at least two, as many
    refills as there are entries, from any state, replace every entry, each refill in its own
    slot: the oldest entry is always the one evicted. *)
Theorem tlb_round_robin w l t :
  ENTRIES = Nat.pow 2 w -> (0 < w)%nat -> tlb_ok t ->
  Forall (fun r => refill_accepted r = true) l -> length l = ENTRIES ->
  let t' := tlb_refills l t in
  tlb_ok t' /\ repl_ptr t' = repl_ptr t /\
  forall i r, l !! i = Some r ->
    entries t' !! Z.to_nat ((repl_ptr t + Z.of_nat i) mod Z.of_nat ENTRIES) =
    Some (rf_entry r <| e_valid := true |>).
Proof.
  intros HE Hw Hok Hall Hlen t'.
  destruct (tlb_refills_spec w l t HE Hw Hok Hall ltac:(lia)) as (H1 & H2 & H3).
  split; [done|]. split; [|done]. subst t'. rewrite H2, Hlen. destruct Hok as [_ Hptr].
  rewrite <- (Z.mul_1_l (Z.of_nat ENTRIES)) at 1. rewrite Z.mod_add by lia.
  by apply Z.mod_small.
Qed.
End TlbOps.

(** ** Witnesses *)

(** A user page of 4 KiB, a load in it, and a two-entry TLB that holds the page. *)
Definition demo_page : tlb_entry :=
  {| e_valid := true; e_mode := SATP_MODE_SV48; e_asid := 5; e_vpn := 0x12345; e_ppn := 0xABCDE;
     e_level := 0; e_g := false; e_u := true; e_r := true; e_w := true; e_x := false; e_a := true;
     e_d := true |}.

Definition demo_load : tlb_req :=
  {| req_valid := true; req_vaddr := 0x12345678; req_asid := 5; req_mode := SATP_MODE_SV48;
     req_priv := 0; req_is_fetch := false; req_is_store := false; req_sum := false;
     req_mxr := false |}.

Definition demo_tlb : tlb := {| entries := [entry_reset; demo_page]; repl_ptr := 0 |}.
Definition demo_refill : tlb_refill := {| refill_valid := true; rf_entry := demo_page |}.

Lemma tlb_hit_translates_witness :
  resp_hit (tlb_response demo_tlb demo_load) = true /\
  exists e, e ∈ entries demo_tlb /\
    resp_paddr (tlb_response demo_tlb demo_load) =
      (e_ppn e * 2 ^ 12) / 2 ^ (12 + entry_ignore e) * 2 ^ (12 + entry_ignore e) +
      0x12345678 mod 2 ^ (12 + entry_ignore e).
Proof.
  split; [reflexivity|].
  destruct (tlb_hit_translates demo_tlb demo_load) as (e & H1 & _ & _ & _ & _ & _ & H2);
    [reflexivity|repeat constructor; cbn; lia|split; vm_compute; congruence|reflexivity|].
  exists e. split; [exact H1|exact H2].
Defined.

Lemma tlb_hit_protected_witness :
  resp_page_fault (tlb_response demo_tlb (demo_load <| req_priv := 1 |>)) = true.
Proof.
  destruct (tlb_hit_protected demo_tlb (demo_load <| req_priv := 1 |>)) as (_ & H & _);
    [reflexivity|repeat constructor; cbn; lia|split; vm_compute; congruence|reflexivity|].
  apply (H 1%nat demo_page).
  - split; [reflexivity|]. split; [repeat split; auto|].
    intros [|j] e' Hj Hl; [|lia]. injection Hl as <-. intros (Hv & _). discriminate Hv.
  - intros (_ & _ & Hu & _). destruct Hu; [discriminate|reflexivity|discriminate].
Defined.

Lemma tlb_refill_then_hit_witness :
  resp_need_ptw (tlb_response (tlb_reset 2) demo_load) = true /\
  resp_hit (tlb_response (tlb_next 2 false flush_none demo_refill (tlb_reset 2)) demo_load) = true.
Proof.
  split; [reflexivity|].
  rewrite (tlb_refill_then_hit 2 (tlb_reset 2) demo_load demo_refill);
    [reflexivity|split; [reflexivity|cbn; lia]|reflexivity..].
Defined.

Definition demo_flush : tlb_flush :=
  {| flush_all := false; flush_asid_valid := false; flush_asid := 0; flush_vpn_valid := true;
     flush_vpn := 0x12345; flush_mode := SATP_MODE_SV48 |}.

Lemma tlb_flush_vpn_misses_witness :
  resp_hit (tlb_response demo_tlb demo_load) = true /\
  resp_need_ptw (tlb_response (tlb_next 2 false demo_flush refill_none demo_tlb) demo_load) = true.
Proof. split; [reflexivity|]. apply (tlb_flush_vpn_misses 2); reflexivity. Defined.

(** A flush of another page keeps the entry. *)
Lemma tlb_flush_precise_witness :
  entries (tlb_next 2 false (demo_flush <| flush_vpn := 0x12346 |>) refill_none demo_tlb) !! 1%nat
  = Some demo_page.
Proof.
  destruct (tlb_flush_precise 2 (demo_flush <| flush_vpn := 0x12346 |>) refill_none demo_tlb)
    as (_ & _ & H & _); [reflexivity|repeat constructor; cbn; lia|].
  apply (H 1%nat demo_page); [reflexivity|].
  intros [E|(_ & _ & E)]; [discriminate|]. destruct (E eq_refl) as [_ E']. vm_compute in E'. discriminate.
Defined.

Lemma tlb_round_robin_witness :
  repl_ptr (tlb_refills 2 [demo_refill; demo_refill] demo_tlb) = 0.
Proof.
  destruct (tlb_round_robin 2 1 [demo_refill; demo_refill] demo_tlb) as (_ & H & _);
    [reflexivity|lia|split; [reflexivity|cbn; lia]|repeat constructor|reflexivity|exact H].
Defined.

