(* ===== verification/CoreSim.v ===== *)
(** * The core test bench: [tb/core/tb_core.cc]

    [class CoreSim] attaches the core to a [MemoryModel]; the test cases drive it and count
    assertions.  A test is a computation in a state monad over the simulator and the two global
    counters; what a test prints is not modelled.

    The state Verilator gives the registers at construction is the parameter [power_on]: every
    result below holds for each such state. *)

From Stdlib Require Import String.
From S2P Require Import Prelude Rv64Pkg PipeRegs MemStage TrapCtrl CsrUnit Core Encode Bus SeqMachine.
From S2P Require Import Pipeline ByteBus Memory.
Open Scope Z_scope.

(** ** The simulator *)

Record core_sim := mk_core_sim { top : core; sim_mem : memory_model; sim_irq : irq }.

#[global] Instance settable_core_sim : Settable core_sim :=
  fun s => mk_core_sim (top s) (sim_mem s) (sim_irq s).

(** [CoreSim::tick], with the level of the [rst] pin. *)
Definition sim_tick (rst : bool) (s : core_sim) : core_sim :=
  let c := core_next rst (bus_inputs (sim_irq s) (top s) (sim_mem s)) (top s) in
  let o := core_outputs c in
  {| top := c;
     sim_mem := if out_dmem_write_en o
                then write_data (sim_mem s) (out_dmem_addr o) (out_dmem_wdata o)
                else sim_mem s;
     sim_irq := sim_irq s |}.

Definition sim_run (n : nat) (s : core_sim) : core_sim := Nat.iter n (sim_tick false) s.

Definition set_interrupt_lines (timer software external : bool) (s : core_sim) : core_sim :=
  s <| sim_irq := mk_irq timer software external |>.

Definition clear_interrupts : core_sim -> core_sim := set_interrupt_lines false false false.

(** [CoreSim::reset] *)
Definition sim_reset (cycles : nat) (s : core_sim) : core_sim :=
  Nat.iter cycles (sim_tick true) (clear_interrupts s).

(** The constructor. *)
Definition new_sim (power_on : core) : core_sim := mk_core_sim power_on memory_empty irq_none.

Fixpoint collect_pc_trace (cycles : nat) (s : core_sim) : list Z * core_sim :=
  match cycles with
  | O => ([], s)
  | S n =>
      let s := sim_tick false s in
      let '(l, s') := collect_pc_trace n s in
      (out_imem_addr (core_outputs (top s)) :: l, s')
  end.

(** A tick of the simulator is a tick of the core on its memory. *)
Lemma sim_tick_sys rst s :
  sys_tick rst (sim_irq s) (top s, sim_mem s) =
  Some (top (sim_tick rst s), sim_mem (sim_tick rst s)).
Proof.
  unfold sys_tick, bus_commit, sim_tick. cbn [fst snd top sim_mem].
  by destruct (out_dmem_write_en _).
Qed.

(** ** The simulator refines the sequential machine *)

Lemma sim_tick_irq rst s : sim_irq (sim_tick rst s) = sim_irq s.
Proof. done. Qed.

Lemma sim_run_sys n s :
  sys_run n (fun _ => sim_irq s) (top s, sim_mem s) = Some (top (sim_run n s), sim_mem (sim_run n s)) /\
  sim_irq (sim_run n s) = sim_irq s.
Proof.
  induction n as [|n [IH Hq]]; [done|]. cbn [sys_run]. rewrite IH.
  change (sim_run (S n) s) with (sim_tick false (sim_run n s)). rewrite <- Hq. split; [|done].
  apply sim_tick_sys.
Qed.

Lemma sim_reset_state n s : sim_reset (S n) s = mk_core_sim core_reset (sim_mem s) irq_none.
Proof.
  unfold sim_reset. induction n as [|n IH]; [done|].
  change (Nat.iter (S (S n)) (sim_tick true) (clear_interrupts s))
    with (sim_tick true (Nat.iter (S n) (sim_tick true) (clear_interrupts s))). by rewrite IH.
Qed.

(** Instructions and data are separate maps, so that a program cannot overwrite its code. *)
Lemma imem_constant (s s' : seq_state memory_model) :
  seq_step s = Some s' -> imem (s_mem s') = imem (s_mem s).
Proof.
  intros E. apply seq_step_inv in E as (_ & Hm & _ & _). unfold sq_mem_next in Hm.
  destruct (dmem_write_req _); injection Hm as <-; reflexivity.
Qed.

Lemma model_code_stable n (s : seq_state memory_model) : code_stable n s.
Proof.
  assert (Hi : forall k sk, seq_run k s = Some sk -> imem (s_mem sk) = imem (s_mem s)).
  { induction k as [|k IH]; intros sk E; [by injection E as <-|]. cbn [seq_run] in E.
    destruct (seq_run k s) as [s1|]; [|done]. rewrite <- (IH _ eq_refl). by apply imem_constant. }
  intros i j si sj _ _ Hsi Hsj. cbn [bus_fetch memory_model_bus]. unfold read_instr.
  by rewrite (Hi i si), (Hi j sj).
Qed.

(** C35: The integration bench runs programs.  Reset the simulator for at least one cycle, from any
    state of its registers, with any program and data in its memory, and let it tick [n] times.
    If the sequential machine runs [n] instructions of that program without a trap, the core
    holds the registers of that run after some [k >= (n - 8) / 3] instructions and the simulator
    the memory after [k], [k + 1] or [k + 2].  If the machine comes to a jump to itself after [K]
    instructions, [3 K + 8] ticks end in exactly its final registers and memory. *)
Theorem sim_refines_seq r n (s : core_sim) :
  let t := sim_run n (sim_reset (S r) s) in
  (forall s', seq_run n (seq_init (sim_mem s)) = Some s' ->
   exists k j sk sj, (k <= j <= k + 2)%nat /\ (j <= n)%nat /\ (n <= 3 * k + 8)%nat /\
     seq_run k (seq_init (sim_mem s)) = Some sk /\ seq_run j (seq_init (sim_mem s)) = Some sj /\
     c_regs (top t) = s_regs sk /\ sim_mem t = s_mem sj) /\
  (forall K sK, seq_run K (seq_init (sim_mem s)) = Some sK -> seq_step sK = Some sK ->
   (3 * K + 8 <= n)%nat -> c_regs (top t) = s_regs sK /\ sim_mem t = s_mem sK).
Proof.
  intros t. destruct (sim_run_sys n (sim_reset (S r) s)) as [Hrun _]. fold t in Hrun.
  rewrite sim_reset_state in Hrun. cbn [top sim_mem sim_irq] in Hrun. split.
  - intros s' Hs.
    destruct (pipe_refines (sim_mem s) n (fun _ => irq_none) s' Hs (model_code_stable _ _))
      as (c & m' & k & j & sk & sj & Hr & Hkj & Hj & Hn & Hk & Hsj & Hc & Hm).
    rewrite Hrun in Hr. injection Hr as <- <-. by exists k, j, sk, sj.
  - intros K sK HK Hfix Hn.
    destruct (pipe_halts (sim_mem s) K n (fun _ => irq_none) sK HK Hfix (model_code_stable _ _) Hn)
      as (c & Hr & Hc). rewrite Hrun in Hr. by injection Hr as -> ->.
Qed.

(** The sum 3 + 4, stored and looped on. *)
Definition demo_sim (power_on : core) : core_sim :=
  mk_core_sim power_on
    (load_program RESET_PC [ADDI 1 0 3; ADDI 1 1 4; SD 1 0 64; JAL 0 0] memory_empty) irq_none.

Lemma sim_refines_seq_witness :
  read_data (sim_mem (sim_run 20 (sim_reset 5 (demo_sim core_reset)))) 64 = 7.
Proof.
  destruct (sim_refines_seq 4 20 (demo_sim core_reset)) as [_ H].
  destruct (H 3%nat (default (seq_init memory_empty) (seq_run 3 (seq_init (sim_mem (demo_sim core_reset))))))
    as [_ Hm]; [vm_compute; reflexivity|vm_compute; reflexivity|lia|].
  rewrite Hm. vm_compute. reflexivity.
Defined.

(** ** The trap handlers and their log *)

Definition LOG_ENTRY_STRIDE : Z := 24.
Definition MACHINE_TRAP_VECTOR : Z := 0x00000000.
Definition SUPERVISOR_TRAP_VECTOR : Z := 0x00000100.
Definition MACHINE_LOG_PTR_ADDR : Z := 0xFFF0.
Definition SUPERVISOR_LOG_PTR_ADDR : Z := 0xFFE0.

Definition make_machine_trap_handler_program : list Z :=
  let REG_PTR := 5 in
  let REG_MCAUSE := 6 in
  let REG_MEPC := 7 in
  let REG_MTVAL := 28 in
  let REG_TMP := 29 in
  let REG_SLOT_ADDR := 30 in
  emit_load_imm64 REG_SLOT_ADDR MACHINE_LOG_PTR_ADDR ++
  [LD REG_PTR REG_SLOT_ADDR 0] ++
  emit_nops 12 ++
  [CSRRS REG_MCAUSE CSR_MCAUSE 0] ++
  emit_nops 4 ++
  [SD REG_MCAUSE REG_PTR 0; CSRRS REG_MEPC CSR_MEPC 0] ++
  emit_nops 4 ++
  [SD REG_MEPC REG_PTR 8; CSRRS REG_MTVAL CSR_MTVAL 0] ++
  emit_nops 4 ++
  [SD REG_MTVAL REG_PTR 16; ADDI REG_PTR REG_PTR LOG_ENTRY_STRIDE; SD REG_PTR REG_SLOT_ADDR 0;
   CSRRS REG_TMP CSR_MEPC 0; ADDI REG_TMP REG_TMP 4] ++
  emit_nops 12 ++
  [CSRRW 0 CSR_MEPC REG_TMP; MRET; NOP; NOP].

Definition make_supervisor_trap_handler_program : list Z :=
  let REG_PTR := 5 in
  let REG_SCAUSE := 6 in
  let REG_SEPC := 7 in
  let REG_STVAL := 28 in
  let REG_TMP := 29 in
  let REG_SLOT_ADDR := 30 in
  emit_load_imm64 REG_SLOT_ADDR SUPERVISOR_LOG_PTR_ADDR ++
  [LD REG_PTR REG_SLOT_ADDR 0] ++
  emit_nops 12 ++
  [CSRRS REG_SCAUSE CSR_SCAUSE 0] ++
  emit_nops 4 ++
  [SD REG_SCAUSE REG_PTR 0; CSRRS REG_SEPC CSR_SEPC 0] ++
  emit_nops 4 ++
  [SD REG_SEPC REG_PTR 8; CSRRS REG_STVAL CSR_STVAL 0] ++
  emit_nops 4 ++
  [SD REG_STVAL REG_PTR 16; ADDI REG_PTR REG_PTR LOG_ENTRY_STRIDE; SD REG_PTR REG_SLOT_ADDR 0;
   CSRRS REG_TMP CSR_SEPC 0; ADDI REG_TMP REG_TMP 4] ++
  emit_nops 12 ++
  [CSRRW 0 CSR_SEPC REG_TMP; SRET; NOP; NOP].

Definition install_trap_handlers (m : memory_model) : memory_model :=
  load_program SUPERVISOR_TRAP_VECTOR make_supervisor_trap_handler_program
    (load_program MACHINE_TRAP_VECTOR make_machine_trap_handler_program m).

Record trap_record := mk_trap_record { tr_mcause : Z; tr_mepc : Z; tr_mtval : Z }.

Definition fetch_trap_record (m : memory_model) (base index : Z) : trap_record :=
  let addr := add64 base (index * LOG_ENTRY_STRIDE) in
  {| tr_mcause := read_data m (add64 addr 0);
     tr_mepc := read_data m (add64 addr 8);
     tr_mtval := read_data m (add64 addr 16) |}.

(** ** Bench computations *)

Record bench_st := mk_bench_st { g_test_count : Z; g_pass_count : Z; the_sim : core_sim }.

Definition bench (A : Type) : Type := bench_st -> A * bench_st.

#[global] Instance bench_ret : MRet bench := fun A x b => (x, b).
#[global] Instance bench_bind : MBind bench := fun A B k m b => let '(x, b) := m b in k x b.

(** [ASSERT_EQ] *)
Definition assert_eq (actual expected : Z) : bench unit :=
  fun b => (tt, mk_bench_st (g_test_count b + 1)
                  (if actual =? expected then g_pass_count b + 1 else g_pass_count b) (the_sim b)).

(** Apply a method of the simulator, or read from it. *)
Definition do_sim (f : core_sim -> core_sim) : bench unit :=
  fun b => (tt, mk_bench_st (g_test_count b) (g_pass_count b) (f (the_sim b))).
Definition get_sim {A} (f : core_sim -> A) : bench A := fun b => (f (the_sim b), b).

(** [g_test_count++; g_pass_count++] *)
Definition count_pass : bench unit := assert_eq 0 0.

Definition on_mem (f : memory_model -> memory_model) : bench unit :=
  do_sim (fun s => s <| sim_mem := f (sim_mem s) |>).
Definition read_mem (addr : Z) : bench Z := get_sim (fun s => read_data (sim_mem s) addr).
Definition imem_addr : bench Z := get_sim (fun s => out_imem_addr (core_outputs (top s))).
Definition dmem_read_en : bench Z :=
  get_sim (fun s => Z.b2z (out_dmem_read_en (core_outputs (top s)))).
Definition dmem_write_en : bench Z :=
  get_sim (fun s => Z.b2z (out_dmem_write_en (core_outputs (top s)))).
Definition tick : bench unit := do_sim (sim_tick false).
Definition run (n : nat) : bench unit := do_sim (sim_run n).
Definition reset (n : nat) : bench unit := do_sim (sim_reset n).

(** [ASSERT_EQ] on a value read from the simulator. *)
Definition expect (m : bench Z) (expected : Z) : bench unit :=
  v ← m; assert_eq v expected.
