(* ===== verification/CoreTests.v ===== *)
(** * The test cases of [tb/core/tb_core.cc] *)

From Stdlib Require Import String.
From S2P Require Import Prelude Rv64Pkg TrapCtrl CsrUnit Core Encode Bus ByteBus Memory CoreSim.
Open Scope Z_scope.

Definition boot_pc : Z := 0x80000000.

(** [sim.mem.load_program(0x80000000ULL, program)] *)
Definition load_at_boot (program : list Z) : bench unit := on_mem (load_program boot_pc program).

Definition test_reset : bench unit :=
  reset 3;;
  tick;;
  expect imem_addr 0x0000000080000004;;
  expect dmem_read_en 0;;
  expect dmem_write_en 0.

Definition test_nop_flow : bench unit :=
  load_at_boot [NOP; NOP; NOP; NOP; NOP; NOP; NOP; NOP];;
  reset 3;;
  tick;; expect imem_addr 0x80000004;;
  tick;; expect imem_addr 0x80000008;;
  tick;; expect imem_addr 0x8000000C;;
  tick;; expect imem_addr 0x80000010;;
  expect dmem_read_en 0;;
  expect dmem_write_en 0.

Definition test_addi : bench unit :=
  load_at_boot [ADDI 1 0 42; NOP; NOP; NOP; NOP; NOP];;
  reset 3;;
  run 7;;
  expect dmem_read_en 0;;
  expect dmem_write_en 0;;
  expect imem_addr 0x8000001C.

Definition test_forwarding_wb : bench unit :=
  load_at_boot [ADDI 1 0 10; NOP; NOP; ADDI 2 1 20; NOP; NOP; NOP; NOP; NOP];;
  reset 3;;
  run 10;;
  expect dmem_read_en 0;;
  expect dmem_write_en 0.

Definition test_forwarding_mem : bench unit :=
  load_at_boot [ADDI 1 0 10; NOP; ADDI 2 1 5; NOP; NOP; NOP; NOP; NOP];;
  reset 3;;
  run 10;;
  expect dmem_read_en 0;;
  expect dmem_write_en 0.

Definition test_load_use_stall : bench unit :=
  on_mem (fun m => write_data m 0x100 0xDEADBEEFCAFEBABE);;
  load_at_boot [ADDI 1 0 0x100; NOP; NOP; LD 2 1 0; ADD 3 2 0; NOP; NOP; NOP; NOP; NOP];;
  reset 3;;
  run 12;;
  count_pass.

Definition test_store : bench unit :=
  load_at_boot [ADDI 1 0 0x200; ADDI 2 0 0x55; NOP; NOP; NOP; SD 2 1 0;
                NOP; NOP; NOP; NOP; NOP];;
  reset 3;;
  run 14;;
  expect (read_mem 0x200) 0x55.

Definition test_branch_taken : bench unit :=
  load_at_boot [ADDI 1 0 5; ADDI 2 0 5; NOP; NOP; BEQ 1 2 8; ADDI 3 0 99; ADDI 4 0 77;
                NOP; NOP; NOP; NOP; NOP];;
  reset 3;;
  run 12;;
  count_pass.

Definition test_branch_not_taken : bench unit :=
  load_at_boot [ADDI 1 0 5; ADDI 2 0 10; NOP; NOP; BEQ 1 2 8; ADDI 3 0 99; ADDI 4 0 77;
                NOP; NOP; NOP; NOP; NOP];;
  reset 3;;
  run 15;;
  count_pass.

Definition stress_program : list Z :=
  [ADDI 1 0 100; ADDI 2 0 200; ADDI 3 0 0x300; NOP; ADD 4 1 2; SUB 5 2 1; NOP; LD 6 3 0; NOP;
   ADD 7 6 1; SD 4 3 8; NOP; BNE 1 2 8; ADDI 8 0 0xFF; ADDI 9 0 0x42; NOP; NOP; NOP; NOP; NOP].

Definition test_pipeline_stress : bench unit :=
  on_mem (fun m => write_data m 0x300 0x1234567890ABCDEF);;
  load_at_boot stress_program;;
  reset 3;;
  run 25;;
  count_pass.

Definition test_branch_flush_timing : bench unit :=
  load_at_boot [ADDI 1 0 0; NOP; NOP; NOP; BEQ 1 0 12; ADDI 10 0 1; ADDI 11 0 2; ADDI 12 0 3;
                NOP; NOP; NOP; NOP];;
  reset 3;;
  run 15;;
  expect dmem_read_en 0;;
  expect dmem_write_en 0.

Definition test_reset_mid_execution : bench unit :=
  load_at_boot [ADDI 1 0 42; ADDI 2 0 100; ADD 3 1 2; NOP; NOP; NOP; NOP; NOP];;
  reset 3;;
  run 3;;
  reset 3;;
  tick;;
  expect imem_addr 0x80000004;;
  expect dmem_read_en 0;;
  expect dmem_write_en 0.

Definition fibonacci_program : list Z :=
  [ADDI 5 0 10; LUI 6 0x10000; ADDI 7 0 0; ADDI 8 0 1; BEQ 5 0 32; SD 7 6 0; ADD 9 7 8;
   ADDI 7 8 0; ADDI 8 9 0; ADDI 6 6 8; ADDI 5 5 (-1); JAL 0 (-28); JAL 0 0].

Definition expected_fib : list Z := [0; 1; 1; 2; 3; 5; 8; 13; 21; 34].

(** The loop over [expected_fib] from index [i]. *)
Fixpoint check_fib (i : Z) (l : list Z) : bench unit :=
  match l with
  | [] => mret tt
  | v :: l => expect (read_mem (0x10000000 + i * 8)) v;; check_fib (i + 1) l
  end.

Definition test_fibonacci : bench unit :=
  load_at_boot fibonacci_program;;
  reset 3;;
  run 200;;
  check_fib 0 expected_fib.

(** ** Trap and interrupt scenarios *)

(** [CoreSim sim;] *)
Definition fresh (power_on : core) : bench unit := do_sim (fun _ => new_sim power_on).

Definition read_trap (base index : Z) : bench trap_record :=
  get_sim (fun s => fetch_trap_record (sim_mem s) base index).

Definition run_mem_fault_pipeline_case (power_on : core) : bench unit :=
  fresh power_on;;
  on_mem install_trap_handlers;;
  let load_addr := 0x0000000000001003 in
  let store_addr := 0x0000000000002005 in
  let log_base := 0x0000000000009000 in
  on_mem (fun m => write_data m MACHINE_LOG_PTR_ADDR log_base);;
  expect (read_mem MACHINE_LOG_PTR_ADDR) log_base;;
  let program :=
    emit_nops 8 ++ emit_csrrw_imm64 1 CSR_MTVEC MACHINE_TRAP_VECTOR ++ emit_nops 8 ++
    emit_load_imm64 3 load_addr ++ [LD 5 3 0; JAL 0 (-4)] in
  load_at_boot program;;
  reset 3;;
  run 80;;
  expect (read_mem MACHINE_LOG_PTR_ADDR) (log_base + LOG_ENTRY_STRIDE);;
  load_trap ← read_trap log_base 0;
  assert_eq (tr_mcause load_trap) EXC_LOAD_FAULT;;
  assert_eq (tr_mtval load_trap) load_addr;;
  expect (read_mem (dword_base store_addr)) 0.

Definition run_double_exception_flush_case (power_on : core) : bench unit :=
  fresh power_on;;
  on_mem install_trap_handlers;;
  let log_base := 0x0000000000009100 in
  on_mem (fun m => write_data m MACHINE_LOG_PTR_ADDR log_base);;
  let program :=
    emit_nops 8 ++ emit_csrrw_imm64 1 CSR_MTVEC MACHINE_TRAP_VECTOR ++ emit_nops 8 ++
    [ILLEGAL; NOP; JAL 0 (-4)] in
  load_at_boot program;;
  reset 3;;
  run 80;;
  illegal_trap ← read_trap log_base 0;
  assert_eq (tr_mcause illegal_trap) EXC_INST_ILLEGAL;;
  expect (read_mem MACHINE_LOG_PTR_ADDR) (log_base + LOG_ENTRY_STRIDE).

Definition mret_sret_program : list Z :=
  let post_store_addr := 0x0000000000009400 in
  let post_trap_addr := 0x0000000000009408 in
  emit_nops 8 ++ emit_csrrw_imm64 1 CSR_MTVEC MACHINE_TRAP_VECTOR ++ emit_nops 8 ++
  emit_load_imm64 11 post_store_addr ++ emit_load_imm64 12 0xCAFECAFE ++
  [SD 12 11 0; ECALL] ++
  emit_load_imm64 13 post_trap_addr ++ emit_load_imm64 14 0xBEEFBEEF ++
  [SD 14 13 0; JAL 0 0].

Definition run_mret_sret_redirect_case (power_on : core) : bench unit :=
  fresh power_on;;
  on_mem install_trap_handlers;;
  let m_log_base := 0x0000000000009200 in
  let post_store_addr := 0x0000000000009400 in
  on_mem (fun m => write_data m MACHINE_LOG_PTR_ADDR m_log_base);;
  load_at_boot mret_sret_program;;
  reset 3;;
  run 300;;
  m_trap ← read_trap m_log_base 0;
  assert_eq (tr_mcause m_trap) EXC_ECALL_FROM_M;;
  expect (read_mem post_store_addr) 0xFFFFFFFFCAFECAFE.

Definition run_branch_interrupt_priority_case (power_on : core) : bench unit :=
  fresh power_on;;
  on_mem install_trap_handlers;;
  let log_base := 0x0000000000009600 in
  on_mem (fun m => write_data m MACHINE_LOG_PTR_ADDR log_base);;
  let boot :=
    emit_nops 8 ++ emit_csrrw_imm64 1 CSR_MTVEC MACHINE_TRAP_VECTOR ++
    emit_csrrw_imm64 2 CSR_MSTATUS (Z.shiftl 1 MSTATUS_MIE_BIT) ++
    emit_csrrw_imm64 3 CSR_MIE (Z.shiftl 1 INTERRUPT_M_EXTERNAL) ++ [JAL 0 0] in
  load_at_boot boot;;
  reset 3;;
  run 10;;
  do_sim (set_interrupt_lines false false true);;
  run 40;;
  do_sim clear_interrupts;;
  run 20;;
  interrupt_trap ← read_trap log_base 0;
  assert_eq (tr_mcause interrupt_trap) (Z.lor INTERRUPT_BIT INTERRUPT_M_EXTERNAL);;
  assert_eq (tr_mtval interrupt_trap) 0.

Definition run_mie_masking_case (power_on : core) : bench unit :=
  fresh power_on;;
  on_mem install_trap_handlers;;
  let log_base := 0x0000000000009700 in
  on_mem (fun m => write_data m MACHINE_LOG_PTR_ADDR log_base);;
  on_mem (fun m => fold_left (fun m i => write_data m (log_base + i * 8) 0) [0; 1; 2] m);;
  let program :=
    emit_nops 8 ++ emit_csrrw_imm64 1 CSR_MTVEC MACHINE_TRAP_VECTOR ++
    emit_csrrw_imm64 2 CSR_MIE (Z.shiftl 1 INTERRUPT_M_EXTERNAL) ++
    [CSRRW 0 CSR_MSTATUS 0] ++ emit_nops 8 ++ emit_nops 48 ++
    emit_csrrw_imm64 4 CSR_MSTATUS (Z.shiftl 1 MSTATUS_MIE_BIT) ++ [JAL 0 0] in
  load_at_boot program;;
  reset 3;;
  do_sim (set_interrupt_lines false false true);;
  run 20;;
  expect (read_mem log_base) 0;;
  run 100;;
  interrupt_trap ← read_trap log_base 0;
  assert_eq (tr_mcause interrupt_trap) (Z.lor INTERRUPT_BIT INTERRUPT_M_EXTERNAL).

(** ** [main] *)

Definition kCaseDispatchTable : list (string * (core -> bench unit)) :=
  [("mem_fault_pipeline"%string, run_mem_fault_pipeline_case);
   ("double_exception_flush"%string, run_double_exception_flush_case);
   ("mret_sret_redirect"%string, run_mret_sret_redirect_case);
   ("branch_interrupt_priority"%string, run_branch_interrupt_priority_case);
   ("mie_masking_response"%string, run_mie_masking_case)].

(** The scan of [argv[1..]] for [--case NAME]; the last one wins. *)
Fixpoint parse_case (args : list string) (requested : string) : string :=
  match args with
  | [] => requested
  | a :: args =>
      if (a =? "--case")%string then
        match args with
        | name :: args => parse_case args name
        | [] => requested
        end
      else parse_case args requested
  end.

Definition find_case (name : string) : option (core -> bench unit) :=
  match find (fun e => (e.1 =? name)%string) kCaseDispatchTable with
  | Some e => Some e.2
  | None => None
  end.

(** The integration tests, each on a simulator of its own. *)
Definition all_tests : list (bench unit) :=
  [test_reset; test_nop_flow; test_addi; test_forwarding_wb; test_forwarding_mem;
   test_load_use_stall; test_store; test_branch_taken; test_branch_not_taken;
   test_pipeline_stress; test_branch_flush_timing; test_reset_mid_execution; test_fibonacci].

Fixpoint run_all (power_on : core) (l : list (bench unit)) : bench unit :=
  match l with
  | [] => mret tt
  | t :: l => fresh power_on;; t;; run_all power_on l
  end.

Definition run_cases (power_on : core) : bench unit :=
  run_mem_fault_pipeline_case power_on;;
  run_double_exception_flush_case power_on;;
  run_mret_sret_redirect_case power_on;;
  run_branch_interrupt_priority_case power_on;;
  run_mie_masking_case power_on.

Definition bench_init (power_on : core) : bench_st :=
  {| g_test_count := 0; g_pass_count := 0; the_sim := new_sim power_on |}.

(** The exit status, and the counters of the summary line. *)
Definition main (power_on : core) (args : list string) : Z * bench_st :=
  let requested_case := parse_case args EmptyString in
  let b := bench_init power_on in
  if negb (requested_case =? EmptyString)%string then
    match find_case requested_case with
    | None => (2, b)
    | Some fn =>
        let '(_, b) := fn power_on b in
        (if g_pass_count b =? g_test_count b then 0 else 1, b)
    end
  else
    let '(_, b) := (run_all power_on all_tests;; run_cases power_on) b in
    (if g_pass_count b =? g_test_count b then 0 else 1, b).

(** ** What the bench reports *)

(** Run without arguments, the bench executes 49 assertions, every one holds, and it exits
    with status 0, whatever values the registers hold at power-on. *)
Example core_bench_passes power_on :
  exists b, main power_on [] = (0, b) /\ g_test_count b = 49 /\ g_pass_count b = 49.
Proof. eexists. split; [vm_compute; reflexivity | split; reflexivity]. Qed.

(** A [--case] argument that names no case ends the bench with status 2 before any cycle is
    simulated; a case of the table runs alone, on a simulator of its own. *)
Theorem bench_case_dispatch power_on name :
  main power_on ["--case"%string; name] =
    if (name =? EmptyString)%string then main power_on []
    else match find_case name with
         | None => (2, bench_init power_on)
         | Some fn =>
             let b := (fn power_on (bench_init power_on)).2 in
             (if g_pass_count b =? g_test_count b then 0 else 1, b)
         end.
Proof.
  unfold main, parse_case. cbn -[find_case run_all run_cases].
  destruct (name =? EmptyString)%string; cbn -[find_case run_all run_cases]; [done|].
  destruct (find_case name) as [fn|]; [|done]. by destruct (fn _ _).
Qed.
