(* ===== verification/TlbBench.v ===== *)
(** * The TLB test bench: [tb/unit/tb_tlb.cc]

    The device under test is the TLB with 32 entries and the levels of its input pins; a bench
    step is a computation that stops ([None]) where [check] calls [assert(false)]. *)

From S2P Require Import Prelude Tlb.

Definition MODE_BARE : Z := 0.
Definition MODE_SV32 : Z := 1.
Definition MODE_SV48 : Z := 9.
Definition MODE_SV57 : Z := 10.

(** [Vtlb] and the counter [g_pass_count]. *)
Record vtlb := mk_vtlb {
  dut_tlb : tlb;
  dut_rst : bool;
  dut_req : tlb_req;
  dut_refill : tlb_refill;
  dut_flush : tlb_flush;
  tlb_pass_count : Z
}.

#[global] Instance settable_vtlb : Settable vtlb :=
  fun d => mk_vtlb (dut_tlb d) (dut_rst d) (dut_req d) (dut_refill d) (dut_flush d)
             (tlb_pass_count d).

Definition tlb_bench (A : Type) : Type := vtlb -> option (A * vtlb).
#[global] Instance tlb_bench_ret : MRet tlb_bench := fun A x d => Some (x, d).
#[global] Instance tlb_bench_bind : MBind tlb_bench :=
  fun A B k m d => match m d with Some (x, d) => k x d | None => None end.

Definition do_dut (f : vtlb -> vtlb) : tlb_bench unit := fun d => Some (tt, f d).

(** The outputs for the present inputs. *)
Definition dut_resp (d : vtlb) : tlb_resp := tlb_response (dut_tlb d) (dut_req d).

Definition check (cond : vtlb -> bool) : tlb_bench unit :=
  fun d => if cond d then Some (tt, d <| tlb_pass_count := tlb_pass_count d + 1 |>) else None.

Definition tick_dut (d : vtlb) : vtlb :=
  d <| dut_tlb := tlb_next 32 (dut_rst d) (dut_flush d) (dut_refill d) (dut_tlb d) |>.

Definition make_paddr (ppn vaddr : Z) : Z := Z.lor (wrap 64 (Z.shiftl ppn 12)) (Z.land vaddr 0xFFF).
Definition sv48_vpn (vaddr : Z) : Z := Z.land (Z.shiftr vaddr 12) (Z.shiftl 1 36 - 1).
Definition sv32_vpn (vaddr : Z) : Z := Z.land (Z.shiftr vaddr 12) (Z.shiftl 1 20 - 1).
Definition sv57_vpn (vaddr : Z) : Z := Z.land (Z.shiftr vaddr 12) (Z.shiftl 1 45 - 1).

Definition cleared_req : tlb_req :=
  {| req_valid := false; req_vaddr := 0; req_asid := 0; req_mode := MODE_SV48; req_priv := 1;
     req_is_fetch := false; req_is_store := false; req_sum := false; req_mxr := false |}.
Definition clear_req (d : vtlb) : vtlb := d <| dut_req := cleared_req |>.

Definition cleared_refill : tlb_refill :=
  {| refill_valid := false; rf_entry := entry_reset <| e_mode := MODE_SV48 |> |}.
Definition clear_refill (d : vtlb) : vtlb := d <| dut_refill := cleared_refill |>.

Definition cleared_flush : tlb_flush :=
  {| flush_all := false; flush_asid_valid := false; flush_asid := 0; flush_vpn_valid := false;
     flush_vpn := 0; flush_mode := MODE_SV48 |}.
Definition clear_flush (d : vtlb) : vtlb := d <| dut_flush := cleared_flush |>.

Definition apply_flush_all (d : vtlb) : vtlb :=
  let d := clear_flush d in
  let d := tick_dut (d <| dut_flush := dut_flush d <| flush_all := true |> |>) in
  d <| dut_flush := dut_flush d <| flush_all := false |> |>.

Definition apply_flush_asid (asid : Z) (d : vtlb) : vtlb :=
  let d := clear_flush d in
  clear_flush (tick_dut
    (d <| dut_flush := dut_flush d <| flush_asid_valid := true |> <| flush_asid := asid |> |>)).

Definition apply_flush_vpn (vpn mode : Z) (d : vtlb) : vtlb :=
  let d := clear_flush d in
  clear_flush (tick_dut
    (d <| dut_flush := dut_flush d <| flush_vpn_valid := true |> <| flush_vpn := vpn |>
                         <| flush_mode := mode |> |>)).

Definition reset_dut (d : vtlb) : vtlb :=
  let d := clear_flush (clear_refill (clear_req (d <| dut_rst := true |>))) in
  tick_dut (tick_dut d) <| dut_rst := false |>.

Definition do_refill (vpn ppn level mode asid : Z) (g u r w x a dirty : bool) (d : vtlb) : vtlb :=
  let d := clear_refill d in
  let d := d <| dut_refill :=
    {| refill_valid := true;
       rf_entry := mk_tlb_entry false mode asid vpn ppn level g u r w x a dirty |} |> in
  let d := tick_dut d in
  d <| dut_refill := dut_refill d <| refill_valid := false |> |>.

Definition issue_load (vaddr asid mode : Z) (d : vtlb) : vtlb :=
  d <| dut_req := cleared_req <| req_valid := true |> <| req_vaddr := vaddr |>
                    <| req_asid := asid |> <| req_mode := mode |> <| req_priv := 1 |>
                    <| req_is_fetch := false |> <| req_is_store := false |> |>.

Definition issue_req (vaddr asid mode priv : Z) (is_fetch is_store sum mxr : bool) (d : vtlb)
  : vtlb :=
  d <| dut_req := cleared_req <| req_valid := true |> <| req_vaddr := vaddr |>
                    <| req_asid := asid |> <| req_mode := mode |> <| req_priv := priv |>
                    <| req_is_fetch := is_fetch |> <| req_is_store := is_store |>
                    <| req_sum := sum |> <| req_mxr := mxr |> |>.

(** The checks the bench makes on the outputs. *)
Definition hit (v : bool) : tlb_bench unit := check (fun d => Bool.eqb (resp_hit (dut_resp d)) v).
Definition page_fault (v : bool) : tlb_bench unit :=
  check (fun d => Bool.eqb (resp_page_fault (dut_resp d)) v).
Definition need_ptw (v : bool) : tlb_bench unit :=
  check (fun d => Bool.eqb (resp_need_ptw (dut_resp d)) v).
Definition paddr (v : Z) : tlb_bench unit := check (fun d => resp_paddr (dut_resp d) =? v).

(** Set request fields and refill with the usual arguments. *)
Definition req (f : tlb_req -> tlb_req) : tlb_bench unit :=
  do_dut (fun d => d <| dut_req := f cleared_req |>).
Definition load (vaddr asid mode : Z) : tlb_bench unit := do_dut (issue_load vaddr asid mode).

(** ** [main], in four parts *)

Definition va1 : Z := 0x80401234.

(** 1-5: bypass, unsupported mode, miss, refill, address spaces. *)
Definition tlb_main_lookup : tlb_bench unit :=
  do_dut reset_dut;;
  req (fun q => q <| req_valid := true |> <| req_mode := MODE_BARE |>
                  <| req_vaddr := 0x123456789ABCDEF0 |> <| req_priv := 1 |>);;
  hit true;; page_fault false;; need_ptw false;; paddr 0x123456789ABCDEF0;;
  req (fun q => q <| req_valid := true |> <| req_mode := 4 |> <| req_vaddr := 0x80000000 |>);;
  page_fault true;;
  load 0x80401000 1 MODE_SV48;;
  hit false;; need_ptw true;; page_fault false;;
  do_dut (do_refill (sv48_vpn va1) 0x12345 0 MODE_SV48 1 false false true true false true true);;
  load va1 1 MODE_SV48;;
  hit true;; page_fault false;; paddr (make_paddr 0x12345 va1);;
  load va1 2 MODE_SV48;;
  hit false;; need_ptw true.

(** 6-12: global entries, permissions, superpages, flushes. *)
Definition tlb_main_flush : tlb_bench unit :=
  do_dut (do_refill (sv48_vpn 0x90003456) 0x23456 0 MODE_SV48 9 true false true false true true true);;
  load 0x90003456 99 MODE_SV48;; hit true;;
  do_dut (do_refill (sv48_vpn 0xA0002222) 0x34567 0 MODE_SV48 3 false false true true false true false);;
  req (fun q => q <| req_valid := true |> <| req_vaddr := 0xA0002222 |> <| req_asid := 3 |>
                  <| req_mode := MODE_SV48 |> <| req_priv := 1 |> <| req_is_store := true |>);;
  page_fault true;;
  do_dut (do_refill (sv48_vpn 0xB0000100) 0x45678 0 MODE_SV48 4 false false false false true true true);;
  req (fun q => q <| req_valid := true |> <| req_vaddr := 0xB0000100 |> <| req_asid := 4 |>
                  <| req_mode := MODE_SV48 |> <| req_priv := 1 |> <| req_mxr := true |>);;
  hit true;; page_fault false;;
  do_dut (do_refill (sv48_vpn 0xC1234000) 0x56780 1 MODE_SV48 5 false false true true true true true);;
  load 0xC1238ABC 5 MODE_SV48;; hit true;;
  do_dut apply_flush_all;;
  load va1 1 MODE_SV48;; hit false;;
  do_dut (do_refill (sv48_vpn 0xD0001111) 0x60100 0 MODE_SV48 7 false false true true false true true);;
  do_dut (do_refill (sv48_vpn 0xD0002222) 0x60200 0 MODE_SV48 8 false false true true false true true);;
  do_dut (apply_flush_asid 7);;
  load 0xD0001111 7 MODE_SV48;; hit false;;
  load 0xD0002222 8 MODE_SV48;; hit true;;
  do_dut (do_refill (sv48_vpn 0xE1000123) 0x70100 0 MODE_SV48 9 false false true true false true true);;
  do_dut (do_refill (sv48_vpn 0xE2000456) 0x70200 0 MODE_SV48 9 false false true true false true true);;
  do_dut (apply_flush_vpn (sv48_vpn 0xE1000123) MODE_SV48);;
  load 0xE1000123 9 MODE_SV48;; hit false;;
  load 0xE2000456 9 MODE_SV48;; hit true.

(** 13-21: superpages of the other modes, mode filter, SUM, privileges, MXR, the A bit. *)
Definition tlb_main_protect : tlb_bench unit :=
  do_dut (do_refill (sv32_vpn 0x81234000) 0x31000 1 MODE_SV32 11 false false true true false true true);;
  load 0x813FFABC 11 MODE_SV32;; hit true;; page_fault false;;
  do_dut (do_refill (sv57_vpn 0x12345678004000) 0x4A1234 2 MODE_SV57 12 false false true true false true true);;
  load 0x1234567BFF8ABC 12 MODE_SV57;; hit true;; page_fault false;;
  do_dut (do_refill (sv32_vpn 0x81234567) 0x81000 0 MODE_SV32 13 false false true true false true true);;
  do_dut (do_refill (sv32_vpn 0x81234567) 0x82000 0 MODE_SV48 13 false false true true false true true);;
  do_dut (apply_flush_vpn (sv32_vpn 0x81234567) MODE_SV32);;
  load 0x81234567 13 MODE_SV32;; hit false;;
  load 0x81234567 13 MODE_SV48;; hit true;;
  do_dut (do_refill (sv48_vpn 0x83330100) 0x83000 0 MODE_SV48 14 false true true true false true true);;
  do_dut (issue_req 0x83330100 14 MODE_SV48 1 false false false false);; page_fault true;;
  do_dut (issue_req 0x83330100 14 MODE_SV48 1 false false true false);; hit true;; page_fault false;;
  do_dut (issue_req 0x83330100 14 MODE_SV48 1 true false true false);; page_fault true;;
  do_dut (do_refill (sv48_vpn 0x84440200) 0x84000 0 MODE_SV48 15 false false true true true true true);;
  do_dut (issue_req 0x84440200 15 MODE_SV48 0 false false false false);; page_fault true;;
  do_dut (do_refill (sv48_vpn 0x85550300) 0x85000 0 MODE_SV48 16 false true true false false true true);;
  do_dut (issue_req 0x85550300 16 MODE_SV48 0 false false false false);; hit true;; page_fault false;;
  do_dut (do_refill (sv48_vpn 0x86660400) 0x86000 0 MODE_SV48 17 false false false false true true true);;
  do_dut (issue_req 0x86660400 17 MODE_SV48 1 false false false false);; page_fault true;;
  do_dut (issue_req 0x86660400 17 MODE_SV48 1 false false false true);; hit true;; page_fault false;;
  do_dut (do_refill (sv48_vpn 0x87770500) 0x87000 0 MODE_SV48 18 false false true true true false true);;
  do_dut (issue_req 0x87770500 18 MODE_SV48 1 false false false false);; page_fault true;;
  do_dut (issue_req 0x87770500 18 MODE_SV48 1 true false false false);; page_fault true.

(** The fill loop of part 23. *)
Fixpoint fill (k : nat) (n : Z) : tlb_bench unit :=
  match k with
  | O => mret tt
  | S k =>
      do_dut (do_refill (sv48_vpn (0x100000000 + Z.shiftl n 12)) (0x91000 + n) 0 MODE_SV48
                (wrap 16 (50 + n)) false false true true false true true);;
      fill k (n + 1)
  end.

(** 22-27: global entries survive, replacement, superpage flushes. *)
Definition tlb_main_replace : tlb_bench unit :=
  do_dut (do_refill (sv48_vpn 0x88880600) 0x88000 0 MODE_SV48 33 true false true true false true true);;
  do_dut (apply_flush_asid 33);;
  load 0x88880600 99 MODE_SV48;; hit true;;
  do_dut apply_flush_all;;
  do_dut (do_refill (sv48_vpn 0x90001000) 0x90001 0 MODE_SV48 40 false false true true false true true);;
  fill 32 0;;
  load 0x90001000 40 MODE_SV48;; hit false;;
  do_dut (do_refill (sv48_vpn 0x10001F000) 0xA001F 0 MODE_SV48 77 false false true true false true true);;
  load 0x10001F000 77 MODE_SV48;; hit true;;
  do_dut apply_flush_all;;
  do_dut (do_refill (sv48_vpn 0x123400000) 0xB1000 1 MODE_SV48 88 false false true true false true true);;
  do_dut (do_refill (sv48_vpn 0x124400555) 0xB2000 1 MODE_SV48 88 false false true true false true true);;
  do_dut (apply_flush_vpn (sv48_vpn 0x123412ABC) MODE_SV48);;
  load 0x123400000 88 MODE_SV48;; hit false;;
  load 0x124400555 88 MODE_SV48;; hit true;;
  do_dut apply_flush_all;;
  do_dut (do_refill (sv57_vpn 0x12345678001000) 0xC1234 2 MODE_SV57 99 false false true true false true true);;
  do_dut (do_refill (sv57_vpn 0x12345A00002000) 0xC5678 2 MODE_SV57 99 false false true true false true true);;
  do_dut (apply_flush_vpn (sv57_vpn 0x1234567BFF8FFF) MODE_SV57);;
  load 0x12345678001000 99 MODE_SV57;; hit false;;
  load 0x12345A00002000 99 MODE_SV57;; hit true;;
  do_dut apply_flush_all;;
  do_dut (do_refill (sv48_vpn 0x99001000) 0xD1000 0 MODE_SV48 120 false false true true false true true);;
  do_dut (do_refill (sv48_vpn 0x99002000) 0xD2000 0 MODE_SV48 120 false false true true false true true);;
  do_dut (apply_flush_vpn (sv48_vpn 0x99001000) MODE_SV48);;
  load 0x99001000 120 MODE_SV48;; hit false;;
  load 0x99002000 120 MODE_SV48;; hit true.

Definition tlb_main : tlb_bench unit :=
  tlb_main_lookup;; tlb_main_flush;; tlb_main_protect;; tlb_main_replace.

(** The bench starts with every register in the state [t] and every pin low. *)
Definition new_vtlb (t : tlb) : vtlb :=
  {| dut_tlb := t; dut_rst := false; dut_req := cleared_req <| req_mode := 0 |> <| req_priv := 0 |>;
     dut_refill := {| refill_valid := false; rf_entry := entry_reset |};
     dut_flush := cleared_flush <| flush_mode := 0 |>; tlb_pass_count := 0 |}.

(** The TLB passes its own test bench: from any power-on state no check fails, and all
    checks are made. *)
Example tlb_bench_passes t :
  exists d, tlb_main (new_vtlb t) = Some (tt, d) /\ tlb_pass_count d = 50.
Proof. eexists. split; [vm_compute; reflexivity|reflexivity]. Qed.
