(* ===== verification/UnitBench.v ===== *)
(** * Unit benches

    The benches under [tb/unit/] drive the input pins of one Verilator module, evaluate it or
    clock it, and check its output pins.  A bench is a computation on the device under test that
    stops ([None]) where the C++ code calls [assert(false)] or an [assert] does not hold; what it
    prints is not modelled. *)

From S2P Require Import Prelude.

(** The device: the state of its flip-flops, the levels of its input pins, and the levels when it
    was last evaluated, which are the ones its output pins reflect; and the number of checks that
    held. *)
Record dut (S P : Type) := mk_dut {
  dut_state : S;
  dut_pins : P;
  dut_seen : P;
  pass_count : Z
}.
Arguments mk_dut {S P}.
Arguments dut_state {S P}.
Arguments dut_pins {S P}.
Arguments dut_seen {S P}.
Arguments pass_count {S P}.

Definition ubench (S P A : Type) : Type := dut S P -> option (A * dut S P).

#[global] Instance ubench_ret S P : MRet (ubench S P) := fun A x d => Some (x, d).
#[global] Instance ubench_bind S P : MBind (ubench S P) :=
  fun A B k m d => match m d with Some (x, d) => k x d | None => None end.

Section UnitBench.
Context {S P : Type}.

(** [dut->pin = value;] for some pins. *)
Definition drive (f : P -> P) : ubench S P unit :=
  fun d => Some (tt, mk_dut (dut_state d) (f (dut_pins d)) (dut_seen d) (pass_count d)).

(** [dut->eval();] *)
Definition settle : ubench S P unit :=
  fun d => Some (tt, mk_dut (dut_state d) (dut_pins d) (dut_pins d) (pass_count d)).

(** A clock pulse: [clk] low, high and low again, with an evaluation after each change. *)
Definition pulse (edge : P -> S -> S) : ubench S P unit :=
  fun d => Some (tt, mk_dut (edge (dut_pins d) (dut_state d)) (dut_pins d) (dut_pins d)
                       (pass_count d)).

(** A value computed from the output pins. *)
Definition sample {A} (f : S -> P -> A) : ubench S P A :=
  fun d => Some (f (dut_state d) (dut_seen d), d).

(** [check(cond, name)], and [assert(cond)]. *)
Definition expect_true (b : bool) : ubench S P unit :=
  fun d => if b then Some (tt, mk_dut (dut_state d) (dut_pins d) (dut_seen d) (pass_count d + 1))
           else None.

Definition expect_out (f : S -> P -> bool) : ubench S P unit := b ← sample f; expect_true b.

Fixpoint for_each {A} (l : list A) (body : A -> ubench S P unit) : ubench S P unit :=
  match l with
  | [] => mret tt
  | x :: l => body x ;; for_each l body
  end.

(** A loop that clears a flag when an iteration does. *)
Fixpoint for_all {A} (l : list A) (body : A -> ubench S P bool) : ubench S P bool :=
  match l with
  | [] => mret true
  | x :: l => b ← body x; r ← for_all l body; mret (b && r)
  end.

(** The number of checks of a bench that runs to its end, from a device in state [s] with any
    levels [p] on its pins. *)
Definition checks (m : ubench S P unit) (s : S) (p q : P) : option Z :=
  pass_count ∘ snd <$> m (mk_dut s p q 0).
End UnitBench.
