(* ===== verification/DatapathBench.v ===== *)
(** * The unit benches of the datapath

    [tb/unit/tb_alu.cc], [tb_branch.cc], [tb_ex_stage.cc], [tb_decoder.cc], [tb_regfile.cc],
    [tb_id_stage.cc], [tb_mem_stage.cc] and [tb_wb_stage.cc], on the modelled modules. *)

From S2P Require Import Prelude Rv64Pkg Alu Decoder RegFile PipeRegs MemStage WbStage Core UnitBench.

(** ** [tb_alu.cc] *)

Definition alu_bench : Type -> Type := ubench unit (Z * Z * Z).

Definition test_alu (op : alu_op_t) (rs1 rs2 expected : Z) : alu_bench unit :=
  drive (fun _ => (alu_op_enc op, rs1, rs2)) ;;
  settle ;;
  expect_out (fun _ '(op, a, b) => alu_port op a b =? expected).

Definition alu_main : alu_bench unit :=
  test_alu ALU_ADD 100 50 150 ;;
  test_alu ALU_SUB 100 50 50 ;;
  test_alu ALU_ADD (2 ^ 64 - 5) 10 5 ;;
  test_alu ALU_AND 0xFF00 0x0F0F 0x0F00 ;;
  test_alu ALU_XOR 0xAAAA 0xFFFF 0x5555 ;;
  test_alu ALU_SLL 1 10 1024 ;;
  let minus_one := 2 ^ 64 - 1 in
  let five := 5 in
  test_alu ALU_SLTU minus_one five 0 ;;
  test_alu ALU_SLT minus_one five 1 ;;
  test_alu ALU_OR 0xAAAA 0x5555 0xFFFF ;;
  test_alu ALU_SRL 0xF000000000000000 4 0x0F00000000000000 ;;
  test_alu ALU_SRA 0xF000000000000000 4 0xFF00000000000000 ;;
  test_alu ALU_SRA 0x7000000000000000 4 0x0700000000000000 ;;
  test_alu ALU_SLL 1 0 1 ;;
  test_alu ALU_SLL 1 63 0x8000000000000000 ;;
  test_alu ALU_SRL 0x8000000000000000 63 1 ;;
  test_alu ALU_SRA 0x8000000000000000 63 0xFFFFFFFFFFFFFFFF ;;
  test_alu ALU_ADD 0 0 0 ;;
  test_alu ALU_ADD 0xFFFFFFFFFFFFFFFF 1 0 ;;
  test_alu ALU_XOR 0xFFFFFFFFFFFFFFFF 0xFFFFFFFFFFFFFFFF 0 ;;
  test_alu ALU_SLT 100 100 0 ;;
  test_alu ALU_SLTU 100 100 0 ;;
  test_alu ALU_SLT 0x8000000000000000 0x7FFFFFFFFFFFFFFF 1 ;;
  test_alu ALU_SLT 0x7FFFFFFFFFFFFFFF 0x8000000000000000 0.

(** ** [tb_branch.cc] *)

Definition branch_bench : Type -> Type := ubench unit (bool * Z * Z * Z).

Definition test_branch (is_branch : bool) (op : branch_op_t) (a b : Z) (expected : bool)
  : branch_bench unit :=
  drive (fun _ => (is_branch, branch_op_enc op, a, b)) ;;
  settle ;;
  expect_out (fun _ '(br, op, a, b) => eqb (branch_unit br op a b) expected).

Definition branch_main : branch_bench unit :=
  test_branch false BRANCH_EQ 10 10 false ;;
  test_branch true BRANCH_EQ 10 10 true ;;
  test_branch true BRANCH_EQ 10 20 false ;;
  test_branch true BRANCH_NE 10 20 true ;;
  test_branch true BRANCH_NE 10 10 false ;;
  let minus_one := 2 ^ 64 - 1 in
  let one := 1 in
  test_branch true BRANCH_LT minus_one one true ;;
  test_branch true BRANCH_GE minus_one one false ;;
  test_branch true BRANCH_LT one minus_one false ;;
  test_branch true BRANCH_GE one minus_one true ;;
  test_branch true BRANCH_LT minus_one minus_one false ;;
  test_branch true BRANCH_GE minus_one minus_one true ;;
  test_branch true BRANCH_LTU minus_one one false ;;
  test_branch true BRANCH_GEU minus_one one true ;;
  test_branch true BRANCH_LTU minus_one minus_one false ;;
  test_branch true BRANCH_GEU minus_one minus_one true.

(** ** [tb_ex_stage.cc] *)

#[global] Instance settable_ex_in : Settable ex_in :=
  fun i => mk_ex_in (xi_pc i) (xi_rs1_rdata i) (xi_rs2_rdata i) (xi_imm i) (xi_alu_op i)
             (xi_alu_src1_sel i) (xi_alu_src2_sel i) (xi_is_branch i) (xi_branch_op i)
             (xi_is_jump i) (xi_is_word_op i).

Definition ex_bench : Type -> Type := ubench unit ex_in.

Definition ex_result (expected : Z) : ex_bench unit :=
  expect_out (fun _ i => xo_alu_result (ex_stage i) =? expected).
Definition ex_taken (expected : bool) : ex_bench unit :=
  expect_out (fun _ i => eqb (xo_branch_taken (ex_stage i)) expected).
Definition ex_target (expected : Z) : ex_bench unit :=
  expect_out (fun _ i => xo_branch_target (ex_stage i) =? expected).

(** The two source operands and the multiplexers that select the ALU's. *)
Definition ex_sources (src1_pc src2_imm : bool) (op : alu_op_t) (i : ex_in) : ex_in :=
  i <| xi_alu_src1_sel := src1_pc |> <| xi_alu_src2_sel := src2_imm |> <| xi_alu_op := op |>.

Definition ex_main : ex_bench unit :=
  drive (fun _ =>
    {| xi_pc := 0; xi_rs1_rdata := 0; xi_rs2_rdata := 0; xi_imm := 0; xi_alu_op := ALU_ADD;
       xi_alu_src1_sel := false; xi_alu_src2_sel := false; xi_is_branch := false;
       xi_branch_op := 0; xi_is_jump := false; xi_is_word_op := false |}) ;;
  (* 1. ADD *)
  drive (fun i => ex_sources false false ALU_ADD
                    (i <| xi_rs1_rdata := 50 |> <| xi_rs2_rdata := 25 |>)) ;;
  settle ;; ex_result 75 ;; ex_taken false ;;
  (* 2. ADDI *)
  drive (fun i => ex_sources false true ALU_ADD (i <| xi_rs1_rdata := 100 |> <| xi_imm := 42 |>)) ;;
  settle ;; ex_result 142 ;;
  (* 3. branch taken *)
  drive (fun i => ex_sources true true ALU_ADD
                    (i <| xi_is_branch := true |> <| xi_branch_op := branch_op_enc BRANCH_EQ |>
                       <| xi_rs1_rdata := 88 |> <| xi_rs2_rdata := 88 |>
                       <| xi_pc := 0x80001000 |> <| xi_imm := 0x10 |>)) ;;
  settle ;; ex_taken true ;; ex_target 0x80001010 ;;
  (* 4. branch not taken *)
  drive (fun i => i <| xi_rs1_rdata := 88 |> <| xi_rs2_rdata := 99 |>) ;;
  settle ;; ex_taken false ;;
  (* 5. JAL *)
  drive (fun i => ex_sources true true ALU_ADD
                    (i <| xi_is_branch := false |> <| xi_is_jump := true |>
                       <| xi_pc := 0x80002000 |> <| xi_imm := 0x24 |>)) ;;
  settle ;; ex_taken true ;; ex_target 0x80002024 ;;
  (* 6. JALR *)
  drive (fun i => ex_sources false true ALU_ADD
                    (i <| xi_is_jump := true |> <| xi_rs1_rdata := 0x80003001 |> <| xi_imm := 4 |>)) ;;
  settle ;; ex_taken true ;; ex_target 0x80003004 ;; ex_result 0x80003005 ;;
  (* 7. ADDW *)
  drive (fun i => ex_sources false false ALU_ADD
                    (i <| xi_is_jump := false |> <| xi_is_word_op := true |>
                       <| xi_rs1_rdata := 0x7FFFFFFF |> <| xi_rs2_rdata := 1 |>)) ;;
  settle ;; ex_result 0xFFFFFFFF80000000 ;;
  (* 8. load/store address *)
  drive (fun i => ex_sources false true ALU_ADD
                    (i <| xi_is_word_op := false |> <| xi_rs1_rdata := 0x8000A000 |>
                       <| xi_imm := 0xFFFFFFFFFFFFFFF0 |>)) ;;
  settle ;; ex_result 0x80009FF0 ;;
  (* 9. SLL *)
  drive (fun i => ex_sources false false ALU_SLL
                    (i <| xi_is_word_op := false |> <| xi_rs1_rdata := 0xFFFF |>
                       <| xi_rs2_rdata := 16 |>)) ;;
  settle ;; ex_result 0xFFFF0000 ;;
  (* 10. SRA *)
  drive (fun i => i <| xi_rs1_rdata := 0xFFFFFFFF00000000 |> <| xi_rs2_rdata := 16 |>
                    <| xi_alu_op := ALU_SRA |>) ;;
  settle ;; ex_result 0xFFFFFFFFFFFF0000 ;;
  (* 11. SRAW *)
  drive (fun i => i <| xi_is_word_op := true |> <| xi_rs1_rdata := 0xFFFFFFFF80000000 |>
                    <| xi_rs2_rdata := 4 |> <| xi_alu_op := ALU_SRA |>) ;;
  settle ;; ex_result 0xFFFFFFFFF8000000 ;;
  (* 12. SLLW *)
  drive (fun i => i <| xi_rs1_rdata := 0xFFFF |> <| xi_rs2_rdata := 0x24 |>
                    <| xi_alu_op := ALU_SLL |>) ;;
  settle ;; ex_result 0xFFFF0 ;;
  (* 13. SRLW *)
  drive (fun i => i <| xi_rs1_rdata := 0xFFFFFFFF80000000 |> <| xi_rs2_rdata := 4 |>
                    <| xi_alu_op := ALU_SRL |>) ;;
  settle ;; ex_result 0x08000000.

(** ** [tb_decoder.cc]

    Its [CHECK] counts a failure instead of stopping; the state of the bench is the two counters
    [test_count] and [fail_count]. *)

Definition dec_bench : Type -> Type := ubench (Z * Z) (Z * Z).

Definition decode_in (instr priv_mode : Z) : dec_bench unit :=
  drive (fun _ => (instr, Z.land priv_mode 0x3)) ;;
  pulse (fun _ '(test_count, fail_count) => (test_count + 1, fail_count)).

(** [decode] with its default privilege mode. *)
Definition decode (instr : Z) : dec_bench unit := decode_in instr 3.

Definition CHECK (signal : dec_out -> Z) (expected : Z) : dec_bench unit :=
  got ← sample (fun _ '(instr, priv_mode) => signal (decoder instr priv_mode));
  pulse (fun _ '(test_count, fail_count) =>
    (test_count, if got =? expected then fail_count else fail_count + 1)).

Definition CHECKB (signal : dec_out -> bool) (expected : Z) : dec_bench unit :=
  CHECK (fun d => Z.b2z (signal d)) expected.

Definition d_rd_addr (d : dec_out) : Z := rd_addr (wb_c d).
Definition d_wb_sel (d : dec_out) : Z := wb_sel (wb_c d).
Definition d_reg_write_en (d : dec_out) : bool := reg_write_en (wb_c d).
Definition d_alu_op (d : dec_out) : Z := alu_op_enc (alu_op (ex_c d)).
Definition d_alu_src1_sel (d : dec_out) : bool := alu_src1_sel (ex_c d).
Definition d_alu_src2_sel (d : dec_out) : bool := alu_src2_sel (ex_c d).
Definition d_is_word_op (d : dec_out) : bool := is_word_op (ex_c d).
Definition d_is_branch (d : dec_out) : bool := is_branch (ex_c d).
Definition d_branch_op (d : dec_out) : Z := branch_op (ex_c d).
Definition d_is_jump (d : dec_out) : bool := is_jump (ex_c d).
Definition d_is_load (d : dec_out) : bool := is_load (mem_c d).
Definition d_is_store (d : dec_out) : bool := is_store (mem_c d).
Definition d_mem_size (d : dec_out) : Z := mem_size (mem_c d).
Definition d_illegal_instr (d : dec_out) : bool := illegal_instr (sys_c d).
Definition d_is_csr (d : dec_out) : bool := is_csr (sys_c d).
Definition d_csr_op (d : dec_out) : Z := csr_op (sys_c d).
Definition d_is_ecall (d : dec_out) : bool := is_ecall (sys_c d).
Definition d_is_ebreak (d : dec_out) : bool := is_ebreak (sys_c d).
Definition d_is_mret (d : dec_out) : bool := is_mret (sys_c d).
Definition d_is_sret (d : dec_out) : bool := is_sret (sys_c d).
Definition d_is_wfi (d : dec_out) : bool := is_wfi (fence_c d).
Definition d_is_fence (d : dec_out) : bool := is_fence (fence_c d).
Definition d_is_fence_i (d : dec_out) : bool := is_fence_i (fence_c d).

Definition decoder_alu_tests : dec_bench unit :=
  decode 0x003100B3 ;;
  CHECK rs1_addr 2 ;; CHECK rs2_addr 3 ;; CHECK d_rd_addr 1 ;; CHECKB d_reg_write_en 1 ;;
  CHECK d_alu_op 0 ;; CHECKB d_alu_src1_sel 0 ;; CHECKB d_alu_src2_sel 0 ;; CHECK d_wb_sel 0 ;;
  CHECKB d_illegal_instr 0 ;;
  decode 0x402081B3 ;;
  CHECK d_alu_op 8 ;; CHECKB d_reg_write_en 1 ;; CHECKB d_alu_src2_sel 0 ;;
  decode 0x403150B3 ;;
  CHECK d_alu_op 13 ;;
  decode 0x003150B3 ;;
  CHECK d_alu_op 5 ;;
  decode 0x02A00093 ;;
  CHECKB d_reg_write_en 1 ;; CHECK d_alu_op 0 ;; CHECKB d_alu_src1_sel 0 ;;
  CHECKB d_alu_src2_sel 1 ;; CHECK imm 42 ;; CHECK d_rd_addr 1 ;; CHECK rs1_addr 0 ;;
  decode 0xFFF00093 ;;
  CHECK imm (2 ^ 64 - 1) ;;
  decode 0x40315093 ;;
  CHECK d_alu_op 13 ;; CHECKB d_alu_src2_sel 1.

Definition decoder_memory_tests : dec_bench unit :=
  decode 0x00853283 ;;
  CHECKB d_is_load 1 ;; CHECKB d_reg_write_en 1 ;; CHECKB d_alu_src2_sel 1 ;; CHECK imm 8 ;;
  CHECK d_mem_size 3 ;; CHECK d_wb_sel 1 ;; CHECK d_alu_op 0 ;;
  decode 0x00553823 ;;
  CHECKB d_is_store 1 ;; CHECKB d_reg_write_en 0 ;; CHECKB d_alu_src2_sel 1 ;; CHECK imm 16 ;;
  CHECK d_mem_size 3 ;; CHECK rs1_addr 10 ;; CHECK rs2_addr 5.

Definition decoder_jump_tests : dec_bench unit :=
  decode 0xFE208EE3 ;;
  CHECKB d_is_branch 1 ;; CHECKB d_reg_write_en 0 ;; CHECKB d_alu_src1_sel 1 ;;
  CHECK d_branch_op 0 ;; CHECK imm (2 ^ 64 - 4) ;;
  decode 0x00209463 ;;
  CHECKB d_is_branch 1 ;; CHECK d_branch_op 1 ;; CHECK imm 8 ;;
  decode 0x123450B7 ;;
  CHECKB d_reg_write_en 1 ;; CHECKB d_alu_src2_sel 1 ;; CHECK imm 0x12345000 ;;
  CHECK d_wb_sel 0 ;; CHECK d_rd_addr 1 ;;
  decode 0x00001117 ;;
  CHECKB d_reg_write_en 1 ;; CHECKB d_alu_src1_sel 1 ;; CHECKB d_alu_src2_sel 1 ;;
  CHECK imm 0x1000 ;;
  decode 0x008000EF ;;
  CHECKB d_is_jump 1 ;; CHECKB d_reg_write_en 1 ;; CHECKB d_alu_src1_sel 1 ;;
  CHECKB d_alu_src2_sel 1 ;; CHECK d_wb_sel 2 ;; CHECK imm 8 ;;
  decode 0x004280E7 ;;
  CHECKB d_is_jump 1 ;; CHECKB d_reg_write_en 1 ;; CHECKB d_alu_src1_sel 0 ;;
  CHECKB d_alu_src2_sel 1 ;; CHECK d_wb_sel 2 ;; CHECK imm 4 ;; CHECK rs1_addr 5.

Definition decoder_word_tests : dec_bench unit :=
  decode 0x00A1009B ;;
  CHECKB d_reg_write_en 1 ;; CHECKB d_is_word_op 1 ;; CHECK d_alu_op 0 ;;
  CHECKB d_alu_src2_sel 1 ;; CHECK imm 10 ;;
  decode 0x002081BB ;;
  CHECKB d_reg_write_en 1 ;; CHECKB d_is_word_op 1 ;; CHECK d_alu_op 0 ;;
  CHECKB d_alu_src2_sel 0 ;;
  decode 0x402081BB ;;
  CHECK d_alu_op 8 ;; CHECKB d_is_word_op 1.

Definition decoder_system_tests : dec_bench unit :=
  decode 0x300110F3 ;;
  CHECKB d_is_csr 1 ;; CHECK d_csr_op 1 ;; CHECKB d_reg_write_en 1 ;; CHECKB d_illegal_instr 0 ;;
  decode_in 0x300110F3 0 ;;
  CHECKB d_illegal_instr 1 ;; CHECKB d_is_csr 0 ;;
  decode 0x00000073 ;;
  CHECKB d_is_ecall 1 ;; CHECKB d_reg_write_en 0 ;; CHECKB d_illegal_instr 0 ;;
  decode 0x00100073 ;;
  CHECKB d_is_ebreak 1 ;; CHECKB d_reg_write_en 0 ;;
  decode 0x30200073 ;;
  CHECKB d_is_mret 1 ;; CHECKB d_reg_write_en 0 ;; CHECKB d_illegal_instr 0 ;;
  decode_in 0x10200073 1 ;;
  CHECKB d_is_sret 1 ;; CHECKB d_reg_write_en 0 ;;
  decode 0x10500073 ;;
  CHECKB d_is_wfi 1 ;;
  decode 0x0FF0000F ;;
  CHECKB d_is_fence 1 ;; CHECKB d_illegal_instr 0 ;;
  decode 0x0000100F ;;
  CHECKB d_is_fence_i 1 ;;
  decode 0x00000000 ;;
  CHECKB d_illegal_instr 1 ;; CHECKB d_reg_write_en 0.

(** The exit status of [main]. *)
Definition decoder_main : dec_bench Z :=
  decoder_alu_tests ;; decoder_memory_tests ;; decoder_jump_tests ;; decoder_word_tests ;;
  decoder_system_tests ;;
  sample (fun '(_, fail_count) _ => if 0 <? fail_count then 1 else 0).

(** ** [tb_regfile.cc] *)

Record rf_pins := mk_rf_pins {
  rf_rst : bool;
  rf_rs1_addr : Z;
  rf_rs2_addr : Z;
  rf_rd_addr : Z;
  rf_rd_wdata : Z;
  rf_reg_write_en : bool
}.

#[global] Instance settable_rf_pins : Settable rf_pins :=
  fun p => mk_rf_pins (rf_rst p) (rf_rs1_addr p) (rf_rs2_addr p) (rf_rd_addr p) (rf_rd_wdata p)
             (rf_reg_write_en p).

Definition rf_bench : Type -> Type := ubench regs_t rf_pins.

Definition rf_tick : rf_bench unit :=
  pulse (fun p regs =>
    regfile_next (rf_rst p) regs (rf_reg_write_en p) (rf_rd_addr p) (rf_rd_wdata p)).

Definition rs1_rdata (regs : regs_t) (p : rf_pins) : Z :=
  reg_read regs (rf_rs1_addr p) (rf_reg_write_en p) (rf_rd_addr p) (rf_rd_wdata p).
Definition rs2_rdata (regs : regs_t) (p : rf_pins) : Z :=
  reg_read regs (rf_rs2_addr p) (rf_reg_write_en p) (rf_rd_addr p) (rf_rd_wdata p).

Definition rf_set (en : bool) (a v : Z) : rf_bench unit :=
  drive (fun p => p <| rf_reg_write_en := en |> <| rf_rd_addr := a |> <| rf_rd_wdata := v |>).

(** [for (int i = 1; i < 32; i += step)] *)
Definition from_1_to_31 (step : nat) : list Z :=
  (fun k => 1 + Z.of_nat (k * step)) <$> seq 0 (S (30 / step)).

(** Reads [x1] to [x31] through port 1: does each hold the value it should? *)
Definition rf_sweep (expected : Z -> Z) : rf_bench bool :=
  for_all (from_1_to_31 1) (fun i =>
    drive (fun p => p <| rf_rs1_addr := i |>) ;; settle ;;
    sample (fun regs p => rs1_rdata regs p =? expected i)).

Definition regfile_main : rf_bench unit :=
  drive (fun _ => mk_rf_pins false 0 0 0 0 false) ;;
  (* 1. reset *)
  drive (fun p => p <| rf_rst := true |>) ;; rf_tick ;; drive (fun p => p <| rf_rst := false |>) ;;
  (* 2. write and read *)
  rf_set true 5 0xDEADBEEF ;; rf_tick ;;
  drive (fun p => p <| rf_reg_write_en := false |> <| rf_rs1_addr := 5 |>) ;; settle ;;
  expect_out (fun regs p => rs1_rdata regs p =? 0xDEADBEEF) ;;
  (* 3. x0 *)
  rf_set true 0 0x12345678 ;; rf_tick ;;
  drive (fun p => p <| rf_reg_write_en := false |> <| rf_rs2_addr := 0 |>) ;; settle ;;
  expect_out (fun regs p => rs2_rdata regs p =? 0) ;;
  (* 4. two ports *)
  rf_set true 6 0x87654321 ;; rf_tick ;;
  rf_set true 7 0x11223344 ;; rf_tick ;;
  drive (fun p => p <| rf_rs1_addr := 6 |> <| rf_rs2_addr := 7 |>) ;; settle ;;
  expect_out (fun regs p => (rs1_rdata regs p =? 0x87654321) && (rs2_rdata regs p =? 0x11223344)) ;;
  (* 5. write enable low *)
  rf_set true 10 0xCAFEBABE ;; rf_tick ;;
  rf_set false 10 0x11111111 ;; rf_tick ;;
  drive (fun p => p <| rf_rs1_addr := 10 |>) ;; settle ;;
  expect_out (fun regs p => rs1_rdata regs p =? 0xCAFEBABE) ;;
  (* 6. full reset *)
  for_each (from_1_to_31 5) (fun i => rf_set true i (0x1000 + i) ;; rf_tick) ;;
  drive (fun p => p <| rf_rst := true |> <| rf_reg_write_en := false |>) ;; rf_tick ;;
  drive (fun p => p <| rf_rst := false |>) ;;
  reset_ok ← rf_sweep (fun _ => 0);
  expect_true reset_ok ;;
  (* 7. read after write *)
  rf_set false 15 0x55555555 ;; rf_tick ;;
  rf_set true 15 0x99999999 ;;
  drive (fun p => p <| rf_rs1_addr := 15 |>) ;; settle ;;
  expect_out (fun regs p => rs1_rdata regs p =? 0x99999999) ;;
  rf_tick ;;
  drive (fun p => p <| rf_reg_write_en := false |>) ;; settle ;;
  expect_out (fun regs p => rs1_rdata regs p =? 0x99999999) ;;
  (* 8. all registers *)
  for_each (from_1_to_31 1) (fun i => rf_set true i (0xABCDE000 + i) ;; rf_tick) ;;
  drive (fun p => p <| rf_reg_write_en := false |>) ;;
  sweep_ok ← rf_sweep (fun i => 0xABCDE000 + i);
  expect_true sweep_ok.

(** ** [tb_id_stage.cc] *)

Record id_pins := mk_id_pins {
  ip_rst : bool;
  ip_if_pc : Z;
  ip_if_instr : Z;
  ip_priv_mode : Z;
  ip_wb_reg_write_en : bool;
  ip_wb_rd_addr : Z;
  ip_wb_rd_wdata : Z
}.

#[global] Instance settable_id_pins : Settable id_pins :=
  fun p => mk_id_pins (ip_rst p) (ip_if_pc p) (ip_if_instr p) (ip_priv_mode p)
             (ip_wb_reg_write_en p) (ip_wb_rd_addr p) (ip_wb_rd_wdata p).

Definition id_bench : Type -> Type := ubench regs_t id_pins.

Definition id_tick : id_bench unit :=
  pulse (fun p regs =>
    regfile_next (ip_rst p) regs (ip_wb_reg_write_en p) (ip_wb_rd_addr p) (ip_wb_rd_wdata p)).

Definition id_outputs (regs : regs_t) (p : id_pins) : id_ex :=
  id_stage (mk_if_id (ip_if_pc p) (ip_if_instr p)) (ip_priv_mode p) regs
    (ip_wb_reg_write_en p) (ip_wb_rd_addr p) (ip_wb_rd_wdata p).

Definition id_check (out : id_ex -> Z) (expected : Z) : id_bench unit :=
  expect_out (fun regs p => out (id_outputs regs p) =? expected).
Definition id_checkd (out : dec_out -> Z) (expected : Z) : id_bench unit :=
  id_check (fun o => out (ex_dec o)) expected.
Definition id_checkb (out : dec_out -> bool) (expected : Z) : id_bench unit :=
  id_checkd (fun d => Z.b2z (out d)) expected.

Definition id_decode (instr : Z) : id_bench unit :=
  drive (fun p => p <| ip_if_instr := instr |>) ;; settle.

(** One write through the write-back port. *)
Definition id_write_back (rd v : Z) : id_bench unit :=
  drive (fun p => p <| ip_wb_reg_write_en := true |> <| ip_wb_rd_addr := rd |>
                    <| ip_wb_rd_wdata := v |>) ;;
  id_tick ;;
  drive (fun p => p <| ip_wb_reg_write_en := false |>).

Definition id_main : id_bench unit :=
  drive (fun p => mk_id_pins false 0 0 (ip_priv_mode p) false 0 0) ;;
  drive (fun p => p <| ip_rst := true |>) ;; id_tick ;; drive (fun p => p <| ip_rst := false |>) ;;
  (* 1. PC *)
  drive (fun p => p <| ip_if_pc := 0x80001000 |> <| ip_if_instr := 0x00000013 |>) ;; settle ;;
  id_check ex_pc 0x80001000 ;;
  (* 2. ADDI *)
  id_decode 0x02A00093 ;;
  id_checkd d_rd_addr 1 ;; id_checkd d_alu_op (alu_op_enc ALU_ADD) ;; id_checkb d_alu_src2_sel 1 ;;
  id_checkd imm 42 ;; id_checkb d_reg_write_en 1 ;; id_checkb d_is_branch 0 ;;
  id_checkb d_is_jump 0 ;; id_checkb d_illegal_instr 0 ;;
  (* 3. write back, then read *)
  id_write_back 5 0xDEADBEEF ;;
  id_decode 0x000280B3 ;;
  id_checkd rs1_addr 5 ;; id_checkd rs2_addr 0 ;; id_check ex_rs1_rdata 0xDEADBEEF ;;
  id_check ex_rs2_rdata 0 ;; id_checkb d_alu_src2_sel 0 ;;
  (* 4. two ports *)
  id_write_back 10 0x11111111 ;;
  id_decode 0x00A280B3 ;;
  id_check ex_rs1_rdata 0xDEADBEEF ;; id_check ex_rs2_rdata 0x11111111 ;;
  (* 5. BEQ *)
  id_decode 0xFE208EE3 ;;
  id_checkb d_is_branch 1 ;; id_checkb d_reg_write_en 0 ;; id_checkd d_branch_op 0 ;;
  id_checkd imm (2 ^ 64 - 4) ;;
  (* 6. JAL *)
  id_decode 0x008000EF ;;
  id_checkb d_is_jump 1 ;; id_checkb d_reg_write_en 1 ;; id_checkd d_wb_sel 2 ;;
  id_checkd imm 8 ;;
  (* 7. LD *)
  id_decode 0x00853283 ;;
  id_checkb d_is_load 1 ;; id_checkb d_reg_write_en 1 ;; id_checkd d_wb_sel 1 ;;
  id_checkd imm 8 ;; id_checkd d_mem_size 3 ;;
  (* 8. SD *)
  id_decode 0x00553823 ;;
  id_checkb d_is_store 1 ;; id_checkb d_reg_write_en 0 ;; id_checkd imm 16 ;;
  (* 9. illegal *)
  id_decode 0x00000000 ;; id_checkb d_illegal_instr 1 ;;
  (* 10. ECALL *)
  id_decode 0x00000073 ;; id_checkb d_is_ecall 1 ;;
  (* 11. LUI *)
  id_decode 0x123450B7 ;; id_checkb d_reg_write_en 1 ;; id_checkd imm 0x12345000.

(** ** [tb_mem_stage.cc] *)

Record mem_pins := mk_mem_pins {
  mp_in : ex_mem;
  mp_req_ready : bool;
  mp_rsp_valid : bool;
  mp_rdata : Z
}.

#[global] Instance settable_mem_pins : Settable mem_pins :=
  fun p => mk_mem_pins (mp_in p) (mp_req_ready p) (mp_rsp_valid p) (mp_rdata p).

Definition mem_bench : Type -> Type := ubench unit mem_pins.

Definition mem_outputs (p : mem_pins) : dmem_req * mem_wb * bool :=
  mem_stage (mp_in p) (mp_req_ready p) (mp_rsp_valid p) (mp_rdata p).

Definition mem_check_req (out : dmem_req -> Z) (expected : Z) : mem_bench unit :=
  expect_out (fun _ p => out (mem_outputs p).1.1 =? expected).
Definition mem_check (out : mem_wb -> Z) (expected : Z) : mem_bench unit :=
  expect_out (fun _ p => out (mem_outputs p).1.2 =? expected).
Definition mem_check_stall (expected : bool) : mem_bench unit :=
  expect_out (fun _ p => eqb (mem_outputs p).2 expected).

(** The control pins of the stage. *)
Definition mem_ctl_in (f : mem_ctl -> mem_ctl) (p : mem_pins) : mem_pins :=
  p <| mp_in := mp_in p <| mem_mc := f (mem_mc (mp_in p)) |> |>.

(** [mem_mem_size] and [mem_alu_result]; then [tick]. *)
Definition mem_access (size addr : Z) : mem_bench unit :=
  drive (fun p => mem_ctl_in (fun c => c <| mem_size := size |>)
                    (p <| mp_in := mp_in p <| mem_alu_result := addr |> |>)) ;;
  settle.

(** A store at [addr]: the data and the strobes on the bus. *)
Definition mem_store_test (size addr wdata wstrb : Z) : mem_bench unit :=
  mem_access size addr ;; mem_check_req dmem_wdata wdata ;; mem_check_req dmem_wstrb wstrb.

Definition mem_load_test (size addr rdata : Z) : mem_bench unit :=
  mem_access size addr ;; mem_check wb_mem_rdata rdata.

(** The two handshake pins of the cache. *)
Definition mem_handshake (ready valid : bool) : mem_bench unit :=
  drive (fun p => p <| mp_req_ready := ready |> <| mp_rsp_valid := valid |>) ;; settle.

Definition mem_passthrough_pins (m : ex_mem) : ex_mem :=
  m <| mem_wc := mk_wb_ctl true 15 2 |>
    <| mem_pc := 0x80001000 |>
    <| mem_sc := mem_sc m <| is_csr := true |> <| csr_op := 2 |> |>
    <| mem_rs1_rdata := 0x1234 |> <| mem_rs1_addr := 5 |> <| mem_imm := 0x777 |>.

Definition mem_main : mem_bench unit :=
  (* 1. defaults *)
  drive (fun p =>
    {| mp_in := mp_in p <| mem_alu_result := 0 |> <| mem_rs2_rdata := 0 |>
                  <| mem_mc := mk_mem_ctl false false 0 |>;
       mp_req_ready := true; mp_rsp_valid := true; mp_rdata := 0 |}) ;;
  settle ;;
  mem_check_req (fun r => Z.b2z (dmem_read_req r)) 0 ;;
  mem_check_req (fun r => Z.b2z (dmem_write_req r)) 0 ;;
  mem_check_stall false ;;
  (* 2. pass-through *)
  drive (fun p => p <| mp_in := mem_passthrough_pins (mp_in p) |>) ;; settle ;;
  mem_check (fun w => Z.b2z (reg_write_en (wb_wc w))) 1 ;;
  mem_check (fun w => rd_addr (wb_wc w)) 15 ;; mem_check (fun w => wb_sel (wb_wc w)) 2 ;;
  mem_check wb_pc 0x80001000 ;; mem_check (fun w => Z.b2z (is_csr (wb_sc w))) 1 ;;
  mem_check (fun w => csr_op (wb_sc w)) 2 ;; mem_check wb_rs1_rdata 0x1234 ;;
  mem_check wb_rs1_addr 5 ;; mem_check wb_imm 0x777 ;;
  (* 3. stores *)
  drive (fun p => mem_ctl_in (fun c => c <| is_store := true |>)
                    (p <| mp_req_ready := true |>
                       <| mp_in := mp_in p <| mem_rs2_rdata := 0x1122334455667788 |> |>)) ;;
  mem_access 0 0x1000 ;;
  mem_check_req (fun r => Z.b2z (dmem_write_req r)) 1 ;; mem_check_req dmem_addr 0x1000 ;;
  mem_check_req dmem_wdata 0x88 ;; mem_check_req dmem_wstrb 0x01 ;;
  mem_store_test 0 0x1003 0x88000000 0x08 ;;
  mem_store_test 1 0x1002 0x77880000 0x0C ;;
  mem_store_test 2 0x1004 0x5566778800000000 0xF0 ;;
  mem_store_test 3 0x1000 0x1122334455667788 0xFF ;;
  drive (mem_ctl_in (fun c => c <| is_store := false |>)) ;;
  (* 4. loads *)
  drive (fun p => mem_ctl_in (fun c => c <| is_load := true |>)
                    (p <| mp_rdata := 0xAABBCCDDEEFF0011 |> <| mp_rsp_valid := true |>)) ;;
  mem_access 0 0x2000 ;;
  mem_check_req (fun r => Z.b2z (dmem_read_req r)) 1 ;; mem_check wb_mem_rdata 0x11 ;;
  mem_load_test 0 0x2001 0x0 ;;
  mem_load_test 0 0x2007 0xFFFFFFFFFFFFFFAA ;;
  mem_load_test 4 0x2007 0xAA ;;
  mem_load_test 1 0x2002 0xFFFFFFFFFFFFEEFF ;;
  mem_load_test 5 0x2002 0xEEFF ;;
  mem_load_test 2 0x2004 0xFFFFFFFFAABBCCDD ;;
  mem_load_test 6 0x2004 0xAABBCCDD ;;
  mem_load_test 3 0x2000 0xAABBCCDDEEFF0011 ;;
  (* 5. stalls *)
  mem_handshake false false ;; mem_check_stall true ;;
  mem_handshake true false ;; mem_check_stall true ;;
  mem_handshake true true ;; mem_check_stall false.

(** ** [tb_wb_stage.cc] *)

Record wb_pins := mk_wb_pins {
  wp_in : mem_wb;
  wp_pc_plus_4 : Z;
  wp_csr_rdata : Z;
  wp_csr_illegal : bool
}.

#[global] Instance settable_wb_pins : Settable wb_pins :=
  fun p => mk_wb_pins (wp_in p) (wp_pc_plus_4 p) (wp_csr_rdata p) (wp_csr_illegal p).

Definition wb_bench : Type -> Type := ubench unit wb_pins.

Definition wb_outputs (p : wb_pins) : wb_out :=
  wb_stage (wp_in p) (wp_pc_plus_4 p) (wp_csr_rdata p) (wp_csr_illegal p).

Definition wb_check (out : wb_out -> Z) (expected : Z) : wb_bench unit :=
  expect_out (fun _ p => out (wb_outputs p) =? expected).
Definition wb_check_csr (out : csr_request -> Z) (expected : Z) : wb_bench unit :=
  expect_out (fun _ p => out (wb_csr_request (wp_in p)) =? expected).
Definition wb_check_trap (out : trap_bus -> bool) (expected : Z) : wb_bench unit :=
  wb_check (fun o => Z.b2z (out (wo_trap o))) expected.
Definition wb_check_write (expected : Z) : wb_bench unit :=
  wb_check (fun o => Z.b2z (wo_reg_write_en o)) expected.

Definition wb_drive (f : mem_wb -> mem_wb) : wb_bench unit :=
  drive (fun p => p <| wp_in := f (wp_in p) |>).

Definition wb_sys (f : sys_ctl -> sys_ctl) (w : mem_wb) : mem_wb := w <| wb_sc := f (wb_sc w) |>.
Definition wb_select (sel : Z) (w : mem_wb) : mem_wb := w <| wb_wc := wb_wc w <| wb_sel := sel |> |>.

Definition wb_main : wb_bench unit :=
  (* 1. ALU *)
  drive (fun _ =>
    {| wp_in :=
         {| wb_pc := 0x80000000; wb_alu_result := 0xAA55AA55; wb_mem_rdata := 0x11223344;
            wb_instr := 0xDEADBEEF; wb_wc := mk_wb_ctl true 5 0; wb_sc := sys_ctl_nop;
            wb_rs1_rdata := 0x99; wb_rs1_addr := 1; wb_imm := 0x123; wb_load_fault := false;
            wb_store_fault := false; wb_fault_addr := 0 |};
       wp_pc_plus_4 := 0x80000004; wp_csr_rdata := 0; wp_csr_illegal := false |}) ;;
  settle ;;
  wb_check wo_rd_wdata 0xAA55AA55 ;; wb_check wo_rd_addr 5 ;; wb_check_write 1 ;;
  wb_check_csr (fun q => Z.b2z (cq_req q)) 0 ;;
  (* 2. memory *)
  wb_drive (wb_select 1) ;; settle ;; wb_check wo_rd_wdata 0x11223344 ;;
  (* 3. PC + 4 *)
  wb_drive (wb_select 2) ;; settle ;; wb_check wo_rd_wdata 0x80000004 ;;
  (* 4. CSR *)
  wb_drive (fun w => wb_select 0 (wb_sys (fun s => s <| is_csr := true |> <| csr_op := 2 |>) w)
              <| wb_imm := 0x300 |> <| wb_rs1_rdata := 0x8 |> <| wb_rs1_addr := 10 |>) ;;
  drive (fun p => p <| wp_csr_rdata := 0x1800 |>) ;; settle ;;
  wb_check wo_rd_wdata 0x1800 ;; wb_check_csr (fun q => Z.b2z (cq_req q)) 1 ;;
  wb_check_csr cq_op 2 ;; wb_check_csr cq_addr 0x300 ;; wb_check_csr cq_rs1_data 0x8 ;;
  (* 5. CSR immediate *)
  wb_drive (wb_sys (fun s => s <| csr_op := 6 |>)) ;; settle ;; wb_check_csr cq_rs1_data 10 ;;
  (* 6. exceptions *)
  wb_drive (wb_sys (fun s => s <| illegal_instr := true |> <| is_ecall := true |>
                               <| is_ebreak := true |> <| is_mret := true |> <| is_sret := true |>)) ;;
  settle ;;
  wb_check_trap trap_illegal_instr 1 ;; wb_check_trap trap_is_ecall 1 ;;
  wb_check_trap trap_is_ebreak 1 ;; wb_check_trap trap_is_mret 1 ;; wb_check_trap trap_is_sret 1 ;;
  wb_check (fun o => trap_epc (wo_trap o)) 0x80000000 ;;
  wb_check (fun o => trap_bad_instr (wo_trap o)) 0xDEADBEEF ;;
  wb_check_write 0 ;; wb_check_csr (fun q => Z.b2z (cq_req q)) 0 ;;
  (* 7. illegal CSR access *)
  wb_drive (wb_sys (fun s => s <| illegal_instr := false |> <| is_ecall := false |>
                               <| is_ebreak := false |>)) ;;
  drive (fun p => p <| wp_csr_illegal := true |>) ;; settle ;;
  wb_check_trap trap_illegal_instr 1 ;; wb_check_write 0 ;;
  (* 8. faults *)
  drive (fun p => p <| wp_csr_illegal := false |>) ;;
  wb_drive (fun w => w <| wb_load_fault := true |> <| wb_fault_addr := 0x80000010 |>) ;; settle ;;
  wb_check_trap trap_load_fault 1 ;;
  wb_check (fun o => trap_bad_addr (wo_trap o)) 0x80000010 ;; wb_check_write 0 ;;
  wb_drive (fun w => w <| wb_load_fault := false |> <| wb_store_fault := true |>
                       <| wb_fault_addr := 0x80000020 |>) ;; settle ;;
  wb_check_trap trap_store_fault 1 ;;
  wb_check (fun o => trap_bad_addr (wo_trap o)) 0x80000020 ;;
  wb_drive (fun w => w <| wb_store_fault := false |>).

(** ** Properties *)

(** The datapath passes its unit benches.  From every state and with every level on the pins
    at power-on, the benches of the ALU, the branch unit, the execute stage, the register file and
    the ID, MEM and WB stages run to their ends, and the bench of the decoder, which decodes 28
    instructions, ends with no failed check and exit status 0. *)
Example datapath_benches_pass :
  (forall p q, checks alu_main tt p q = Some 23) /\
  (forall p q, checks branch_main tt p q = Some 15) /\
  (forall p q, checks ex_main tt p q = Some 18) /\
  (forall p q, exists d, decoder_main (mk_dut (0, 0) p q 0) = Some (0, d) /\ dut_state d = (28, 0)) /\
  (forall regs p q, checks regfile_main regs p q = Some 8) /\
  (forall regs p q, checks id_main regs p q = Some 36) /\
  (forall p q, checks mem_main tt p q = Some 37) /\
  (forall p q, checks wb_main tt p q = Some 28).
Proof. repeat split; intros; try (eexists; split); vm_compute; reflexivity. Qed.
