(* ===== verification/ControlBench.v ===== *)
(** * The unit benches of the pipeline control

    [tb/unit/tb_hazard_unit.cc], [tb_trap_ctrl.cc], [tb_if_stage.cc], [tb_if_id_reg.cc],
    [tb_id_ex_reg.cc], [tb_ex_mem_reg.cc] and [tb_mem_wb_reg.cc], on the modelled modules. *)

From S2P Require Import Prelude Rv64Pkg Decoder HazardUnit PipeRegs WbStage TrapCtrl UnitBench.

(** ** [tb_hazard_unit.cc] *)

#[global] Instance settable_hu_in : Settable hu_in :=
  fun i => mk_hu_in (hi_id_rs1_addr i) (hi_id_rs2_addr i) (hi_ex_rs1_addr i) (hi_ex_rs2_addr i)
             (hi_ex_rd_addr i) (hi_ex_reg_write_en i) (hi_ex_is_load i) (hi_ex_branch_taken i)
             (hi_ex_branch_target i) (hi_mem_rd_addr i) (hi_mem_reg_write_en i)
             (hi_mem_stall_req i) (hi_trap_flush_req i) (hi_trap_pc_sel i) (hi_trap_target_pc i)
             (hi_wb_rd_addr i) (hi_wb_reg_write_en i).

Definition hz_bench : Type -> Type := ubench unit hu_in.

Definition hz_quiet : hu_in :=
  {| hi_id_rs1_addr := 0; hi_id_rs2_addr := 0; hi_ex_rs1_addr := 0; hi_ex_rs2_addr := 0;
     hi_ex_rd_addr := 0; hi_ex_reg_write_en := false; hi_ex_is_load := false;
     hi_ex_branch_taken := false; hi_ex_branch_target := 0; hi_mem_rd_addr := 0;
     hi_mem_reg_write_en := false; hi_mem_stall_req := false; hi_trap_flush_req := false;
     hi_trap_pc_sel := false; hi_trap_target_pc := 0; hi_wb_rd_addr := 0;
     hi_wb_reg_write_en := false |}.

(** [reset(dut)], the pins of a scenario, [dut->eval()]. *)
Definition hz_case (f : hu_in -> hu_in) : hz_bench unit :=
  drive (fun _ => hz_quiet) ;; settle ;; drive f ;; settle.

Definition hz_fwd_a (expected : Z) : hz_bench unit :=
  expect_out (fun _ i => forward_a_sel (hazard_unit i) =? expected).
Definition hz_fwd_b (expected : Z) : hz_bench unit :=
  expect_out (fun _ i => forward_b_sel (hazard_unit i) =? expected).
Definition hz_ctl (out : hu_ctl -> bool) (expected : bool) : hz_bench unit :=
  expect_out (fun _ i => eqb (out (hu_c (hazard_unit i))) expected).
Definition hz_redir (out : hu_redirect -> bool) (expected : bool) : hz_bench unit :=
  expect_out (fun _ i => eqb (out (hu_r (hazard_unit i))) expected).
Definition hz_target (expected : Z) : hz_bench unit :=
  expect_out (fun _ i => pc_redirect_target (hu_r (hazard_unit i)) =? expected).

(** The writes in MEM and WB that a scenario shows the unit. *)
Definition in_mem (rd : Z) (en : bool) (i : hu_in) : hu_in :=
  i <| hi_mem_rd_addr := rd |> <| hi_mem_reg_write_en := en |>.
Definition in_wb (rd : Z) (en : bool) (i : hu_in) : hu_in :=
  i <| hi_wb_rd_addr := rd |> <| hi_wb_reg_write_en := en |>.
Definition load_in_ex (rd : Z) (i : hu_in) : hu_in :=
  i <| hi_ex_is_load := true |> <| hi_ex_rd_addr := rd |>.

Definition hazard_forward_tests : hz_bench unit :=
  (* 1 *)
  hz_case (fun i => i) ;;
  hz_fwd_a 0 ;; hz_fwd_b 0 ;; hz_ctl if_stall_en false ;; hz_ctl if_id_flush_en false ;;
  hz_ctl id_ex_flush_en false ;; hz_ctl id_ex_stall_en false ;; hz_ctl ex_mem_stall_en false ;;
  hz_redir pc_redirect_sel false ;; hz_redir pc_redirect_is_trap false ;;
  (* 2 *)
  hz_case (fun i => in_mem 5 true (i <| hi_ex_rs1_addr := 5 |>)) ;; hz_fwd_a 1 ;; hz_fwd_b 0 ;;
  (* 3 *)
  hz_case (fun i => in_wb 7 true (i <| hi_ex_rs1_addr := 7 |>)) ;; hz_fwd_a 2 ;;
  (* 4 *)
  hz_case (fun i => in_mem 10 true (i <| hi_ex_rs2_addr := 10 |>)) ;; hz_fwd_b 1 ;; hz_fwd_a 0 ;;
  (* 5 *)
  hz_case (fun i => in_wb 12 true (i <| hi_ex_rs2_addr := 12 |>)) ;; hz_fwd_b 2 ;;
  (* 6 *)
  hz_case (fun i => in_wb 3 true (in_mem 3 true (i <| hi_ex_rs1_addr := 3 |>))) ;; hz_fwd_a 1 ;;
  hz_case (fun i => in_wb 3 true (in_mem 3 true (i <| hi_ex_rs2_addr := 3 |>))) ;; hz_fwd_b 1 ;;
  (* 7 *)
  hz_case (fun i => in_mem 0 true (i <| hi_ex_rs1_addr := 0 |>)) ;; hz_fwd_a 0 ;;
  hz_case (fun i => in_wb 0 true (i <| hi_ex_rs2_addr := 0 |>)) ;; hz_fwd_b 0 ;;
  (* 8 *)
  hz_case (fun i => in_mem 5 false (i <| hi_ex_rs1_addr := 5 |>)) ;; hz_fwd_a 0 ;;
  hz_case (fun i => in_wb 5 false (i <| hi_ex_rs2_addr := 5 |>)) ;; hz_fwd_b 0 ;;
  (* 9 *)
  hz_case (fun i => in_wb 9 true (in_mem 8 true
             (i <| hi_ex_rs1_addr := 8 |> <| hi_ex_rs2_addr := 9 |>))) ;;
  hz_fwd_a 1 ;; hz_fwd_b 2.

Definition hazard_stall_tests : hz_bench unit :=
  (* 10 *)
  hz_case (fun i => load_in_ex 4 i <| hi_id_rs1_addr := 4 |>) ;;
  hz_ctl if_stall_en true ;; hz_ctl if_id_stall_en true ;; hz_ctl id_ex_flush_en true ;;
  hz_ctl id_ex_stall_en false ;;
  (* 11 *)
  hz_case (fun i => load_in_ex 6 i <| hi_id_rs2_addr := 6 |>) ;;
  hz_ctl if_stall_en true ;; hz_ctl if_id_stall_en true ;; hz_ctl id_ex_flush_en true ;;
  (* 12 *)
  hz_case (fun i => load_in_ex 0 i <| hi_id_rs1_addr := 0 |>) ;; hz_ctl if_stall_en false ;;
  (* 13 *)
  hz_case (fun i => i <| hi_ex_is_load := false |> <| hi_ex_rd_addr := 4 |>
                      <| hi_id_rs1_addr := 4 |>) ;;
  hz_ctl if_stall_en false ;;
  (* 14 *)
  hz_case (fun i => i <| hi_ex_branch_taken := true |> <| hi_ex_branch_target := 0x400 |>) ;;
  hz_ctl if_id_flush_en true ;; hz_ctl id_ex_flush_en true ;; hz_ctl if_stall_en false ;;
  hz_ctl if_id_stall_en false ;; hz_redir pc_redirect_sel true ;;
  hz_redir pc_redirect_is_trap false ;; hz_target 0x400 ;;
  (* 15 *)
  hz_case (fun i => load_in_ex 4 (i <| hi_ex_branch_taken := true |>) <| hi_id_rs1_addr := 4 |>) ;;
  hz_ctl if_id_flush_en true ;; hz_ctl id_ex_flush_en true ;; hz_ctl if_stall_en false ;;
  hz_ctl if_id_stall_en false ;;
  (* 16 *)
  hz_case (fun i => i <| hi_mem_stall_req := true |>) ;;
  hz_ctl if_stall_en true ;; hz_ctl if_id_stall_en true ;; hz_ctl id_ex_stall_en true ;;
  hz_ctl ex_mem_stall_en true ;; hz_ctl if_id_flush_en false ;; hz_ctl id_ex_flush_en false ;;
  (* 17 *)
  hz_case (fun i => load_in_ex 4 (i <| hi_mem_stall_req := true |>) <| hi_id_rs1_addr := 4 |>) ;;
  hz_ctl if_stall_en true ;; hz_ctl id_ex_stall_en true ;; hz_ctl id_ex_flush_en false ;;
  (* 18 *)
  hz_case (fun i => i <| hi_ex_branch_taken := true |> <| hi_ex_branch_target := 0x410 |>
                      <| hi_mem_stall_req := true |>) ;;
  hz_ctl if_id_flush_en true ;; hz_ctl id_ex_flush_en true ;; hz_ctl if_stall_en false.

Definition hazard_trap_tests : hz_bench unit :=
  (* 19 *)
  hz_case (fun i => i <| hi_trap_pc_sel := true |> <| hi_trap_flush_req := true |>
                      <| hi_trap_target_pc := 0x800 |> <| hi_ex_branch_taken := true |>
                      <| hi_ex_branch_target := 0x900 |> <| hi_mem_stall_req := true |>) ;;
  hz_redir pc_redirect_sel true ;; hz_redir pc_redirect_is_trap true ;; hz_target 0x800 ;;
  hz_ctl if_id_flush_en true ;; hz_ctl id_ex_flush_en true ;; hz_ctl if_stall_en false ;;
  hz_ctl if_id_stall_en false ;; hz_ctl id_ex_stall_en false ;; hz_ctl ex_mem_stall_en false ;;
  (* 20 *)
  hz_case (fun i => load_in_ex 4 (i <| hi_trap_flush_req := true |>) <| hi_id_rs1_addr := 4 |>) ;;
  hz_ctl if_id_flush_en true ;; hz_ctl id_ex_flush_en true ;; hz_ctl if_stall_en false ;;
  hz_ctl if_id_stall_en false.

Definition hazard_main : hz_bench unit :=
  hazard_forward_tests ;; hazard_stall_tests ;; hazard_trap_tests.

(** ** [tb_trap_ctrl.cc] *)

Record tc_pins := mk_tc_pins {
  tp_wb_pc : Z;
  tp_trap : trap_bus;
  tp_page : page_faults;
  tp_irq : irq;
  tp_csrs : trap_csrs
}.

#[global] Instance settable_tc_pins : Settable tc_pins :=
  fun p => mk_tc_pins (tp_wb_pc p) (tp_trap p) (tp_page p) (tp_irq p) (tp_csrs p).
#[global] Instance settable_trap_bus : Settable trap_bus :=
  fun t => mk_trap_bus (trap_illegal_instr t) (trap_is_ecall t) (trap_is_ebreak t) (trap_is_mret t)
             (trap_is_sret t) (trap_epc t) (trap_load_fault t) (trap_store_fault t)
             (trap_bad_addr t) (trap_bad_instr t).
#[global] Instance settable_trap_csrs : Settable trap_csrs :=
  fun c => mk_trap_csrs (tc_mstatus_mie c) (tc_mtvec c) (tc_stvec c) (tc_mepc c) (tc_sepc c)
             (tc_medeleg c) (tc_mideleg c) (tc_priv_mode c).

Definition tc_bench : Type -> Type := ubench unit tc_pins.

Definition tc_outputs (p : tc_pins) : trap_out :=
  trap_ctrl (tp_wb_pc p) (tp_trap p) (tp_page p) (tp_irq p) (tp_csrs p).

Definition tc_check (out : trap_out -> Z) (expected : Z) : tc_bench unit :=
  expect_out (fun _ p => out (tc_outputs p) =? expected).
Definition tc_checkb (out : trap_out -> bool) : tc_bench unit :=
  expect_out (fun _ p => out (tc_outputs p)).

(** The pins after [drive_defaults]; [trap_epc] is not a pin of [trap_ctrl]. *)
Definition tc_defaults : tc_pins :=
  {| tp_wb_pc := 0;
     tp_trap :=
       {| trap_illegal_instr := false; trap_is_ecall := false; trap_is_ebreak := false;
          trap_is_mret := false; trap_is_sret := false; trap_epc := 0; trap_load_fault := false;
          trap_store_fault := false; trap_bad_addr := 0; trap_bad_instr := 0 |};
     tp_page := mk_page_faults false false false;
     tp_irq := mk_irq false false false;
     tp_csrs :=
       {| tc_mstatus_mie := false; tc_mtvec := 0x800; tc_stvec := 0x400; tc_mepc := 0x1000;
          tc_sepc := 0x2000; tc_medeleg := 0; tc_mideleg := 0; tc_priv_mode := PRIV_MODE_M |} |}.

(** [drive_defaults(dut)], the pins of a scenario, [dut->eval()]. *)
Definition tc_case (wb_pc : Z) (t : trap_bus -> trap_bus) (page : page_faults) (q : irq)
    (c : trap_csrs -> trap_csrs) : tc_bench unit :=
  drive (fun _ => tc_defaults) ;; settle ;;
  drive (fun p => mk_tc_pins wb_pc (t (tp_trap p)) page q (c (tp_csrs p))) ;; settle.

Definition no_page_fault : page_faults := mk_page_faults false false false.

Definition trap_sync_tests : tc_bench unit :=
  tc_case 0x1234 (fun t => t <| trap_bad_instr := 0xDEADBEEF |> <| trap_illegal_instr := true |>)
    no_page_fault irq_none (fun c => c <| tc_priv_mode := PRIV_MODE_M |> <| tc_mtvec := 0x880 |>) ;;
  tc_checkb to_trigger ;; tc_check to_mcause EXC_INST_ILLEGAL ;; tc_check to_mtval 0xDEADBEEF ;;
  tc_check to_mepc 0x1234 ;; tc_checkb (fun o => negb (to_to_s_mode o)) ;;
  tc_check to_next_pc 0x880 ;;
  tc_case 0x5678 (fun t => t <| trap_is_ecall := true |>) no_page_fault irq_none
    (fun c => c <| tc_priv_mode := PRIV_MODE_S |> <| tc_mtvec := 0x440 |>) ;;
  tc_checkb to_trigger ;; tc_check to_mcause EXC_ECALL_FROM_S ;; tc_check to_mtval 0 ;;
  tc_check to_next_pc 0x440 ;;
  tc_case 0 (fun t => t <| trap_bad_addr := 0xBADC0FFEE0 |>) (mk_page_faults false true false)
    irq_none (fun c => c) ;;
  tc_check to_mcause EXC_LOAD_PAGE_FAULT ;; tc_check to_mtval 0xBADC0FFEE0 ;;
  tc_case 0 (fun t => t <| trap_bad_addr := 0xDEADBEEF00 |>) (mk_page_faults false false true)
    irq_none (fun c => c) ;;
  tc_check to_mcause EXC_STORE_PAGE_FAULT ;; tc_check to_mtval 0xDEADBEEF00 ;;
  tc_case 0 (fun t => t <| trap_load_fault := true |> <| trap_bad_addr := 0xABCDEF0010 |>)
    no_page_fault irq_none (fun c => c) ;;
  tc_check to_mcause EXC_LOAD_FAULT ;; tc_check to_mtval 0xABCDEF0010 ;;
  tc_case 0 (fun t => t <| trap_store_fault := true |> <| trap_bad_addr := 0xABCDEF0020 |>)
    no_page_fault irq_none (fun c => c) ;;
  tc_check to_mcause EXC_STORE_FAULT ;; tc_check to_mtval 0xABCDEF0020.

Definition trap_interrupt_tests : tc_bench unit :=
  tc_case 0x4000 (fun t => t) no_page_fault (mk_irq true true true)
    (fun c => c <| tc_mstatus_mie := true |> <| tc_priv_mode := PRIV_MODE_M |>
                <| tc_mtvec := Z.lor 0x300 0x1 |>) ;;
  tc_checkb to_trigger ;; tc_check to_mcause (Z.lor INTERRUPT_BIT INTERRUPT_M_EXTERNAL) ;;
  tc_check to_mtval 0 ;; tc_check to_next_pc (0x300 + Z.shiftl INTERRUPT_M_EXTERNAL 2) ;;
  tc_case 0 (fun t => t) no_page_fault (mk_irq false false true)
    (fun c => c <| tc_mstatus_mie := false |>) ;;
  tc_checkb (fun o => negb (to_trigger o)) ;;
  tc_case 0xABCD (fun t => t) no_page_fault (mk_irq true false false)
    (fun c => c <| tc_priv_mode := PRIV_MODE_S |> <| tc_mstatus_mie := true |>
                <| tc_stvec := Z.lor 0x880 0x1 |>
                <| tc_mideleg := Z.shiftl 1 INTERRUPT_M_TIMER |>) ;;
  tc_checkb to_to_s_mode ;; tc_check to_next_pc (0x880 + Z.shiftl INTERRUPT_M_TIMER 2) ;;
  tc_check to_mcause (Z.lor INTERRUPT_BIT INTERRUPT_M_TIMER).

Definition trap_return_tests : tc_bench unit :=
  tc_case 0 (fun t => t <| trap_is_mret := true |>) no_page_fault irq_none
    (fun c => c <| tc_mepc := 0xCAFEBABE |>) ;;
  tc_checkb to_mret_en ;; tc_check to_next_pc 0xCAFEBABE ;;
  tc_checkb (fun o => to_flush_req o && to_pc_sel o) ;; tc_checkb (fun o => negb (to_trigger o)) ;;
  tc_case 0 (fun t => t <| trap_is_sret := true |>) no_page_fault irq_none
    (fun c => c <| tc_priv_mode := PRIV_MODE_S |> <| tc_sepc := 0x13579BDF |>) ;;
  tc_checkb to_sret_en ;; tc_check to_next_pc 0x13579BDF ;;
  tc_checkb (fun o => to_flush_req o && to_pc_sel o).

Definition trap_ctrl_main : tc_bench unit :=
  trap_sync_tests ;; trap_interrupt_tests ;; trap_return_tests.

(** ** [tb_if_stage.cc] *)

Record pc_pins := mk_pc_pins {
  pp_rst : bool;
  pp_stall_en : bool;
  pp_redirect_sel : bool;
  pp_redirect_target : Z;
  pp_redirect_is_trap : bool
}.

#[global] Instance settable_pc_pins : Settable pc_pins :=
  fun p => mk_pc_pins (pp_rst p) (pp_stall_en p) (pp_redirect_sel p) (pp_redirect_target p)
             (pp_redirect_is_trap p).

Definition pc_bench : Type -> Type := ubench Z pc_pins.

Definition pc_tick : pc_bench unit :=
  pulse (fun p pc => pc_next (pp_rst p) (pp_stall_en p) (pp_redirect_sel p) (pp_redirect_target p)
                       (pp_redirect_is_trap p) pc).

Definition check_pc (expected : Z) : pc_bench unit := expect_out (fun pc _ => expected =? pc).

Definition if_stage_main : pc_bench unit :=
  (* 1. reset *)
  drive (fun p => mk_pc_pins (pp_rst p) false false 0 false) ;;
  drive (fun p => p <| pp_rst := true |>) ;; pc_tick ;; drive (fun p => p <| pp_rst := false |>) ;;
  check_pc 0x80000000 ;;
  (* 2. increments *)
  pc_tick ;; check_pc 0x80000004 ;; pc_tick ;; check_pc 0x80000008 ;;
  (* 3. stall *)
  drive (fun p => p <| pp_stall_en := true |>) ;;
  pc_tick ;; check_pc 0x80000008 ;; pc_tick ;; check_pc 0x80000008 ;;
  drive (fun p => p <| pp_stall_en := false |>) ;; pc_tick ;; check_pc 0x8000000C ;;
  (* 4. branch *)
  drive (fun p => p <| pp_redirect_sel := true |> <| pp_redirect_is_trap := false |>
                    <| pp_redirect_target := 0x80000100 |>) ;;
  pc_tick ;; check_pc 0x80000100 ;;
  drive (fun p => p <| pp_redirect_sel := false |>) ;; pc_tick ;; check_pc 0x80000104 ;;
  (* 5. stall and branch *)
  drive (fun p => p <| pp_redirect_sel := true |> <| pp_redirect_is_trap := false |>
                    <| pp_redirect_target := 0x80000200 |> <| pp_stall_en := true |>) ;;
  pc_tick ;; check_pc 0x80000104 ;;
  drive (fun p => p <| pp_stall_en := false |>) ;; pc_tick ;; check_pc 0x80000200 ;;
  (* 6. trap *)
  drive (fun p => p <| pp_redirect_sel := false |> <| pp_redirect_is_trap := false |>
                    <| pp_redirect_target := 0 |>) ;;
  drive (fun p => p <| pp_stall_en := true |> <| pp_redirect_sel := true |>
                    <| pp_redirect_is_trap := true |> <| pp_redirect_target := 0x80000300 |>) ;;
  pc_tick ;; check_pc 0x80000300 ;;
  drive (fun p => p <| pp_stall_en := false |> <| pp_redirect_sel := false |>
                    <| pp_redirect_is_trap := false |>) ;;
  pc_tick ;; check_pc 0x80000304.

(** ** The benches of the four pipeline registers

    A register of type [R] has the pins [rst], [stall_en] and [flush_en] and an input of type
    [R]. *)

Record reg_pins (R : Type) := mk_reg_pins {
  gp_rst : bool;
  gp_stall_en : bool;
  gp_flush_en : bool;
  gp_in : R
}.
Arguments mk_reg_pins {R}.
Arguments gp_rst {R}.
Arguments gp_stall_en {R}.
Arguments gp_flush_en {R}.
Arguments gp_in {R}.

Section RegBench.
Context {R : Type} (next : bool -> bool -> bool -> R -> R -> R).

Definition reg_tick : ubench R (reg_pins R) unit :=
  pulse (fun p r => next (gp_rst p) (gp_stall_en p) (gp_flush_en p) (gp_in p) r).

(** The control pins, then the input, then a clock pulse. *)
Definition reg_step (stall flush : bool) (f : R -> R) : ubench R (reg_pins R) unit :=
  drive (fun p => mk_reg_pins (gp_rst p) stall flush (f (gp_in p))) ;; reg_tick.

(** The reset that opens each bench. *)
Definition reg_reset (f : R -> R) : ubench R (reg_pins R) unit :=
  drive (fun p => mk_reg_pins true false false (f (gp_in p))) ;; reg_tick ;;
  drive (fun p => mk_reg_pins false (gp_stall_en p) (gp_flush_en p) (gp_in p)).

Definition reg_z (out : R -> Z) (expected : Z) : ubench R (reg_pins R) unit :=
  expect_out (fun r _ => out r =? expected).
Definition reg_b (out : R -> bool) (expected : bool) : ubench R (reg_pins R) unit :=
  expect_out (fun r _ => eqb (out r) expected).
End RegBench.

(** *** [tb_if_id_reg.cc] *)

Definition if_id_reg (rst stall flush : bool) (i r : if_id) : if_id :=
  if_id_next rst stall flush (id_pc i) (id_instr i) r.

Definition ifid_step (stall flush : bool) (pc instr : Z) : ubench if_id (reg_pins if_id) unit :=
  reg_step if_id_reg stall flush (fun _ => mk_if_id pc instr).

Definition check_reg (expected_pc expected_instr : Z) : ubench if_id (reg_pins if_id) unit :=
  expect_out (fun r _ => (expected_pc =? id_pc r) && (expected_instr =? id_instr r)).

Definition if_id_main : ubench if_id (reg_pins if_id) unit :=
  reg_reset if_id_reg (fun _ => mk_if_id 0x80000000 0xDEADBEEF) ;;
  check_reg 0 0x00000013 ;;
  ifid_step false false 0x80001000 0x02A00093 ;; check_reg 0x80001000 0x02A00093 ;;
  ifid_step true false 0x80001004 0x000280B3 ;; check_reg 0x80001000 0x02A00093 ;;
  ifid_step true false 0x80001008 0x008000EF ;; check_reg 0x80001000 0x02A00093 ;;
  ifid_step false false 0x80001008 0x008000EF ;; check_reg 0x80001008 0x008000EF ;;
  ifid_step false true 0x8000100C 0xDEADBEEF ;; check_reg 0 0x00000013 ;;
  ifid_step false false 0x80002000 0x12345678 ;; check_reg 0x80002000 0x12345678 ;;
  ifid_step true true 0x80002000 0x12345678 ;; check_reg 0 0x00000013.

(** *** [tb_id_ex_reg.cc] *)

Definition in_ex_c (f : ex_ctl -> ex_ctl) (r : id_ex) : id_ex :=
  r <| ex_dec := ex_dec r <| ex_c := f (ex_c (ex_dec r)) |> |>.
Definition in_mem_c (f : mem_ctl -> mem_ctl) (r : id_ex) : id_ex :=
  r <| ex_dec := ex_dec r <| mem_c := f (mem_c (ex_dec r)) |> |>.
Definition in_wb_c (f : wb_ctl -> wb_ctl) (r : id_ex) : id_ex :=
  r <| ex_dec := ex_dec r <| wb_c := f (wb_c (ex_dec r)) |> |>.
Definition in_sys_c (f : sys_ctl -> sys_ctl) (r : id_ex) : id_ex :=
  r <| ex_dec := ex_dec r <| sys_c := f (sys_c (ex_dec r)) |> |>.
Definition in_operands (rs1 rs2 immediate : Z) (r : id_ex) : id_ex :=
  r <| ex_dec := ex_dec r <| rs1_addr := rs1 |> <| rs2_addr := rs2 |> <| imm := immediate |> |>.

Definition o_reg_write_en (r : id_ex) : bool := reg_write_en (wb_c (ex_dec r)).
Definition o_rd_addr (r : id_ex) : Z := rd_addr (wb_c (ex_dec r)).
Definition o_is_load (r : id_ex) : bool := is_load (mem_c (ex_dec r)).
Definition o_is_store (r : id_ex) : bool := is_store (mem_c (ex_dec r)).
Definition o_is_branch (r : id_ex) : bool := is_branch (ex_c (ex_dec r)).

Definition id_ex_main : ubench id_ex (reg_pins id_ex) unit :=
  (* 1. reset *)
  reg_reset id_ex_next (fun i =>
    in_ex_c (fun c => c <| alu_op := ALU_XOR |> <| is_branch := true |> <| is_jump := true |>)
      (in_mem_c (fun c => c <| is_store := true |> <| is_load := true |>)
      (in_wb_c (fun c => c <| reg_write_en := true |>)
      (in_sys_c (fun c => c <| is_csr := true |> <| illegal_instr := true |>)
      (in_operands 31 15 0x1A2B3C i)))) <| ex_pc := 0x80001000 |> <| ex_rs1_rdata := 0x11111111 |>
      <| ex_rs2_rdata := 0x22222222 |>) ;;
  reg_z ex_pc 0 ;; reg_b o_reg_write_en false ;; reg_b o_is_store false ;;
  reg_b o_is_load false ;; reg_b o_is_branch false ;;
  reg_b (fun r => is_jump (ex_c (ex_dec r))) false ;;
  reg_b (fun r => is_csr (sys_c (ex_dec r))) false ;;
  reg_b (fun r => illegal_instr (sys_c (ex_dec r))) false ;;
  (* 2. propagation *)
  reg_step id_ex_next false false (fun i =>
    in_ex_c (fun c => c <| alu_op := ALU_ADD |> <| is_branch := false |>)
      (in_mem_c (fun c => c <| is_load := true |>)
      (in_wb_c (fun c => c <| reg_write_en := true |> <| rd_addr := 5 |>)
      (in_operands 10 11 42 i))) <| ex_pc := 0x80002000 |> <| ex_rs1_rdata := 0xAAAAAAAA |>
      <| ex_rs2_rdata := 0xBBBBBBBB |>) ;;
  reg_z ex_pc 0x80002000 ;; reg_z ex_rs1_rdata 0xAAAAAAAA ;; reg_z ex_rs2_rdata 0xBBBBBBBB ;;
  reg_z (fun r => rs1_addr (ex_dec r)) 10 ;; reg_z (fun r => rs2_addr (ex_dec r)) 11 ;;
  reg_z (fun r => imm (ex_dec r)) 42 ;;
  reg_z (fun r => alu_op_enc (alu_op (ex_c (ex_dec r)))) (alu_op_enc ALU_ADD) ;;
  reg_b o_reg_write_en true ;; reg_z o_rd_addr 5 ;; reg_b o_is_load true ;;
  (* 3. stall *)
  reg_step id_ex_next true false (fun i =>
    in_wb_c (fun c => c <| rd_addr := 10 |> <| reg_write_en := false |>)
      (in_mem_c (fun c => c <| is_load := false |>) i) <| ex_pc := 0x80003000 |>) ;;
  reg_z ex_pc 0x80002000 ;; reg_z o_rd_addr 5 ;; reg_b o_reg_write_en true ;;
  reg_b o_is_load true ;;
  reg_step id_ex_next false false (fun i => i) ;;
  reg_z ex_pc 0x80003000 ;; reg_z o_rd_addr 10 ;; reg_b o_reg_write_en false ;;
  (* 4. flush *)
  reg_step id_ex_next false true (fun i =>
    in_wb_c (fun c => c <| reg_write_en := true |>)
      (in_mem_c (fun c => c <| is_store := true |>)
      (in_ex_c (fun c => c <| is_branch := true |>) i)) <| ex_pc := 0x80004000 |>) ;;
  reg_z ex_pc 0x80003000 ;; reg_b o_reg_write_en false ;; reg_b o_is_store false ;;
  reg_b o_is_branch false ;;
  (* 5. flush and stall *)
  reg_step id_ex_next false false (fun i =>
    in_wb_c (fun c => c <| reg_write_en := true |>) i <| ex_pc := 0x80005000 |>) ;;
  reg_z ex_pc 0x80005000 ;;
  reg_step id_ex_next true true (fun i => i <| ex_pc := 0x80006000 |>) ;;
  reg_z ex_pc 0x80005000 ;; reg_b o_reg_write_en false.

(** *** [tb_ex_mem_reg.cc] *)

Definition m_mc (f : mem_ctl -> mem_ctl) (r : ex_mem) : ex_mem := r <| mem_mc := f (mem_mc r) |>.
Definition m_wc (f : wb_ctl -> wb_ctl) (r : ex_mem) : ex_mem := r <| mem_wc := f (mem_wc r) |>.
Definition m_sc (f : sys_ctl -> sys_ctl) (r : ex_mem) : ex_mem := r <| mem_sc := f (mem_sc r) |>.

Definition m_reg_write_en (r : ex_mem) : bool := reg_write_en (mem_wc r).
Definition m_rd_addr (r : ex_mem) : Z := rd_addr (mem_wc r).
Definition m_is_load (r : ex_mem) : bool := is_load (mem_mc r).
Definition m_is_store (r : ex_mem) : bool := is_store (mem_mc r).

Definition ex_mem_main : ubench ex_mem (reg_pins ex_mem) unit :=
  (* 1. reset *)
  reg_reset ex_mem_next (fun i =>
    m_mc (fun c => c <| is_store := true |> <| is_load := true |>)
      (m_wc (fun c => c <| reg_write_en := true |>)
      (m_sc (fun c => c <| is_csr := true |> <| illegal_instr := true |>) i))
      <| mem_pc := 0x80001000 |> <| mem_rs1_rdata := 0x11111111 |>
      <| mem_rs2_rdata := 0x22222222 |> <| mem_rs1_addr := 31 |>
      <| mem_alu_result := 0x88888888 |> <| mem_branch_taken := true |>
      <| mem_branch_target := 0x80001020 |>) ;;
  reg_z mem_pc 0 ;; reg_b mem_branch_taken false ;; reg_b m_reg_write_en false ;;
  reg_b m_is_store false ;; reg_b m_is_load false ;; reg_b (fun r => is_csr (mem_sc r)) false ;;
  reg_b (fun r => illegal_instr (mem_sc r)) false ;;
  (* 2. propagation *)
  reg_step ex_mem_next false false (fun i =>
    m_mc (fun c => c <| is_store := false |> <| is_load := true |>)
      (m_wc (fun c => c <| reg_write_en := true |> <| rd_addr := 15 |> <| wb_sel := 1 |>) i)
      <| mem_pc := 0x80002000 |> <| mem_rs1_rdata := 0xAAAAAAAA |>
      <| mem_rs2_rdata := 0xBBBBBBBB |> <| mem_rs1_addr := 15 |>
      <| mem_alu_result := 0xCAFEBABE |> <| mem_branch_taken := true |>
      <| mem_branch_target := 0x80002008 |>) ;;
  reg_z mem_pc 0x80002000 ;; reg_z mem_rs1_rdata 0xAAAAAAAA ;; reg_z mem_rs2_rdata 0xBBBBBBBB ;;
  reg_z mem_rs1_addr 15 ;; reg_z mem_alu_result 0xCAFEBABE ;; reg_b mem_branch_taken true ;;
  reg_z mem_branch_target 0x80002008 ;; reg_b m_is_load true ;; reg_b m_reg_write_en true ;;
  reg_z m_rd_addr 15 ;; reg_z (fun r => wb_sel (mem_wc r)) 1 ;;
  (* 3. stall *)
  reg_step ex_mem_next true false (fun i =>
    m_wc (fun c => c <| rd_addr := 20 |> <| reg_write_en := false |>)
      (m_mc (fun c => c <| is_load := false |>) i)
      <| mem_pc := 0x80003000 |> <| mem_rs1_rdata := 0xCCCCCCCC |> <| mem_rs1_addr := 20 |>
      <| mem_branch_taken := false |>) ;;
  reg_z mem_pc 0x80002000 ;; reg_z mem_rs1_rdata 0xAAAAAAAA ;; reg_z mem_rs1_addr 15 ;;
  reg_b mem_branch_taken true ;; reg_z m_rd_addr 15 ;; reg_b m_reg_write_en true ;;
  reg_b m_is_load true ;;
  reg_step ex_mem_next false false (fun i => i) ;;
  reg_z mem_pc 0x80003000 ;; reg_z mem_rs1_rdata 0xCCCCCCCC ;; reg_z mem_rs1_addr 20 ;;
  reg_b mem_branch_taken false ;; reg_z m_rd_addr 20 ;; reg_b m_reg_write_en false ;;
  (* 4. flush *)
  reg_step ex_mem_next false true (fun i =>
    m_wc (fun c => c <| reg_write_en := true |>) (m_mc (fun c => c <| is_store := true |>) i)
      <| mem_pc := 0x80004000 |> <| mem_branch_taken := true |>) ;;
  reg_z mem_pc 0x80003000 ;; reg_b mem_branch_taken false ;; reg_b m_reg_write_en false ;;
  reg_b m_is_store false ;;
  (* 5. flush and stall *)
  reg_step ex_mem_next false false (fun i =>
    m_wc (fun c => c <| reg_write_en := true |>) i <| mem_pc := 0x80005000 |>) ;;
  reg_z mem_pc 0x80005000 ;;
  reg_step ex_mem_next true true (fun i =>
    i <| mem_pc := 0x80006000 |> <| mem_branch_taken := true |>) ;;
  reg_z mem_pc 0x80005000 ;; reg_b mem_branch_taken false ;; reg_b m_reg_write_en false ;;
  reg_b m_is_store false.

(** *** [tb_mem_wb_reg.cc] *)

Definition w_wc (f : wb_ctl -> wb_ctl) (r : mem_wb) : mem_wb := r <| wb_wc := f (wb_wc r) |>.
Definition w_sc (f : sys_ctl -> sys_ctl) (r : mem_wb) : mem_wb := r <| wb_sc := f (wb_sc r) |>.

Definition w_reg_write_en (r : mem_wb) : bool := reg_write_en (wb_wc r).
Definition w_rd_addr (r : mem_wb) : Z := rd_addr (wb_wc r).
Definition w_is_csr (r : mem_wb) : bool := is_csr (wb_sc r).

Definition mem_wb_main : ubench mem_wb (reg_pins mem_wb) unit :=
  (* 1. reset *)
  reg_reset mem_wb_next (fun i =>
    w_wc (fun c => c <| reg_write_en := true |> <| rd_addr := 31 |> <| wb_sel := 1 |>)
      (w_sc (fun c => c <| is_csr := true |> <| csr_op := 2 |> <| is_ecall := true |>
                        <| illegal_instr := true |> <| is_sret := true |>) i)
      <| wb_pc := 0x80001000 |> <| wb_alu_result := 0x11111111 |>
      <| wb_mem_rdata := 0x22222222 |> <| wb_rs1_rdata := 0x999 |> <| wb_rs1_addr := 5 |>
      <| wb_imm := 0x333 |>) ;;
  reg_z wb_pc 0 ;; reg_z wb_alu_result 0 ;; reg_b w_reg_write_en false ;; reg_b w_is_csr false ;;
  reg_b (fun r => illegal_instr (wb_sc r)) false ;;
  (* 2. propagation *)
  reg_step mem_wb_next false false (fun i =>
    w_wc (fun c => c <| rd_addr := 15 |> <| reg_write_en := true |> <| wb_sel := 1 |>)
      (w_sc (fun c => c <| is_csr := true |> <| csr_op := 3 |> <| is_ecall := false |>) i)
      <| wb_pc := 0x80002000 |> <| wb_alu_result := 0xAAAAAAAA |>
      <| wb_mem_rdata := 0xBBBBBBBB |> <| wb_rs1_rdata := 0x777 |> <| wb_rs1_addr := 6 |>
      <| wb_imm := 0x888 |>) ;;
  reg_z wb_pc 0x80002000 ;; reg_z wb_alu_result 0xAAAAAAAA ;; reg_z wb_mem_rdata 0xBBBBBBBB ;;
  reg_z w_rd_addr 15 ;; reg_b w_reg_write_en true ;; reg_z (fun r => wb_sel (wb_wc r)) 1 ;;
  reg_b w_is_csr true ;; reg_z (fun r => csr_op (wb_sc r)) 3 ;; reg_z wb_rs1_rdata 0x777 ;;
  reg_z wb_rs1_addr 6 ;; reg_z wb_imm 0x888 ;;
  (* 3. stall *)
  reg_step mem_wb_next true false (fun i =>
    w_wc (fun c => c <| rd_addr := 20 |> <| reg_write_en := false |>) i
      <| wb_pc := 0x80003000 |>) ;;
  reg_z wb_pc 0x80002000 ;; reg_z w_rd_addr 15 ;; reg_b w_reg_write_en true ;;
  reg_step mem_wb_next false false (fun i => i) ;;
  reg_z wb_pc 0x80003000 ;; reg_z w_rd_addr 20 ;; reg_b w_reg_write_en false ;;
  (* 4. flush *)
  reg_step mem_wb_next false true (fun i =>
    w_wc (fun c => c <| reg_write_en := true |>) (w_sc (fun c => c <| is_csr := true |>) i)
      <| wb_pc := 0x80004000 |> <| wb_alu_result := 0xCCCCCCCC |>) ;;
  reg_z wb_pc 0x80003000 ;; reg_z wb_alu_result 0xAAAAAAAA ;; reg_b w_reg_write_en false ;;
  reg_b w_is_csr false ;;
  (* 5. flush and stall *)
  reg_step mem_wb_next false false (fun i =>
    w_wc (fun c => c <| reg_write_en := true |>) i <| wb_pc := 0x80005000 |>) ;;
  reg_z wb_pc 0x80005000 ;;
  reg_step mem_wb_next true true (fun i => i <| wb_pc := 0x80006000 |>) ;;
  reg_z wb_pc 0x80005000 ;; reg_b w_reg_write_en false.

(** ** Properties *)

(** The pipeline control passes its unit benches.  From every state and with every level on
    the pins at power-on, the benches of the hazard unit, the trap controller, the fetch stage and
    the four pipeline registers run to their ends with every check satisfied. *)
Example control_benches_pass :
  (forall p q, checks hazard_main tt p q = Some 68) /\
  (forall p q, checks trap_ctrl_main tt p q = Some 33) /\
  (forall pc p q, checks if_stage_main pc p q = Some 12) /\
  (forall r p q, checks if_id_main r p q = Some 8) /\
  (forall r p q, checks id_ex_main r p q = Some 32) /\
  (forall r p q, checks ex_mem_main r p q = Some 40) /\
  (forall r p q, checks mem_wb_main r p q = Some 29).
Proof. repeat split; intros; vm_compute; reflexivity. Qed.
