(* ===== verification/CsrBench.v ===== *)
(** * The unit bench of the CSR unit: [tb/unit/tb_csr.cc]

    The scenarios of the bench in their order, each a part of [main].  An [assert] is a check; the
    output pins an assertion reads are those of the last evaluation, which matters where the bench
    changes an input without evaluating the module again. *)

From S2P Require Import Prelude Rv64Pkg TrapCtrl CsrUnit UnitBench.

Definition CSR_OP_WRITE : Z := 1.
Definition CSR_OP_SET : Z := 2.
Definition CSR_OP_CLEAR : Z := 3.
Definition PRIV_ENCODE_U : Z := 0.
Definition PRIV_ENCODE_S : Z := 1.
Definition PRIV_ENCODE_M : Z := 3.

Record csr_pins := mk_csr_pins { cp_rst : bool; cp_in : csr_in }.

Definition csr_bench : Type -> Type := ubench csr csr_pins.

Definition csr_drive (f : csr_in -> csr_in) : csr_bench unit :=
  drive (fun p => mk_csr_pins (cp_rst p) (f (cp_in p))).

Definition csr_tick : csr_bench unit := pulse (fun p s => csr_next (cp_rst p) (cp_in p) s).

Definition drive_defaults : csr_bench unit :=
  drive (fun _ => mk_csr_pins false
    {| ci_req := false; ci_op := 0; ci_addr := 0; ci_rs1_data := 0; ci_trap_trigger := false;
       ci_trap_to_s_mode := false; ci_trap_mepc := 0; ci_trap_mcause := 0; ci_trap_mtval := 0;
       ci_mret_en := false; ci_sret_en := false |}).

Definition apply_reset : csr_bench unit :=
  drive (fun p => mk_csr_pins true (cp_in p)) ;; csr_tick ;;
  drive (fun p => mk_csr_pins false (cp_in p)) ;; csr_tick.

Definition clear_trap_lines : csr_bench unit :=
  csr_drive (fun i => i <| ci_trap_trigger := false |> <| ci_trap_to_s_mode := false |>
                        <| ci_trap_mepc := 0 |> <| ci_trap_mcause := 0 |> <| ci_trap_mtval := 0 |>
                        <| ci_mret_en := false |> <| ci_sret_en := false |>).

Definition trigger_trap (mepc mcause mtval : Z) (to_s_mode : bool) : csr_bench unit :=
  csr_drive (fun i => i <| ci_trap_trigger := true |> <| ci_trap_mepc := mepc |>
                        <| ci_trap_mcause := mcause |> <| ci_trap_mtval := mtval |>
                        <| ci_trap_to_s_mode := to_s_mode |>) ;;
  csr_tick ;;
  csr_drive (fun i => i <| ci_trap_trigger := false |> <| ci_trap_mepc := 0 |>
                        <| ci_trap_mcause := 0 |> <| ci_trap_mtval := 0 |>
                        <| ci_trap_to_s_mode := false |>).

Definition run_csr_scenario (body : csr_bench unit) : csr_bench unit := clear_trap_lines ;; body.

Definition tb_read_csr (addr : Z) : csr_bench Z :=
  csr_drive (fun i => i <| ci_addr := addr |> <| ci_req := false |> <| ci_op := 0 |>
                        <| ci_rs1_data := 0 |>) ;;
  settle ;;
  sample (fun s p => csr_rdata csr_params_default s (ci_addr (cp_in p))).

Definition tb_csr_op (addr op data : Z) : csr_bench unit :=
  csr_drive (fun i => i <| ci_addr := addr |> <| ci_op := op |> <| ci_rs1_data := data |>
                        <| ci_req := true |>) ;;
  csr_tick ;;
  csr_drive (fun i => i <| ci_req := false |> <| ci_op := 0 |> <| ci_rs1_data := 0 |>
                        <| ci_addr := 0 |>).

Definition advance_cycles (cycles : nat) : csr_bench unit :=
  for_each (seq 0 cycles) (fun _ => csr_tick).

Definition mret_pulse : csr_bench unit :=
  csr_drive (fun i => i <| ci_mret_en := true |>) ;; csr_tick ;;
  csr_drive (fun i => i <| ci_mret_en := false |>).
Definition sret_pulse : csr_bench unit :=
  csr_drive (fun i => i <| ci_sret_en := true |>) ;; csr_tick ;;
  csr_drive (fun i => i <| ci_sret_en := false |>).

Definition force_priv_mode_via_mret (encoded_mode : Z) : csr_bench unit :=
  mstatus ← tb_read_csr CSR_MSTATUS;
  let mstatus := Z.land mstatus (bnot 64 (Z.shiftl 0x3 MSTATUS_MPP_LO)) in
  let mstatus := Z.lor mstatus (wrap 64 (Z.shiftl encoded_mode MSTATUS_MPP_LO)) in
  tb_csr_op CSR_MSTATUS CSR_OP_WRITE mstatus ;;
  mret_pulse.

(** The cause, and whether it is an interrupt. *)
Definition arbitrate_trap_priority (ext_external ext_software ext_timer has_sync : bool)
    (sync_cause : Z) : Z * bool :=
  if ext_external then (Z.lor INTERRUPT_BIT INTERRUPT_M_EXTERNAL, true)
  else if ext_software then (Z.lor INTERRUPT_BIT INTERRUPT_M_SOFTWARE, true)
  else if ext_timer then (Z.lor INTERRUPT_BIT INTERRUPT_M_TIMER, true)
  else (if has_sync then sync_cause else 0, false).

(** [assert(read_csr(dut, addr) == expected)] *)
Definition assert_csr (addr expected : Z) : csr_bench unit :=
  v ← tb_read_csr addr; expect_true (v =? expected).

(** [assert(((v >> bit) & mask) == expected)] *)
Definition assert_field (v bit mask expected : Z) : csr_bench unit :=
  expect_true (Z.land (Z.shiftr v bit) mask =? expected).
Definition assert_bit (v bit expected : Z) : csr_bench unit := assert_field v bit 1 expected.

Definition assert_priv_mode (expected : Z) : csr_bench unit :=
  expect_out (fun s _ => priv_mode_q s =? expected).
Definition assert_trap_to_s (expected : bool) : csr_bench unit :=
  expect_out (fun s _ => eqb (trap_to_s_q s) expected).
Definition assert_trap_vector (expected : Z) : csr_bench unit :=
  expect_out (fun s _ => trap_vector_q s =? expected).
Definition assert_illegal_access (expected : bool) : csr_bench unit :=
  expect_out (fun _ p =>
    let i := cp_in p in eqb (csr_illegal_access (ci_req i) (ci_op i) (ci_addr i)) expected).

Definition csr_access_tests : csr_bench unit :=
  (* reset *)
  assert_csr CSR_MSTATUS 0 ;; assert_csr CSR_MIE 0 ;; assert_csr CSR_MEPC 0 ;;
  assert_csr CSR_SSTATUS 0 ;; assert_csr CSR_SATP 0 ;;
  (* CSRRW *)
  tb_csr_op CSR_MTVEC CSR_OP_WRITE 0x1020 ;; assert_csr CSR_MTVEC 0x1020 ;;
  tb_csr_op CSR_MSCRATCH CSR_OP_WRITE 0xCAFEBABE ;; assert_csr CSR_MSCRATCH 0xCAFEBABE ;;
  (* CSRRS, CSRRC *)
  tb_csr_op CSR_MIE CSR_OP_WRITE 0 ;;
  tb_csr_op CSR_MIE CSR_OP_SET 0xB ;; assert_csr CSR_MIE 0xB ;;
  tb_csr_op CSR_MIE CSR_OP_CLEAR 0x3 ;; assert_csr CSR_MIE 0x8 ;;
  tb_csr_op CSR_MIE CSR_OP_SET 0x0 ;; assert_csr CSR_MIE 0x8 ;;
  (* read-only registers *)
  misa_ro_snapshot ← tb_read_csr CSR_MISA;
  tb_csr_op CSR_MISA CSR_OP_WRITE 0 ;; assert_csr CSR_MISA misa_ro_snapshot ;;
  (* counters *)
  tb_csr_op CSR_CYCLE CSR_OP_WRITE 0x40 ;; assert_csr CSR_MCYCLE 0x40 ;;
  advance_cycles 5 ;; assert_csr CSR_MCYCLE 0x45 ;;
  instret_before ← tb_read_csr CSR_MINSTRET;
  advance_cycles 3 ;; assert_csr CSR_MINSTRET (add64 instret_before 3).

Definition csr_trap_tests : csr_bench unit :=
  mstatus ← tb_read_csr CSR_MSTATUS;
  tb_csr_op CSR_MSTATUS CSR_OP_WRITE (Z.lor mstatus (Z.shiftl 1 MSTATUS_MIE_BIT)) ;;
  instret_pre_trap ← tb_read_csr CSR_MINSTRET;
  trigger_trap 0xDEAD EXC_INST_ILLEGAL 0xDEAD false ;;
  assert_csr CSR_MINSTRET instret_pre_trap ;;
  advance_cycles 1 ;; assert_csr CSR_MINSTRET (add64 instret_pre_trap 1) ;;
  assert_csr CSR_MEPC 0xDEAD ;; assert_csr CSR_MCAUSE EXC_INST_ILLEGAL ;;
  assert_csr CSR_MTVAL 0xDEAD ;;
  mstatus_after_trap ← tb_read_csr CSR_MSTATUS;
  assert_bit mstatus_after_trap MSTATUS_MIE_BIT 0 ;;
  assert_bit mstatus_after_trap MSTATUS_MPIE_BIT 1 ;;
  assert_field mstatus_after_trap MSTATUS_MPP_LO 0x3 PRIV_ENCODE_M ;;
  (* mret *)
  mret_pulse ;;
  mstatus_after_mret ← tb_read_csr CSR_MSTATUS;
  assert_bit mstatus_after_mret MSTATUS_MIE_BIT 1 ;;
  assert_bit mstatus_after_mret MSTATUS_MPIE_BIT 1 ;;
  assert_field mstatus_after_mret MSTATUS_MPP_LO 0x3 PRIV_ENCODE_U ;;
  (* sret *)
  tb_csr_op CSR_SSTATUS CSR_OP_WRITE
    (Z.lor (Z.shiftl 1 SSTATUS_SIE_BIT) (Z.shiftl 1 SSTATUS_SPP_BIT)) ;;
  sret_pulse ;;
  sstatus_after_sret ← tb_read_csr CSR_SSTATUS;
  assert_bit sstatus_after_sret SSTATUS_SIE_BIT 0 ;;
  assert_bit sstatus_after_sret SSTATUS_SPIE_BIT 1 ;;
  assert_bit sstatus_after_sret SSTATUS_SPP_BIT 0.

(** An environment call that traps to machine mode from a mode with this encoding. *)
Definition ecall_from (mode pc cause : Z) : csr_bench unit :=
  force_priv_mode_via_mret mode ;;
  trigger_trap pc cause 0 false ;;
  assert_csr CSR_MCAUSE cause ;; assert_csr CSR_MTVAL 0 ;; assert_csr CSR_MEPC pc ;;
  mstatus ← tb_read_csr CSR_MSTATUS;
  assert_field mstatus MSTATUS_MPP_LO 0x3 mode.

Definition csr_delegation_tests : csr_bench unit :=
  ecall_from PRIV_ENCODE_S 0x600 EXC_ECALL_FROM_S ;;
  ecall_from PRIV_ENCODE_U 0x700 EXC_ECALL_FROM_U ;;
  tb_csr_op CSR_MEDELEG CSR_OP_WRITE 0 ;;
  tb_csr_op CSR_MEDELEG CSR_OP_SET (Z.shiftl 1 EXC_ECALL_FROM_U) ;;
  tb_csr_op CSR_STVEC CSR_OP_WRITE 0x4000 ;;
  medeleg ← tb_read_csr CSR_MEDELEG;
  expect_true (negb (Z.land medeleg (Z.shiftl 1 EXC_ECALL_FROM_U) =? 0)) ;;
  force_priv_mode_via_mret PRIV_ENCODE_U ;; assert_priv_mode PRIV_ENCODE_U ;;
  trigger_trap 0x900 EXC_ECALL_FROM_U 0 true ;;
  assert_trap_to_s true ;; assert_trap_vector 0x4000 ;; assert_csr CSR_SEPC 0x900 ;;
  assert_csr CSR_SCAUSE EXC_ECALL_FROM_U ;; assert_csr CSR_STVAL 0 ;;
  assert_priv_mode PRIV_ENCODE_S ;;
  force_priv_mode_via_mret PRIV_ENCODE_M.

Definition csr_supervisor_tests : csr_bench unit :=
  tb_csr_op CSR_SIE CSR_OP_WRITE 0x55 ;; tb_csr_op CSR_SSCRATCH CSR_OP_WRITE 0xAA ;;
  tb_csr_op CSR_SEPC CSR_OP_WRITE 0x1234 ;; tb_csr_op CSR_SCAUSE CSR_OP_WRITE 0x21 ;;
  tb_csr_op CSR_SIP CSR_OP_WRITE 0x3 ;; tb_csr_op CSR_SATP CSR_OP_WRITE 0x8000000000000000 ;;
  assert_csr CSR_SIE 0x55 ;; assert_csr CSR_SSCRATCH 0xAA ;; assert_csr CSR_SEPC 0x1234 ;;
  assert_csr CSR_SCAUSE 0x21 ;; assert_csr CSR_SIP 0x3 ;;
  assert_csr CSR_SATP 0x8000000000000000 ;;
  (* sstatus and mstatus *)
  tb_csr_op CSR_SSTATUS CSR_OP_WRITE (Z.shiftl 1 SSTATUS_SIE_BIT) ;;
  m1 ← tb_read_csr CSR_MSTATUS; assert_bit m1 SSTATUS_SIE_BIT 1 ;;
  tb_csr_op CSR_SSTATUS CSR_OP_WRITE 0 ;;
  m2 ← tb_read_csr CSR_MSTATUS; assert_bit m2 SSTATUS_SIE_BIT 0 ;;
  (* floating point *)
  tb_csr_op CSR_FFLAGS CSR_OP_WRITE 0x1F ;;
  f1 ← tb_read_csr CSR_FFLAGS; assert_field f1 0 0x1F 0x1F ;;
  tb_csr_op CSR_FRM CSR_OP_WRITE 0x7 ;;
  f2 ← tb_read_csr CSR_FRM; assert_field f2 0 0x7 0x7 ;;
  tb_csr_op CSR_FCSR CSR_OP_WRITE 0xAB ;;
  f3 ← tb_read_csr CSR_FFLAGS; assert_field f3 0 0x1F (Z.land 0xAB 0x1F) ;;
  f4 ← tb_read_csr CSR_FRM; assert_field f4 0 0x7 (Z.land (Z.shiftr 0xAB 5) 0x7).

(** ** The scenarios *)

Record priority_scenario := mk_priority_scenario {
  ps_external : bool;
  ps_software : bool;
  ps_timer : bool;
  ps_illegal : bool;
  ps_mepc : Z;
  ps_mtval : Z;
  ps_expected_cause : Z
}.

Definition priority_suite : list priority_scenario :=
  [mk_priority_scenario true true true true 0xA000 0x1111
     (Z.lor INTERRUPT_BIT INTERRUPT_M_EXTERNAL);
   mk_priority_scenario false true true true 0xA040 0x2222
     (Z.lor INTERRUPT_BIT INTERRUPT_M_SOFTWARE);
   mk_priority_scenario false false true true 0xA080 0x3333
     (Z.lor INTERRUPT_BIT INTERRUPT_M_TIMER);
   mk_priority_scenario true false false false 0xA0C0 0x0
     (Z.lor INTERRUPT_BIT INTERRUPT_M_EXTERNAL);
   mk_priority_scenario false false false true 0xA100 0x4444 EXC_INST_ILLEGAL].

Definition interrupt_priority_matrix : csr_bench unit :=
  for_each priority_suite (fun sc =>
    let '(chosen_cause, chose_interrupt) :=
      arbitrate_trap_priority (ps_external sc) (ps_software sc) (ps_timer sc) (ps_illegal sc)
        EXC_INST_ILLEGAL in
    expect_true (chosen_cause =? ps_expected_cause sc) ;;
    trigger_trap (ps_mepc sc) chosen_cause (if ps_illegal sc then ps_mtval sc else 0) false ;;
    mcause ← tb_read_csr CSR_MCAUSE;
    expect_true (mcause =? ps_expected_cause sc) ;;
    assert_csr CSR_MEPC (ps_mepc sc) ;;
    let mcause_is_interrupt := negb (Z.land mcause INTERRUPT_BIT =? 0) in
    expect_true (eqb mcause_is_interrupt chose_interrupt) ;;
    (if ps_illegal sc && negb mcause_is_interrupt
     then assert_csr CSR_MTVAL (ps_mtval sc) else mret tt) ;;
    assert_priv_mode PRIV_ENCODE_M).

Definition delegated_multitrap_context : csr_bench unit :=
  tb_csr_op CSR_MEDELEG CSR_OP_WRITE 0 ;;
  tb_csr_op CSR_MEDELEG CSR_OP_SET (Z.shiftl 1 EXC_ECALL_FROM_U) ;;
  tb_csr_op CSR_STVEC CSR_OP_WRITE 0x4000 ;;
  tb_csr_op CSR_MTVEC CSR_OP_WRITE 0x8000 ;;
  force_priv_mode_via_mret PRIV_ENCODE_S ;; assert_priv_mode PRIV_ENCODE_S ;;
  let delegated_pc := 0x900 in
  trigger_trap delegated_pc EXC_ECALL_FROM_U 0 true ;;
  assert_trap_to_s true ;; assert_trap_vector 0x4000 ;; assert_csr CSR_SEPC delegated_pc ;;
  assert_csr CSR_SCAUSE EXC_ECALL_FROM_U ;; assert_priv_mode PRIV_ENCODE_S ;;
  let machine_pc := 0xA00 in
  trigger_trap machine_pc EXC_INST_ILLEGAL 0 false ;;
  assert_trap_to_s false ;; assert_trap_vector 0x8000 ;; assert_csr CSR_MEPC machine_pc ;;
  assert_csr CSR_SEPC delegated_pc ;; assert_priv_mode PRIV_ENCODE_M.

Definition nested_return_sequence : csr_bench unit :=
  force_priv_mode_via_mret PRIV_ENCODE_U ;;
  tb_csr_op CSR_SSTATUS CSR_OP_WRITE (Z.shiftl 1 SSTATUS_SIE_BIT) ;;
  let first_trap_pc := 0xB00 in
  trigger_trap first_trap_pc EXC_ECALL_FROM_U 0 true ;;
  sstatus_snapshot ← tb_read_csr CSR_SSTATUS;
  assert_bit sstatus_snapshot SSTATUS_SIE_BIT 0 ;;
  assert_bit sstatus_snapshot SSTATUS_SPIE_BIT 1 ;;
  assert_bit sstatus_snapshot SSTATUS_SPP_BIT 0 ;;
  assert_csr CSR_SEPC first_trap_pc ;;
  sret_pulse ;;
  sstatus_after_sret ← tb_read_csr CSR_SSTATUS;
  assert_bit sstatus_after_sret SSTATUS_SIE_BIT 1 ;;
  assert_bit sstatus_after_sret SSTATUS_SPIE_BIT 1 ;;
  assert_priv_mode PRIV_ENCODE_U ;;
  tb_csr_op CSR_MSTATUS CSR_OP_SET (Z.shiftl 1 MSTATUS_MIE_BIT) ;;
  let second_trap_pc := 0xB80 in
  trigger_trap second_trap_pc EXC_INST_ILLEGAL 0 false ;;
  mstatus_snapshot ← tb_read_csr CSR_MSTATUS;
  assert_bit mstatus_snapshot MSTATUS_MIE_BIT 0 ;;
  assert_bit mstatus_snapshot MSTATUS_MPIE_BIT 1 ;;
  assert_field mstatus_snapshot MSTATUS_MPP_LO 0x3 PRIV_ENCODE_U ;;
  assert_csr CSR_MEPC second_trap_pc ;;
  mret_pulse ;;
  mstatus_after_mret ← tb_read_csr CSR_MSTATUS;
  assert_bit mstatus_after_mret MSTATUS_MIE_BIT 1 ;;
  assert_bit mstatus_after_mret MSTATUS_MPIE_BIT 1 ;;
  assert_field mstatus_after_mret MSTATUS_MPP_LO 0x3 PRIV_ENCODE_U ;;
  assert_priv_mode PRIV_ENCODE_U.

(** The first assertion after the access reads [csr_illegal_access] although the request has been
    taken off the pins: the module has not been evaluated since. *)
Definition illegal_csr_access_guard : csr_bench unit :=
  force_priv_mode_via_mret PRIV_ENCODE_M ;; assert_priv_mode PRIV_ENCODE_M ;;
  misa_snapshot ← tb_read_csr CSR_MISA;
  tb_csr_op CSR_MISA CSR_OP_WRITE 0x1234 ;;
  assert_illegal_access true ;;
  assert_csr CSR_MISA misa_snapshot ;;
  assert_trap_to_s false ;; assert_priv_mode PRIV_ENCODE_M ;;
  mtvec ← tb_read_csr CSR_MTVEC;
  expect_out (fun s p => csr_trap_vector_next s (cp_in p) =? mtvec) ;;
  csr_tick ;;
  assert_illegal_access false.

Record delegation_probe := mk_delegation_probe {
  dp_is_interrupt : bool;
  dp_cause : Z;
  dp_delegate_to_s : bool;
  dp_pc : Z
}.

Definition delegation_probes : list delegation_probe :=
  [mk_delegation_probe false EXC_ECALL_FROM_U true 0xD000;
   mk_delegation_probe false EXC_ECALL_FROM_U false 0xD040;
   mk_delegation_probe true INTERRUPT_M_TIMER true 0xD080;
   mk_delegation_probe true INTERRUPT_M_TIMER false 0xD0C0].

(** The trap of a probe was taken in the mode it names. *)
Definition assert_probe_target (pr : delegation_probe) : csr_bench unit :=
  if dp_delegate_to_s pr
  then assert_trap_to_s true ;; assert_csr CSR_SEPC (dp_pc pr)
  else assert_trap_to_s false ;; assert_csr CSR_MEPC (dp_pc pr).

Definition delegation_cross_over : csr_bench unit :=
  tb_csr_op CSR_MTVEC CSR_OP_WRITE 0x1000 ;;
  tb_csr_op CSR_STVEC CSR_OP_WRITE 0x2000 ;;
  tb_csr_op CSR_MEDELEG CSR_OP_WRITE 0 ;;
  tb_csr_op CSR_MIDELEG CSR_OP_WRITE 0 ;;
  for_each delegation_probes (fun pr =>
    let mask := Z.shiftl 1 (dp_cause pr) in
    let op := if dp_delegate_to_s pr then CSR_OP_SET else CSR_OP_CLEAR in
    (if dp_is_interrupt pr then
       tb_csr_op CSR_MIDELEG op mask ;;
       force_priv_mode_via_mret PRIV_ENCODE_S ;;
       trigger_trap (dp_pc pr) (Z.lor INTERRUPT_BIT (dp_cause pr)) 0 (dp_delegate_to_s pr)
     else
       tb_csr_op CSR_MEDELEG op mask ;;
       force_priv_mode_via_mret PRIV_ENCODE_U ;;
       trigger_trap (dp_pc pr) (dp_cause pr) 0 (dp_delegate_to_s pr)) ;;
    assert_probe_target pr ;;
    expected_vector ← tb_read_csr (if dp_delegate_to_s pr then CSR_STVEC else CSR_MTVEC);
    assert_trap_vector expected_vector).

Definition csr_main : csr_bench unit :=
  drive_defaults ;; apply_reset ;; clear_trap_lines ;;
  csr_access_tests ;; csr_trap_tests ;; csr_delegation_tests ;; csr_supervisor_tests ;;
  run_csr_scenario interrupt_priority_matrix ;;
  run_csr_scenario delegated_multitrap_context ;;
  run_csr_scenario nested_return_sequence ;;
  run_csr_scenario illegal_csr_access_guard ;;
  run_csr_scenario delegation_cross_over.

(** The CSR unit passes its unit bench.  From every state and with every level on the pins at
    power-on, the bench runs to its end: each of the 127 assertions it evaluates, those of its five
    trap scenarios included, holds. *)
Example csr_bench_passes s p q : checks csr_main s p q = Some 127.
Proof. vm_compute. reflexivity. Qed.
