(* ===== verification/CoreInv.v ===== *)
(** * The type invariant of the core

    Every register of [richard_core] holds a value of its declared width, [x0] reads zero, the
    CSR file is well formed and [sstatus] mirrors [mstatus]; every clock edge keeps it so,
    whatever the input pins carry. *)

From S2P Require Import Prelude Rv64Pkg Alu Decoder RegFile HazardUnit PipeRegs MemStage WbStage.
From S2P Require Import TrapCtrl CsrUnit Core SeqMachine.

(** ** Widths of each register's fields *)

Record dec_ok (d : dec_out) : Prop := {
  ok_rs1_addr : is_bv 5 (rs1_addr d);
  ok_rs2_addr : is_bv 5 (rs2_addr d);
  ok_imm : is_bv 64 (imm d);
  ok_branch_op : is_bv 3 (branch_op (ex_c d));
  ok_mem_size : is_bv 3 (mem_size (mem_c d));
  ok_rd_addr : is_bv 5 (rd_addr (wb_c d));
  ok_wb_sel : is_bv 2 (wb_sel (wb_c d));
  ok_csr_op : is_bv 3 (csr_op (sys_c d))
}.

Record if_id_ok (r : if_id) : Prop := {
  ok_id_pc : is_bv 64 (id_pc r);
  ok_id_instr : is_bv 32 (id_instr r)
}.

Record id_ex_ok (r : id_ex) : Prop := {
  ok_ex_instr : is_bv 32 (ex_instr r);
  ok_ex_pc : is_bv 64 (ex_pc r);
  ok_ex_rs1 : is_bv 64 (ex_rs1_rdata r);
  ok_ex_rs2 : is_bv 64 (ex_rs2_rdata r);
  ok_ex_dec : dec_ok (ex_dec r)
}.

Record ex_mem_ok (r : ex_mem) : Prop := {
  ok_mem_alu : is_bv 64 (mem_alu_result r);
  ok_mem_target : is_bv 64 (mem_branch_target r);
  ok_mem_rs1 : is_bv 64 (mem_rs1_rdata r);
  ok_mem_rs2 : is_bv 64 (mem_rs2_rdata r);
  ok_mem_rs1_addr : is_bv 5 (mem_rs1_addr r);
  ok_mem_pc : is_bv 64 (mem_pc r);
  ok_mem_imm : is_bv 64 (mem_imm r);
  ok_mem_instr : is_bv 32 (mem_instr r);
  ok_mem_mc : is_bv 3 (mem_size (mem_mc r));
  ok_mem_rd : is_bv 5 (rd_addr (mem_wc r));
  ok_mem_sel : is_bv 2 (wb_sel (mem_wc r));
  ok_mem_op : is_bv 3 (csr_op (mem_sc r))
}.

Record mem_wb_ok (r : mem_wb) : Prop := {
  ok_wb_pc : is_bv 64 (wb_pc r);
  ok_wb_alu : is_bv 64 (wb_alu_result r);
  ok_wb_rdata : is_bv 64 (wb_mem_rdata r);
  ok_wb_instr : is_bv 32 (wb_instr r);
  ok_wb_rd : is_bv 5 (rd_addr (wb_wc r));
  ok_wb_wsel : is_bv 2 (wb_sel (wb_wc r));
  ok_wb_op : is_bv 3 (csr_op (wb_sc r));
  ok_wb_rs1 : is_bv 64 (wb_rs1_rdata r);
  ok_wb_rs1_addr : is_bv 5 (wb_rs1_addr r);
  ok_wb_imm : is_bv 64 (wb_imm r);
  ok_wb_fault : is_bv 64 (wb_fault_addr r)
}.

Record core_ok (c : core) : Prop := {
  ok_pc : is_bv 64 (c_pc c);
  ok_if_id : if_id_ok (c_if_id c);
  ok_id_ex : id_ex_ok (c_id_ex c);
  ok_ex_mem : ex_mem_ok (c_ex_mem c);
  ok_mem_wb : mem_wb_ok (c_mem_wb c);
  ok_regs : regs_ok (c_regs c);
  ok_regs_range : regs_range (c_regs c);
  ok_csr : csr_ok (c_csr c);
  ok_mirror : csr_mirror (c_csr c)
}.

(** The input pins within their widths. *)
Definition core_in_ok (i : core_in) : Prop :=
  is_bv 32 (in_imem_rdata i) /\ is_bv 64 (in_dmem_rdata i).

(** ** Decoder outputs *)

(** A field of a concatenation. *)
Ltac bv_leaf :=
  first [apply repb_bv; lia | apply slice_bv; lia | apply b2z_bv; lia | apply zero_bv; lia].
Ltac bv_cat w v := apply (cat_bv w v); [lia|lia|bv_leaf|try bv_leaf].

Lemma imm_i_bv x : is_bv 64 (imm_i x).
Proof. unfold imm_i. bv_cat 12 52. Qed.
Lemma imm_s_bv x : is_bv 64 (imm_s x).
Proof. unfold imm_s. bv_cat 12 52. bv_cat 5 7. Qed.
Lemma imm_b_bv x : is_bv 64 (imm_b x).
Proof. unfold imm_b. bv_cat 13 51. bv_cat 12 1. bv_cat 11 1. bv_cat 5 6. bv_cat 1 4. Qed.
Lemma imm_u_bv x : is_bv 64 (imm_u x).
Proof. unfold imm_u. bv_cat 32 32. bv_cat 12 20. Qed.
Lemma imm_j_bv x : is_bv 64 (imm_j x).
Proof. unfold imm_j. bv_cat 21 43. bv_cat 20 1. bv_cat 12 8. bv_cat 11 1. bv_cat 1 10. Qed.

(** The values the multi-bit outputs can take. *)
Lemma decoder_fields instr p :
  let d := decoder instr p in
  In (imm d) [0; imm_i instr; imm_s instr; imm_b instr; imm_u instr; imm_j instr] /\
  In (branch_op (ex_c d)) [0; instr@[14:12]] /\ In (mem_size (mem_c d)) [0; instr@[14:12]] /\
  In (wb_sel (wb_c d)) [0; 1; 2] /\ In (csr_op (sys_c d)) [0; instr@[14:12]].
Proof. cbv zeta. decode_cases; cbn -[slice imm_i imm_s imm_b imm_u imm_j]; tauto. Qed.

Lemma Forall_bv_in w l x : Forall (is_bv w) l -> In x l -> is_bv w x.
Proof. intros Hl. by apply (proj1 (Forall_forall _ _) Hl). Qed.

Lemma decoder_ok instr p : dec_ok (decoder instr p).
Proof.
  destruct (decoder_addrs instr p) as (H1 & H2 & H3).
  destruct (decoder_fields instr p) as (H4 & H5 & H6 & H7 & H8).
  assert (Hf : is_bv 3 (instr@[14:12])) by bv_leaf.
  split; [rewrite H1; cbn; case_bools; bv_leaf | rewrite H2; bv_leaf | | | |rewrite H3; bv_leaf | |];
    (eapply Forall_bv_in; [|eassumption]);
    repeat apply Forall_cons; try apply Forall_nil; try done; try bv_lia;
    auto using imm_i_bv, imm_s_bv, imm_b_bv, imm_u_bv, imm_j_bv.
Qed.

(** ** Stage results *)

Lemma ex_stage_ok i :
  is_bv 64 (xi_pc i) -> is_bv 64 (xi_rs1_rdata i) -> is_bv 64 (xi_rs2_rdata i) ->
  is_bv 64 (xi_imm i) ->
  is_bv 64 (xo_alu_result (ex_stage i)) /\ is_bv 64 (xo_branch_target (ex_stage i)).
Proof.
  intros Hp H1 H2 Hi. unfold ex_stage; cbn [xo_alu_result xo_branch_target].
  set (r := alu _ _ _). assert (Hr : is_bv 64 r).
  { apply alu_bv; [apply ex_operand_a_bv|apply ex_operand_b_bv]; case_bools; done. }
  split; [destruct (xi_is_word_op i); [apply sext32_bv|done] | by apply land_bv].
Qed.

Lemma load_align_bv size addr d : is_bv 64 d -> is_bv 64 (load_align size addr d).
Proof.
  intros Hd. unfold load_align. set (s := Z.shiftr _ _).
  assert (Hs : is_bv 64 s).
  { apply shiftr_bv; [lia| |done]. pose proof (slice_bv 2 0 addr 3). bv_lia. }
  destruct size as [|p|p]; [| |by apply zero_bv].
  - bv_cat 8 56.
  - do 3 (try destruct p as [p|p|]); try done; try bv_leaf;
      first [by apply (slice_bv 7 0) | by apply (slice_bv 15 0) | by apply (slice_bv 31 0)
            |bv_cat 16 48 | bv_cat 32 32].
Qed.

Lemma mem_result_range m d : ex_mem_ok m -> is_bv 64 d -> mem_wb_ok (mem_result m d).
Proof.
  intros [] Hd. split; cbn; try done.
  - by apply load_align_bv.
  - case_bools; [done|apply zero_bv; lia].
Qed.

Lemma read_csr_bv s a : csr_ok s -> is_bv 64 (csr_rdata csr_params_default s a).
Proof.
  intros Hs. csr_open Hs. unfold csr_rdata, read_csr. set (b := canonical_addr a). clearbody b.
  repeat match goal with
         | |- is_bv _ (if ?x then _ else _) => destruct x; [first [assumption | idtac]|]
         end; try (split; done); try by apply compose_fcsr_bv.
  - apply (bv_weaken (0 + 5)), cat_bv; done.
  - apply (bv_weaken (0 + 3)), cat_bv; done.
Qed.

Lemma trap_bus_ok w p4 rd ill :
  mem_wb_ok w ->
  is_bv 64 (trap_bad_addr (wo_trap (wb_stage w p4 rd ill))) /\
  is_bv 32 (trap_bad_instr (wo_trap (wb_stage w p4 rd ill))) /\ is_bv 64 (wb_pc w).
Proof. by intros []. Qed.

Lemma trap_taken_bv pc t p q s b cause v :
  is_bv 64 (trap_bad_addr t) /\ is_bv 32 (trap_bad_instr t) /\ is_bv 64 pc ->
  trap_taken pc t p q s = Some (b, cause, v) -> is_bv 64 cause /\ is_bv 64 v.
Proof.
  intros (Ha & Hi & Hp). unfold trap_taken, pending_interrupt, sync_exception.
  case_bools; intros [= <- <- <-]; split; try done.
  all: apply (bv_weaken (0 + 32)); [lia|by apply cat_bv].
Qed.

Section CoreOk.
Context (c : core) (Hc : core_ok c).

Lemma core_wdata_bv : is_bv 64 (wo_rd_wdata (core_wb c)).
Proof.
  destruct Hc as [_ _ _ _ [] _ _ Hs _]. unfold core_wb, wb_stage, wb_mux; cbn [wo_rd_wdata].
  case_bools; [by apply read_csr_bv|].
  destruct (wb_sel _) as [|[[]|[]|]|]; auto with bv; done.
Qed.

Lemma forward_mux_bv sel a b d :
  is_bv 64 a -> is_bv 64 b -> is_bv 64 d -> is_bv 64 (forward_mux sel a b d).
Proof. intros. unfold forward_mux. by destruct sel as [|[[]|[]|]|]. Qed.

Lemma core_fwd_bv : is_bv 64 (core_rs1_fwd c) /\ is_bv 64 (core_rs2_fwd c).
Proof.
  pose proof core_wdata_bv. destruct Hc as [_ _ [] [] _ _ _ _ _].
  split; by apply forward_mux_bv.
Qed.

Lemma core_ex_ok :
  is_bv 64 (xo_alu_result (core_ex c)) /\ is_bv 64 (xo_branch_target (core_ex c)).
Proof.
  destruct core_fwd_bv. destruct Hc as [_ _ [? ? ? ? []] _ _ _ _ _ _]. by apply ex_stage_ok.
Qed.

Lemma core_trap_ok q :
  let t := core_trap q c in
  is_bv 64 (to_mepc t) /\ is_bv 64 (to_mcause t) /\ is_bv 64 (to_mtval t) /\
  is_bv 64 (to_next_pc t).
Proof.
  intros t. destruct Hc as [_ _ _ _ Hw _ _ Hs _]. pose proof (trap_bus_ok _ (add64 (wb_pc (c_mem_wb c)) 4) (csr_rdata csr_params_default (c_csr c) (cq_addr (core_csr_req c))) (csr_illegal_access (cq_req (core_csr_req c)) (cq_op (core_csr_req c)) (cq_addr (core_csr_req c))) Hw) as Hb.
  csr_open Hs.
  destruct (trap_taken (wb_pc (c_mem_wb c)) (wo_trap (core_wb c)) no_page_faults q
              (core_trap_csrs (c_csr c))) as [[[b cause] v]|] eqn:E.
  - destruct (trap_ctrl_some _ _ _ _ _ _ _ _ E) as (_ & _ & _ & _ & _ & T1 & T2 & T3 & _ & T4).
    unfold t, core_trap. rewrite T1, T2, T3, T4. destruct (trap_taken_bv _ _ _ _ _ _ _ _ Hb E).
    split_and!; [apply Hw|done|done|]. apply trap_vector_aligned; [|bv_leaf].
    by destruct (delegated _ _ _).
  - unfold t, core_trap. unfold trap_ctrl. unfold trap_taken in E.
    destruct (pending_interrupt _ _); [done|].
    destruct (sync_exception _ _ _ _) as [[]|]; [done|]. cbn -[is_bv]. case_bools;
      split_and!; first [apply zero_bv; lia | done].
Qed.

Lemma core_csr_in_ok q : csr_in_ok (core_csr_in q c).
Proof.
  destruct (core_trap_ok q) as (H1 & H2 & H3 & _). unfold csr_in_ok. split_and!; [|done..].
  destruct Hc as [_ _ _ _ [] _ _ _ _]. cbn. case_bools; [|done].
  by apply (bv_weaken 5).
Qed.

Lemma core_id_ok : id_ex_ok (core_id c).
Proof.
  pose proof core_wdata_bv as Hw. destruct Hc as [_ [] _ _ _ _ Hr _ _].
  split; cbn; [done|done| | |apply decoder_ok]; by apply reg_read_bv.
Qed.
End CoreOk.

(** ** The clock edge *)

Lemma redirect_bv i :
  is_bv 64 (hi_ex_branch_target i) -> is_bv 64 (hi_trap_target_pc i) ->
  is_bv 64 (pc_redirect_target (redirect i)).
Proof. intros. unfold redirect. by case_bools. Qed.

Lemma pc_next_bv st sel target tr pc :
  is_bv 64 target -> is_bv 64 pc -> is_bv 64 (pc_next false st sel target tr pc).
Proof. intros. unfold pc_next. case_bools; auto with bv. Qed.

Lemma if_id_next_ok st fl pc x r :
  is_bv 64 pc -> is_bv 32 x -> if_id_ok r -> if_id_ok (if_id_next false st fl pc x r).
Proof. intros. unfold if_id_next. case_bools; done. Qed.

Lemma id_ex_next_ok st fl i r : id_ex_ok i -> id_ex_ok r -> id_ex_ok (id_ex_next false st fl i r).
Proof.
  intros Hi [? ? ? ? []]. unfold id_ex_next. by case_bools.
Qed.

Lemma mem_wb_next_ok fl i r :
  mem_wb_ok i -> mem_wb_ok r -> mem_wb_ok (mem_wb_next false false fl i r).
Proof. intros Hi []. unfold mem_wb_next. case_bools; try done. Qed.

Lemma core_reset_ok : core_ok core_reset.
Proof.
  split; [done|done|repeat split; done|done|done|apply regs_reset_ok|apply regs_reset_range|
          apply (csr_next_range true (core_csr_in irq_none core_reset) csr_reset)|].
  - repeat split; done.
  - split; cbn; [repeat constructor; done|done|done|]. unfold priv_ok; auto.
  - unfold csr_mirror, mirrored, sstatus_bits. repeat constructor.
Qed.

Lemma core_next_range rst i c :
  core_in_ok i -> rst = true \/ core_ok c -> core_ok (core_next rst i c).
Proof.
  intros [Hi Hd] Hc. destruct rst; [rewrite core_next_rst; apply core_reset_ok|].
  destruct Hc as [?|Hc]; [done|].
  pose proof (core_wdata_bv c Hc) as Hw. destruct (core_ex_ok c Hc) as [Hx1 Hx2].
  destruct (core_fwd_bv c Hc). destruct (core_trap_ok c Hc (in_irq i)) as (_ & _ & _ & Ht).
  pose proof (core_id_ok c Hc). pose proof (core_csr_in_ok c Hc (in_irq i)).
  destruct Hc as [Hpc Hif Hid Hex Hwb Hr Hrr Hs Hm]. unfold core_next.
  split; cbn [c_pc c_if_id c_id_ex c_ex_mem c_mem_wb c_regs c_csr].
  - apply pc_next_bv; [by apply redirect_bv|done].
  - by apply if_id_next_ok.
  - by apply id_ex_next_ok.
  - unfold ex_mem_next. case_bools; [|done]. destruct Hid as [? ? ? ? []]. split; done.
  - apply mem_wb_next_ok; [|done]. by apply mem_result_range.
  - apply reg_write_ok; [done|]. apply Hwb.
  - by apply reg_write_range.
  - apply csr_next_range; done.
  - apply csr_next_mirrored; done.
Qed.

(** ** Property *)

(** C9: Type safety of the whole core.  Reset establishes and every clock edge keeps, for every
    value of the input pins: each register of the five pipeline stages, the register file and the
    CSR file holds a value of its width, [x0] is zero, the privilege mode is one of U, S and M,
    and [sstatus] mirrors [mstatus]. *)
Theorem core_next_ok rst i c :
  core_in_ok i -> rst = true \/ core_ok c -> core_ok (core_next rst i c).
Proof. apply core_next_range. Qed.

Lemma core_next_ok_witness :
  core_ok (core_next false (mk_core_in (2 ^ 32 - 1) (2 ^ 64 - 1) (mk_irq true true true)) core_reset).
Proof.
  apply (core_next_ok false); [split; split; vm_compute; congruence|right; apply core_reset_ok].
Defined.
