(* ===== verification/CoreTraps.v ===== *)
(** * Traps, trap returns and privilege in the core

    What one clock edge of [richard_core] does when the retiring instruction traps, an interrupt
    is taken or a trap return retires, and which instructions the decoder lets each privilege
    mode execute. *)

From S2P Require Import Prelude Rv64Pkg Alu Decoder RegFile HazardUnit PipeRegs MemStage WbStage.
From S2P Require Import TrapCtrl CsrUnit Core SeqMachine CoreInv.

(** ** Pipeline flush *)

(** The flags of a control bundle that have an effect on the state. *)
Definition inert (m : mem_ctl) (w : wb_ctl) (s : sys_ctl) : Prop :=
  is_load m = false /\ is_store m = false /\ reg_write_en w = false /\ is_csr s = false /\
  illegal_instr s = false /\ is_ecall s = false /\ is_ebreak s = false /\ is_mret s = false /\
  is_sret s = false.

(** The registers a redirect to [target] empties: IF/ID, ID/EX and MEM/WB hold bubbles. *)
Record flushed_to (target : Z) (c : core) : Prop := {
  fl_pc : c_pc c = target;
  fl_if_id : c_if_id c = if_id_reset;
  fl_id_ex : let d := ex_dec (c_id_ex c) in inert (mem_c d) (wb_c d) (sys_c d) /\ ex_c d = ex_ctl_nop;
  fl_mem_wb : inert mem_ctl_nop (wb_wc (c_mem_wb c)) (wb_sc (c_mem_wb c)) /\
              wb_load_fault (c_mem_wb c) = false /\ wb_store_fault (c_mem_wb c) = false
}.

(** What EX hands to EX/MEM at this edge. *)
Definition ex_handover (c : core) : ex_mem :=
  ex_mem_in (c_id_ex c) (core_rs1_fwd c) (core_rs2_fwd c) (core_ex c).

Lemma trap_pc_sel pc t p q s : to_pc_sel (trap_ctrl pc t p q s) = to_flush_req (trap_ctrl pc t p q s).
Proof.
  unfold trap_ctrl. destruct (pending_interrupt _ _); [done|]. by destruct (sync_exception _ _ _ _) as [[]|].
Qed.

Lemma core_flush i c :
  let t := core_trap (in_irq i) c in
  to_flush_req t = true ->
  flushed_to (to_next_pc t) (core_next false i c) /\ c_ex_mem (core_next false i c) = ex_handover c.
Proof.
  intros t Ht.
  assert (Hs : to_pc_sel t = true) by (rewrite <- Ht; apply trap_pc_sel).
  assert (Hh : core_hazard (in_irq i) c =
    mk_hu_out (forward_a_sel (core_hazard (in_irq i) c)) (forward_b_sel (core_hazard (in_irq i) c))
      (hu_ctl_idle <| if_id_flush_en := true |> <| id_ex_flush_en := true |>)
      (mk_hu_redirect true (to_next_pc t) true)).
  { unfold core_hazard, hazard_unit, stall_flush, redirect.
    cbn [hi_trap_flush_req hi_trap_pc_sel hi_trap_target_pc core_hu_in]. fold t. by rewrite Ht, Hs. }
  unfold core_next. fold t. rewrite Hh, Ht. cbn. split; [|done]. by repeat split.
Qed.

(** ** Writes of the retiring instruction *)

Lemma core_regs_next i c :
  c_regs (core_next false i c) =
  reg_write (c_regs c) (wo_reg_write_en (core_wb c)) (wo_rd_addr (core_wb c)) (wo_rd_wdata (core_wb c)).
Proof. done. Qed.

(** The WB stage of an instruction that raises an exception writes nothing. *)
Lemma exception_no_write c cause v :
  sync_exception (wb_pc (c_mem_wb c)) (wo_trap (core_wb c)) no_page_faults (priv_mode_q (c_csr c))
    = Some (cause, v) ->
  wo_reg_write_en (core_wb c) = false /\
  forall q s, csr_write_part (core_csr_in q c) (c_csr c) s = s.
Proof.
  unfold core_wb, wb_stage, sync_exception, csr_write_part, csr_write_en, core_csr_in.
  cbn [wo_trap wo_reg_write_en trap_illegal_instr trap_is_ecall trap_is_ebreak trap_load_fault
       trap_store_fault trap_bad_addr trap_bad_instr no_page_faults trap_instr_page_fault
       trap_load_page_fault trap_store_page_fault ci_req ci_op ci_addr ci_rs1_data].
  unfold core_csr_req, wb_csr_request; cbn [cq_req cq_op cq_addr cq_rs1_data].
  set (il := illegal_instr _). set (ec := is_ecall _). set (eb := is_ebreak _).
  set (lf := wb_load_fault _). set (sf := wb_store_fault _).
  assert (Ht : wb_has_trap (c_mem_wb c) = il || ec || eb || lf || sf) by done. rewrite Ht.
  destruct (il || ec || eb || lf || sf) eqn:E; cbn [negb orb].
  { intros _. split; [by rewrite andb_false_r|]. by rewrite andb_false_r. }
  apply orb_false_iff in E as [E ->]. apply orb_false_iff in E as [E ->].
  apply orb_false_iff in E as [E ->]. apply orb_false_iff in E as [-> ->].
  rewrite andb_true_r. cbn [orb]. unfold csr_illegal_access, csr_write_illegal.
  destruct (is_csr _); [cbn [andb negb orb]|done].
  destruct (csr_is_supported _); cbn [andb negb orb].
  - intros H. destruct (_ && negb _) eqn:Ew; [|done]. split; [by rewrite andb_false_r|].
    intros. apply andb_true_iff in Ew as [_ Ew]. apply negb_true_iff in Ew. by rewrite Ew, andb_false_r.
  - intros _. split; [by rewrite andb_false_r|done].
Qed.

Lemma core_taken q c :
  trap_taken (wb_pc (c_mem_wb c)) (wo_trap (core_wb c)) no_page_faults q (core_trap_csrs (c_csr c)) =
  match pending_interrupt ((mstatus_reg (c_csr c))@[MSTATUS_MIE_BIT]) q with
  | Some cause => Some (true, cause, 0)
  | None =>
      match sync_exception (wb_pc (c_mem_wb c)) (wo_trap (core_wb c)) no_page_faults
              (priv_mode_q (c_csr c)) with
      | Some (cause, v) => Some (false, cause, v)
      | None => None
      end
  end.
Proof. done. Qed.

(** The trap context a CSR file holds after entry, and the mode the handler runs in. *)
Definition trap_context (to_s : bool) (pc cause tval : Z) (s : csr) : Prop :=
  if to_s then sepc_reg s = pc /\ scause_reg s = cause /\ stval_reg s = tval /\
               priv_mode_q s = PRIV_MODE_S
  else mepc_reg s = pc /\ mcause_reg s = cause /\ mtval_reg s = tval /\
       priv_mode_q s = PRIV_MODE_M /\ (mstatus_reg s)@[MSTATUS_MIE_BIT] = false.

Lemma csr_trap_context i old s :
  ci_trap_trigger i = true ->
  trap_context (ci_trap_to_s_mode i) (ci_trap_mepc i) (ci_trap_mcause i) (ci_trap_mtval i)
    (csr_trap_part i old s).
Proof.
  intros Ht. unfold csr_trap_part, trap_context. rewrite Ht.
  destruct (ci_trap_to_s_mode i); [done|]. repeat split.
  unfold csr_trap_m; cbn [mstatus_reg set_field priv_mode_q].
  rewrite mpp_other by (done || apply encode_priv_bv). by rewrite set_bit_testbit.
Qed.

(** The vector a trap goes through. *)
Definition handler_base (to_s : bool) (s : csr) : Z := if to_s then stvec_reg s else mtvec_reg s.

(** The aligned target: the base, or base plus four times the cause for a vectored interrupt. *)
Definition handler_pc (tvec : Z) (is_int : bool) (cause : Z) : Z :=
  if (tvec mod 4 =? 1) && is_int then wrap 64 (tvec - tvec mod 4 + 4 * (cause mod 64))
  else tvec - tvec mod 4.

Definition trap_to_s (is_int : bool) (cause : Z) (s : csr) : bool :=
  negb (priv_mode_q s =? PRIV_MODE_M) &&
  (if is_int then mideleg_reg s else medeleg_reg s)@[cause mod 64].

(** What the edge does when a trap is taken, before the register file. *)
Lemma core_trap_taken i c is_int cause v :
  core_ok c ->
  trap_taken (wb_pc (c_mem_wb c)) (wo_trap (core_wb c)) no_page_faults (in_irq i)
    (core_trap_csrs (c_csr c)) = Some (is_int, cause, v) ->
  let c' := core_next false i c in
  let to_s := trap_to_s is_int cause (c_csr c) in
  flushed_to (handler_pc (handler_base to_s (c_csr c)) is_int cause) c' /\
  trap_context to_s (wb_pc (c_mem_wb c)) cause v (c_csr c') /\
  c_ex_mem c' = ex_handover c.
Proof.
  intros Hc E c' to_s.
  destruct (trap_ctrl_some _ _ _ _ _ _ _ _ E) as (H1 & H2 & _ & _ & _ & H4 & H5 & H6 & H7 & H8).
  change (trap_ctrl _ _ _ _ _) with (core_trap (in_irq i) c) in *.
  assert (Hcs : cause@[5:0] = cause mod 64) by (by apply (slice_low 6)).
  assert (Hs : to_to_s_mode (core_trap (in_irq i) c) = to_s).
  { rewrite H7. unfold delegated, to_s, trap_to_s. by rewrite Hcs. }
  destruct (core_flush i c H2) as [Hf Hx]. split; [|split; [|exact Hx]].
  - rewrite H8, Hcs in Hf. replace (handler_pc _ _ _) with
      (trap_vector (if delegated (core_trap_csrs (c_csr c)) is_int cause
                    then stvec_reg (c_csr c) else mtvec_reg (c_csr c)) is_int (cause mod 64)); [exact Hf|].
    rewrite H7 in Hs. rewrite Hs. fold (handler_base to_s (c_csr c)).
    apply trap_vector_aligned; [|by apply (wrap_bv 6)].
    pose proof (ok_csr c Hc) as Hk. csr_open Hk. by destruct to_s.
  - pose proof (csr_trap_context (core_csr_in (in_irq i) c) (c_csr c)
      (csr_write_part (core_csr_in (in_irq i) c) (c_csr c)
         (csr_counters (core_csr_in (in_irq i) c) (c_csr c) (c_csr c))) H1) as Hk.
    cbn [core_csr_in ci_trap_to_s_mode ci_trap_mepc ci_trap_mcause ci_trap_mtval] in Hk.
    by rewrite Hs, H4, H5, H6 in Hk.
Qed.

(** A retiring instruction without register write or fault, with the given system flags. *)
Definition retiring (f : sys_ctl) (c : core) : Prop :=
  let w := c_mem_wb c in
  wb_sc w = f /\ reg_write_en (wb_wc w) = false /\ wb_load_fault w = false /\ wb_store_fault w = false.

(** The edge at which a trap return retires. *)
Lemma core_return i c m s :
  pending_interrupt ((mstatus_reg (c_csr c))@[MSTATUS_MIE_BIT]) (in_irq i) = None ->
  retiring (sys_ctl_nop <| is_mret := m |> <| is_sret := s |>) c -> m || s = true ->
  let c' := core_next false i c in
  let s0 := csr_counters (core_csr_in (in_irq i) c) (c_csr c) (c_csr c) in
  let s1 := if m then csr_mret (c_csr c) s0 else s0 in
  flushed_to (if m then mepc_reg (c_csr c) else sepc_reg (c_csr c)) c' /\
  c_regs c' = c_regs c /\
  c_csr c' = if s then csr_sret (c_csr c) s1 else s1.
Proof.
  intros Hq (Hs & Hw & Hl & Hst) Hms.
  assert (Hreq : cq_req (core_csr_req c) = false).
  { unfold core_csr_req, wb_csr_request; cbn [cq_req]. by rewrite Hs. }
  assert (Ht : wo_trap (core_wb c) = mk_trap_bus false false false m s (wb_pc (c_mem_wb c)) false false
                 (wb_fault_addr (c_mem_wb c)) (wb_instr (c_mem_wb c))).
  { unfold core_wb, wb_stage; cbn [wo_trap]. rewrite Hreq, Hs, Hl, Hst. done. }
  assert (Htr : core_trap (in_irq i) c = mk_trap_out false 0 0 0 false m s true true
    (if m then mepc_reg (c_csr c) else sepc_reg (c_csr c))).
  { unfold core_trap, trap_ctrl. rewrite Ht. cbn [tc_mstatus_mie core_trap_csrs]. rewrite Hq.
    destruct m, s; done. }
  destruct (core_flush i c) as [Hf _]; [by rewrite Htr|]. rewrite Htr in Hf.
  split; [exact Hf|]. split.
  - rewrite core_regs_next. apply reg_write_quiet. left.
    unfold core_wb, wb_stage; cbn [wo_reg_write_en]. by rewrite Hw.
  - change (c_csr (core_next false i c)) with (csr_next false (core_csr_in (in_irq i) c) (c_csr c)).
    unfold csr_next, csr_write_part, csr_trap_part, csr_write_en, core_csr_in.
    cbn [ci_req ci_op ci_addr ci_rs1_data ci_trap_trigger ci_trap_to_s_mode ci_mret_en ci_sret_en].
    by rewrite Hreq, Htr.
Qed.

(** ** Properties *)

(** C6: Exceptions.  When the retiring instruction raises an exception and no enabled interrupt is
    pending, one clock edge leaves the register file as it was, performs no CSR write, saves the
    address, cause and trap value in the registers of the mode that handles the trap, enters that
    mode and refetches from its handler with IF/ID, ID/EX and MEM/WB emptied. *)
Theorem core_takes_exception i c cause v :
  core_ok c -> pending_interrupt ((mstatus_reg (c_csr c))@[MSTATUS_MIE_BIT]) (in_irq i) = None ->
  sync_exception (wb_pc (c_mem_wb c)) (wo_trap (core_wb c)) no_page_faults (priv_mode_q (c_csr c))
    = Some (cause, v) ->
  let c' := core_next false i c in
  let to_s := trap_to_s false cause (c_csr c) in
  c_regs c' = c_regs c /\
  trap_context to_s (wb_pc (c_mem_wb c)) cause v (c_csr c') /\
  c_csr c' = csr_trap_part (core_csr_in (in_irq i) c) (c_csr c)
               (csr_counters (core_csr_in (in_irq i) c) (c_csr c) (c_csr c)) /\
  flushed_to (handler_base to_s (c_csr c) - handler_base to_s (c_csr c) mod 4) c'.
Proof.
  intros Hc Hq Hx c' to_s. destruct (exception_no_write c cause v Hx) as [Hw Hcsr].
  destruct (core_trap_taken i c false cause v Hc) as (Hf & Ht & _).
  { by rewrite core_taken, Hq, Hx. }
  split; [|split; [exact Ht|split]].
  - unfold c'. rewrite core_regs_next, Hw. by apply reg_write_quiet; left.
  - change (c_csr c') with (csr_next false (core_csr_in (in_irq i) c) (c_csr c)).
    unfold csr_next. by rewrite Hcsr.
  - unfold handler_pc in Hf. by rewrite andb_false_r in Hf.
Qed.

(** C33: Interrupts are taken after the retiring instruction, not before it.  The edge that takes
    an interrupt also performs the register write of the instruction in WB and saves that same
    instruction's address as the return address: a handler that returns with [MRET] executes the
    instruction a second time. *)
Theorem core_interrupt_commits i c cause :
  core_ok c -> pending_interrupt ((mstatus_reg (c_csr c))@[MSTATUS_MIE_BIT]) (in_irq i) = Some cause ->
  let c' := core_next false i c in
  let w := core_wb c in
  let to_s := trap_to_s true cause (c_csr c) in
  c_regs c' = reg_write (c_regs c) (wo_reg_write_en w) (wo_rd_addr w) (wo_rd_wdata w) /\
  trap_context to_s (wb_pc (c_mem_wb c)) cause 0 (c_csr c') /\
  flushed_to (handler_pc (handler_base to_s (c_csr c)) true cause) c'.
Proof.
  intros Hc Hq c' w to_s. destruct (core_trap_taken i c true cause 0 Hc) as (Hf & Ht & _).
  { by rewrite core_taken, Hq. }
  done.
Qed.

(** C34: The instruction in EX survives every trap and trap return.  On the edge that flushes the
    pipeline EX/MEM still latches the instruction behind the one in MEM, with its memory, register
    and CSR effects enabled; an aligned store among them is on the data bus in the next cycle. *)
Theorem core_flush_spares_ex i c :
  to_flush_req (core_trap (in_irq i) c) = true ->
  let c' := core_next false i c in
  let d := ex_dec (c_id_ex c) in
  mem_mc (c_ex_mem c') = mem_c d /\ mem_wc (c_ex_mem c') = wb_c d /\
  mem_sc (c_ex_mem c') = sys_c d /\ mem_pc (c_ex_mem c') = ex_pc (c_id_ex c) /\
  (is_store (mem_c d) = true ->
   addr_misaligned (mem_size (mem_c d)) (xo_alu_result (core_ex c)) = false ->
   out_dmem_write_en (core_outputs c') = true /\
   out_dmem_addr (core_outputs c') = xo_alu_result (core_ex c)).
Proof.
  intros Ht c' d. destruct (core_flush i c Ht) as [_ Hx]. fold c' in Hx.
  unfold core_outputs, mem_request, store_addr_misaligned. rewrite Hx. unfold ex_handover, ex_mem_in.
  cbn [mem_mc mem_wc mem_sc mem_pc mem_alu_result out_dmem_write_en out_dmem_addr dmem_write_req
       dmem_addr]. split_and!; [done..|]. intros Hs Ha. fold d. by rewrite Hs, Ha.
Qed.

(** C7: Trap returns.  A retiring [MRET] that no interrupt preempts resumes at [mepc] in the mode
    [mstatus.MPP] encodes, restores MIE from MPIE, sets MPIE and writes no register. *)
Theorem core_mret_returns i c :
  pending_interrupt ((mstatus_reg (c_csr c))@[MSTATUS_MIE_BIT]) (in_irq i) = None ->
  retiring (sys_ctl_nop <| is_mret := true |>) c ->
  let c' := core_next false i c in
  let s := c_csr c in
  let s' := c_csr c' in
  flushed_to (mepc_reg s) c' /\ c_regs c' = c_regs c /\
  priv_mode_q s' = decode_priv_mode ((mstatus_reg s)@[MSTATUS_MPP_HI:MSTATUS_MPP_LO]) /\
  (mstatus_reg s')@[MSTATUS_MIE_BIT] = (mstatus_reg s)@[MSTATUS_MPIE_BIT] /\
  (mstatus_reg s')@[MSTATUS_MPIE_BIT] = true.
Proof.
  intros Hq Hr c' s s'.
  destruct (core_return i c true false Hq Hr eq_refl) as (Hf & Hregs & Hcsr).
  split; [exact Hf|]. split; [exact Hregs|].
  change (mstatus_reg s') with (mstatus_reg (c_csr (core_next false i c))).
  change (priv_mode_q s') with (priv_mode_q (c_csr (core_next false i c))). rewrite Hcsr.
  split; [done|]. cbn [mstatus_reg csr_mret set_field].
  rewrite !mpp_other by done. by rewrite !set_bit_testbit by done.
Qed.

(** C8: [SRET] resumes at [sepc], in supervisor or user mode as SPP says, with SIE restored. *)
Theorem core_sret_returns i c :
  pending_interrupt ((mstatus_reg (c_csr c))@[MSTATUS_MIE_BIT]) (in_irq i) = None ->
  retiring (sys_ctl_nop <| is_sret := true |>) c ->
  let c' := core_next false i c in
  let s := c_csr c in
  let s' := c_csr c' in
  flushed_to (sepc_reg s) c' /\ c_regs c' = c_regs c /\
  priv_mode_q s' = (if (sstatus_reg s)@[SSTATUS_SPP_BIT] then PRIV_MODE_S else PRIV_MODE_U) /\
  (sstatus_reg s')@[SSTATUS_SIE_BIT] = (sstatus_reg s)@[SSTATUS_SPIE_BIT] /\
  (mstatus_reg s')@[SSTATUS_SIE_BIT] = (sstatus_reg s)@[SSTATUS_SPIE_BIT].
Proof.
  intros Hq Hr c' s s'.
  destruct (core_return i c false true Hq Hr eq_refl) as (Hf & Hregs & Hcsr).
  split; [exact Hf|]. split; [exact Hregs|].
  change s' with (c_csr (core_next false i c)). rewrite Hcsr. split; [done|].
  cbn [sstatus_reg mstatus_reg csr_sret set_field]. unfold apply_sstatus_to_mstatus.
  by rewrite !set_bit_testbit by done.
Qed.

(** ** Privilege *)

(** The system flags of the opcodes other than SYSTEM and MISC-MEM, and of an illegal word. *)
Definition no_system (d : dec_out) : Prop :=
  is_csr (sys_c d) = false /\ is_mret (sys_c d) = false /\ is_sret (sys_c d) = false /\
  is_sfence_vma (fence_c d) = false.

Definition no_effect (d : dec_out) : Prop :=
  is_csr (sys_c d) = false /\ is_mret (sys_c d) = false /\ is_sret (sys_c d) = false /\
  is_load (mem_c d) = false /\ is_store (mem_c d) = false /\
  is_jump (ex_c d) = false /\ is_branch (ex_c d) = false.

Lemma decoder_system_only instr p :
  opcode_dec (instr@[6:0]) <> Some OPCODE_SYSTEM -> no_system (decoder instr p).
Proof. decode_cases; intros Ho; try done; by repeat split. Qed.

Lemma decoder_illegal_no_effect instr p :
  illegal_instr (sys_c (decoder instr p)) = true -> no_effect (decoder instr p).
Proof. decode_cases; intros Ho; try discriminate Ho; by repeat split. Qed.

(** An instruction that is issued when it is permitted, and illegal otherwise. *)
Definition granted (ok : Prop) (flag : bool) (d : dec_out) : Prop :=
  (ok -> flag = true /\ illegal_instr (sys_c d) = false) /\
  (~ ok -> flag = false /\ illegal_instr (sys_c d) = true).

Lemma priv_rank_id p : is_bv 2 p -> priv_rank p = p.
Proof.
  intros Hp. assert (p = 0 \/ p = 1 \/ p = 2 \/ p = 3) as [-> |[-> |[-> | ->]]] by bv_lia; done.
Qed.

Lemma system_decode instr p :
  instr@[6:0] = 0x73 ->
  decoder instr p = if instr@[14:12] =? 0 then decode_priv instr p (dec_default instr)
                    else decode_csr instr p (dec_default instr).
Proof. intros Ho. unfold decoder. by rewrite Ho. Qed.

Lemma csr_granted instr p :
  is_bv 2 p -> instr@[6:0] = 0x73 -> instr@[14:12] <> 0 ->
  granted (instr@[29:28] <= p) (is_csr (sys_c (decoder instr p))) (decoder instr p).
Proof.
  intros Hp Ho Hf. rewrite system_decode, (proj2 (Z.eqb_neq _ _) Hf) by done.
  unfold decode_csr, csr_access_allowed, priv_ge. rewrite (slice_slice 31 20 9 8) by lia.
  change (20 + 9) with 29. change (20 + 8) with 28.
  rewrite (priv_rank_id p), (priv_rank_id (instr@[29:28])) by (done || by apply slice_bv).
  destruct (instr@[29:28] <=? p) eqn:E; reflect_bools; split; intros H; try done; lia.
Qed.

(** The privileged instructions by their [funct12] field. *)
Lemma priv_granted instr p :
  is_bv 2 p -> instr@[6:0] = 0x73 -> instr@[14:12] = 0 ->
  let d := decoder instr p in
  (instr@[31:20] = 0x302 -> granted (p = 3) (is_mret (sys_c d)) d) /\
  (instr@[31:20] = 0x102 -> granted (1 <= p) (is_sret (sys_c d)) d) /\
  (instr@[31:25] = 0x09 -> granted (1 <= p) (is_sfence_vma (fence_c d)) d).
Proof.
  intros Hp Ho Hf d. subst d. rewrite system_decode, Hf by done. cbn [Z.eqb].
  unfold decode_priv, priv_ge. change (priv_rank PRIV_MODE_S) with 1. rewrite priv_rank_id by done.
  pose proof (slice_join 31 25 20 instr ltac:(lia) ltac:(lia) ltac:(lia)) as Hj.
  change (25 - 20) with 5 in Hj. change (25 - 1) with 24 in Hj. rewrite Hj.
  split_and!; intros E.
  - rewrite E. cbn [Z.eqb Pos.eqb]. unfold PRIV_MODE_M.
    destruct (Z.eqb_spec p 3); split; intros ?; done.
  - rewrite E. cbn [Z.eqb Pos.eqb].
    destruct (Z.leb_spec 1 p); split; intros ?; try done; lia.
  - rewrite E in *. assert (Hr : instr@[31:20] = 9 * 2 ^ 5 + instr@[24:20]).
    { rewrite <- Hj. apply cat_add; [lia|]. by apply slice_bv. }
    pose proof (slice_bv 24 20 instr 5 ltac:(lia) ltac:(lia)) as Hlow. 
    assert (Hne : forall k, k < 288 \/ 320 <= k -> (instr@[31:20] =? k) = false).
    { intros k Hk. apply Z.eqb_neq. bv_lia. }
    rewrite !Hne by lia. cbn [Z.eqb Pos.eqb].
    destruct (Z.leb_spec 1 p); split; intros ?; try done; lia.
Qed.

(** What the system flags say about the word. *)
Lemma system_flags instr p :
  let d := decoder instr p in
  (is_csr (sys_c d) = true -> instr@[6:0] = 0x73 /\ instr@[14:12] <> 0) /\
  (is_mret (sys_c d) = true -> instr@[6:0] = 0x73 /\ instr@[14:12] = 0 /\ instr@[31:20] = 0x302) /\
  (is_sret (sys_c d) = true -> instr@[6:0] = 0x73 /\ instr@[14:12] = 0 /\ instr@[31:20] = 0x102) /\
  (is_sfence_vma (fence_c d) = true ->
   instr@[6:0] = 0x73 /\ instr@[14:12] = 0 /\ instr@[31:25] = 0x09).
Proof.
  intros d. subst d.
  destruct (decide (opcode_dec (instr@[6:0]) = Some OPCODE_SYSTEM)) as [HO|HO];
    [|destruct (decoder_system_only instr p HO) as (H1 & H2 & H3 & H4); rewrite H1, H2, H3, H4; done].
  assert (Ho : instr@[6:0] = 0x73).
  { symmetry. apply (enum_dec_sound opcode_enc opcodes _ OPCODE_SYSTEM HO). }
  rewrite system_decode by done. 
  pose proof (slice_join 31 25 20 instr ltac:(lia) ltac:(lia) ltac:(lia)) as Hj.
  change (25 - 20) with 5 in Hj. change (25 - 1) with 24 in Hj.
  unfold decode_priv, decode_csr. rewrite Hj.
  destruct (Z.eqb_spec (instr@[14:12]) 0) as [Hf|Hf].
  - case_bools; cbn; split_and!; intros; reflect_bools; done.
  - destruct (csr_access_allowed _ _); cbn; split_and!; intros; done.
Qed.

(** C32: Privilege checks.  In every mode a CSR instruction is issued if the register's privilege
    field does not exceed the mode and is illegal otherwise; [MRET] is issued in machine mode and
    illegal elsewhere; [SRET] and [SFENCE.VMA] are issued in supervisor and machine mode and
    illegal in user mode; no other word sets those flags.  An illegal word requests no memory
    access, jump, branch, trap return or CSR access, and when it reaches write-back it writes no
    register, requests no CSR access and raises the illegal-instruction trap. *)
Theorem decoder_privilege instr p :
  is_bv 2 p ->
  let d := decoder instr p in
  let system := instr@[6:0] = 0x73 in
  (system -> instr@[14:12] <> 0 -> granted (instr@[29:28] <= p) (is_csr (sys_c d)) d) /\
  (system -> instr@[14:12] = 0 ->
   (instr@[31:20] = 0x302 -> granted (p = 3) (is_mret (sys_c d)) d) /\
   (instr@[31:20] = 0x102 -> granted (1 <= p) (is_sret (sys_c d)) d) /\
   (instr@[31:25] = 0x09 -> granted (1 <= p) (is_sfence_vma (fence_c d)) d)) /\
  ((is_csr (sys_c d) = true -> system /\ instr@[14:12] <> 0) /\
   (is_mret (sys_c d) = true -> system /\ instr@[14:12] = 0 /\ instr@[31:20] = 0x302) /\
   (is_sret (sys_c d) = true -> system /\ instr@[14:12] = 0 /\ instr@[31:20] = 0x102) /\
   (is_sfence_vma (fence_c d) = true -> system /\ instr@[14:12] = 0 /\ instr@[31:25] = 0x09)) /\
  (illegal_instr (sys_c d) = true ->
   (is_csr (sys_c d) = false /\ is_mret (sys_c d) = false /\ is_sret (sys_c d) = false /\
    is_load (mem_c d) = false /\ is_store (mem_c d) = false /\
    is_jump (ex_c d) = false /\ is_branch (ex_c d) = false) /\
   forall w pc4 rdata bad, wb_sc w = sys_c d ->
     let o := wb_stage w pc4 rdata bad in
     wo_reg_write_en o = false /\ trap_illegal_instr (wo_trap o) = true /\
     cq_req (wb_csr_request w) = false).
Proof.
  intros Hp d system. subst d system. split; [by apply csr_granted|].
  split; [by apply priv_granted|]. split; [apply system_flags|].
  intros Hi. split; [by apply decoder_illegal_no_effect|].
  intros w pc4 rdata bad Hw. unfold wb_stage, wb_csr_request, wb_has_trap. cbn.
  rewrite Hw, Hi. cbn. by rewrite !andb_false_r.
Qed.

(** ** Witnesses *)

(** [MRET] in supervisor mode. *)
Lemma decoder_privilege_witness :
  illegal_instr (sys_c (decoder 0x30200073 PRIV_MODE_S)) = true.
Proof.
  destruct (decoder_privilege 0x30200073 PRIV_MODE_S) as (_ & H & _); [split; vm_compute; congruence|].
  destruct (H eq_refl eq_refl) as (Hm & _). apply (Hm eq_refl). discriminate.
Defined.

(** The reset core with an [ECALL], resp. an [MRET] or [SRET], in write-back. *)
Definition core_with (f : sys_ctl) : core :=
  let c := core_reset in
  mk_core (c_pc c) (c_if_id c) (c_id_ex c) (c_ex_mem c)
    (mem_wb_reset <| wb_pc := 0x80000010 |> <| wb_sc := f |>) (c_regs c)
    (csr_reset <| mtvec_reg := 0x100 |> <| mepc_reg := 0x40 |> <| sepc_reg := 0x80 |>).

Definition idle_pins (external : bool) : core_in := mk_core_in 0 0 (mk_irq false false external).

Lemma core_with_ok f : is_bv 3 (csr_op f) -> core_ok (core_with f).
Proof.
  intros Hf. destruct core_reset_ok as [? ? ? ? [] ? ? Hs ?].
  split; try done. csr_open Hs. split; cbn; try done.
  by repeat (apply Forall_cons; [done|]).
Qed.

Lemma core_takes_exception_witness :
  mepc_reg (c_csr (core_next false (idle_pins true) (core_with (sys_ctl_nop <| is_ecall := true |>))))
    = 0x80000010.
Proof.
  destruct (core_takes_exception (idle_pins true) (core_with (sys_ctl_nop <| is_ecall := true |>))
    EXC_ECALL_FROM_M 0) as (_ & (H & _) & _); [by apply core_with_ok|reflexivity|reflexivity|exact H].
Defined.

(** The same core with machine interrupts enabled and the external line high. *)
Definition core_enabled : core :=
  let c := core_with sys_ctl_nop in
  mk_core (c_pc c) (c_if_id c) (c_id_ex c) (c_ex_mem c) (c_mem_wb c) (c_regs c)
    (c_csr c <| mstatus_reg := 8 |>).

Lemma core_enabled_ok : core_ok core_enabled.
Proof.
  destruct (core_with_ok sys_ctl_nop) as [? ? ? ? ? ? ? Hs ?]; [done|].
  split; try done; [|repeat constructor]. csr_open Hs. split; cbn; try done.
  by repeat (apply Forall_cons; [done|]).
Qed.

Lemma core_interrupt_commits_witness :
  mepc_reg (c_csr (core_next false (idle_pins true) core_enabled)) = 0x80000010 /\
  c_pc (core_next false (idle_pins true) core_enabled) = 0x100.
Proof.
  destruct (core_interrupt_commits (idle_pins true) core_enabled
    (Z.lor INTERRUPT_BIT INTERRUPT_M_EXTERNAL)) as (_ & (H1 & _) & [H2 _ _ _]);
    [apply core_enabled_ok|reflexivity|]. split; [exact H1|exact H2].
Defined.

Lemma core_flush_spares_ex_witness :
  mem_pc (c_ex_mem (core_next false (idle_pins false) (core_with (sys_ctl_nop <| is_ecall := true |>))))
    = 0.
Proof.
  destruct (core_flush_spares_ex (idle_pins false) (core_with (sys_ctl_nop <| is_ecall := true |>)))
    as (_ & _ & _ & H & _); [reflexivity|exact H].
Defined.

Lemma core_mret_returns_witness :
  c_pc (core_next false (idle_pins true) (core_with (sys_ctl_nop <| is_mret := true |>))) = 0x40.
Proof.
  destruct (core_mret_returns (idle_pins true) (core_with (sys_ctl_nop <| is_mret := true |>)))
    as ([H _ _ _] & _); [reflexivity|split_and!; reflexivity|exact H].
Defined.

Lemma core_sret_returns_witness :
  c_pc (core_next false (idle_pins true) (core_with (sys_ctl_nop <| is_sret := true |>))) = 0x80.
Proof.
  destruct (core_sret_returns (idle_pins true) (core_with (sys_ctl_nop <| is_sret := true |>)))
    as ([H _ _ _] & _); [reflexivity|split_and!; reflexivity|exact H].
Defined.
