(* ===== verification/TrapPrecision.v ===== *)
(** * Precision of traps, on programs run by the simulator of [tb_core.cc]

    Concrete programs that show what the flush controls of [richard_core] let through.  Each run
    holds for every power-on state of the registers. *)

From S2P Require Import Prelude Rv64Pkg Alu Decoder RegFile HazardUnit PipeRegs MemStage WbStage.
From S2P Require Import TrapCtrl CsrUnit Core Encode Bus ByteBus Memory CoreSim.
Open Scope Z_scope.

(** ** Running a program *)

(** Load [program] at the reset vector, reset for three cycles and run for [n]. *)
Definition boot (program : list Z) (power_on : core) : core_sim :=
  sim_reset 3 (new_sim power_on <| sim_mem := load_program RESET_PC program memory_empty |>).

Definition boot_run (program : list Z) (n : nat) (power_on : core) : core_sim :=
  sim_run n (boot program power_on).

Definition sim_reg (s : core_sim) (r : Z) : Z := reg_get (c_regs (top s)) r.
Definition sim_csr (s : core_sim) : csr := c_csr (top s).

(** ** Programs *)

(** An [ECALL] with two stores behind it. *)
Definition ecall_then_stores : list Z :=
  [ADDI 1 0 5; ECALL; SD 1 0 0x40; SD 1 0 0x48; SD 1 0 0x50; NOP; NOP; NOP; NOP].

(** A CSR read whose destination the next instruction uses. *)
Definition csr_read_then_use : list Z :=
  [ADDI 1 0 5] ++ emit_nops 4 ++ [CSRRW 0 CSR_MSCRATCH 1] ++ emit_nops 4 ++
  [CSRRS 2 CSR_MSCRATCH 0; ADDI 3 2 0] ++ emit_nops 8.

(** The same with an instruction in between. *)
Definition csr_read_then_wait : list Z :=
  [ADDI 1 0 5] ++ emit_nops 4 ++ [CSRRW 0 CSR_MSCRATCH 1] ++ emit_nops 4 ++
  [CSRRS 2 CSR_MSCRATCH 0; NOP; ADDI 3 2 0] ++ emit_nops 8.

(** One increment with interrupts enabled, and a handler that only returns. *)
Definition count_once : list Z :=
  emit_csrrw_imm64 1 CSR_MTVEC 0x100 ++ emit_csrrw_imm64 2 CSR_MSTATUS 8 ++ emit_nops 6 ++
  [ADDI 10 10 1] ++ emit_nops 10 ++ [JAL 0 0].

Definition return_handler : list Z := [NOP; MRET; NOP; NOP].

(** [count_once] with the external interrupt line high for one cycle after [n] cycles. *)
Definition interrupted_at (n : nat) (power_on : core) : core_sim :=
  let s := boot count_once power_on in
  let s := s <| sim_mem := load_program 0x100 return_handler (sim_mem s) |> in
  let s := set_interrupt_lines false false true (sim_run n s) in
  sim_run 30 (clear_interrupts (sim_tick false s)).

(** ** What the runs show *)

(** The operand EX takes from the instruction in MEM is its ALU result. *)
Lemma forward_from_mem c :
  reg_write_en (mem_wc (c_ex_mem c)) = true -> rd_addr (mem_wc (c_ex_mem c)) <> 0 ->
  rs1_addr (ex_dec (c_id_ex c)) = rd_addr (mem_wc (c_ex_mem c)) ->
  core_rs1_fwd c = mem_alu_result (c_ex_mem c).
Proof.
  intros Hw Hz Hr. unfold core_rs1_fwd, forward_sel, core_fwd_in, core_hu_in.
  cbn [hi_mem_reg_write_en hi_mem_rd_addr]. rewrite Hw, Hr, Z.eqb_refl.
  by rewrite (proj2 (Z.eqb_neq _ _) Hz).
Qed.

Lemma exception_lets_stores_through power_on :
  let s := boot_run ecall_then_stores 14 power_on in
  mcause_reg (sim_csr s) = EXC_ECALL_FROM_M /\ mepc_reg (sim_csr s) = add64 RESET_PC 4 /\
  read_data (sim_mem s) 0x40 = 5 /\ read_data (sim_mem s) 0x48 = 5 /\
  read_data (sim_mem s) 0x50 = 0.
Proof. vm_compute. auto. Qed.

Lemma csr_read_use_stale power_on :
  (let s := boot_run csr_read_then_use 24 power_on in sim_reg s 2 = 5 /\ sim_reg s 3 = 0) /\
  (let s := boot_run csr_read_then_wait 24 power_on in sim_reg s 2 = 5 /\ sim_reg s 3 = 5).
Proof. vm_compute. auto. Qed.

Lemma interrupt_not_transparent power_on :
  sim_reg (interrupted_at 26 power_on) 10 = 2 /\ sim_reg (interrupted_at 27 power_on) 10 = 1 /\
  sim_reg (interrupted_at 28 power_on) 10 = 2 /\
  mepc_reg (sim_csr (interrupted_at 41 power_on)) = 0.
Proof. vm_compute. auto. Qed.

(** C40: Traps and CSR reads are imprecise.
    (1) Of the stores behind an [ECALL] the first two reach memory although the exception is taken
    and [mepc] points at the [ECALL] in front of them; only the third is cancelled.
    (2) Every operand that EX takes from the instruction in MEM is its ALU result; so an
    instruction right behind a CSR read that uses its destination does not see the CSR value, while
    one instruction later the right value is forwarded from WB.
    (3) A program that increments a register once, interrupted by a handler that only executes
    [MRET], ends with the register incremented twice when the interrupt finds the increment in WB
    or in EX; taken when WB holds a bubble, an interrupt saves zero as the return address. *)
Theorem traps_imprecise power_on :
  (let s := boot_run ecall_then_stores 14 power_on in
   mcause_reg (sim_csr s) = EXC_ECALL_FROM_M /\ mepc_reg (sim_csr s) = add64 RESET_PC 4 /\
   read_data (sim_mem s) 0x40 = 5 /\ read_data (sim_mem s) 0x48 = 5 /\
   read_data (sim_mem s) 0x50 = 0) /\
  (forall c, reg_write_en (mem_wc (c_ex_mem c)) = true -> rd_addr (mem_wc (c_ex_mem c)) <> 0 ->
     rs1_addr (ex_dec (c_id_ex c)) = rd_addr (mem_wc (c_ex_mem c)) ->
     core_rs1_fwd c = mem_alu_result (c_ex_mem c)) /\
  ((let s := boot_run csr_read_then_use 24 power_on in sim_reg s 2 = 5 /\ sim_reg s 3 = 0) /\
   (let s := boot_run csr_read_then_wait 24 power_on in sim_reg s 2 = 5 /\ sim_reg s 3 = 5)) /\
  (sim_reg (interrupted_at 26 power_on) 10 = 2 /\ sim_reg (interrupted_at 27 power_on) 10 = 1 /\
   sim_reg (interrupted_at 28 power_on) 10 = 2 /\
   mepc_reg (sim_csr (interrupted_at 41 power_on)) = 0).
Proof.
  split; [apply exception_lets_stores_through|]. split; [exact forward_from_mem|].
  split; [apply csr_read_use_stale|apply interrupt_not_transparent].
Qed.
