(* ===== verification/Elf.v ===== *)
(** * ELF loader: [load_elf64] of [tb/compliance/compliance_runner.cc]

    The file's bytes are a list.  The C++ code overlays packed structures on the buffer; a field
    is read here at its offset, and a read past the end of the buffer, which C++ leaves
    undefined, is [None].  What the function prints is not modelled. *)

From stdpp Require Import gmap.
From Stdlib Require Import Strings.Byte String.
From S2P Require Import Prelude Encode Bus ByteBus Memory.
Open Scope Z_scope.

#[export] Instance byte_eq_dec : EqDecision byte := Byte.byte_eq_dec.

Record elf_symbols := mk_elf_symbols { begin_signature : Z; end_signature : Z; tohost : Z }.

#[global] Instance settable_elf_symbols : Settable elf_symbols :=
  fun s => mk_elf_symbols (begin_signature s) (end_signature s) (tohost s).

Definition no_symbols : elf_symbols := {| begin_signature := 0; end_signature := 0; tohost := 0 |}.

Definition PT_LOAD : Z := 1.
Definition SHT_SYMTAB : Z := 2.
Definition EHDR_SIZE : Z := 64.

(** [uint64_t] multiplication. *)
Definition mul64 (a b : Z) : Z := wrap 64 (a * b).

Section Loader.
Variable data : list byte.

Definition data_size : Z := Z.of_nat (length data).

(** [data[off]] *)
Definition data_at (off : Z) : option byte :=
  if (0 <=? off) && (off <? data_size) then data !! Z.to_nat off else None.

(** A little-endian field of [n] bytes. *)
Fixpoint field (n : nat) (off : Z) : option Z :=
  match n with
  | O => Some 0
  | S n => b ← data_at off; r ← field n (off + 1); Some (byte_val b + 256 * r)
  end.

(** *** [struct Elf64Ehdr] *)
Definition e_phoff : option Z := field 8 32.
Definition e_shoff : option Z := field 8 40.
Definition e_phentsize : option Z := field 2 54.
Definition e_phnum : option Z := field 2 56.
Definition e_shentsize : option Z := field 2 58.
Definition e_shnum : option Z := field 2 60.

(** *** [struct Elf64Phdr], at an offset *)
Definition p_type (off : Z) : option Z := field 4 off.
Definition p_offset (off : Z) : option Z := field 8 (off + 8).
Definition p_vaddr (off : Z) : option Z := field 8 (off + 16).
Definition p_paddr (off : Z) : option Z := field 8 (off + 24).
Definition p_filesz (off : Z) : option Z := field 8 (off + 32).
Definition p_memsz (off : Z) : option Z := field 8 (off + 40).

(** *** [struct Elf64Shdr] *)
Definition sh_type (off : Z) : option Z := field 4 (off + 4).
Definition sh_offset (off : Z) : option Z := field 8 (off + 24).
Definition sh_size (off : Z) : option Z := field 8 (off + 32).
Definition sh_link (off : Z) : option Z := field 4 (off + 40).
Definition sh_entsize (off : Z) : option Z := field 8 (off + 56).

(** *** [struct Elf64Sym] *)
Definition st_name (off : Z) : option Z := field 4 off.
Definition st_value (off : Z) : option Z := field 8 (off + 8).

(** *** Segments *)

(** [memory->write_byte(base + j, data[p_offset + j])], for [n] values of [j] from [j]. *)
Fixpoint copy_loop (n : nat) (j base offset : Z) (m : byte_memory) : option byte_memory :=
  match n with
  | O => Some m
  | S n =>
      b ← data_at (add64 offset j);
      copy_loop n (j + 1) base offset (write_byte m (add64 base j) b)
  end.

(** [memory->write_byte(base + j, 0)] *)
Fixpoint zero_loop (n : nat) (j base : Z) (m : byte_memory) : byte_memory :=
  match n with
  | O => m
  | S n => zero_loop n (j + 1) base (write_byte m (add64 base j) x00)
  end.

(** One iteration of the program-header loop: [false] is the early return. *)
Definition load_segment (off : Z) (m : byte_memory) : option (bool * byte_memory) :=
  ty ← p_type off;
  if negb (ty =? PT_LOAD) then Some (true, m)
  else
    offset ← p_offset off;
    filesz ← p_filesz off;
    if data_size <? add64 offset filesz then Some (false, m)
    else
      paddr ← p_paddr off;
      vaddr ← p_vaddr off;
      memsz ← p_memsz off;
      let base := if negb (paddr =? 0) then paddr else vaddr in
      m ← copy_loop (Z.to_nat filesz) 0 base offset m;
      Some (true, zero_loop (Z.to_nat (memsz - filesz)) filesz base m).

Fixpoint segment_loop (n : nat) (i phoff phentsize : Z) (m : byte_memory)
  : option (bool * byte_memory) :=
  match n with
  | O => Some (true, m)
  | S n =>
      '(ok, m) ← load_segment (add64 phoff (mul64 i phentsize)) m;
      if (ok : bool) then segment_loop n (i + 1) phoff phentsize m else Some (false, m)
  end.

(** *** Symbols *)

(** The bytes of a C string: up to the first NUL, [None] when there is none in the buffer. *)
Fixpoint c_string (l : list byte) : option (list byte) :=
  match l with
  | [] => None
  | b :: l => if Byte.eqb b x00 then Some [] else s ← c_string l; Some (b :: s)
  end.

Definition c_string_at (off : Z) : option (list byte) :=
  if (0 <=? off) && (off <? data_size) then c_string (drop (Z.to_nat off) data) else None.

Definition is_name (s : list byte) (name : string) : bool :=
  bool_decide (s = list_byte_of_string name).

Definition load_symbol (sym_off str_offset str_size : Z) (y : elf_symbols) : option elf_symbols :=
  name_off ← st_name sym_off;
  if str_size <=? name_off then Some y
  else
    name ← c_string_at (add64 str_offset name_off);
    if is_name name "begin_signature" then
      v ← st_value sym_off; Some (y <| begin_signature := v |>)
    else if is_name name "end_signature" then
      v ← st_value sym_off; Some (y <| end_signature := v |>)
    else if is_name name "tohost" then
      v ← st_value sym_off; Some (y <| tohost := v |>)
    else Some y.

Fixpoint symbol_loop (n : nat) (s tab_offset entsize str_offset str_size : Z) (y : elf_symbols)
  : option elf_symbols :=
  match n with
  | O => Some y
  | S n =>
      y ← load_symbol (add64 tab_offset (mul64 s entsize)) str_offset str_size y;
      symbol_loop n (s + 1) tab_offset entsize str_offset str_size y
  end.

(** One iteration of the section-header loop. *)
Definition load_section (off shoff shentsize shnum : Z) (y : elf_symbols) : option elf_symbols :=
  ty ← sh_type off;
  if negb (ty =? SHT_SYMTAB) then Some y
  else
    entsize ← sh_entsize off;
    if entsize =? 0 then Some y
    else
      offset ← sh_offset off;
      size ← sh_size off;
      if data_size <? add64 offset size then Some y
      else
        link ← sh_link off;
        if shnum <=? link then Some y
        else
          let str_off := add64 shoff (mul64 link shentsize) in
          str_offset ← sh_offset str_off;
          str_size ← sh_size str_off;
          if data_size <? add64 str_offset str_size then Some y
          else symbol_loop (Z.to_nat (size / entsize)) 0 offset entsize str_offset str_size y.

Fixpoint section_loop (n : nat) (i shoff shentsize shnum : Z) (y : elf_symbols)
  : option elf_symbols :=
  match n with
  | O => Some y
  | S n =>
      y ← load_section (add64 shoff (mul64 i shentsize)) shoff shentsize shnum y;
      section_loop n (i + 1) shoff shentsize shnum y
  end.

(** *** [load_elf64] *)

Definition magic_ok : bool := bool_decide (take 4 data = [x7f; x45; x4c; x46]).
Definition class_ok : bool := bool_decide (take 2 (drop 4 data) = [x02; x01]).

Definition load_symbols (y : elf_symbols) : option elf_symbols :=
  shoff ← e_shoff;
  shnum ← e_shnum;
  shentsize ← e_shentsize;
  let sh_end := add64 shoff (mul64 shnum shentsize) in
  if (shoff =? 0) || (shnum =? 0) || (data_size <? sh_end) then Some y
  else section_loop (Z.to_nat shnum) 0 shoff shentsize shnum y.

(** After the file has been read: the verdict, and the memory and symbols as far as they were
    filled in. *)
Definition load_elf64 (m : byte_memory) (y : elf_symbols)
  : option (bool * byte_memory * elf_symbols) :=
  if data_size <? EHDR_SIZE then Some (false, m, y)
  else if negb magic_ok then Some (false, m, y)
  else if negb class_ok then Some (false, m, y)
  else
    phoff ← e_phoff;
    phnum ← e_phnum;
    phentsize ← e_phentsize;
    if data_size <? add64 phoff (mul64 phnum phentsize) then Some (false, m, y)
    else
      '(ok, m) ← segment_loop (Z.to_nat phnum) 0 phoff phentsize m;
      if (ok : bool) then y ← load_symbols y; Some (true, m, y) else Some (false, m, y).
End Loader.

(** ** Fields *)

Section Fields.
Context (data : list byte).

Lemma data_at_some off : 0 <= off < data_size data -> is_Some (data_at data off).
Proof.
  intros H. unfold data_at. rewrite (proj2 (Z.leb_le 0 off)), (proj2 (Z.ltb_lt off _)) by lia.
  apply lookup_lt_is_Some. unfold data_size in H. cbn [andb]. lia.
Qed.

Lemma field_some n off : 0 <= off -> off + Z.of_nat n <= data_size data -> is_Some (field data n off).
Proof.
  revert off. induction n as [|n IH]; intros off H0 Hn; [by eexists|]. cbn [field].
  destruct (data_at_some off) as [b ->]; [lia|]. cbn.
  destruct (IH (off + 1)) as [r ->]; [lia..|]. by eexists.
Qed.

Lemma field_bv n off v : field data n off = Some v -> is_bv (8 * Z.of_nat n) v.
Proof.
  revert off v. induction n as [|n IH]; intros off v; cbn [field]; [intros [= <-]; done|].
  destruct (data_at data off) as [b|]; [|done]. cbn.
  destruct (field data n (off + 1)) as [r|] eqn:E; [|done]. cbn. intros [= <-].
  apply IH in E. pose proof (byte_val_bv b). unfold is_bv in *.
  replace (8 * Z.of_nat (S n)) with (8 * Z.of_nat n + 8) by lia. rewrite Z.pow_add_r by lia. lia.
Qed.

Lemma add64_small a b : 0 <= a + b < 2 ^ 64 -> add64 a b = a + b.
Proof. intros H. by apply wrap_small. Qed.
End Fields.

(** ** What the loader puts into memory *)

Section Image.
Context (data : list byte).

(** The byte the program header at [off] gives the address [a]: file contents, then zeros. *)
Definition segment_byte (off a : Z) : option Z :=
  ty ← p_type data off;
  if negb (ty =? PT_LOAD) then None
  else
    offset ← p_offset data off;
    filesz ← p_filesz data off;
    paddr ← p_paddr data off;
    vaddr ← p_vaddr data off;
    memsz ← p_memsz data off;
    let j := sub64 a (if negb (paddr =? 0) then paddr else vaddr) in
    if j <? filesz then byte_val <$> data_at data (add64 offset j)
    else if j <? memsz then Some 0 else None.

Lemma add64_sub64 base j a :
  is_bv 64 a -> is_bv 64 j -> add64 base j = a <-> j = sub64 a base.
Proof.
  unfold add64, sub64, wrap, is_bv. pow2_consts. intros Ha Hj.
  split; intros E; subst; Z.div_mod_to_equations; lia.
Qed.

Lemma copy_loop_read n j base offset m m' a :
  0 <= j -> j + Z.of_nat n <= 2 ^ 64 -> is_bv 64 a ->
  copy_loop data n j base offset m = Some m' ->
  read_byte m' a =
    let k := sub64 a base in
    if (j <=? k) && (k <? j + Z.of_nat n)
    then default 0 (byte_val <$> data_at data (add64 offset k)) else read_byte m a.
Proof.
  revert j m. induction n as [|n IH]; intros j m Hj Hn Ha; cbn [copy_loop].
  - intros [= <-]. cbv zeta. destruct (j <=? _) eqn:E1, (_ <? j + _) eqn:E2; reflect_bools; try done; lia.
  - destruct (data_at data (add64 offset j)) as [b|] eqn:Eb; [|done]. cbn. intros E.
    apply IH in E; [|lia..|done]. rewrite E. cbv zeta. set (k := sub64 a base) in *.
    rewrite read_write_byte.
    assert (Hk : add64 base j = a <-> j = k) by (apply add64_sub64; [done|unfold is_bv; lia]).
    destruct (decide (add64 base j = a)) as [Ej|Ej].
    + apply Hk in Ej. rewrite <- Ej. rewrite (proj2 (Z.leb_gt (j + 1) j)) by lia.
      rewrite Z.leb_refl, (proj2 (Z.ltb_lt j (j + Z.of_nat (S n)))) by lia. cbn [andb]. by rewrite Eb.
    + assert (j <> k) by tauto.
      replace (j + 1 + Z.of_nat n) with (j + Z.of_nat (S n)) by lia.
      replace (j + 1 <=? k) with (j <=? k); [done|].
      apply eq_true_iff_eq. rewrite !Z.leb_le. lia.
Qed.

Lemma zero_loop_read n j base m a :
  0 <= j -> j + Z.of_nat n <= 2 ^ 64 -> is_bv 64 a ->
  read_byte (zero_loop n j base m) a =
    let k := sub64 a base in
    if (j <=? k) && (k <? j + Z.of_nat n) then 0 else read_byte m a.
Proof.
  revert j m. induction n as [|n IH]; intros j m Hj Hn Ha; cbn [zero_loop].
  - cbv zeta. destruct (j <=? _) eqn:E1, (_ <? j + _) eqn:E2; reflect_bools; try done; lia.
  - rewrite IH by (done || lia). cbv zeta. set (k := sub64 a base) in *. rewrite read_write_byte.
    assert (Hk : add64 base j = a <-> j = k) by (apply add64_sub64; [done|unfold is_bv; lia]).
    replace (j + 1 + Z.of_nat n) with (j + Z.of_nat (S n)) by lia.
    destruct (decide (add64 base j = a)) as [Ej|Ej].
    + apply Hk in Ej. rewrite <- Ej. rewrite Z.leb_refl, (proj2 (Z.ltb_lt j (j + Z.of_nat (S n)))) by lia.
      by destruct (j + 1 <=? j).
    + assert (j <> k) by tauto. replace (j + 1 <=? k) with (j <=? k); [done|].
      apply eq_true_iff_eq. rewrite !Z.leb_le. lia.
Qed.

Lemma copy_loop_data n j base offset m m' k :
  copy_loop data n j base offset m = Some m' -> j <= k < j + Z.of_nat n ->
  is_Some (data_at data (add64 offset k)).
Proof.
  revert j m. induction n as [|n IH]; intros j m; cbn [copy_loop]; [lia|].
  destruct (data_at data (add64 offset j)) as [b|] eqn:Eb; [|done]. cbn. intros E Hk.
  destruct (Z.eq_dec k j) as [->|]; [by rewrite Eb|]. eapply IH; [exact E|lia].
Qed.

(** One program header. *)
Lemma load_segment_read off m m' a :
  is_bv 64 a -> load_segment data off m = Some (true, m') ->
  read_byte m' a = default (read_byte m a) (segment_byte off a).
Proof.
  intros Ha. unfold load_segment, segment_byte. destruct (p_type data off) as [ty|]; cbn [mbind option_bind]; [|intros [=]].
  destruct (negb (ty =? PT_LOAD)); [by intros [= <-]|].
  destruct (p_offset data off) as [offset|]; cbn [mbind option_bind]; [|intros [=]].
  destruct (p_filesz data off) as [filesz|] eqn:Ef; cbn [mbind option_bind]; [|intros [=]]. apply field_bv in Ef.
  destruct (data_size data <? _); [intros [=]|].
  destruct (p_paddr data off) as [paddr|]; cbn [mbind option_bind]; [|intros [=]].
  destruct (p_vaddr data off) as [vaddr|]; cbn [mbind option_bind]; [|intros [=]].
  destruct (p_memsz data off) as [memsz|] eqn:Em; cbn [mbind option_bind]; [|intros [=]]. apply field_bv in Em.
  set (base := if negb _ then paddr else vaddr).
  destruct (copy_loop _ _ _ _ _ _) as [m1|] eqn:Ec; cbn [mbind option_bind]; [|intros [=]]. intros [= <-].
  assert (Hk : is_bv 64 (sub64 a base)) by apply sub64_bv.
  change (8 * Z.of_nat 8) with 64 in *. unfold is_bv in Ef, Em, Hk.
  rewrite zero_loop_read by (done || lia). pose proof (copy_loop_data _ _ _ _ _ _ (sub64 a base) Ec) as Hd.
  rewrite (copy_loop_read (Z.to_nat filesz) 0 base offset m m1 a) by (done || lia). cbv zeta.
  set (k := sub64 a base) in *. rewrite (Z2Nat.id filesz) in * by lia. rewrite Z.add_0_l in *.
  rewrite (proj2 (Z.leb_le 0 k)) by lia. cbn [andb].
  destruct (k <? filesz) eqn:E1; reflect_bools.
  - rewrite (proj2 (Z.leb_gt filesz k)) by lia. cbn [andb].
    destruct Hd as [b ->]; [lia|]. done.
  - rewrite (proj2 (Z.leb_le filesz k)) by lia. cbn [andb].
    replace (k <? filesz + _) with (k <? memsz); [by destruct (k <? memsz)|].
    apply eq_true_iff_eq. rewrite !Z.ltb_lt. lia.
Qed.

(** The program-header loop: each address holds what the last header that covers it gives. *)
Lemma segment_loop_read n i phoff phentsize m m' a :
  is_bv 64 a -> segment_loop data n i phoff phentsize m = Some (true, m') ->
  let hdr k := add64 phoff (mul64 k phentsize) in
  (forall k v, i <= k < i + Z.of_nat n -> segment_byte (hdr k) a = Some v ->
     (forall l, k < l < i + Z.of_nat n -> segment_byte (hdr l) a = None) -> read_byte m' a = v) /\
  ((forall k, i <= k < i + Z.of_nat n -> segment_byte (hdr k) a = None) ->
   read_byte m' a = read_byte m a).
Proof.
  intros Ha. revert i m. induction n as [|n IH]; intros i m; cbn [segment_loop].
  { intros [= <-]. split; [intros; lia|done]. }
  destruct (load_segment data _ m) as [[ok m1]|] eqn:E; cbn [mbind option_bind]; [|intros [=]].
  destruct ok; [|intros [=]]. intros El. apply (load_segment_read _ _ _ a Ha) in E.
  destruct (IH _ _ El) as [H1 H2]. split.
  - intros k v Hk Hv Hlast. destruct (Z.eq_dec k i) as [->|].
    + rewrite H2; [by rewrite E, Hv|]. intros l Hl. apply Hlast. lia.
    + apply (H1 k); [lia|done|]. intros l Hl. apply Hlast. lia.
  - intros Hn. rewrite H2; [|intros k Hk; apply Hn; lia]. rewrite E. by rewrite Hn by lia.
Qed.
End Image.

(** ** Files the loader reads without leaving the buffer *)

Section Safety.
Context (data : list byte).

(** [size] bytes at [off] lie within the file. *)
Definition in_file (off size : Z) : Prop := 0 <= off /\ 0 <= size /\ off + size <= data_size data.

(** A table of [n] entries of at least [min] bytes each, with no wrap-around. *)
Definition table_ok (off n entsize min : Z) : Prop :=
  n = 0 \/ min <= entsize /\ off + n * entsize < 2 ^ 64.

(** The range a header gives for its contents does not wrap around. *)
Definition range_ok (off size : option Z) : Prop :=
  forall o s, off = Some o -> size = Some s -> o + s < 2 ^ 64.

(** A string table that is empty or ends with a NUL. *)
Definition strings_ok (off size : option Z) : Prop :=
  forall o s, off = Some o -> size = Some s -> s = 0 \/ data_at data (o + s - 1) = Some x00.

(** What the loader relies on in the headers it goes through. *)
Record elf_sane (phoff phnum phent shoff shnum shent : Z) : Prop := {
  sane_fields : e_phoff data = Some phoff /\ e_phnum data = Some phnum /\
    e_phentsize data = Some phent /\ e_shoff data = Some shoff /\ e_shnum data = Some shnum /\
    e_shentsize data = Some shent;
  sane_ph : table_ok phoff phnum phent 56;
  sane_segment i : 0 <= i < phnum ->
    range_ok (p_offset data (phoff + i * phent)) (p_filesz data (phoff + i * phent));
  sane_sh : table_ok shoff shnum shent 64;
  sane_symtab i ent : 0 <= i < shnum -> sh_type data (shoff + i * shent) = Some SHT_SYMTAB ->
    sh_entsize data (shoff + i * shent) = Some ent ->
    (ent = 0 \/ 24 <= ent) /\
    range_ok (sh_offset data (shoff + i * shent)) (sh_size data (shoff + i * shent));
  sane_strtab i link : 0 <= i < shnum -> sh_type data (shoff + i * shent) = Some SHT_SYMTAB ->
    sh_link data (shoff + i * shent) = Some link -> link < shnum ->
    range_ok (sh_offset data (shoff + link * shent)) (sh_size data (shoff + link * shent)) /\
    strings_ok (sh_offset data (shoff + link * shent)) (sh_size data (shoff + link * shent))
}.

(** Read the next field, which lies within the file. *)
Ltac next_field H :=
  match goal with
  | |- is_Some (mbind _ ?x) =>
      let v := fresh "v" in let E := fresh "E" in let B := fresh "B" in
      let S := fresh in
      assert (S : is_Some x) by (apply field_some; unfold in_file in H; lia);
      destruct S as [v E]; rewrite E; cbn [mbind option_bind]; pose proof (field_bv _ _ _ _ E) as B;
      cbn [Z.of_nat Pos.of_succ_nat Pos.succ Z.mul Pos.mul] in B; unfold is_bv in B
  end.

Lemma entry_offset off n ent min i :
  table_ok off n ent min -> 0 <= off -> 0 <= min -> 0 <= i < n ->
  add64 off (mul64 i ent) = off + i * ent /\ off + i * ent + ent <= off + n * ent /\
  min <= ent /\ 0 <= off + i * ent.
Proof.
  intros [->|[Hm Ht]] Ho Hmin Hi; [lia|]. assert (0 <= i * ent /\ (i + 1) * ent <= n * ent) by nia.
  unfold add64, mul64. rewrite (wrap_small 64 (i * ent)), wrap_small by (unfold is_bv; lia). lia.
Qed.

Lemma table_end off n ent min :
  table_ok off n ent min -> is_bv 64 off -> 0 <= n -> 0 <= min ->
  n = 0 \/ add64 off (mul64 n ent) = off + n * ent.
Proof.
  intros [->|[Hm Ht]] Ho Hn Hmin; [by left|right]. unfold is_bv in Ho.
  assert (0 <= n * ent) by nia. unfold add64, mul64.
  rewrite (wrap_small 64 (n * ent)), wrap_small by (unfold is_bv; lia). done.
Qed.

Lemma copy_loop_some n j base offset m :
  0 <= offset -> 0 <= j -> offset + j + Z.of_nat n <= data_size data -> offset + j + Z.of_nat n < 2 ^ 64 ->
  is_Some (copy_loop data n j base offset m).
Proof.
  revert j m. induction n as [|n IH]; intros j m Ho Hj Hn Hw; cbn [copy_loop]; [by eexists|].
  rewrite (add64_small offset j) by lia.
  destruct (data_at_some data (offset + j)) as [b ->]; [lia|]. cbn [mbind option_bind]. apply IH; lia.
Qed.

Lemma load_segment_some off m :
  in_file off 56 -> range_ok (p_offset data off) (p_filesz data off) ->
  is_Some (load_segment data off m).
Proof.
  intros Hf Hr. unfold load_segment. next_field Hf. case_bools; [by eexists|].
  next_field Hf. next_field Hf. specialize (Hr _ _ E0 E1).
  rewrite add64_small by lia.
  case_bools; [by eexists|]. next_field Hf. next_field Hf. next_field Hf.
  destruct (copy_loop_some (Z.to_nat v1) 0 (if negb (v2 =? 0) then v2 else v3) v0 m) as [m' Em];
    reflect_bools; try lia. rewrite Em. by eexists.
Qed.

(** A table entry within a table that ends within the file. *)
Lemma entry_in_file off n ent min i :
  table_ok off n ent min -> 0 <= off -> 0 <= min -> 0 <= i < n -> off + n * ent <= data_size data ->
  add64 off (mul64 i ent) = off + i * ent /\ in_file (off + i * ent) min.
Proof.
  intros Ht Ho Hm Hi He. destruct (entry_offset _ _ _ _ _ Ht Ho Hm Hi) as (H1 & H2 & H3 & H4).
  split; [done|]. unfold in_file. lia.
Qed.

Lemma segment_loop_some n i phoff phnum phent m :
  table_ok phoff phnum phent 56 -> 0 <= phoff -> phoff + phnum * phent <= data_size data ->
  0 <= i -> i + Z.of_nat n = phnum ->
  (forall k, 0 <= k < phnum ->
     range_ok (p_offset data (phoff + k * phent)) (p_filesz data (phoff + k * phent))) ->
  is_Some (segment_loop data n i phoff phent m).
Proof.
  intros Ht Ho He Hi Hn Hr. revert i m Hi Hn. induction n as [|n IH]; intros i m Hi Hn;
    cbn [segment_loop]; [by eexists|].
  destruct (entry_in_file _ _ _ _ i Ht) as [E Hf]; [lia..|]. rewrite E.
  destruct (load_segment_some (phoff + i * phent) m) as [[ok m'] ->]; [done|apply Hr; lia|].
  cbn [mbind option_bind]. destruct ok; [apply IH; lia | by eexists].
Qed.

(** A NUL somewhere ahead ends the string. *)
Lemma c_string_some l : x00 ∈ l -> is_Some (c_string l).
Proof.
  induction l as [|b l IH]; intros Hin; [by apply not_elem_of_nil in Hin|]. cbn [c_string].
  destruct (Byte.eqb b x00) eqn:E; [by eexists|].
  apply elem_of_cons in Hin as [<-|Hin]; [done|].
  destruct (IH Hin) as [s ->]. by eexists.
Qed.

Lemma c_string_at_some off k :
  0 <= off <= k -> data_at data k = Some x00 -> is_Some (c_string_at data off).
Proof.
  intros Hk Hd. unfold data_at in Hd. destruct (_ && _) eqn:E; [|done]. reflect_bools.
  unfold c_string_at. rewrite (proj2 (Z.leb_le 0 off)), (proj2 (Z.ltb_lt off _)) by lia.
  apply c_string_some, list_elem_of_lookup. exists (Z.to_nat (k - off)).
  rewrite lookup_drop. rewrite <- Hd. f_equal. lia.
Qed.

Lemma load_symbol_some off str_offset str_size y :
  in_file off 24 -> in_file str_offset str_size -> str_offset + str_size < 2 ^ 64 ->
  str_size = 0 \/ data_at data (str_offset + str_size - 1) = Some x00 ->
  is_Some (load_symbol data off str_offset str_size y).
Proof.
  intros Hf Hs Hw Hz. unfold load_symbol. next_field Hf.
  destruct (str_size <=? v) eqn:El; reflect_bools; [by eexists|].
  destruct Hz as [->|Hz]; [lia|]. unfold in_file in Hs. rewrite add64_small by lia.
  destruct (c_string_at_some (str_offset + v) (str_offset + str_size - 1)) as [name ->];
    [lia|done|].
  cbn [mbind option_bind]. case_bools; try next_field Hf; by eexists.
Qed.

Lemma symbol_loop_some n s tab entsize size str_offset str_size y :
  in_file tab size -> tab + size < 2 ^ 64 -> 24 <= entsize -> 0 <= s ->
  (s + Z.of_nat n) * entsize <= size ->
  in_file str_offset str_size -> str_offset + str_size < 2 ^ 64 ->
  str_size = 0 \/ data_at data (str_offset + str_size - 1) = Some x00 ->
  is_Some (symbol_loop data n s tab entsize str_offset str_size y).
Proof.
  intros Hf Hw He Hs Hn Hst Hsw Hz. unfold in_file in Hf.
  revert s y Hs Hn. induction n as [|n IH]; intros s y Hs Hn; cbn [symbol_loop]; [by eexists|].
  assert (0 <= s * entsize /\ (s + 1) * entsize <= (s + Z.of_nat (S n)) * entsize) by nia.
  assert (E : mul64 s entsize = s * entsize) by (apply wrap_small; unfold is_bv; lia).
  rewrite E, add64_small by lia.
  destruct (load_symbol_some (tab + s * entsize) str_offset str_size y) as [y' ->];
    [unfold in_file; lia|done..|].
  cbn [mbind option_bind]. apply IH; [lia|]. by replace (s + 1 + Z.of_nat n) with (s + Z.of_nat (S n)) by lia.
Qed.

Lemma load_section_some i shoff shnum shent y :
  table_ok shoff shnum shent 64 -> 0 <= shoff -> shoff + shnum * shent <= data_size data ->
  0 <= i < shnum ->
  (forall ent, sh_type data (shoff + i * shent) = Some SHT_SYMTAB ->
     sh_entsize data (shoff + i * shent) = Some ent ->
     (ent = 0 \/ 24 <= ent) /\
     range_ok (sh_offset data (shoff + i * shent)) (sh_size data (shoff + i * shent))) ->
  (forall link, sh_type data (shoff + i * shent) = Some SHT_SYMTAB ->
     sh_link data (shoff + i * shent) = Some link -> link < shnum ->
     range_ok (sh_offset data (shoff + link * shent)) (sh_size data (shoff + link * shent)) /\
     strings_ok (sh_offset data (shoff + link * shent)) (sh_size data (shoff + link * shent))) ->
  is_Some (load_section data (add64 shoff (mul64 i shent)) shoff shent shnum y).
Proof.
  intros Ht Ho He Hi Hsym Hstr. destruct (entry_in_file _ _ _ _ i Ht) as [Eo Hf]; [lia..|].
  rewrite Eo. unfold load_section. next_field Hf.
  destruct (v =? SHT_SYMTAB) eqn:Ety; cbn [negb]; [|by eexists]. reflect_bools. subst v.
  next_field Hf. destruct (Hsym v E E0) as [Hent Hr].
  destruct (v =? 0) eqn:Ez; [by eexists|]. reflect_bools.
  next_field Hf. next_field Hf. specialize (Hr _ _ E1 E2). rewrite add64_small by lia.
  destruct (_ <? v0 + v1) eqn:Efit; [by eexists|]. next_field Hf.
  destruct (shnum <=? v2) eqn:El; [by eexists|]. reflect_bools.
  destruct (Hstr v2 E E3 El) as [Hr2 Hz].
  destruct (entry_in_file _ _ _ _ v2 Ht) as [Es Hs]; [lia..|]. rewrite Es.
  next_field Hs. next_field Hs. specialize (Hr2 _ _ E4 E5). specialize (Hz _ _ E4 E5).
  rewrite add64_small by lia. destruct (_ <? v3 + v4) eqn:Efit2; [by eexists|]. reflect_bools.
  apply (symbol_loop_some _ _ _ _ v1); try done; try (unfold in_file; lia); try lia.
  rewrite Z2Nat.id by (apply Z.div_pos; lia). rewrite Z.add_0_l, Z.mul_comm.
  apply Z.mul_div_le. lia.
Qed.

Lemma section_loop_some n i shoff shnum shent y :
  table_ok shoff shnum shent 64 -> 0 <= shoff -> shoff + shnum * shent <= data_size data ->
  0 <= i -> i + Z.of_nat n = shnum ->
  (forall k y, 0 <= k < shnum ->
     is_Some (load_section data (add64 shoff (mul64 k shent)) shoff shent shnum y)) ->
  is_Some (section_loop data n i shoff shent shnum y).
Proof.
  intros Ht Ho He Hi Hn Hs. revert i y Hi Hn. induction n as [|n IH]; intros i y Hi Hn;
    cbn [section_loop]; [by eexists|].
  destruct (Hs i y) as [y' ->]; [lia|]. cbn [mbind option_bind]. apply IH; lia.
Qed.

Lemma load_symbols_some phoff phnum phent shoff shnum shent y :
  elf_sane phoff phnum phent shoff shnum shent -> is_Some (load_symbols data y).
Proof.
  intros [(_ & _ & _ & Eo & En & Es) _ _ Hsh Hsym Hstr].
  pose proof (field_bv _ _ _ _ Eo) as Bo. pose proof (field_bv _ _ _ _ En) as Bn.
  unfold is_bv in Bo, Bn.
  unfold load_symbols. rewrite Eo, En, Es. cbn [mbind option_bind].
  destruct (_ || _) eqn:E; [by eexists|]. apply orb_false_iff in E as [E0 E]. reflect_bools.
  destruct (table_end _ _ _ _ Hsh) as [|Hend]; [done|lia..|]. rewrite Hend in E.
  apply section_loop_some; try done; try lia.
  intros k y' Hk. apply load_section_some; try done; try lia; intros; eauto.
Qed.

Lemma load_elf64_some phoff phnum phent shoff shnum shent m y :
  elf_sane phoff phnum phent shoff shnum shent -> is_Some (load_elf64 data m y).
Proof.
  intros Hsane. pose proof (load_symbols_some _ _ _ _ _ _ y Hsane) as [y' Hy].
  destruct Hsane as [(Eo & En & Ee & _) Hph Hseg _ _ _].
  pose proof (field_bv _ _ _ _ Eo) as Bo. pose proof (field_bv _ _ _ _ En) as Bn.
  unfold is_bv in Bo, Bn.
  unfold load_elf64. do 3 (case_match; [by eexists|]). rewrite Eo, En, Ee. cbn [mbind option_bind].
  destruct (data_size data <? add64 _ _) eqn:E; [by eexists|]. reflect_bools.
  assert (Hl : is_Some (segment_loop data (Z.to_nat phnum) 0 phoff phent m)).
  { destruct (table_end _ _ _ _ Hph) as [->|Hend]; [done|lia..|by eexists|]. rewrite Hend in E.
    apply (segment_loop_some _ _ _ phnum); try done; lia. }
  destruct Hl as [[ok m'] ->]. cbn [mbind option_bind]. rewrite Hy. destruct ok; by eexists.
Qed.
End Safety.

(** ** A small executable, for the witnesses *)

Fixpoint le_bytes (n : nat) (v : Z) : list byte :=
  match n with
  | O => []
  | S n => to_byte v :: le_bytes n (Z.shiftr v 8)
  end.

Definition ehdr_bytes (phoff shoff phentsize phnum shnum : Z) : list byte :=
  [x7f; x45; x4c; x46; x02; x01] ++ le_bytes 10 0 ++ le_bytes 2 2 ++ le_bytes 2 243 ++
  le_bytes 4 1 ++ le_bytes 8 0x80000000 ++ le_bytes 8 phoff ++ le_bytes 8 shoff ++ le_bytes 4 0 ++
  le_bytes 2 64 ++ le_bytes 2 phentsize ++ le_bytes 2 phnum ++ le_bytes 2 64 ++
  le_bytes 2 shnum ++ le_bytes 2 1.

Definition phdr_bytes (type offset vaddr paddr filesz memsz : Z) : list byte :=
  le_bytes 4 type ++ le_bytes 4 5 ++ le_bytes 8 offset ++ le_bytes 8 vaddr ++ le_bytes 8 paddr ++
  le_bytes 8 filesz ++ le_bytes 8 memsz ++ le_bytes 8 8.

Definition shdr_bytes (type offset size link entsize : Z) : list byte :=
  le_bytes 4 0 ++ le_bytes 4 type ++ le_bytes 8 0 ++ le_bytes 8 0 ++ le_bytes 8 offset ++
  le_bytes 8 size ++ le_bytes 4 link ++ le_bytes 4 0 ++ le_bytes 8 8 ++ le_bytes 8 entsize.

(** One segment of eight bytes in the file and twelve in memory, and a symbol [tohost]. *)
Definition demo_elf : list byte :=
  ehdr_bytes 64 160 56 1 2 ++
  phdr_bytes 1 120 0x80000000 0 8 12 ++
  le_bytes 4 (ADDI 1 0 5) ++ le_bytes 4 NOP ++
  [x00] ++ list_byte_of_string "tohost" ++ [x00] ++
  le_bytes 4 1 ++ le_bytes 4 0 ++ le_bytes 8 0x80001000 ++ le_bytes 8 8 ++
  shdr_bytes 2 136 24 1 24 ++
  shdr_bytes 3 128 8 0 0.

(** A header whose one program header starts in the file's last byte. *)
Definition short_elf : list byte := ehdr_bytes 63 0 1 1 0.

(** ** Properties *)

(** C26: Segment loading.  When [load_elf64] succeeds, each address holds the byte given by the last
    program header that covers it (file contents up to [p_filesz], zero up to [p_memsz], placed
    at [p_paddr], or at [p_vaddr] when that is zero); an address no header covers keeps its
    contents. *)
Theorem load_elf64_image data m y m' y' phoff phnum phent a :
  load_elf64 data m y = Some (true, m', y') ->
  e_phoff data = Some phoff -> e_phnum data = Some phnum -> e_phentsize data = Some phent ->
  is_bv 64 a ->
  let hdr k := add64 phoff (mul64 k phent) in
  (forall k v, 0 <= k < phnum -> segment_byte data (hdr k) a = Some v ->
     (forall l, k < l < phnum -> segment_byte data (hdr l) a = None) -> read_byte m' a = v) /\
  ((forall k, 0 <= k < phnum -> segment_byte data (hdr k) a = None) ->
   read_byte m' a = read_byte m a).
Proof.
  intros Hl Eo En Ee Ha hdr. unfold load_elf64 in Hl. rewrite Eo, En, Ee in Hl.
  destruct (data_size data <? EHDR_SIZE); [done|]. destruct (negb (magic_ok data)); [done|].
  destruct (negb (class_ok data)); [done|]. cbn [mbind option_bind] in Hl.
  destruct (data_size data <? _); [done|].
  destruct (segment_loop data (Z.to_nat phnum) 0 phoff phent m) as [[[] m1]|] eqn:El; try done.
  cbn [mbind option_bind] in Hl. destruct (load_symbols data y) as [y1|]; [|done].
  injection Hl as <- _. apply (segment_loop_read _ _ _ _ _ _ _ _ Ha) in El.
  apply field_bv in En. unfold is_bv in En. rewrite Z2Nat.id in El by lia. exact El.
Qed.

(** C27: The loader stays within the file.  On a file whose program-header, section-header and symbol
    entries are at least as large as the structures read through them, whose offset-plus-size
    sums do not wrap around and whose string tables end with a NUL, no read leaves the buffer:
    the loader always returns a verdict. *)
Theorem load_elf64_safe data m y phoff phnum phent shoff shnum shent :
  elf_sane data phoff phnum phent shoff shnum shent -> is_Some (load_elf64 data m y).
Proof. apply load_elf64_some. Qed.

(** C28: Those conditions are not checked.  [load_elf64] accepts entry sizes smaller than the
    structures it reads: on a 64-byte file whose only program header is declared one byte long
    it passes the range check and then reads past the end of the buffer.  A file that is too
    short or has a wrong magic or class is rejected and nothing is loaded. *)
Theorem load_elf64_unchecked :
  (forall m y, load_elf64 short_elf m y = None) /\
  (forall data m y,
     data_size data < EHDR_SIZE \/ magic_ok data = false \/ class_ok data = false ->
     load_elf64 data m y = Some (false, m, y)).
Proof.
  split; [by intros; vm_compute|]. intros data m y H. unfold load_elf64.
  destruct (data_size data <? EHDR_SIZE) eqn:E; [done|]. reflect_bools.
  destruct H as [H|[->| ->]]; [lia|done|]. by destruct (magic_ok data).
Qed.

(** ** Witnesses *)

Lemma range_ok_eq off size o s : off = Some o -> size = Some s -> o + s < 2 ^ 64 -> range_ok off size.
Proof. by intros -> -> H o' s' [= <-] [= <-]. Qed.

Lemma strings_ok_eq data off size o s :
  off = Some o -> size = Some s -> data_at data (o + s - 1) = Some x00 -> strings_ok data off size.
Proof. intros -> -> H o' s' [= <-] [= <-]. by right. Qed.

Lemma demo_elf_sane : elf_sane demo_elf 64 1 56 160 2 64.
Proof.
  split; [by vm_compute|right; done| |right; done| |].
  - intros i Hi. assert (i = 0) as -> by lia. by eapply range_ok_eq; [vm_compute; reflexivity..|].
  - intros i ent Hi. assert (i = 0 \/ i = 1) as [-> | ->] by lia; intros Ht He; vm_compute in Ht, He; [|done].
    injection He as <-. split; [by right|]. by eapply range_ok_eq; [vm_compute; reflexivity..|].
  - intros i link Hi. assert (i = 0 \/ i = 1) as [-> | ->] by lia; intros Ht He; vm_compute in Ht, He; [|done].
    injection He as <-. intros _. split;
      [by eapply range_ok_eq; [vm_compute; reflexivity..|]
      |by eapply strings_ok_eq; vm_compute; reflexivity].
Qed.

Lemma load_elf64_safe_witness : is_Some (load_elf64 demo_elf ∅ no_symbols).
Proof. apply (load_elf64_safe demo_elf ∅ no_symbols 64 1 56 160 2 64). apply demo_elf_sane. Defined.

(** The memory the loader makes of it. *)
Definition demo_image : byte_memory :=
  match load_elf64 demo_elf ∅ no_symbols with Some (_, m, _) => m | None => ∅ end.

Definition demo_symbols : elf_symbols :=
  match load_elf64 demo_elf ∅ no_symbols with Some (_, _, y) => y | None => no_symbols end.

Lemma demo_elf_loads : load_elf64 demo_elf ∅ no_symbols = Some (true, demo_image, demo_symbols).
Proof.
  assert (H : match load_elf64 demo_elf ∅ no_symbols with Some (ok, _, _) => ok | None => false end
              = true) by (vm_compute; reflexivity).
  unfold demo_image, demo_symbols. revert H.
  destruct (load_elf64 demo_elf ∅ no_symbols) as [[[[] m] y]|]; done.
Qed.

Lemma load_elf64_image_witness :
  read_byte demo_image 0x80000000 = 0x93 /\ read_byte demo_image 0x8000000B = 0 /\
  read_byte demo_image 0x8000000C = 0.
Proof.
  pose proof (fun a => load_elf64_image demo_elf ∅ no_symbols demo_image demo_symbols 64 1 56 a
    demo_elf_loads eq_refl eq_refl eq_refl) as H.
  split; [|split].
  - apply (proj1 (H 0x80000000 ltac:(done)) 0); [lia|vm_compute; reflexivity|intros; lia].
  - apply (proj1 (H 0x8000000B ltac:(done)) 0); [lia|vm_compute; reflexivity|intros; lia].
  - rewrite (proj2 (H 0x8000000C ltac:(done))); [reflexivity|].
    intros k Hk. assert (k = 0) as -> by lia. vm_compute. reflexivity.
Defined.
