(* ===== verification/Compliance.v ===== *)
(** * The compliance runner: [tb/compliance/compliance_runner.cc]

    Command line, clock ticks, the [tohost] protocol, the signature file and the exit status.
    Opening files is outside the model: [read_file] is a parameter, and the lines of the
    signature file are the ones written when it can be opened.  Messages are not modelled. *)

From stdpp Require Import gmap.
From Stdlib Require Import String Ascii.
From S2P Require Import Prelude Encode PipeRegs MemStage TrapCtrl Core Bus ByteBus Memory SeqMachine Rv64Pkg Isa CoreIsa CoreInv Elf.
Open Scope Z_scope.

(** ** Command line *)

Record options := mk_options {
  max_cycles : Z;
  elf_path : string;
  signature_path : string;
  show_help : bool
}.

#[global] Instance settable_options : Settable options :=
  fun o => mk_options (max_cycles o) (elf_path o) (signature_path o) (show_help o).

Definition options_default : options :=
  {| max_cycles := 2000; elf_path := EmptyString; signature_path := EmptyString; show_help := false |}.

Definition is_space (c : ascii) : bool :=
  let n := nat_of_ascii c in (n =? 32)%nat || ((9 <=? n) && (n <=? 13))%nat.

Definition digit_of (c : ascii) : option Z :=
  let n := Z.of_nat (nat_of_ascii c) in if (48 <=? n) && (n <=? 57) then Some (n - 48) else None.

Fixpoint skip_spaces (l : list ascii) : list ascii :=
  match l with
  | c :: l' => if is_space c then skip_spaces l' else l
  | [] => []
  end.

(** The value of the leading digits, if there is one. *)
Fixpoint digits (l : list ascii) (acc : option Z) : option Z :=
  match l with
  | c :: l => match digit_of c with
              | Some d => digits l (Some (10 * default 0 acc + d))
              | None => acc
              end
  | [] => acc
  end.

(** [std::stoull]: [None] where it throws. *)
Definition stoull (s : string) : option Z :=
  let l := skip_spaces (list_ascii_of_string s) in
  let '(neg, l) := match l with
                   | "-"%char :: l => (true, l)
                   | "+"%char :: l => (false, l)
                   | _ => (false, l)
                   end in
  v ← digits l None;
  if v <? 2 ^ 64 then Some (if (neg : bool) then wrap 64 (- v) else v) else None.

(** The loop over [argv[1..]]. *)
Fixpoint parse_args (args : list string) (o : options) : option options :=
  match args with
  | [] => Some o
  | arg :: rest =>
      if (arg =? "--help")%string || (arg =? "-h")%string then parse_args rest (o <| show_help := true |>)
      else match rest with
           | [] => Some o
           | v :: rest' =>
               if (arg =? "--max-cycles")%string then
                 n ← stoull v; parse_args rest' (o <| max_cycles := n |>)
               else if (arg =? "--elf")%string then parse_args rest' (o <| elf_path := v |>)
               else if (arg =? "--signature")%string then parse_args rest' (o <| signature_path := v |>)
               else parse_args rest o
           end
  end.

(** *** Decimal numbers *)

Definition digit_char (d : Z) : ascii := ascii_of_nat (Z.to_nat (48 + d)).

(** The decimal digits of a number below [10^n], most significant first, in front of [rest]. *)
Fixpoint decimal_loop (n : nat) (v : Z) (rest : list ascii) : list ascii :=
  match n with
  | O => rest
  | S n =>
      let l := digit_char (v mod 10) :: rest in
      if v <? 10 then l else decimal_loop n (v / 10) l
  end.

Definition decimal (v : Z) : string := string_of_list_ascii (decimal_loop 40 v []).

(** The arguments that set every option. *)
Definition print_args (o : options) : list string :=
  (if show_help o then ["--help"%string] else []) ++
  ["--max-cycles"%string; decimal (max_cycles o); "--elf"%string; elf_path o;
   "--signature"%string; signature_path o].

Lemma digit_char_of d : 0 <= d < 10 -> digit_of (digit_char d) = Some d.
Proof.
  intros Hd. assert (d = 0 \/ d = 1 \/ d = 2 \/ d = 3 \/ d = 4 \/ d = 5 \/ d = 6 \/ d = 7 \/ d = 8 \/ d = 9)
    as Hc by lia. by repeat (destruct Hc as [->|Hc]; [reflexivity|]); subst.
Qed.

Lemma decimal_loop_digits n v rest :
  0 <= v < 10 ^ Z.of_nat n -> (0 < n)%nat ->
  digits (decimal_loop n v rest) None = digits rest (Some v).
Proof.
  revert v rest. induction n as [|n IH]; intros v rest Hv Hn; [lia|]. cbn [decimal_loop].
  rewrite Nat2Z.inj_succ, Z.pow_succ_r in Hv by lia.
  pose proof (Z.mod_pos_bound v 10 ltac:(lia)) as Hm.
  destruct (v <? 10) eqn:E; reflect_bools.
  - cbn [digits]. rewrite digit_char_of by done. cbn [default]. rewrite Z.mod_small by lia.
    by rewrite Z.add_0_l.
  - destruct n as [|n]; [change (10 ^ Z.of_nat 0) with 1 in Hv; lia|]. rewrite IH by (Z.div_mod_to_equations; lia).
    cbn [digits]. rewrite digit_char_of by done. cbn [from_option id]. do 2 f_equal. unfold id.
    Z.div_mod_to_equations; lia.
Qed.

(** A numeral starts with a digit: no space and no sign. *)
Lemma decimal_loop_head n v rest :
  (0 < n)%nat -> 0 <= v -> exists d l, decimal_loop n v rest = digit_char d :: l /\ 0 <= d < 10.
Proof.
  revert v rest. induction n as [|n IH]; intros v rest Hn Hv; [lia|]. cbn [decimal_loop].
  pose proof (Z.mod_pos_bound v 10 ltac:(lia)). destruct (v <? 10) eqn:E; [by do 2 eexists|].
  destruct n as [|n]; [by do 2 eexists|]. apply IH; [lia|]. apply Z.div_pos; lia.
Qed.

Lemma stoull_digits d l :
  0 <= d < 10 ->
  stoull (string_of_list_ascii (digit_char d :: l)) =
    (v ← digits (digit_char d :: l) None; if v <? 2 ^ 64 then Some v else None).
Proof.
  intros Hd. unfold stoull. rewrite list_ascii_of_string_of_list_ascii.
  assert (d = 0 \/ d = 1 \/ d = 2 \/ d = 3 \/ d = 4 \/ d = 5 \/ d = 6 \/ d = 7 \/ d = 8 \/ d = 9)
    as Hc by lia. by repeat (destruct Hc as [->|Hc]; [reflexivity|]); subst.
Qed.

Lemma stoull_decimal v :
  0 <= v < 10 ^ 40 -> stoull (decimal v) = if v <? 2 ^ 64 then Some v else None.
Proof.
  intros Hv. destruct (decimal_loop_head 40 v [] ltac:(lia) ltac:(lia)) as (d & l & E & Hd).
  pose proof (decimal_loop_digits 40 v [] Hv ltac:(lia)) as Hg. unfold decimal. rewrite E in *.
  rewrite stoull_digits by done. by rewrite Hg.
Qed.

(** C39: Command line.  Every setting of the runner's options can be given on the command line:
    parsing the arguments that print it returns it, for every cycle count of 64 bits, all paths,
    and with or without [--help].  A cycle count that needs more than 64 bits is an exception, and
    an option without its value, or an argument that is none, changes nothing. *)
Theorem parse_args_roundtrip o rest o0 :
  0 <= max_cycles o < 2 ^ 64 ->
  parse_args (print_args o) options_default = Some o /\
  (forall n, 2 ^ 64 <= n < 10 ^ 40 -> parse_args ("--max-cycles" :: decimal n :: rest)%string o0 = None) /\
  (forall arg, parse_args [arg] o0 =
     Some (if (arg =? "--help") || (arg =? "-h") then o0 <| show_help := true |> else o0)%string) /\
  (forall arg, ~ In arg ["--help"; "-h"; "--max-cycles"; "--elf"; "--signature"]%string ->
     parse_args (arg :: rest) o0 = parse_args rest o0).
Proof.
  intros Ho. split_and!.
  - destruct o as [n e g h]. unfold print_args. cbn [max_cycles elf_path signature_path show_help] in *.
    assert (E : forall o1, parse_args ["--max-cycles"; decimal n; "--elf"; e; "--signature"; g]%string o1 =
      Some (o1 <| max_cycles := n |> <| elf_path := e |> <| signature_path := g |>)).
    { intros o1. cbn -[stoull decimal]. rewrite stoull_decimal by lia.
      rewrite (proj2 (Z.ltb_lt n _)) by lia. reflexivity. }
    destruct h; cbn [app]; [|apply E].
    etransitivity; [apply (E (options_default <| show_help := true |>))|reflexivity].
  - intros n Hn. cbn -[stoull decimal]. rewrite stoull_decimal by lia.
    by rewrite (proj2 (Z.ltb_ge n _)) by lia.
  - intros arg. cbn [parse_args]. by destruct (_ || _)%string.
  - intros arg Ha. cbn [parse_args].
    assert (Hne : forall s, In s ["--help"; "-h"; "--max-cycles"; "--elf"; "--signature"]%string ->
      (arg =? s)%string = false) by (intros s Hs; apply String.eqb_neq; by intros ->).
    rewrite !Hne by (cbn; tauto). cbn [orb]. by destruct rest.
Qed.

(** ** Running *)

(** The core and its memory; [None] is a store whose shift C++ leaves undefined. *)
Abbreviation machine := (core * byte_memory)%type.

(** [tick] *)
Definition tick (rst : bool) (s : machine) : option machine := sys_tick rst irq_none s.

(** The store on the bus after a tick overlaps [tohost]: the word stored there. *)
Definition tohost_status (tohost_addr : Z) (s : machine) : option Z :=
  let o := core_outputs s.1 in
  if out_dmem_write_en o && negb (tohost_addr =? 0) then
    let addr := out_dmem_addr o in
    if (addr <=? add64 tohost_addr 3) && (tohost_addr <=? add64 addr 7)
    then Some (wrap 32 (Z.land (read_u64 s.2 tohost_addr) 0xFFFFFFFF))
    else None
  else None.

(** The verdict a status gives: 1 passes, 3 fails, anything else goes on. *)
Definition verdict (status : option Z) : option bool :=
  match status with
  | Some 1 => Some true
  | Some 3 => Some false
  | _ => None
  end.

(** The cycle loop: [None] in the result is a run that never saw [tohost]. *)
Fixpoint run_loop (n : nat) (tohost_addr : Z) (s : machine) : option (option bool * machine) :=
  match n with
  | O => Some (None, s)
  | S n =>
      s ← tick false s;
      match verdict (tohost_status tohost_addr s) with
      | Some pass => Some (Some pass, s)
      | None => run_loop n tohost_addr s
      end
  end.

(** ** Signature *)

Definition hex_digit (d : Z) : ascii :=
  default "0"%char (list_ascii_of_string "0123456789abcdef" !! Z.to_nat d).

(** [std::hex << std::setfill('0') << std::setw(n)] of a value of at most [n] digits. *)
Fixpoint hex (n : nat) (v : Z) (rest : list ascii) : list ascii :=
  match n with
  | O => rest
  | S n => hex n (Z.shiftr v 4) (hex_digit (v mod 16) :: rest)
  end.

Definition hex16 (v : Z) : string := string_of_list_ascii (hex 16 v []).

(** [for (off = 0; off + 8 <= bytes; off += 8)], [None] when the fuel runs out. *)
Fixpoint dump_loop (fuel : nat) (off bytes base : Z) (m : byte_memory) : option (list string) :=
  match fuel with
  | O => None
  | S fuel =>
      if add64 off 8 <=? bytes then
        l ← dump_loop fuel (add64 off 8) bytes base m;
        Some (hex16 (read_u64 m (add64 base off)) :: l)
      else Some []
  end.

(** [dump_signature], once the file is open: its lines. *)
Definition dump_signature (m : byte_memory) (y : elf_symbols) : option (list string) :=
  if (begin_signature y =? 0) || (end_signature y <=? begin_signature y) then Some ["00000000"%string]
  else
    let bytes := end_signature y - begin_signature y in
    dump_loop (S (Z.to_nat (bytes / 8))) 0 bytes (begin_signature y) m.

(** ** [main] *)

(** The file behind a path: [None] when it cannot be opened or read. *)
Section Main.
Context (read_file : string -> option (list Byte.byte)).

Definition load_file (path : string) : option (bool * byte_memory * elf_symbols) :=
  match read_file path with
  | None | Some [] => Some (false, ∅, no_symbols)
  | Some data => load_elf64 data ∅ no_symbols
  end.

(** From the end of reset: the exit status and the signature lines. *)
Definition run_loaded (o : options) (y : elf_symbols) (s : machine) : option (Z * list string) :=
  '(v, s) ← run_loop (Z.to_nat (max_cycles o)) (tohost y) s;
  sig ← (if (signature_path o =? EmptyString)%string then Some [] else dump_signature s.2 y);
  Some (match v with None => 3 | Some true => 0 | Some false => 1 end, sig).

(** [None] is an exception or undefined behaviour. *)
Definition run_elf (power_on : core) (o : options) : option (Z * list string) :=
  '(ok, m, y) ← load_file (elf_path o);
  if negb ok then Some (2, []) else s ← sys_reset 5 (power_on, m); run_loaded o y s.

Definition runner_main (power_on : core) (args : list string) : option (Z * list string) :=
  o ← parse_args args options_default;
  if show_help o then Some (0, [])
  else if (elf_path o =? EmptyString)%string then Some (0, [])
  else run_elf power_on o.
End Main.

(** ** The cycle loop *)

Definition quiet_irq : nat -> irq := fun _ => irq_none.

Lemma sys_run_cons {M} `{Bus M} n (s : core * M) :
  sys_run (S n) quiet_irq s = (s' ← sys_tick false irq_none s; sys_run n quiet_irq s').
Proof.
  induction n as [|n IH]; [cbn; by destruct (sys_tick _ _ _)|].
  change (sys_run (S (S n)) quiet_irq s) with (s' ← sys_run (S n) quiet_irq s; sys_tick false irq_none s').
  rewrite IH. by destruct (sys_tick false irq_none s).
Qed.

(** No tick from the first to the [n]-th gives a verdict. *)
Definition undecided (n : nat) (t : Z) (s : machine) : Prop :=
  forall i si, (1 <= i <= n)%nat -> sys_run i quiet_irq s = Some si -> verdict (tohost_status t si) = None.

(** Tick [n] is the first that gives a verdict, [b], and leaves the machine in [s']. *)
Definition decided_at (n : nat) (t : Z) (b : bool) (s s' : machine) : Prop :=
  sys_run n quiet_irq s = Some s' /\ verdict (tohost_status t s') = Some b /\
  undecided (n - 1) t s /\ (1 <= n)%nat.

Lemma undecided_cons n t s s1 :
  sys_tick false irq_none s = Some s1 -> verdict (tohost_status t s1) = None ->
  undecided n t s1 -> undecided (S n) t s.
Proof.
  intros Ht Hv Hu i si Hi Hr. destruct i as [|i]; [lia|]. rewrite sys_run_cons, Ht in Hr. cbn in Hr.
  destruct i as [|i]; [by injection Hr as <-|]. apply (Hu (S i)); [lia|done].
Qed.

Lemma run_loop_spec n t s v s' :
  run_loop n t s = Some (v, s') ->
  match v with
  | None => undecided n t s /\ sys_run n quiet_irq s = Some s'
  | Some b => exists i, (i <= n)%nat /\ decided_at i t b s s'
  end.
Proof.
  revert s. induction n as [|n IH]; intros s; cbn [run_loop].
  { intros [= <- <-]. split; [intros i si Hi; lia|done]. }
  unfold tick. destruct (sys_tick false irq_none s) as [s1|] eqn:Et; [|done]. cbn [mbind option_bind].
  destruct (verdict (tohost_status t s1)) as [b|] eqn:Ev.
  - intros [= <- <-]. exists 1%nat. split; [lia|].
    unfold decided_at. rewrite (sys_run_cons 0), Et.
    split_and!; [done|done|intros i si Hi; lia|lia].
  - intros Hr. specialize (IH _ Hr). destruct v as [b|].
    + destruct IH as (i & Hi & H1 & H2 & H3 & H4). exists (S i). split; [lia|].
      unfold decided_at. rewrite sys_run_cons, Et. split_and!; [done|done| |lia].
      replace (S i - 1)%nat with (S (i - 1)) by lia. by eapply undecided_cons.
    + destruct IH as [Hu Hs]. split; [by eapply undecided_cons|]. by rewrite sys_run_cons, Et.
Qed.

Lemma run_loop_no_tohost n s :
  run_loop n 0 s = (s' ← sys_run n quiet_irq s; Some (None, s')).
Proof.
  revert s. induction n as [|n IH]; intros s; [done|]. cbn [run_loop]. rewrite sys_run_cons.
  unfold tick. destruct (sys_tick false irq_none s) as [s1|]; [|done]. cbn [mbind option_bind].
  replace (tohost_status 0 s1) with (@None Z); [apply IH|].
  unfold tohost_status. by rewrite andb_false_r.
Qed.

(** ** The signature *)

(** Reading a line of hexadecimal digits. *)
Definition hex_value (c : ascii) : Z :=
  default 0 ((fun p : nat * ascii => Z.of_nat p.1) <$>
    list_find (fun d => d = c) (list_ascii_of_string "0123456789abcdef")).

Definition parse_hex (s : string) : Z :=
  fold_left (fun acc c => 16 * acc + hex_value c) (list_ascii_of_string s) 0.

Lemma hex_digit_value d : 0 <= d < 16 -> hex_value (hex_digit d) = d.
Proof.
  intros Hd. assert (H : Forall (fun d => hex_value (hex_digit d) = d) (seqZ 0 16)).
  { apply (bool_decide_unpack _). vm_compute. done. }
  apply (proj1 (Forall_forall _ _) H). apply list_elem_of_In, elem_of_seqZ. lia.
Qed.

Lemma hex_fold n v rest acc :
  0 <= v < 16 ^ Z.of_nat n ->
  fold_left (fun acc c => 16 * acc + hex_value c) (hex n v rest) acc =
  fold_left (fun acc c => 16 * acc + hex_value c) rest (16 ^ Z.of_nat n * acc + v).
Proof.
  revert v rest. induction n as [|n IH]; intros v rest Hv; cbn [hex].
  - f_equal. change (16 ^ Z.of_nat 0) with 1 in *. lia.
  - rewrite Nat2Z.inj_succ, Z.pow_succ_r in * by lia. rewrite Z.shiftr_div_pow2 by lia.
    change (2 ^ 4) with 16. rewrite IH by (Z.div_mod_to_equations; lia). cbn [fold_left].
    f_equal. rewrite hex_digit_value by (apply Z.mod_pos_bound; lia). Z.div_mod_to_equations; lia.
Qed.

Lemma hex16_parse v : is_bv 64 v -> parse_hex (hex16 v) = v.
Proof.
  intros Hv. unfold parse_hex, hex16. rewrite list_ascii_of_string_of_list_ascii, hex_fold; [cbn; lia|].
  exact Hv.
Qed.

(** The loop writes [bytes / 8] lines, one per doubleword. *)
Lemma dump_loop_spec fuel k off bytes base m :
  0 <= off -> off + 8 * Z.of_nat k <= bytes < off + 8 * Z.of_nat k + 8 -> bytes + 8 < 2 ^ 64 ->
  (k < fuel)%nat ->
  exists l, dump_loop fuel off bytes base m = Some l /\ length l = k /\
    forall i, (i < k)%nat -> l !! i = Some (hex16 (read_u64 m (add64 base (off + 8 * Z.of_nat i)))).
Proof.
  revert k off. induction fuel as [|fuel IH]; intros k off Ho Hb Hw Hf; [lia|]. cbn [dump_loop].
  assert (Hoff : add64 off 8 = off + 8) by (apply wrap_small; unfold is_bv; lia). rewrite Hoff.
  destruct (off + 8 <=? bytes) eqn:E; reflect_bools.
  - destruct k as [|k]; [lia|]. destruct (IH k (off + 8)) as (l & -> & Hl & Hi); [lia..|].
    eexists. split; [reflexivity|]. split; [by rewrite <- Hl|]. intros [|i] Hik; cbn [lookup list_lookup].
    + by rewrite Z.add_0_r.
    + rewrite Hi by lia. do 4 f_equal. lia.
  - replace k with 0%nat by lia. eexists. split_and!; [reflexivity|done|lia].
Qed.

Lemma read_u64_le m a : is_bv 64 a -> read_u64 m a = le_load 8 m a.
Proof. apply read_loop_0. Qed.

(** ** The status protocol *)

(** The machine has just stored within reach of [tohost] and the word there is [v]: the
    doubleword from the store's address on and the status word have a byte in common. *)
Definition reports (t v : Z) (s : machine) : Prop :=
  t <> 0 /\ out_dmem_write_en (core_outputs s.1) = true /\
  (exists k l, 0 <= k < 8 /\ 0 <= l < 4 /\ out_dmem_addr (core_outputs s.1) + k = t + l) /\
  le_load 4 s.2 t = v.

(** A [tohost] address whose neighbourhood does not wrap around the address space. *)
Definition tohost_ok (t : Z) : Prop := 0 <= t < 2 ^ 64 - 16.

Lemma window_overlap a t :
  tohost_ok t -> is_bv 64 a ->
  (a <=? add64 t 3) && (t <=? add64 a 7) = true <->
  exists k l, 0 <= k < 8 /\ 0 <= l < 4 /\ a + k = t + l.
Proof.
  unfold tohost_ok, is_bv. intros Ht Ha. rewrite andb_true_iff, !Z.leb_le.
  replace (add64 t 3) with (t + 3) by (symmetry; apply wrap_small; unfold is_bv; lia).
  split.
  - intros [H1 H2]. assert (Hw : add64 a 7 = a + 7) by (apply wrap_small; unfold is_bv; lia).
    rewrite Hw in H2. destruct (Z.le_ge_cases a t).
    + exists (t - a), 0. lia.
    + exists 0, (a - t). lia.
  - intros (k & l & Hk & Hl & E). assert (Hw : add64 a 7 = a + 7) by (apply wrap_small; unfold is_bv; lia).
    rewrite Hw. lia.
Qed.

Lemma status_word (m : byte_memory) t :
  is_bv 64 t -> wrap 32 (Z.land (read_u64 m t) 0xFFFFFFFF) = le_load 4 m t.
Proof.
  intros Ht. change 0xFFFFFFFF with (Z.ones 32). rewrite land_mask, wrap_wrap, read_u64_le by (done || lia).
  pose proof (le_load_sub 0 4 8 m t Ht ltac:(lia)) as E.
  change (2 ^ (8 * Z.of_nat 0)) with 1 in E. rewrite Z.div_1_r in E.
  change (2 ^ (8 * Z.of_nat 4)) with (2 ^ 32) in E. unfold wrap. rewrite E. f_equal.
  unfold add64. rewrite Z.add_0_r. by apply wrap_small.
Qed.

Lemma tohost_status_reports t v s :
  tohost_ok t -> is_bv 64 (out_dmem_addr (core_outputs s.1)) ->
  tohost_status t s = Some v <-> reports t v s.
Proof.
  intros Ht Ha. pose proof (window_overlap _ t Ht Ha) as Hw. unfold reports. rewrite <- Hw.
  unfold tohost_status. rewrite status_word by (unfold tohost_ok, is_bv in *; lia).
  destruct (out_dmem_write_en _), (Z.eqb_spec t 0), (_ && _); cbn [andb negb];
    split; intros; destruct_and?; simplify_eq; done.
Qed.

Lemma verdict_inv st b : verdict st = Some b <-> st = Some (if b then 1 else 3).
Proof.
  split; [|intros ->; by destruct b].
  unfold verdict. destruct st as [z|]; [|done]. destruct z as [|[[]| |]|]; by intros [= <-].
Qed.

(** Every state of a run keeps its registers within their widths. *)
Lemma run_core_ok n q m s : sys_run n q (core_reset, m) = Some s -> core_ok s.1.
Proof.
  revert s. induction n as [|n IH]; intros s Hr; [injection Hr as <-; apply core_reset_ok|].
  cbn [sys_run] in Hr. destruct (sys_run n q _) as [[c m']|] eqn:E; [|done].
  specialize (IH _ eq_refl). cbn [mbind option_bind fst] in Hr, IH. unfold sys_tick in Hr. cbn [fst snd] in Hr.
  destruct (bus_commit _ _) as [m2|]; [|done]. injection Hr as <-. cbn [fst].
  apply core_next_range; [|by right]. pose proof (ok_pc _ IH). unfold bus_inputs. split; cbn [in_imem_rdata in_dmem_rdata].
  - cbn [core_outputs out_imem_addr bus_fetch byte_memory_bus]. unfold read_u32.
    rewrite read_loop_0 by done. apply (le_load_bv 4).
  - destruct (out_dmem_read_en _); [|done]. cbn [bus_read byte_memory_bus].
    rewrite read_u64_le by (apply dword_base_bv; apply IH). apply (le_load_bv 8).
Qed.

Lemma run_verdict n q m s t b :
  tohost_ok t -> sys_run n q (core_reset, m) = Some s ->
  verdict (tohost_status t s) = Some b <-> reports t (if b then 1 else 3) s.
Proof.
  intros Ht Hr. rewrite verdict_inv. apply tohost_status_reports; [done|].
  apply (ok_mem_alu _ (ok_ex_mem _ (run_core_ok _ _ _ _ Hr))).
Qed.

Lemma run_no_verdict n q m s t :
  tohost_ok t -> sys_run n q (core_reset, m) = Some s ->
  verdict (tohost_status t s) = None <-> ~ reports t 1 s /\ ~ reports t 3 s.
Proof.
  intros Ht Hr. pose proof (run_verdict n q m s t true Ht Hr) as H1.
  pose proof (run_verdict n q m s t false Ht Hr) as H3.
  destruct (verdict _) as [[]|]; split; intros H; try done; try tauto;
    try (split; intros Hx; tauto || (apply H1 in Hx || apply H3 in Hx; done)).
Qed.

(** ** Properties *)

(** C25: Signature round trip.  For symbols that delimit a region, the signature file has one line
    per doubleword of the region, and reading line [i] back gives the eight bytes of memory at
    [begin_signature + 8 i], least significant first. *)
Theorem dump_signature_roundtrip m y :
  is_bv 64 (begin_signature y) -> begin_signature y <> 0 ->
  begin_signature y < end_signature y < 2 ^ 64 - 8 ->
  let n := (end_signature y - begin_signature y) / 8 in
  exists l, dump_signature m y = Some l /\ Z.of_nat (length l) = n /\
    forall i, 0 <= i < n ->
      parse_hex <$> l !! Z.to_nat i = Some (le_load 8 m (begin_signature y + 8 * i)).
Proof.
  intros Hb H0 He n. unfold dump_signature. rewrite (proj2 (Z.eqb_neq _ _) H0).
  rewrite (proj2 (Z.leb_gt (end_signature y) _)) by lia. cbn [orb]. fold n. unfold is_bv in Hb.
  assert (Hn : 8 * n <= end_signature y - begin_signature y < 8 * n + 8)
    by (unfold n; Z.div_mod_to_equations; lia).
  assert (0 <= n) by lia.
  destruct (dump_loop_spec (S (Z.to_nat n)) (Z.to_nat n) 0 (end_signature y - begin_signature y)
              (begin_signature y) m) as (l & -> & Hl & Hi); [lia..|].
  exists l. split_and!; [done|lia|]. intros i Hr. rewrite Hi by lia. cbn [fmap option_fmap option_map].
  rewrite Z2Nat.id, Z.add_0_l by lia. f_equal.
  assert (Ha : add64 (begin_signature y) (8 * i) = begin_signature y + 8 * i)
    by (apply wrap_small; unfold is_bv; lia).
  rewrite Ha, hex16_parse, read_u64_le; [done|unfold is_bv; lia|].
  rewrite read_u64_le by (unfold is_bv; lia). apply (le_load_bv 8).
Qed.

Lemma bind_some {A B} (f : A -> option B) x : (Some x ≫= f) = f x.
Proof. done. Qed.

Section Runner.
Context (read_file : string -> option (list Byte.byte)).

Lemma run_elf_inv power_on o m y :
  load_file read_file (elf_path o) = Some (true, m, y) ->
  run_elf read_file power_on o = run_loaded o y (core_reset, m).
Proof.
  intros Hl. unfold run_elf. rewrite Hl, bind_some. cbv beta iota delta [negb].
  rewrite (sys_reset_core 4), bind_some. reflexivity.
Qed.

(** Tick [i] of the run is the first that reports 1 or 3, and it reports [v]. *)
Definition first_report (i : nat) (t v : Z) (s0 s : machine) : Prop :=
  sys_run i quiet_irq s0 = Some s /\ reports t v s /\
  forall j sj, (1 <= j < i)%nat -> sys_run j quiet_irq s0 = Some sj ->
    ~ reports t 1 sj /\ ~ reports t 3 sj.

Lemma decided_first i t b m s :
  tohost_ok t -> decided_at i t b (core_reset, m) s ->
  first_report i t (if b then 1 else 3) (core_reset, m) s /\ (1 <= i)%nat.
Proof.
  intros Ht (Hr & Hv & Hu & Hi). split; [|done]. split; [done|]. split; [by eapply run_verdict|].
  intros j sj Hj Hrj. eapply run_no_verdict; [done..|]. apply (Hu j sj); [lia|done].
Qed.

(** C24: The exit status.  On a loaded file the machine starts from the reset state, whatever its
    power-on state.  The runner exits with 0 exactly when the first tick, among [max_cycles], that
    writes within reach of [tohost] and leaves 1 or 3 in the word there leaves 1; with 1 when that
    tick leaves 3; and with 3 when there is no such tick. *)
Theorem run_elf_status power_on o m y code sig :
  load_file read_file (elf_path o) = Some (true, m, y) -> tohost_ok (tohost y) ->
  run_elf read_file power_on o = Some (code, sig) ->
  let n := Z.to_nat (max_cycles o) in
  let s0 := (core_reset, m) in
  (code = 0 /\ exists i s, (1 <= i <= n)%nat /\ first_report i (tohost y) 1 s0 s) \/
  (code = 1 /\ exists i s, (1 <= i <= n)%nat /\ first_report i (tohost y) 3 s0 s) \/
  (code = 3 /\ forall i s, (1 <= i <= n)%nat -> sys_run i quiet_irq s0 = Some s ->
     ~ reports (tohost y) 1 s /\ ~ reports (tohost y) 3 s).
Proof.
  intros Hl Ht Hr n s0. rewrite (run_elf_inv _ _ _ _ Hl) in Hr. unfold run_loaded in Hr.
  destruct (run_loop _ _ _) as [[v s]|] eqn:E; [|done]. cbn [mbind option_bind] in Hr.
  destruct (if (signature_path o =? EmptyString)%string then _ else _) as [l|]; [|done].
  injection Hr as <- _. apply run_loop_spec in E. destruct v as [b|].
  - destruct E as (i & Hi & Hd). apply decided_first in Hd as [Hd H1]; [|done].
    destruct b; [left|right; left]; (split; [done|]); by exists i, s.
  - right; right. split; [done|]. intros i si Hi Hri. eapply run_no_verdict; [done..|].
    by apply (proj1 E i si).
Qed.

(** C22: A verdict is the program's.  When the loaded program runs on the instruction set for
    [max_cycles] steps without modifying its code, an exit status of 0 or 1 means that the
    instruction-set run itself executes, at one of those steps, a store instruction within reach
    of [tohost] after which the word there is 1 or 3, and that the signature is the dump of the
    memory that store leaves. *)
Theorem run_elf_pass_isa power_on o m y code sig s' :
  load_file read_file (elf_path o) = Some (true, m, y) -> tohost_ok (tohost y) ->
  run_elf read_file power_on o = Some (code, sig) -> code = 0 \/ code = 1 ->
  isa_run (Z.to_nat (max_cycles o)) (seq_init m) s' ->
  isa_code_stable (Z.to_nat (max_cycles o)) (seq_init m) ->
  exists p sp sj a k l, (p < Z.to_nat (max_cycles o))%nat /\ isa_run p (seq_init m) sp /\
    isa_store sp sj a /\ 0 <= k < 8 /\ 0 <= l < 4 /\ a + k = tohost y + l /\
    le_load 4 (s_mem sj) (tohost y) = (if code =? 0 then 1 else 3) /\
    (signature_path o <> EmptyString -> dump_signature (s_mem sj) y = Some sig).
Proof.
  intros Hl Ht Hr Hcode Hisa Hst. rewrite (run_elf_inv _ _ _ _ Hl) in Hr. unfold run_loaded in Hr.
  destruct (run_loop _ _ _) as [[v [c mj]]|] eqn:E; [|done]. cbn [mbind option_bind snd] in Hr.
  destruct (if (signature_path o =? EmptyString)%string then _ else _) as [l|] eqn:Es; [|done].
  injection Hr as Hv <-. destruct v as [b|]; [|lia]. apply run_loop_spec in E.
  destruct E as (i & Hi & Hd). apply decided_first in Hd as [(Hrun & Hrep & _) _]; [|done].
  destruct Hrep as (_ & Hw & (k & k' & Hk & Hk' & Hov) & Hval). cbn [fst snd] in *.
  destruct (isa_run_prefix_ex _ i _ _ Hi Hisa) as [si Hsi].
  destruct (core_writes_isa m i quiet_irq si c mj Hsi) as (p & sp & sj & Hp & Hsp & Hs & ->); [|done..|].
  { by eapply isa_code_stable_le. }
  exists p, sp, sj, (out_dmem_addr (core_outputs c)), k, k'. split_and!; try done; try lia.
  - rewrite Hval. destruct b; subst code; done.
  - intros Hp'. apply String.eqb_neq in Hp'. by rewrite Hp' in Es.
Qed.

(** C23: The signature is the program's.  A loaded program without a [tohost] symbol that reaches a
    jump to itself after [K] instruction-set steps, given at least [3 K + 8] cycles, makes the
    runner stop with status 3 and dump exactly the final memory of the instruction-set run. *)
Theorem run_elf_signature_isa power_on o m y sig K sK :
  load_file read_file (elf_path o) = Some (true, m, y) -> tohost y = 0 ->
  isa_run K (seq_init m) sK -> isa_step sK sK -> isa_code_stable K (seq_init m) ->
  (3 * K + 8 <= Z.to_nat (max_cycles o))%nat -> signature_path o <> EmptyString ->
  dump_signature (s_mem sK) y = Some sig ->
  run_elf read_file power_on o = Some (3, sig).
Proof.
  intros Hl Ht Hr Hfix Hst Hn Hp Hsig. rewrite (run_elf_inv _ _ _ _ Hl). unfold run_loaded.
  rewrite Ht, run_loop_no_tohost.
  destruct (core_finish_isa m K _ quiet_irq sK Hr Hfix Hst Hn) as (c & -> & _).
  rewrite !bind_some. cbn [snd]. apply String.eqb_neq in Hp. by rewrite Hp, Hsig, bind_some.
Qed.
End Runner.

(** ** A passing program, for the witnesses *)

Definition pass_program : list Z :=
  [ADDI 1 0 1; LUI 3 1; SD 1 3 0; JAL 0 0].

Definition pass_elf : list Byte.byte :=
  ehdr_bytes 64 247 56 1 2 ++
  phdr_bytes 1 120 RESET_PC 0 16 16 ++
  concat (map (le_bytes 4) pass_program) ++
  list_byte_of_string (String.concat (String zero EmptyString)
    [EmptyString; "tohost"; "begin_signature"; "end_signature"; EmptyString; EmptyString]%string) ++
  le_bytes 4 1 ++ le_bytes 4 0 ++ le_bytes 8 0x1000 ++ le_bytes 8 8 ++
  le_bytes 4 8 ++ le_bytes 4 0 ++ le_bytes 8 0x1000 ++ le_bytes 8 8 ++
  le_bytes 4 24 ++ le_bytes 4 0 ++ le_bytes 8 0x1010 ++ le_bytes 8 8 ++
  shdr_bytes 2 175 72 1 24 ++
  shdr_bytes 3 136 39 0 0.

Definition pass_file : string -> option (list Byte.byte) := fun _ => Some pass_elf.

Definition pass_options : options :=
  {| max_cycles := 20; elf_path := "pass.elf"; signature_path := "pass.sig"; show_help := false |}.

Definition pass_memory : byte_memory :=
  match load_file pass_file EmptyString with Some (_, m, _) => m | None => ∅ end.
Definition pass_symbols : elf_symbols := mk_elf_symbols 0x1000 0x1010 0x1000.

Lemma pass_loads : load_file pass_file (elf_path pass_options) = Some (true, pass_memory, pass_symbols).
Proof.
  assert (H : match load_file pass_file EmptyString with
              | Some (ok, _, y) => ok && (begin_signature y =? 0x1000) &&
                                   (end_signature y =? 0x1010) && (tohost y =? 0x1000)
              | None => false end = true) by (vm_compute; reflexivity).
  change (elf_path pass_options) with "pass.elf"%string.
  change (load_file pass_file "pass.elf") with (load_file pass_file EmptyString).
  unfold pass_memory. revert H. destruct (load_file pass_file EmptyString) as [[[ok m] [b e t]]|]; [|done].
  cbn [begin_signature end_signature tohost]. intros H. reflect_bools. by subst.
Qed.

Definition pass_trace : list instr :=
  [IOpImm ALU_ADD 1 0 1; ILui 3 1; IStore 3 1 3 0] ++ replicate 17 (IJal 0 0).

Definition pass_final : seq_state byte_memory :=
  default (seq_init pass_memory) (isa_exec_list pass_trace (seq_init pass_memory)).

Lemma pass_run : isa_run 20 (seq_init pass_memory) pass_final.
Proof. apply (isa_exec_list_run pass_trace). vm_compute. reflexivity. Qed.

Lemma pass_stable : isa_code_stable 20 (seq_init pass_memory).
Proof. apply code_stable_checked; [apply seq_init_ok|]. vm_compute. reflexivity. Qed.

Definition pass_lines : list string := ["0000000000000001"%string; "0000000000000000"%string].

Lemma pass_result : run_elf pass_file core_reset pass_options = Some (0, pass_lines).
Proof. vm_compute. reflexivity. Qed.

Lemma parse_args_roundtrip_witness :
  parse_args ["--max-cycles"; "20"; "--elf"; "pass.elf"; "--signature"; "pass.sig"]%string options_default
  = Some pass_options.
Proof.
  destruct (parse_args_roundtrip pass_options [] options_default) as [H _];
    [split; vm_compute; congruence|exact H].
Defined.

Lemma run_elf_status_witness :
  run_elf pass_file core_reset pass_options = Some (0, pass_lines) /\
  exists i s, (1 <= i <= 20)%nat /\ first_report i 0x1000 1 (core_reset, pass_memory) s.
Proof.
  split; [exact pass_result|].
  destruct (run_elf_status pass_file core_reset pass_options pass_memory pass_symbols 0 pass_lines
              pass_loads ltac:(split; vm_compute; congruence) pass_result)
    as [[_ H]|[[H _]|[H _]]]; [exact H|discriminate H..].
Defined.

Lemma run_elf_pass_isa_witness :
  exists p sp sj a, isa_run p (seq_init pass_memory) sp /\ isa_store sp sj a /\
    le_load 4 (s_mem sj) 0x1000 = 1.
Proof.
  destruct (run_elf_pass_isa pass_file core_reset pass_options pass_memory pass_symbols 0 pass_lines
              pass_final pass_loads ltac:(split; vm_compute; congruence) pass_result
              ltac:(left; reflexivity) pass_run pass_stable)
    as (p & sp & sj & a & k & l & _ & H1 & H2 & _ & _ & _ & H3 & _).
  exists p, sp, sj, a. split; [exact H1|split; [exact H2|exact H3]].
Defined.

Lemma dump_signature_roundtrip_witness :
  exists l, dump_signature pass_memory pass_symbols = Some l /\ Z.of_nat (length l) = 2.
Proof.
  destruct (dump_signature_roundtrip pass_memory pass_symbols) as (l & H1 & H2 & _);
    [split; vm_compute; congruence | discriminate | split; vm_compute; reflexivity |].
  exists l. split; [exact H1|exact H2].
Defined.

(** The same program without its symbols. *)
Definition silent_elf : list Byte.byte := firstn 136 pass_elf.
Definition silent_file : string -> option (list Byte.byte) :=
  fun _ => Some (ehdr_bytes 64 0 56 1 0 ++ skipn 64 silent_elf).

Definition silent_memory : byte_memory :=
  match load_file silent_file EmptyString with Some (_, m, _) => m | None => ∅ end.

Definition silent_options : options := pass_options <| elf_path := EmptyString |>.

Lemma silent_loads : load_file silent_file (elf_path silent_options) = Some (true, silent_memory, no_symbols).
Proof.
  assert (H : match load_file silent_file EmptyString with
              | Some (ok, _, y) => ok && (begin_signature y =? 0) && (end_signature y =? 0) &&
                                   (tohost y =? 0)
              | None => false end = true) by (vm_compute; reflexivity).
  change (elf_path silent_options) with EmptyString. unfold silent_memory. revert H.
  destruct (load_file silent_file EmptyString) as [[[ok m] [b e t]]|]; [|done].
  cbn [begin_signature end_signature tohost]. intros H. reflect_bools. by subst.
Qed.

Definition silent_final : seq_state byte_memory :=
  default (seq_init silent_memory) (isa_exec_list (firstn 3 pass_trace) (seq_init silent_memory)).

Lemma silent_run : isa_run 3 (seq_init silent_memory) silent_final.
Proof. apply (isa_exec_list_run (firstn 3 pass_trace)). vm_compute. reflexivity. Qed.

Lemma silent_fix : isa_step silent_final silent_final.
Proof.
  exists (IJal 0 0). split; [apply (bool_decide_unpack _); vm_compute; done|].
  split; vm_compute; reflexivity.
Qed.

Lemma silent_stable : isa_code_stable 3 (seq_init silent_memory).
Proof. apply code_stable_checked; [apply seq_init_ok|]. vm_compute. reflexivity. Qed.

Lemma run_elf_signature_isa_witness :
  run_elf silent_file core_reset silent_options = Some (3, ["00000000"%string]).
Proof.
  apply (run_elf_signature_isa silent_file core_reset silent_options silent_memory no_symbols _ 3
           silent_final); [exact silent_loads|reflexivity|exact silent_run|exact silent_fix
    |exact silent_stable|vm_compute; lia|discriminate|reflexivity].
Defined.
